(** * BEN background remover: tensor bookkeeping of [demo.py]

    A shallow embedding of the windowing, masking, patch merging, quadrant
    tiling and post-processing code of [src/demo.py].

    Conventions of the embedding.
    - A tensor is its [torch.Size] together with its elements in row-major
      (C-contiguous) order.  Every tensor is kept materialised, so
      [.contiguous()] is the identity and [permute] moves the elements.
    - Python integers are [Z]; [//] is [Z.div] and [%] is [Z.modulo] (both
      floor towards minus infinity, as in Python), each raising
      [ZeroDivisionError] on a zero divisor.  Sizes inside a [torch.Size]
      are [nat].
    - Python floats that only go through [/], [int()] and [ceil] are exact
      rationals ([Q]); rounding of the machine format is not modelled.
      The float32 mask of [postprocess_image] is the exception: its
      arithmetic rounds to binary32.
    - An exception is a value of [exn]; code that can raise lives in the
      [result] monad. *)

From Stdlib Require Import String Bool Arith ZArith Lia QArith Qround List.
From Stdlib Require DecimalString Reals Lra Floats.SpecFloat.
Import ListNotations.

Close Scope Q_scope.
Open Scope string_scope.
Open Scope nat_scope.
Open Scope list_scope.

(** ** Exceptions *)

Inductive exn : Type :=
| ZeroDivisionError
| AssertionError (msg : string)
| RuntimeError (msg : string)
| ValueError (msg : string)
| IndexError (msg : string)
| TypeError (msg : string)
| AttributeError (msg : string)
| EinopsError (msg : string).

Inductive result (A : Type) : Type :=
| Ok (a : A)
| Raise (e : exn).

Arguments Ok {A} a.
Arguments Raise {A} e.

Definition bind {A B : Type} (m : result A) (k : A -> result B) : result B :=
  match m with
  | Ok a => k a
  | Raise e => Raise e
  end.

Declare Scope result_scope.
Delimit Scope result_scope with result.
Notation "x <- m ;; k" := (bind m (fun x => k))
  (at level 61, m at next level, right associativity) : result_scope.
Notation "' p <- m ;; k" := (bind m (fun x => let p := x in k))
  (at level 61, p pattern, m at next level, right associativity) : result_scope.
Open Scope result_scope.

Definition assert (b : bool) (msg : string) : result unit :=
  if b then Ok tt else Raise (AssertionError msg).

Definition is_ok {A : Type} (m : result A) : bool :=
  match m with Ok _ => true | Raise _ => false end.

(** ** Python integer and float arithmetic *)

Definition floordiv (a b : Z) : result Z :=
  if (b =? 0)%Z then Raise ZeroDivisionError else Ok (a / b)%Z.

Definition pymod (a b : Z) : result Z :=
  if (b =? 0)%Z then Raise ZeroDivisionError else Ok (a mod b)%Z.

Definition Qis_zero (q : Q) : bool := (Qnum q =? 0)%Z.

(** [a / b] on floats. *)
Definition truediv (a b : Q) : result Q :=
  if Qis_zero b then Raise ZeroDivisionError else Ok (a / b)%Q.

(** [int(q)]: truncation towards zero. *)
Definition py_int (q : Q) : Z :=
  if Qle_bool 0%Q q then Qfloor q else Qceiling q.

(** ** Tensors *)

Class Default (A : Type) : Type := dflt : A.

#[global] Instance Default_Z : Default Z := 0%Z.
#[global] Instance Default_Q : Default Q := 0%Q.
#[global] Instance Default_nat : Default nat := 0%nat.

Record tensor (A : Type) : Type := mkT { shape : list nat; data : list A }.

Arguments mkT {A} shape data.
Arguments shape {A} t.
Arguments data {A} t.

Definition numel (s : list nat) : nat := fold_right Nat.mul 1 s.

Definition wf {A : Type} (t : tensor A) : Prop :=
  length (data t) = numel (shape t).

Definition wfb {A : Type} (t : tensor A) : bool :=
  length (data t) =? numel (shape t).

Definition zshape {A : Type} (t : tensor A) : list Z := map Z.of_nat (shape t).

(** Row-major offset of a multi-index, and its inverse. *)
Fixpoint ravel (s idx : list nat) : nat :=
  match s, idx with
  | _ :: s', i :: idx' => i * numel s' + ravel s' idx'
  | _, _ => 0
  end.

Fixpoint unravel (s : list nat) (k : nat) : list nat :=
  match s with
  | [] => []
  | _ :: s' => k / numel s' :: unravel s' (k mod numel s')
  end.

Definition in_range (idx s : list nat) : Prop := Forall2 lt idx s.

(** All multi-indices of a size, in row-major order. *)
Fixpoint indices (s : list nat) : list (list nat) :=
  match s with
  | [] => [[]]
  | d :: s' => flat_map (fun i => map (cons i) (indices s')) (seq 0 d)
  end.

Section Core.
Context {A : Type} {DA : Default A}.

Definition get (t : tensor A) (idx : list nat) : A :=
  nth (ravel (shape t) idx) (data t) dflt.

Definition tabulate (s : list nat) (f : list nat -> A) : tensor A :=
  mkT s (map f (indices s)).

Definition contiguous (t : tensor A) : tensor A := t.

(** [Tensor.view]: the size inference of [-1] follows PyTorch's
    [infer_size]: at most one [-1]; it is inferred when the product of the
    other sizes is positive and divides the element count; an element
    count of zero against a zero product is rejected as ambiguous. *)
Definition known_size (req : list Z) : nat :=
  fold_right (fun d acc => if (d =? -1)%Z then acc else Z.to_nat d * acc) 1 req.

Definition view (t : tensor A) (req : list Z) : result (tensor A) :=
  if existsb (fun d => (d <? -1)%Z) req then
    Raise (RuntimeError "invalid shape dimension")
  else
    let holes := count_occ Z.eq_dec req (-1)%Z in
    let newsize := known_size req in
    let n := numel (shape t) in
    if 1 <? holes then Raise (RuntimeError "only one dimension can be inferred")
    else if holes =? 0 then
      if n =? newsize then Ok (mkT (map Z.to_nat req) (data t))
      else Raise (RuntimeError "shape is invalid for input size")
    else if (n =? newsize) || ((0 <? newsize) && (n mod newsize =? 0)) then
      if newsize =? 0 then
        Raise (RuntimeError "the unspecified dimension size -1 is ambiguous")
      else
        Ok (mkT (map (fun d => if (d =? -1)%Z then n / newsize else Z.to_nat d) req)
                (data t))
    else Raise (RuntimeError "shape is invalid for input size").

(** [Tensor.permute(dims)]: axis [i] of the result is axis [dims[i]] of
    the input. *)
Definition is_perm (n : nat) (dims : list nat) : bool :=
  (length dims =? n) && forallb (fun a => existsb (Nat.eqb a) dims) (seq 0 n).

Fixpoint index_of (a : nat) (dims : list nat) : nat :=
  match dims with
  | [] => 0
  | d :: dims' => if d =? a then 0 else S (index_of a dims')
  end.

Definition permute_index (dims idx' : list nat) : list nat :=
  map (fun a => nth (index_of a dims) idx' 0) (seq 0 (length dims)).

Definition permute (t : tensor A) (dims : list nat) : result (tensor A) :=
  if is_perm (length (shape t)) dims then
    Ok (tabulate (map (fun a => nth a (shape t) 0) dims)
                 (fun idx' => get t (permute_index dims idx')))
  else Raise (RuntimeError "permute: dims do not match the tensor").

End Core.

(** ** Window partition and its inverse (demo.py, lines 52-62) *)

Section Windows.
Context {A : Type} {DA : Default A}.

Definition window_partition (x : tensor A) (window_size : Z) : result (tensor A) :=
  match zshape x with
  | [B; H; W; C] =>
      hq <- floordiv H window_size ;;
      wq <- floordiv W window_size ;;
      x <- view x [B; hq; window_size; wq; window_size; C] ;;
      x <- permute x [0; 1; 3; 2; 4; 5] ;;
      view (contiguous x) [-1; window_size; window_size; C]%Z
  | _ => Raise (ValueError "not enough values to unpack")
  end.

Definition window_reverse (windows : tensor A) (window_size H W : Z)
  : result (tensor A) :=
  match zshape windows with
  | n :: _ =>
      q1 <- truediv (inject_Z (H * W)) (inject_Z window_size) ;;
      q2 <- truediv q1 (inject_Z window_size) ;;
      q3 <- truediv (inject_Z n) q2 ;;
      let B := py_int q3 in
      hq <- floordiv H window_size ;;
      wq <- floordiv W window_size ;;
      x <- view windows [B; hq; wq; window_size; window_size; -1]%Z ;;
      x <- permute x [0; 1; 3; 2; 4; 5] ;;
      view (contiguous x) [B; H; W; -1]%Z
  | [] => Raise (ValueError "tuple index out of range")
  end.

End Windows.

(** ** einops.rearrange

    A pattern side is a list of groups; a group lists the elementary axes
    that one tensor axis is composed of, so [(hg h)] is [["hg"; "h"]] and
    the anonymous axis [1] is the empty group.  As in einops, the input is
    reshaped to its elementary axes, the axes are permuted into the order
    of the right-hand side and the result is reshaped to the composed
    sizes. *)

Definition axis_env : Type := list (string * nat).

Fixpoint lookup_axis (a : string) (env : axis_env) : option nat :=
  match env with
  | [] => None
  | (b, n) :: env' => if String.eqb a b then Some n else lookup_axis a env'
  end.

Definition axis_size (env : axis_env) (a : string) : nat :=
  match lookup_axis a env with Some n => n | None => 1 end.

Definition group_size (env : axis_env) (g : list string) : nat :=
  fold_right (fun a acc => axis_size env a * acc) 1 g.

(** Sizes of the elementary axes of one input axis of length [d]. *)
Definition infer_group (env : axis_env) (g : list string) (d : nat)
  : result axis_env :=
  let known := group_size env g in
  match filter (fun a => match lookup_axis a env with Some _ => false | None => true end) g with
  | [] =>
      if known =? d then Ok (map (fun a => (a, axis_size env a)) g)
      else Raise (EinopsError "shape mismatch")
  | [u] =>
      if known =? 0 then Raise ZeroDivisionError
      else if d mod known =? 0 then
        Ok (map (fun a => (a, if String.eqb a u then d / known else axis_size env a)) g)
      else Raise (EinopsError "can't divide axis")
  | _ => Raise (EinopsError "could not infer sizes")
  end.

Fixpoint infer_axes (env : axis_env) (lhs : list (list string)) (s : list nat)
  : result axis_env :=
  match lhs, s with
  | [], [] => Ok []
  | g :: lhs', d :: s' =>
      e <- infer_group env g d ;;
      es <- infer_axes env lhs' s' ;;
      Ok (e ++ es)
  | _, _ => Raise (EinopsError "wrong number of dimensions")
  end.

Fixpoint axis_position (a : string) (axes : list string) : option nat :=
  match axes with
  | [] => None
  | b :: axes' =>
      if String.eqb a b then Some 0
      else match axis_position a axes' with Some n => Some (S n) | None => None end
  end.

Fixpoint axis_positions (rhs_axes lhs_axes : list string) : result (list nat) :=
  match rhs_axes with
  | [] => Ok []
  | a :: rest =>
      match axis_position a lhs_axes with
      | Some n => ns <- axis_positions rest lhs_axes ;; Ok (n :: ns)
      | None => Raise (EinopsError "unknown axis on the right side")
      end
  end.

Section Rearrange.
Context {A : Type} {DA : Default A}.

(** [torch.reshape] to an explicit size. *)
Definition reshape_to (t : tensor A) (s : list nat) : result (tensor A) :=
  if numel (shape t) =? numel s then Ok (mkT s (data t))
  else Raise (RuntimeError "shape is invalid for input size").

Definition rearrange (x : tensor A) (lhs rhs : list (list string))
  (lengths : axis_env) : result (tensor A) :=
  sizes <- infer_axes lengths lhs (shape x) ;;
  perm <- axis_positions (concat rhs) (concat lhs) ;;
  _ <- (if length (concat rhs) =? length (concat lhs) then Ok tt
        else Raise (EinopsError "axes of the two sides differ")) ;;
  x <- reshape_to x (map snd sizes) ;;
  x <- permute x perm ;;
  reshape_to x (map (group_size sizes) rhs).

(** demo.py, lines 333-337. *)
Definition image2patches (x : tensor A) : result (tensor A) :=
  rearrange x [["b"]; ["c"]; ["hg"; "h"]; ["wg"; "w"]]
              [["hg"; "wg"; "b"]; ["c"]; ["h"]; ["w"]]
              [("hg", 2); ("wg", 2)].

Definition patches2image (x : tensor A) : result (tensor A) :=
  rearrange x [["hg"; "wg"; "b"]; ["c"]; ["h"]; ["w"]]
              [["b"]; ["c"]; ["hg"; "h"]; ["wg"; "w"]]
              [("hg", 2); ("wg", 2)].

End Rearrange.

(** ** Basic indexing, broadcasting and the other tensor primitives *)

(** One component of a subscript: a slice [start:stop:step], an integer, or
    [None] (a new axis). *)
Inductive index : Type :=
| Slice (start stop : option Z) (step : Z)
| At (i : Z)
| NewAxis.

Definition full : index := Slice None None 1.

(** Python's normalisation of a slice bound against a length. *)
Definition clamp_bound (len i : Z) : Z :=
  let i := if (i <? 0)%Z then (i + len)%Z else i in
  if (i <? 0)%Z then 0%Z else if (len <? i)%Z then len else i.

(** What a subscript component selects on an axis of the input. *)
Inductive sel : Type :=
| SRange (start step count : nat)
| SAt (i : nat)
| SNew.

Definition slice_sel (start stop : option Z) (step : Z) (d : nat) : result sel :=
  if (step <=? 0)%Z then Raise (ValueError "step must be greater than zero")
  else
    let len := Z.of_nat d in
    let a := match start with Some i => clamp_bound len i | None => 0%Z end in
    let b := match stop with Some i => clamp_bound len i | None => len end in
    let count := if (b <=? a)%Z then 0%Z else ((b - a + step - 1) / step)%Z in
    Ok (SRange (Z.to_nat a) (Z.to_nat step) (Z.to_nat count)).

Definition at_sel (i : Z) (d : nat) : result sel :=
  let len := Z.of_nat d in
  if ((i <? - len) || (len <=? i))%Z then Raise (IndexError "index out of range")
  else Ok (SAt (Z.to_nat (if (i <? 0)%Z then i + len else i)%Z)).

Fixpoint index_plan (ixs : list index) (s : list nat) : result (list sel) :=
  match ixs with
  | [] => Ok (map (fun d => SRange 0 1 d) s)
  | NewAxis :: ixs' => p <- index_plan ixs' s ;; Ok (SNew :: p)
  | Slice a b st :: ixs' =>
      match s with
      | d :: s' => x <- slice_sel a b st d ;; p <- index_plan ixs' s' ;; Ok (x :: p)
      | [] => Raise (IndexError "too many indices for tensor")
      end
  | At i :: ixs' =>
      match s with
      | d :: s' => x <- at_sel i d ;; p <- index_plan ixs' s' ;; Ok (x :: p)
      | [] => Raise (IndexError "too many indices for tensor")
      end
  end.

Definition plan_shape (p : list sel) : list nat :=
  flat_map (fun x => match x with SRange _ _ c => [c] | SAt _ => [] | SNew => [1] end) p.

(** Input multi-index read by an output multi-index. *)
Fixpoint plan_source (p : list sel) (idx : list nat) : list nat :=
  match p with
  | [] => []
  | SRange a st _ :: p' =>
      match idx with
      | i :: idx' => a + st * i :: plan_source p' idx'
      | [] => []
      end
  | SAt i :: p' => i :: plan_source p' idx
  | SNew :: p' => plan_source p' (tl idx)
  end.

(** Does the subscript select this input multi-index? *)
Fixpoint plan_selects (p : list sel) (idx : list nat) : bool :=
  match p with
  | [] => match idx with [] => true | _ => false end
  | SRange a st c :: p' =>
      match idx with
      | i :: idx' =>
          (a <=? i) && ((i - a) mod st =? 0) && ((i - a) / st <? c)
          && plan_selects p' idx'
      | [] => false
      end
  | SAt k :: p' =>
      match idx with
      | i :: idx' => (i =? k) && plan_selects p' idx'
      | [] => false
      end
  | SNew :: p' => plan_selects p' idx
  end.

(** Broadcast of two sizes, aligned on the right. *)
Fixpoint broadcast_rev (s1 s2 : list nat) : result (list nat) :=
  match s1, s2 with
  | [], _ => Ok s2
  | _, [] => Ok s1
  | d1 :: s1', d2 :: s2' =>
      r <- broadcast_rev s1' s2' ;;
      if d1 =? d2 then Ok (d1 :: r)
      else if d1 =? 1 then Ok (d2 :: r)
      else if d2 =? 1 then Ok (d1 :: r)
      else Raise (RuntimeError "the sizes of the tensors must match")
  end.

Definition broadcast_shape (s1 s2 : list nat) : result (list nat) :=
  r <- broadcast_rev (rev s1) (rev s2) ;; Ok (rev r).

(** Multi-index into an operand of size [s] for a multi-index of the
    broadcast result. *)
Definition broadcast_index (s idx : list nat) : list nat :=
  map (fun '(d, i) => if d =? 1 then 0 else i)
      (combine s (skipn (length idx - length s) idx)).

Definition normal_dim (dim : Z) (n : nat) : result nat :=
  let z := Z.of_nat n in
  if ((dim <? - z) || (z <=? dim))%Z then Raise (IndexError "dimension out of range")
  else Ok (Z.to_nat (if (dim <? 0)%Z then dim + z else dim)%Z).

Fixpoint foldM {S X : Type} (f : S -> X -> result S) (l : list X) (s : S) : result S :=
  match l with
  | [] => Ok s
  | x :: l' => s' <- f s x ;; foldM f l' s'
  end.

Fixpoint mapM {X Y : Type} (f : X -> result Y) (l : list X) : result (list Y) :=
  match l with
  | [] => Ok []
  | x :: l' => y <- f x ;; ys <- mapM f l' ;; Ok (y :: ys)
  end.

Section Primitives.
Context {A : Type} {DA : Default A}.

Definition getitem (t : tensor A) (ixs : list index) : result (tensor A) :=
  p <- index_plan ixs (shape t) ;;
  Ok (tabulate (plan_shape p) (fun idx => get t (plan_source p idx))).

(** In-place update of the selected elements: [t[ixs] = v] is
    [update_at t ixs (fun _ => v)] and [t[ixs] += c] is
    [update_at t ixs (fun x => x + c)]. *)
Definition update_at (t : tensor A) (ixs : list index) (f : A -> A)
  : result (tensor A) :=
  p <- index_plan ixs (shape t) ;;
  Ok (tabulate (shape t)
        (fun idx => if plan_selects p idx then f (get t idx) else get t idx)).

Definition full_of (s : list nat) (v : A) : tensor A := mkT s (repeat v (numel s)).

(** [torch.zeros(dims)] and friends check the requested sizes. *)
Definition checked_size (dims : list Z) : result (list nat) :=
  if existsb (fun d => (d <? 0)%Z) dims
  then Raise (RuntimeError "negative dimension")
  else Ok (map Z.to_nat dims).

Definition map_t {B : Type} (f : A -> B) (t : tensor A) : tensor B :=
  mkT (shape t) (map f (data t)).

Definition unsqueeze (t : tensor A) (dim : Z) : result (tensor A) :=
  k <- normal_dim dim (S (length (shape t))) ;;
  Ok (mkT (firstn k (shape t) ++ 1 :: skipn k (shape t)) (data t)).

(** [torch.flatten(t, start)]. *)
Definition flatten_from (t : tensor A) (start : nat) : tensor A :=
  mkT (firstn start (shape t) ++ [numel (skipn start (shape t))]) (data t).

(** [torch.stack(ts)] along a new leading axis. *)
Definition stack (ts : list (tensor A)) : result (tensor A) :=
  match ts with
  | [] => Raise (RuntimeError "stack expects a non-empty list")
  | t :: _ =>
      if forallb (fun u => if list_eq_dec Nat.eq_dec (shape u) (shape t)
                           then true else false) ts
      then Ok (mkT (length ts :: shape t) (concat (map data ts)))
      else Raise (RuntimeError "stack expects each tensor to be equal size")
  end.

(** [torch.meshgrid([a, b])] with the default ['ij'] indexing. *)
Definition meshgrid (a b : tensor A) : result (tensor A * tensor A) :=
  match shape a, shape b with
  | [n], [m] =>
      Ok (tabulate [n; m] (fun idx => get a [nth 0 idx 0]),
          tabulate [n; m] (fun idx => get b [nth 1 idx 0]))
  | _, _ => Raise (RuntimeError "meshgrid expects 1D tensors")
  end.

(** Reduction of the last axis. *)
Definition reduce_last (f : A -> A -> A) (unit : A) (t : tensor A)
  : result (tensor A) :=
  match rev (shape t) with
  | [] => Ok (mkT [] [fold_right f unit (data t)])
  | d :: rs =>
      Ok (tabulate (rev rs)
            (fun idx => fold_right f unit
                          (map (fun j => get t (idx ++ [j])) (seq 0 d))))
  end.

End Primitives.

Section Broadcast.
Context {A B C : Type} {DA : Default A} {DB : Default B} {DC : Default C}.

Definition broadcast2 (f : A -> B -> C) (a : tensor A) (b : tensor B)
  : result (tensor C) :=
  s <- broadcast_shape (shape a) (shape b) ;;
  Ok (tabulate s (fun idx => f (get a (broadcast_index (shape a) idx))
                               (get b (broadcast_index (shape b) idx)))).

End Broadcast.

#[global] Instance Default_bool : Default bool := false.

(** [torch.arange(n)]. *)
Definition arange (n : Z) : result (tensor Z) :=
  if (n <? 0)%Z then Raise (RuntimeError "upper bound and lower bound inconsistent")
  else Ok (mkT [Z.to_nat n] (map Z.of_nat (seq 0 (Z.to_nat n)))).

(** The 2D offset between positions [i] and [j] of a window that is [ww]
    wide: (row difference, column difference). *)
Definition rel_offset (ww i j : nat) : Z * Z :=
  ((Z.of_nat (i / ww) - Z.of_nat (j / ww))%Z,
   (Z.of_nat (i mod ww) - Z.of_nat (j mod ww))%Z).

(** ** Relative position index (WindowAttention.__init__, lines 74-83) *)

Definition relative_position_index_of (window_size : Z * Z) : result (tensor Z) :=
  coords_h <- arange (fst window_size) ;;
  coords_w <- arange (snd window_size) ;;
  grids <- meshgrid coords_h coords_w ;;
  coords <- stack [fst grids; snd grids] ;;
  let coords_flatten := flatten_from coords 1 in
  a <- getitem coords_flatten [full; full; NewAxis] ;;
  b <- getitem coords_flatten [full; NewAxis; full] ;;
  relative_coords <- broadcast2 Z.sub a b ;;
  relative_coords <- permute relative_coords [1; 2; 0] ;;
  let relative_coords := contiguous relative_coords in
  relative_coords <- update_at relative_coords [full; full; At 0]
                       (fun v => v + (fst window_size - 1))%Z ;;
  relative_coords <- update_at relative_coords [full; full; At 1]
                       (fun v => v + (snd window_size - 1))%Z ;;
  relative_coords <- update_at relative_coords [full; full; At 0]
                       (fun v => v * (2 * snd window_size - 1))%Z ;;
  reduce_last Z.add 0%Z relative_coords.

(** ** Scalars

    The element type of the floating-point tensors is a parameter: [Num]
    has the field operations, the literals and the comparison with zero;
    [Elementary] adds the functions torch applies elementwise.  Exact
    instances are the rationals (for [Num]) and the real numbers. *)

Class Num (A : Type) : Type := {
  of_Q : Q -> A;
  add : A -> A -> A;
  sub : A -> A -> A;
  mul : A -> A -> A;
  div : A -> A -> A;
  is_zero : A -> bool
}.

Class Elementary (A : Type) : Type := {
  exp : A -> A;
  sqrt : A -> A;
  gelu : A -> A;
  sin : A -> A;
  cos : A -> A;
  (** [pow x q] is [x ** q] for a float exponent. *)
  pow : A -> Q -> A
}.

#[global] Instance Default_Num {A : Type} {NA : Num A} : Default A := @of_Q A NA 0%Q.

#[global] Instance Num_Q : Num Q := {|
  of_Q := fun q => q;
  add := Qplus;
  sub := Qminus;
  mul := Qmult;
  div := Qdiv;
  is_zero := Qis_zero
|}.

Definition of_Z {A : Type} {NA : Num A} (z : Z) : A := of_Q (inject_Z z).

(** The real numbers as scalars.  GELU is [x * Phi(x)], with the Gauss
    error function as an integral. *)
Module RealScalar.
Import Reals.
Local Open Scope R_scope.

Definition gauss (t : R) : R := Rtrigo_def.exp (- (t * t)).

Definition gauss_continuous : continuity gauss.
Proof. unfold gauss. reg. Defined.

Definition gauss_integrable (a b : R) : Riemann_integrable gauss a b :=
  match Rle_dec a b with
  | left H => continuity_implies_RiemannInt H (fun x _ => gauss_continuous x)
  | right H =>
      RiemannInt_P1
        (continuity_implies_RiemannInt (Rlt_le _ _ (Rnot_le_lt _ _ H))
           (fun x _ => gauss_continuous x))
  end.

Definition erf (x : R) : R :=
  2 / R_sqrt.sqrt PI * RiemannInt (gauss_integrable 0 x).

Definition gelu_formula (x : R) : R := x * / 2 * (1 + erf (x / R_sqrt.sqrt 2)).

Definition is_zero_formula (x : R) : bool := if Req_dec_T x 0 then true else false.

Definition pow_formula (x : R) (q : Q) : R := Rpower x (Q2R q).

(** The operations are sealed: they are equal to the functions of the
    real-number library (the [_eq] lemmas below) and do not unfold into
    the construction of the real numbers when a model is evaluated. *)
Definition sealed {X : Type} (x : X) : {y : X | y = x}.
Proof. exists x. reflexivity. Qed.

Definition Rexp : R -> R := proj1_sig (sealed Rtrigo_def.exp).
Definition Rroot : R -> R := proj1_sig (sealed R_sqrt.sqrt).
Definition Rsin : R -> R := proj1_sig (sealed Rtrigo_def.sin).
Definition Rcos : R -> R := proj1_sig (sealed Rtrigo_def.cos).
Definition Rpow : R -> Q -> R := proj1_sig (sealed pow_formula).
Definition Rgelu : R -> R := proj1_sig (sealed gelu_formula).
Definition Ris_zero : R -> bool := proj1_sig (sealed is_zero_formula).

End RealScalar.

#[global] Instance Num_R : Num Rdefinitions.R := {|
  of_Q := Rdefinitions.Q2R;
  add := Rdefinitions.Rplus;
  sub := Rdefinitions.Rminus;
  mul := Rdefinitions.Rmult;
  div := Rdefinitions.Rdiv;
  is_zero := RealScalar.Ris_zero
|}.

#[global] Instance Elementary_R : Elementary Rdefinitions.R := {|
  exp := RealScalar.Rexp;
  sqrt := RealScalar.Rroot;
  gelu := RealScalar.Rgelu;
  sin := RealScalar.Rsin;
  cos := RealScalar.Rcos;
  pow := RealScalar.Rpow
|}.

Section Numeric.
Context {A : Type} {NA : Num A} {EA : Elementary A}.

Definition sum_list (l : list A) : A := fold_right add (of_Q 0%Q) l.

Definition zeros (dims : list Z) : result (tensor A) :=
  s <- checked_size dims ;; Ok (full_of s (of_Q 0%Q)).

(** [Tensor.transpose(d0, d1)]. *)
Definition transpose (t : tensor A) (d0 d1 : Z) : result (tensor A) :=
  let n := length (shape t) in
  a <- normal_dim d0 n ;;
  b <- normal_dim d1 n ;;
  permute t (map (fun i => if i =? a then b else if i =? b then a else i) (seq 0 n)).

(** [torch.matmul] of two tensors of rank at least two; the leading
    (batch) sizes broadcast. *)
Definition matmul (a b : tensor A) : result (tensor A) :=
  match rev (shape a), rev (shape b) with
  | m :: n :: ra, p :: m' :: rb =>
      if m =? m' then
        batch <- broadcast_shape (rev ra) (rev rb) ;;
        let nb := length batch in
        Ok (tabulate (batch ++ [n; p])
              (fun idx =>
                 let bi := firstn nb idx in
                 let i := nth nb idx 0 in
                 let j := nth (S nb) idx 0 in
                 sum_list
                   (map (fun k =>
                           mul (get a (broadcast_index (rev ra) bi ++ [i; k]))
                               (get b (broadcast_index (rev rb) bi ++ [k; j])))
                        (seq 0 m))))
      else Raise (RuntimeError "mat1 and mat2 shapes cannot be multiplied")
  | _, _ => Raise (RuntimeError "matmul: both arguments need two dimensions")
  end.

(** Apply [f] to every vector along the last axis, of length [d]; [f]
    gives the vector's new entries, [d'] of them. *)
Definition along_last (d' : nat) (f : list A -> nat -> A) (t : tensor A)
  : result (tensor A) :=
  match rev (shape t) with
  | d :: rs =>
      Ok (tabulate (rev rs ++ [d'])
            (fun idx =>
               let pre := removelast idx in
               f (map (fun k => get t (pre ++ [k])) (seq 0 d)) (last idx 0)))
  | [] => Raise (IndexError "dimension out of range")
  end.

(** [softmax(dim=-1)]. *)
Definition softmax (t : tensor A) : result (tensor A) :=
  along_last (last (shape t) 0)
    (fun row j => div (exp (nth j row dflt)) (sum_list (map exp row))) t.

(** *** nn.Linear *)

Record Linear : Type := {
  lin_weight : tensor A;
  lin_bias : option (tensor A)
}.

(** Values of the learned parameters: the element at a flat position of
    the parameter of a given name (its initial or its loaded value). *)
Definition params : Type := string -> nat -> A.

Definition new_param (ps : params) (name : string) (dims : list Z)
  : result (tensor A) :=
  s <- checked_size dims ;;
  Ok (mkT s (map (ps name) (seq 0 (numel s)))).

Definition Linear_init (ps : params) (name : string)
  (in_features out_features : Z) (bias : bool) : result Linear :=
  w <- new_param ps (name ++ ".weight") [out_features; in_features] ;;
  if bias then
    b <- new_param ps (name ++ ".bias") [out_features] ;;
    Ok {| lin_weight := w; lin_bias := Some b |}
  else Ok {| lin_weight := w; lin_bias := None |}.

Definition Linear_forward (m : Linear) (x : tensor A) : result (tensor A) :=
  match shape (lin_weight m) with
  | [o; i] =>
      if last (shape x) 0 =? i then
        along_last o
          (fun row j =>
             let dot := sum_list
                          (map (fun k => mul (nth k row dflt) (get (lin_weight m) [j; k]))
                               (seq 0 i)) in
             match lin_bias m with
             | Some b => add dot (get b [j])
             | None => dot
             end) x
      else Raise (RuntimeError "mat1 and mat2 shapes cannot be multiplied")
  | _ => Raise (RuntimeError "linear: weight must be a matrix")
  end.

(** *** nn.LayerNorm over the last axis *)

Record LayerNorm : Type := {
  ln_size : nat;
  ln_weight : tensor A;
  ln_bias : tensor A;
  ln_eps : A
}.

Definition LayerNorm_init (ps : params) (name : string) (normalized_shape : Z)
  : result LayerNorm :=
  w <- new_param ps (name ++ ".weight") [normalized_shape] ;;
  b <- new_param ps (name ++ ".bias") [normalized_shape] ;;
  Ok {| ln_size := Z.to_nat normalized_shape; ln_weight := w; ln_bias := b;
        ln_eps := of_Q (1 # 100000) |}.

Definition mean (l : list A) : A := div (sum_list l) (of_Z (Z.of_nat (length l))).

Definition LayerNorm_forward (m : LayerNorm) (x : tensor A) : result (tensor A) :=
  match rev (shape x) with
  | d :: _ =>
      if d =? ln_size m then
        along_last d
          (fun row j =>
             let mu := mean row in
             let var := mean (map (fun v => mul (sub v mu) (sub v mu)) row) in
             add (mul (div (sub (nth j row dflt) mu) (sqrt (add var (ln_eps m))))
                      (get (ln_weight m) [j]))
                 (get (ln_bias m) [j])) x
      else Raise (RuntimeError "input does not end with the normalized shape")
  | [] => Raise (RuntimeError "input does not end with the normalized shape")
  end.

(** [nn.Dropout] and [DropPath]: the model is run in evaluation mode
    ([BEN_Base().eval()]), where both are the identity. *)
Definition Dropout_forward (x : tensor A) : tensor A := x.

(** *** Mlp (lines 34-50), with the default activation [nn.GELU] *)

Record Mlp : Type := { fc1 : Linear; fc2 : Linear }.

Definition Mlp_init (ps : params) (name : string)
  (in_features hidden_features out_features : Z) : result Mlp :=
  f1 <- Linear_init ps (name ++ ".fc1") in_features hidden_features true ;;
  f2 <- Linear_init ps (name ++ ".fc2") hidden_features out_features true ;;
  Ok {| fc1 := f1; fc2 := f2 |}.

Definition Mlp_forward (m : Mlp) (x : tensor A) : result (tensor A) :=
  x <- Linear_forward (fc1 m) x ;;
  let x := map_t gelu x in
  let x := Dropout_forward x in
  x <- Linear_forward (fc2 m) x ;;
  Ok (Dropout_forward x).

End Numeric.

Arguments Linear A : clear implicits.
Arguments LayerNorm A : clear implicits.
Arguments Mlp A : clear implicits.
Arguments params A : clear implicits.

(** ** More tensor primitives: cat, pad, roll, integer-array indexing *)

Section Movement.
Context {A : Type} {DA : Default A}.

(** [torch.cat(ts, dim)]. *)
Fixpoint cat_source (ts : list (tensor A)) (k : nat) (idx : list nat) : A :=
  match ts with
  | [] => dflt
  | t :: ts' =>
      let d := nth k (shape t) 0 in
      let i := nth k idx 0 in
      if i <? d then get t idx
      else cat_source ts' k (firstn k idx ++ (i - d) :: skipn (S k) idx)
  end.

Definition same_except (k : nat) (s1 s2 : list nat) : bool :=
  (length s1 =? length s2)
  && forallb (fun a => (a =? k) || (nth a s1 0 =? nth a s2 0)) (seq 0 (length s1)).

Definition cat (ts : list (tensor A)) (dim : Z) : result (tensor A) :=
  match ts with
  | [] => Raise (RuntimeError "cat expects a non-empty list")
  | t :: _ =>
      k <- normal_dim dim (length (shape t)) ;;
      if forallb (fun u => same_except k (shape t) (shape u)) ts then
        let total := fold_right (fun u acc => nth k (shape u) 0 + acc) 0 ts in
        Ok (tabulate (firstn k (shape t) ++ total :: skipn (S k) (shape t))
                     (cat_source ts k))
      else Raise (RuntimeError "sizes of tensors must match except in the cat dimension")
  end.

(** [F.pad(x, pads)] with a constant [v]: [pads] lists (before, after)
    pairs starting from the last axis; a negative amount crops. *)
Fixpoint pad_pairs (pads : list Z) : list (Z * Z) :=
  match pads with
  | a :: b :: rest => (a, b) :: pad_pairs rest
  | _ => []
  end.

Definition pad (x : tensor A) (pads : list Z) (v : A) : result (tensor A) :=
  let n := length (shape x) in
  let pairs := pad_pairs pads in
  if negb (Nat.even (length pads)) || (n <? length pairs) then
    Raise (RuntimeError "padding length must be even and at most twice the rank")
  else
    let per_axis := repeat (0%Z, 0%Z) (n - length pairs) ++ rev pairs in
    let sizes := map (fun '(d, (a, b)) => (Z.of_nat d + a + b)%Z)
                     (combine (shape x) per_axis) in
    s <- checked_size sizes ;;
    Ok (tabulate s
          (fun idx =>
             let src := map (fun '(i, (a, _)) => (Z.of_nat i - a)%Z)
                            (combine idx per_axis) in
             if forallb (fun '(j, d) => (0 <=? j)%Z && (j <? Z.of_nat d)%Z)
                        (combine src (shape x))
             then get x (map Z.to_nat src) else v)).

(** [torch.roll(x, shifts, dims)]. *)
Definition roll1 (x : tensor A) (shift dim : Z) : result (tensor A) :=
  k <- normal_dim dim (length (shape x)) ;;
  let d := Z.of_nat (nth k (shape x) 0) in
  Ok (tabulate (shape x)
        (fun idx =>
           let i := Z.of_nat (nth k idx 0) in
           get x (firstn k idx ++ Z.to_nat ((i - shift) mod d) :: skipn (S k) idx))).

Definition roll (x : tensor A) (shifts dims : list Z) : result (tensor A) :=
  if length shifts =? length dims then
    foldM (fun t '(s, d) => roll1 t s d) (combine shifts dims) x
  else Raise (RuntimeError "shifts and dimensions must align").

(** [table[idx]] for a one-dimensional integer tensor [idx]: rows of
    [table] gathered along its first axis. *)
Definition take_rows (table : tensor A) (idx : tensor Z) : result (tensor A) :=
  match shape table, shape idx with
  | d :: rest, [n] =>
      rows <- mapM (fun i => x <- at_sel i d ;;
                             match x with SAt r => Ok r | _ => Ok 0 end) (data idx) ;;
      Ok (tabulate (n :: rest)
            (fun ix => get table (nth (nth 0 ix 0) rows 0 :: tl ix)))
  | _, _ => Raise (IndexError "index tensor must be one-dimensional")
  end.

(** [Tensor.masked_fill(mask, v)]. *)
Definition masked_fill (x : tensor A) (mask : tensor bool) (v : A)
  : result (tensor A) :=
  broadcast2 (fun e (m : bool) => if m then v else e) x mask.

End Movement.

Definition py_or (x : option Z) (d : Z) : Z :=
  match x with
  | Some v => if (v =? 0)%Z then d else v
  | None => d
  end.

Definition string_of_nat (n : nat) : string :=
  DecimalString.NilEmpty.string_of_uint (Nat.to_uint n).

(** ** WindowAttention (lines 64-113) *)

Module WindowAttention.
Section Def.
Context {A : Type} {NA : Num A} {EA : Elementary A}.

Record t : Type := {
  dim : Z;
  window_size : Z * Z;
  num_heads : Z;
  scale : A;
  relative_position_bias_table : tensor A;
  relative_position_index : tensor Z;
  qkv : Linear A;
  proj : Linear A
}.

(** [head_dim ** -0.5]: Python raises on a zero base.  (On a negative base
    Python yields a complex number; construction then raises further down,
    on the negative size of a parameter.) *)
Definition inv_sqrt (head_dim : Z) : result A :=
  if (head_dim =? 0)%Z then Raise ZeroDivisionError
  else Ok (pow (of_Z head_dim) (- (1 # 2))%Q).

Definition init (ps : params A) (name : string) (dim : Z) (window_size : Z * Z)
  (num_heads : Z) (qkv_bias : bool) (qk_scale : option A) : result t :=
  head_dim <- floordiv dim num_heads ;;
  scale <- match qk_scale with
           | Some s => if is_zero s then inv_sqrt head_dim else Ok s
           | None => inv_sqrt head_dim
           end ;;
  table <- new_param ps (name ++ ".relative_position_bias_table")
             [((2 * fst window_size - 1) * (2 * snd window_size - 1))%Z; num_heads] ;;
  index <- relative_position_index_of window_size ;;
  qkv <- Linear_init ps (name ++ ".qkv") dim (dim * 3)%Z qkv_bias ;;
  proj <- Linear_init ps (name ++ ".proj") dim dim true ;;
  Ok {| dim := dim; window_size := window_size; num_heads := num_heads;
        scale := scale; relative_position_bias_table := table;
        relative_position_index := index; qkv := qkv; proj := proj |}.

(** The bias gathered from the table (lines 98-100). *)
Definition relative_position_bias (m : t) : result (tensor A) :=
  let n := (fst (window_size m) * snd (window_size m))%Z in
  idx <- view (relative_position_index m) [(-1)%Z] ;;
  b <- take_rows (relative_position_bias_table m) idx ;;
  b <- view b [n; n; (-1)%Z] ;;
  b <- permute b [2; 0; 1] ;;
  Ok (contiguous b).

Definition forward (m : t) (x : tensor A) (mask : option (tensor A))
  : result (tensor A) :=
  match zshape x with
  | [B_; N; C] =>
      head_dim <- floordiv C (num_heads m) ;;
      qkv_x <- Linear_forward (qkv m) x ;;
      qkv_x <- view qkv_x [B_; N; 3%Z; num_heads m; head_dim] ;;
      qkv_x <- permute qkv_x [2; 0; 3; 1; 4] ;;
      q <- getitem qkv_x [At 0] ;;
      k <- getitem qkv_x [At 1] ;;
      v <- getitem qkv_x [At 2] ;;
      let q := map_t (fun e => mul e (scale m)) q in
      kt <- transpose k (-2) (-1) ;;
      attn <- matmul q kt ;;
      bias <- relative_position_bias m ;;
      bias <- unsqueeze bias 0 ;;
      attn <- broadcast2 add attn bias ;;
      attn <- match mask with
              | Some mask =>
                  let nW := hd 0%Z (zshape mask) in
                  groups <- floordiv B_ nW ;;
                  a <- view attn [groups; nW; num_heads m; N; N] ;;
                  m1 <- unsqueeze mask 1 ;;
                  m2 <- unsqueeze m1 0 ;;
                  a <- broadcast2 add a m2 ;;
                  a <- view a [(-1)%Z; num_heads m; N; N] ;;
                  softmax a
              | None => softmax attn
              end ;;
      let attn := Dropout_forward attn in
      y <- matmul attn v ;;
      y <- transpose y 1 2 ;;
      y <- view y [B_; N; C] ;;
      y <- Linear_forward (proj m) y ;;
      Ok (Dropout_forward y)
  | _ => Raise (ValueError "not enough values to unpack")
  end.

End Def.
Arguments t A : clear implicits.
End WindowAttention.

(** ** SwinTransformerBlock (lines 115-165), with the default
    [norm_layer=nn.LayerNorm] and [act_layer=nn.GELU] *)

Module SwinTransformerBlock.
Section Def.
Context {A : Type} {NA : Num A} {EA : Elementary A}.

Record t : Type := {
  dim : Z;
  num_heads : Z;
  window_size : Z;
  shift_size : Z;
  mlp_ratio : Q;
  norm1 : LayerNorm A;
  attn : WindowAttention.t A;
  norm2 : LayerNorm A;
  mlp : Mlp A;
  H : option Z;
  W : option Z
}.

Definition to_2tuple (x : Z) : Z * Z := (x, x).

Definition init (ps : params A) (name : string) (dim num_heads window_size
  shift_size : Z) (mlp_ratio : Q) (qkv_bias : bool) (qk_scale : option A)
  : result t :=
  _ <- assert ((0 <=? shift_size)%Z && (shift_size <? window_size)%Z)
         "shift_size must in 0-window_size" ;;
  norm1 <- LayerNorm_init ps (name ++ ".norm1") dim ;;
  attn <- WindowAttention.init ps (name ++ ".attn") dim (to_2tuple window_size)
            num_heads qkv_bias qk_scale ;;
  norm2 <- LayerNorm_init ps (name ++ ".norm2") dim ;;
  let mlp_hidden_dim := py_int (inject_Z dim * mlp_ratio)%Q in
  mlp <- Mlp_init ps (name ++ ".mlp") dim (py_or (Some mlp_hidden_dim) dim)
           (py_or None dim) ;;
  Ok {| dim := dim; num_heads := num_heads; window_size := window_size;
        shift_size := shift_size; mlp_ratio := mlp_ratio; norm1 := norm1;
        attn := attn; norm2 := norm2; mlp := mlp; H := None; W := None |}.

(** [blk.H, blk.W = H, W]. *)
Definition set_resolution (m : t) (h w : Z) : t :=
  {| dim := dim m; num_heads := num_heads m; window_size := window_size m;
     shift_size := shift_size m; mlp_ratio := mlp_ratio m; norm1 := norm1 m;
     attn := attn m; norm2 := norm2 m; mlp := mlp m; H := Some h; W := Some w |}.

Definition forward (m : t) (x : tensor A) (mask_matrix : tensor A)
  : result (tensor A) :=
  match zshape x, H m, W m with
  | [B; L; C], Some H, Some W =>
      _ <- assert (L =? H * W)%Z "input feature has wrong size" ;;
      let shortcut := x in
      x <- LayerNorm_forward (norm1 m) x ;;
      x <- view x [B; H; W; C] ;;
      let pad_l := 0%Z in
      let pad_t := 0%Z in
      wr <- pymod W (window_size m) ;;
      pad_r <- pymod (window_size m - wr) (window_size m) ;;
      hr <- pymod H (window_size m) ;;
      pad_b <- pymod (window_size m - hr) (window_size m) ;;
      x <- pad x [0; 0; pad_l; pad_r; pad_t; pad_b]%Z (of_Q 0%Q) ;;
      let Hp := Z.of_nat (nth 1 (shape x) 0) in
      let Wp := Z.of_nat (nth 2 (shape x) 0) in
      shifted <- (if (0 <? shift_size m)%Z
                  then sx <- roll x [- shift_size m; - shift_size m]%Z [1; 2]%Z ;;
                       Ok (sx, Some mask_matrix)
                  else Ok (x, None)) ;;
      let shifted_x := fst shifted in
      let attn_mask := snd shifted in
      x_windows <- window_partition shifted_x (window_size m) ;;
      x_windows <- view x_windows [(-1)%Z; (window_size m * window_size m)%Z; C] ;;
      attn_windows <- WindowAttention.forward (attn m) x_windows attn_mask ;;
      attn_windows <- view attn_windows [(-1)%Z; window_size m; window_size m; C] ;;
      shifted_x <- window_reverse attn_windows (window_size m) Hp Wp ;;
      x <- (if (0 <? shift_size m)%Z
            then roll shifted_x [shift_size m; shift_size m] [1; 2]%Z
            else Ok shifted_x) ;;
      x <- (if (0 <? pad_r)%Z || (0 <? pad_b)%Z
            then y <- getitem x [full; Slice None (Some H) 1; Slice None (Some W) 1; full] ;;
                 Ok (contiguous y)
            else Ok x) ;;
      x <- view x [B; (H * W)%Z; C] ;;
      x <- broadcast2 add shortcut (Dropout_forward x) ;;
      n2 <- LayerNorm_forward (norm2 m) x ;;
      y <- Mlp_forward (mlp m) n2 ;;
      broadcast2 add x (Dropout_forward y)
  | [_; _; _], _, _ => Raise (TypeError "unsupported operand: H or W is None")
  | _, _, _ => Raise (ValueError "not enough values to unpack")
  end.

End Def.
Arguments t A : clear implicits.
End SwinTransformerBlock.

(** ** PatchMerging (lines 167-189) *)

Module PatchMerging.
Section Def.
Context {A : Type} {NA : Num A} {EA : Elementary A}.

Record t : Type := {
  dim : Z;
  reduction : Linear A;
  norm : LayerNorm A
}.

Definition init (ps : params A) (name : string) (dim : Z) : result t :=
  reduction <- Linear_init ps (name ++ ".reduction") (4 * dim)%Z (2 * dim)%Z false ;;
  norm <- LayerNorm_init ps (name ++ ".norm") (4 * dim)%Z ;;
  Ok {| dim := dim; reduction := reduction; norm := norm |}.

Definition forward (m : t) (x : tensor A) (H W : Z) : result (tensor A) :=
  match zshape x with
  | [B; L; C] =>
      _ <- assert (L =? H * W)%Z "input feature has wrong size" ;;
      x <- view x [B; H; W; C] ;;
      let pad_input := ((H mod 2 =? 1) || (W mod 2 =? 1))%Z in
      x <- (if pad_input
            then pad x [0; 0; 0; W mod 2; 0; H mod 2]%Z (of_Q 0%Q)
            else Ok x) ;;
      let even := Slice (Some 0%Z) None 2 in
      let odd := Slice (Some 1%Z) None 2 in
      x0 <- getitem x [full; even; even; full] ;;
      x1 <- getitem x [full; odd; even; full] ;;
      x2 <- getitem x [full; even; odd; full] ;;
      x3 <- getitem x [full; odd; odd; full] ;;
      x <- cat [x0; x1; x2; x3] (-1) ;;
      x <- view x [B; (-1)%Z; (4 * C)%Z] ;;
      x <- LayerNorm_forward (norm m) x ;;
      Linear_forward (reduction m) x
  | _ => Raise (ValueError "not enough values to unpack")
  end.

End Def.
Arguments t A : clear implicits.
End PatchMerging.

(** ** BasicLayer (lines 191-225) *)

Module BasicLayer.
Section Def.
Context {A : Type} {NA : Num A} {EA : Elementary A}.

Record t : Type := {
  window_size : Z;
  shift_size : Z;
  depth : Z;
  blocks : list (SwinTransformerBlock.t A);
  downsample : option (PatchMerging.t A)
}.

Definition init (ps : params A) (name : string) (dim depth num_heads
  window_size : Z) (mlp_ratio : Q) (qkv_bias : bool) (qk_scale : option A)
  (downsample : bool) : result t :=
  blocks <- mapM (fun i =>
                    SwinTransformerBlock.init ps
                      (name ++ ".blocks." ++ string_of_nat i)
                      dim num_heads window_size
                      (if i mod 2 =? 0 then 0%Z else (window_size / 2)%Z)
                      mlp_ratio qkv_bias qk_scale)
                 (seq 0 (Z.to_nat depth)) ;;
  ds <- (if downsample
         then d <- PatchMerging.init ps (name ++ ".downsample") dim ;; Ok (Some d)
         else Ok None) ;;
  Ok {| window_size := window_size; shift_size := (window_size / 2)%Z;
        depth := depth; blocks := blocks; downsample := ds |}.

(** The attention mask of a stage (lines 204-217). *)
Definition attn_mask (m : t) (H W : Z) : result (tensor A) :=
  qh <- truediv (inject_Z H) (inject_Z (window_size m)) ;;
  qw <- truediv (inject_Z W) (inject_Z (window_size m)) ;;
  let Hp := (Qceiling qh * window_size m)%Z in
  let Wp := (Qceiling qw * window_size m)%Z in
  img_mask <- zeros [1; Hp; Wp; 1]%Z ;;
  let slices := [Slice (Some 0%Z) (Some (- window_size m)%Z) 1;
                 Slice (Some (- window_size m)%Z) (Some (- shift_size m)%Z) 1;
                 Slice (Some (- shift_size m)%Z) None 1] in
  let h_slices := slices in
  let w_slices := slices in
  st <- foldM (fun st h =>
                 foldM (fun '(img_mask, cnt) w =>
                          img <- update_at img_mask [full; h; w; full]
                                   (fun _ => of_Z cnt) ;;
                          Ok (img, (cnt + 1)%Z))
                       w_slices st)
              h_slices (img_mask, 0%Z) ;;
  let img_mask := fst st in
  mask_windows <- window_partition img_mask (window_size m) ;;
  mask_windows <- view mask_windows [(-1)%Z; (window_size m * window_size m)%Z] ;;
  a <- unsqueeze mask_windows 1 ;;
  b <- unsqueeze mask_windows 2 ;;
  attn_mask <- broadcast2 sub a b ;;
  filled <- masked_fill attn_mask (map_t (fun v => negb (is_zero v)) attn_mask)
              (of_Q (-100)%Q) ;;
  masked_fill filled (map_t is_zero attn_mask) (of_Q 0%Q).

Definition forward (m : t) (x : tensor A) (H W : Z)
  : result (tensor A * Z * Z * tensor A * Z * Z) :=
  attn_mask <- attn_mask m H W ;;
  x <- foldM (fun x blk =>
                let blk := SwinTransformerBlock.set_resolution blk H W in
                SwinTransformerBlock.forward blk x attn_mask)
             (blocks m) x ;;
  match downsample m with
  | Some ds =>
      x_down <- PatchMerging.forward ds x H W ;;
      let Wh := ((H + 1) / 2)%Z in
      let Ww := ((W + 1) / 2)%Z in
      Ok (x, H, W, x_down, Wh, Ww)
  | None => Ok (x, H, W, x, H, W)
  end.

End Def.
Arguments t A : clear implicits.
End BasicLayer.

(** ** The shift-boundary region labelling, as the specification words it

    Each axis of the (padded) grid is cut into three regions at the shift
    boundary: the rows before the last window, the rows of the last window
    before its last [shift] rows, and the last [shift] rows.  The nine
    products of a row region and a column region get distinct integers. *)

Definition spec_region (size window shift p : Z) : Z :=
  if (p <? size - window)%Z then 0%Z
  else if (p <? size - shift)%Z then 1%Z
  else 2%Z.

(** Label of position [i] of window [w] on a [size] x [size] grid. *)
Definition spec_label (size window shift : Z) (w i : nat) : Z :=
  let per_row := (size / window)%Z in
  let row := (window * (Z.of_nat w / per_row) + Z.of_nat i / window)%Z in
  let col := (window * (Z.of_nat w mod per_row) + Z.of_nat i mod window)%Z in
  (3 * spec_region size window shift row + spec_region size window shift col)%Z.

Definition spec_mask_entry (size window shift : Z) (w i j : nat) : Q :=
  if (spec_label size window shift w i =? spec_label size window shift w j)%Z
  then 0%Q else (-100)%Q.

Definition Q_same (a b : Q) : bool :=
  (Qnum a =? Qnum b)%Z && (Qden a =? Qden b)%positive.

(** The mask agrees with the labelling on every entry. *)
Definition mask_agrees (size window shift : Z) (mask : tensor Q) : bool :=
  match shape mask with
  | [nW; n; n'] =>
      forallb (fun w =>
        forallb (fun i =>
          forallb (fun j =>
            Q_same (get mask [w; i; j]) (spec_mask_entry size window shift w i j))
          (seq 0 n')) (seq 0 n)) (seq 0 nW)
  | _ => false
  end.

(** A computation returns a well-formed tensor of a given size. *)
Definition has_shape {A : Type} (r : result (tensor A)) (s : list nat) : Prop :=
  exists y, r = Ok y /\ shape y = s /\ wf y.

(** ** Invariants of constructed modules

    What [__init__] establishes, stated on the module record: the sizes of
    the parameters and of the registered buffer. *)

Definition WindowAttention_ok {A : Type} (m : WindowAttention.t A)
  (C heads ws : nat) : Prop :=
  WindowAttention.num_heads m = Z.of_nat heads /\
  WindowAttention.window_size m = (Z.of_nat ws, Z.of_nat ws) /\
  relative_position_index_of (Z.of_nat ws, Z.of_nat ws)
  = Ok (WindowAttention.relative_position_index m) /\
  shape (WindowAttention.relative_position_bias_table m)
  = [Z.to_nat ((2 * Z.of_nat ws - 1) * (2 * Z.of_nat ws - 1)); heads] /\
  shape (lin_weight (WindowAttention.qkv m)) = [3 * C; C] /\
  shape (lin_weight (WindowAttention.proj m)) = [C; C] /\
  0 < heads /\ 0 < ws.

Definition SwinTransformerBlock_ok {A : Type} (m : SwinTransformerBlock.t A)
  (C heads ws hidden : nat) : Prop :=
  SwinTransformerBlock.window_size m = Z.of_nat ws /\
  (0 <= SwinTransformerBlock.shift_size m < Z.of_nat ws)%Z /\
  ln_size (SwinTransformerBlock.norm1 m) = C /\
  ln_size (SwinTransformerBlock.norm2 m) = C /\
  WindowAttention_ok (SwinTransformerBlock.attn m) C heads ws /\
  shape (lin_weight (fc1 (SwinTransformerBlock.mlp m))) = [hidden; C] /\
  shape (lin_weight (fc2 (SwinTransformerBlock.mlp m))) = [C; hidden].

(** ** The torch layers of the decoder

    [nn.Conv2d], [nn.InstanceNorm2d], [F.interpolate],
    [F.adaptive_avg_pool2d] and [nn.MultiheadAttention], by the formulas of
    the PyTorch documentation. *)

Inductive interp_mode : Type := Nearest | Bilinear.

(** Python's [round] of a float: ties go to the even integer. *)
Definition py_round (q : Q) : Z :=
  let f := Qfloor q in
  let frac := (q - inject_Z f)%Q in
  if Qle_bool frac (1 # 2) then
    if Qle_bool (1 # 2) frac then (if Z.even f then f else f + 1)%Z else f
  else (f + 1)%Z.

(** Source index and weight of the bilinear mode with
    [align_corners=False] along one axis: the lower source index, the step
    to the upper one and the weight of the upper one. *)
Definition bilinear_source (ratio : Q) (in_size dst : nat) : nat * nat * Q :=
  let real := (ratio * (inject_Z (Z.of_nat dst) + (1 # 2)) - (1 # 2))%Q in
  let real := if Qle_bool 0%Q real then real else 0%Q in
  let i0 := Nat.min (Z.to_nat (Qfloor real)) (in_size - 1) in
  let lam := (real - inject_Z (Z.of_nat i0))%Q in
  let lam := if Qle_bool lam 0%Q then 0%Q else if Qle_bool 1%Q lam then 1%Q else lam in
  (i0, if i0 <? in_size - 1 then 1 else 0, lam).

(** Source index of the nearest mode. *)
Definition nearest_source (ratio : Q) (in_size dst : nat) : nat :=
  Nat.min (Z.to_nat (Qfloor (inject_Z (Z.of_nat dst) * ratio))) (in_size - 1).

(** Ratio of source to destination coordinates: the reciprocal of the
    scale factor when one is given, the ratio of the lengths otherwise. *)
Definition interp_ratio (in_size out_size : nat) (scale_factor : option Q) : Q :=
  match scale_factor with
  | Some s => (1 / s)%Q
  | None => (inject_Z (Z.of_nat in_size) / inject_Z (Z.of_nat out_size))%Q
  end.

(** Rows (or columns) averaged into output position [i] by the adaptive
    pooling: from [floor(i * n / o)] up to [ceil((i + 1) * n / o)]. *)
Definition pool_window (in_size out_size i : nat) : list nat :=
  let a := i * in_size / out_size in
  let b := ((i + 1) * in_size + out_size - 1) / out_size in
  seq a (b - a).

Section Layers.
Context {A : Type} {NA : Num A} {EA : Elementary A}.

(** [torch.sigmoid]. *)
Definition sigmoid (x : A) : A :=
  div (of_Q 1%Q) (add (of_Q 1%Q) (exp (sub (of_Q 0%Q) x))).

(** [nn.GELU]. *)
Definition GELU_forward (x : tensor A) : tensor A := map_t gelu x.

(** *** nn.Conv2d, with zero padding *)

Record Conv2d : Type := {
  conv_weight : tensor A;
  conv_bias : tensor A;
  conv_stride : nat * nat;
  conv_padding : nat * nat
}.

Definition Conv2d_init (ps : params A) (name : string)
  (in_channels out_channels : Z) (kernel_size stride padding : Z * Z)
  : result Conv2d :=
  if ((fst stride <=? 0) || (snd stride <=? 0))%Z then
    Raise (RuntimeError "non-positive stride is not supported")
  else if ((fst padding <? 0) || (snd padding <? 0))%Z then
    Raise (RuntimeError "negative padding is not supported")
  else
    w <- new_param ps (name ++ ".weight")
           [out_channels; in_channels; fst kernel_size; snd kernel_size] ;;
    b <- new_param ps (name ++ ".bias") [out_channels] ;;
    Ok {| conv_weight := w; conv_bias := b;
          conv_stride := (Z.to_nat (fst stride), Z.to_nat (snd stride));
          conv_padding := (Z.to_nat (fst padding), Z.to_nat (snd padding)) |}.

(** Positions of a kernel: channel, row and column. *)
Definition kernel_positions (Ci kh kw : nat) : list (nat * nat * nat) :=
  flat_map (fun c => flat_map (fun a => map (fun b => (c, a, b)) (seq 0 kw))
                              (seq 0 kh))
           (seq 0 Ci).

Definition Conv2d_forward (m : Conv2d) (x : tensor A) : result (tensor A) :=
  match shape x, shape (conv_weight m) with
  | [N; C; H; W], [Co; Ci; kh; kw] =>
      let '(sh, sw) := conv_stride m in
      let '(ph, pw) := conv_padding m in
      if negb (C =? Ci) then
        Raise (RuntimeError "the input channels do not match the weight")
      else if (H + 2 * ph <? kh) || (W + 2 * pw <? kw) then
        Raise (RuntimeError "kernel size can't be greater than actual input size")
      else
        Ok (tabulate [N; Co; (H + 2 * ph - kh) / sh + 1; (W + 2 * pw - kw) / sw + 1]
              (fun idx =>
                 let n := nth 0 idx 0 in
                 let o := nth 1 idx 0 in
                 let i := nth 2 idx 0 in
                 let j := nth 3 idx 0 in
                 add (sum_list
                        (map (fun '(c, a, b) =>
                                let r := i * sh + a in
                                let q := j * sw + b in
                                if (ph <=? r) && (r - ph <? H)
                                   && (pw <=? q) && (q - pw <? W)
                                then mul (get (conv_weight m) [o; c; a; b])
                                         (get x [n; c; r - ph; q - pw])
                                else of_Q 0%Q)
                             (kernel_positions Ci kh kw)))
                     (get (conv_bias m) [o])))
  | _, _ => Raise (RuntimeError "conv2d expects a 4D input and a 4D weight")
  end.

(** *** nn.InstanceNorm2d (no affine parameters, statistics of the input) *)

Definition InstanceNorm2d_forward (x : tensor A) : result (tensor A) :=
  match shape x with
  | [N; C; H; W] =>
      if H * W =? 1 then
        Raise (ValueError "expected more than 1 spatial element")
      else
        Ok (tabulate [N; C; H; W]
              (fun idx =>
                 let n := nth 0 idx 0 in
                 let c := nth 1 idx 0 in
                 let plane := map (fun k => get x [n; c; k / W; k mod W])
                                  (seq 0 (H * W)) in
                 let mu := mean plane in
                 let var := mean (map (fun v => mul (sub v mu) (sub v mu)) plane) in
                 div (sub (get x idx) mu) (sqrt (add var (of_Q (1 # 100000))))))
  | _ => Raise (ValueError "expected 4D input")
  end.

(** *** F.interpolate on a 4D input, [align_corners=False] *)

Definition interpolate (x : tensor A) (size : option (list Z))
  (scale_factor : option Q) (mode : interp_mode) : result (tensor A) :=
  match shape x with
  | [N; C; H; W] =>
      ' (oh, ow) <-
        match size, scale_factor with
        | Some [oh; ow], None => Ok (oh, ow)
        | Some _, None =>
            Raise (ValueError "size must have one entry per spatial dimension")
        | None, Some s =>
            Ok (Qfloor (inject_Z (Z.of_nat H) * s), Qfloor (inject_Z (Z.of_nat W) * s))
        | Some _, Some _ =>
            Raise (ValueError "only one of size or scale_factor should be defined")
        | None, None =>
            Raise (ValueError "either size or scale_factor should be defined")
        end ;;
      if (C =? 0) || (H =? 0) || (W =? 0) then
        Raise (RuntimeError "expected a non-empty 4D data tensor")
      else if ((oh <=? 0) || (ow <=? 0))%Z then
        Raise (RuntimeError "input and output sizes should be greater than 0")
      else
        let rh := interp_ratio H (Z.to_nat oh) scale_factor in
        let rw := interp_ratio W (Z.to_nat ow) scale_factor in
        Ok (tabulate [N; C; Z.to_nat oh; Z.to_nat ow]
              (fun idx =>
                 let n := nth 0 idx 0 in
                 let c := nth 1 idx 0 in
                 match mode with
                 | Nearest =>
                     get x [n; c; nearest_source rh H (nth 2 idx 0);
                            nearest_source rw W (nth 3 idx 0)]
                 | Bilinear =>
                     let '(h1, h1p, h1lambda) := bilinear_source rh H (nth 2 idx 0) in
                     let '(w1, w1p, w1lambda) := bilinear_source rw W (nth 3 idx 0) in
                     let h0lambda := (1 - h1lambda)%Q in
                     let w0lambda := (1 - w1lambda)%Q in
                     let v00 := get x [n; c; h1; w1] in
                     let v01 := get x [n; c; h1; w1 + w1p] in
                     let v10 := get x [n; c; h1 + h1p; w1] in
                     let v11 := get x [n; c; h1 + h1p; w1 + w1p] in
                     add (mul (of_Q h0lambda)
                              (add (mul (of_Q w0lambda) v00) (mul (of_Q w1lambda) v01)))
                         (mul (of_Q h1lambda)
                              (add (mul (of_Q w0lambda) v10) (mul (of_Q w1lambda) v11)))
                 end))
  | _ => Raise (RuntimeError "interpolate is modelled on 4D inputs")
  end.

(** *** F.adaptive_avg_pool2d *)

Definition adaptive_avg_pool2d (x : tensor A) (output_size : Z * Z)
  : result (tensor A) :=
  match shape x with
  | [N; C; H; W] =>
      let '(oh, ow) := output_size in
      if ((oh <? 0) || (ow <? 0))%Z then
        Raise (RuntimeError "elements of output_size must be greater than or equal to 0")
      else if (C =? 0) || (H =? 0) || (W =? 0) then
        Raise (RuntimeError "expected input to have non-zero size for non-batch dimensions")
      else
        Ok (tabulate [N; C; Z.to_nat oh; Z.to_nat ow]
              (fun idx =>
                 let n := nth 0 idx 0 in
                 let c := nth 1 idx 0 in
                 let rows := pool_window H (Z.to_nat oh) (nth 2 idx 0) in
                 let cols := pool_window W (Z.to_nat ow) (nth 3 idx 0) in
                 mean (flat_map (fun r => map (fun q => get x [n; c; r; q]) cols) rows)))
  | _ => Raise (RuntimeError "adaptive_avg_pool2d is modelled on 4D inputs")
  end.

End Layers.

Arguments Conv2d A : clear implicits.

(** ** Splitting and stacking *)

Section Pieces.
Context {A : Type} {DA : Default A}.

(** [Tensor.narrow(dim, start, length)] for an axis and a range that exist. *)
Definition narrow (x : tensor A) (k start len : nat) : tensor A :=
  tabulate (firstn k (shape x) ++ len :: skipn (S k) (shape x))
    (fun idx => get x (firstn k idx ++ (start + nth k idx 0) :: skipn (S k) idx)).

(** The pieces of the given lengths, one after the other. *)
Fixpoint narrow_all (x : tensor A) (k start : nat) (lens : list nat)
  : list (tensor A) :=
  match lens with
  | [] => []
  | len :: lens' => narrow x k start len :: narrow_all x k (start + len) lens'
  end.

(** [Tensor.split(sizes, dim)]. *)
Definition split (x : tensor A) (sizes : list Z) (dim : Z)
  : result (list (tensor A)) :=
  k <- normal_dim dim (length (shape x)) ;;
  if existsb (fun s => (s <? 0)%Z) sizes then
    Raise (RuntimeError "split_with_sizes expects split_sizes have only non-negative entries")
  else if Z.eqb (fold_right Z.add 0%Z sizes) (Z.of_nat (nth k (shape x) 0)) then
    Ok (narrow_all x k 0 (map Z.to_nat sizes))
  else
    Raise (RuntimeError "split_with_sizes expects split_sizes to sum exactly to the size of the dimension").

(** [Tensor.chunk(chunks, dim)]: pieces of [ceil(d / chunks)] entries, the
    last one shorter; fewer than [chunks] pieces when [d] is small. *)
Definition chunk (x : tensor A) (chunks : Z) (dim : Z) : result (list (tensor A)) :=
  k <- normal_dim dim (length (shape x)) ;;
  if (chunks <=? 0)%Z then Raise (RuntimeError "chunk expects chunks to be greater than 0")
  else
    let d := nth k (shape x) 0 in
    let c := Z.to_nat chunks in
    let split_size := (d + c - 1) / c in
    if split_size =? 0 then Ok (narrow_all x k 0 (repeat 0 c))
    else
      let n := (d + split_size - 1) / split_size in
      Ok (narrow_all x k 0
            (map (fun i => Nat.min split_size (d - i * split_size)) (seq 0 n))).

(** [Tensor.select(dim, i)] for an axis and an index that exist. *)
Definition select (x : tensor A) (k i : nat) : tensor A :=
  tabulate (firstn k (shape x) ++ skipn (S k) (shape x))
    (fun idx => get x (firstn k idx ++ i :: skipn k idx)).

(** [Tensor.unbind(dim)]. *)
Definition unbind (x : tensor A) (dim : Z) : result (list (tensor A)) :=
  k <- normal_dim dim (length (shape x)) ;;
  Ok (map (select x k) (seq 0 (nth k (shape x) 0))).

(** [torch.stack(ts, dim)]. *)
Definition stack_dim (ts : list (tensor A)) (dim : Z) : result (tensor A) :=
  match ts with
  | [] => Raise (RuntimeError "stack expects a non-empty list")
  | t :: _ =>
      k <- normal_dim dim (S (length (shape t))) ;;
      if forallb (fun u => if list_eq_dec Nat.eq_dec (shape u) (shape t)
                           then true else false) ts
      then Ok (tabulate (firstn k (shape t) ++ length ts :: skipn k (shape t))
                 (fun idx => get (nth (nth k idx 0) ts t)
                                 (firstn k idx ++ skipn (S k) idx)))
      else Raise (RuntimeError "stack expects each tensor to be equal size")
  end.

(** Python's [zip] of two lists. *)
Definition zip {X Y : Type} (a : list X) (b : list Y) : list (X * Y) := combine a b.

(** Python's [enumerate]. *)
Definition enumerate {X : Type} (l : list X) : list (nat * X) :=
  combine (seq 0 (length l)) l.

(** [l[i]] on a Python list. *)
Definition list_item {X : Type} (l : list X) (i : nat) : result X :=
  match nth_error l i with
  | Some x => Ok x
  | None => Raise (IndexError "list index out of range")
  end.

End Pieces.

Section Cumsum.
Context {A : Type} {NA : Num A} {EA : Elementary A}.

(** [Tensor.cumsum(dim)]. *)
Definition cumsum (t : tensor A) (dim : Z) : result (tensor A) :=
  k <- normal_dim dim (length (shape t)) ;;
  Ok (tabulate (shape t)
        (fun idx =>
           sum_list (map (fun i => get t (firstn k idx ++ i :: skipn (S k) idx))
                         (seq 0 (S (nth k idx 0)))))).

(** A boolean tensor read as floats. *)
Definition to_float (t : tensor bool) : tensor A :=
  map_t (fun b : bool => if b then of_Q 1%Q else of_Q 0%Q) t.

End Cumsum.

(** ** nn.MultiheadAttention (sequence first, evaluation mode)

    The three input projections are the three row blocks of
    [in_proj_weight]; every head attends with the softmax of the scaled
    dot products; the heads are concatenated and projected by [out_proj].
    [forward] gives the attention output, the first component of the pair
    that PyTorch returns. *)

Module MultiheadAttention.
Section Def.
Context {A : Type} {NA : Num A} {EA : Elementary A}.

Record t : Type := {
  embed_dim : nat;
  num_heads : nat;
  head_dim : nat;
  in_proj_weight : tensor A;
  in_proj_bias : tensor A;
  out_proj : Linear A
}.

Definition init (ps : params A) (name : string) (embed_dim num_heads : Z)
  : result t :=
  if ((embed_dim <=? 0) || (num_heads <=? 0))%Z then
    Raise (ValueError "embed_dim and num_heads must be greater than 0")
  else
    head_dim <- floordiv embed_dim num_heads ;;
    _ <- assert (head_dim * num_heads =? embed_dim)%Z
           "embed_dim must be divisible by num_heads" ;;
    w <- new_param ps (name ++ ".in_proj_weight") [3 * embed_dim; embed_dim]%Z ;;
    b <- new_param ps (name ++ ".in_proj_bias") [3 * embed_dim]%Z ;;
    o <- Linear_init ps (name ++ ".out_proj") embed_dim embed_dim true ;;
    Ok {| embed_dim := Z.to_nat embed_dim; num_heads := Z.to_nat num_heads;
          head_dim := Z.to_nat head_dim;
          in_proj_weight := w; in_proj_bias := b; out_proj := o |}.

(** Projection of a (length, batch, embedding) tensor by row block [part]
    of the packed input projection. *)
Definition in_projection (m : t) (part : nat) (x : tensor A) : tensor A :=
  let E := embed_dim m in
  tabulate (shape x)
    (fun idx =>
       let l := nth 0 idx 0 in
       let n := nth 1 idx 0 in
       let e := nth 2 idx 0 in
       add (sum_list (map (fun k => mul (get x [l; n; k])
                                        (get (in_proj_weight m) [part * E + e; k]))
                          (seq 0 E)))
           (get (in_proj_bias m) [part * E + e])).

Definition forward (m : t) (query key value : tensor A) : result (tensor A) :=
  match shape query, shape key, shape value with
  | [L; N; E], [Sk; Nk; Ek], [Sv; Nv; Ev] =>
      if negb (E =? embed_dim m) then
        Raise (AssertionError "was expecting the embedding dimension of the module")
      else if negb ((Sk =? Sv) && (Nk =? Nv) && (Ek =? Ev)) then
        Raise (AssertionError "key shape does not match value shape")
      else if negb (Ek =? embed_dim m) then
        Raise (RuntimeError "mat1 and mat2 shapes cannot be multiplied")
      else if negb (Nk =? N) then
        Raise (RuntimeError "shape is invalid for input size")
      else
        let hd := head_dim m in
        let q := in_projection m 0 query in
        let k := in_projection m 1 key in
        let v := in_projection m 2 value in
        let scaling := sqrt (div (of_Q 1%Q) (of_Z (Z.of_nat hd))) in
        let score (n h l s : nat) : A :=
          sum_list (map (fun d => mul (mul (get q [l; n; h * hd + d]) scaling)
                                      (get k [s; n; h * hd + d]))
                        (seq 0 hd)) in
        let weight (n h l s : nat) : A :=
          div (exp (score n h l s))
              (sum_list (map (fun s' => exp (score n h l s')) (seq 0 Sk))) in
        let ctx := tabulate [L; N; E]
                     (fun idx =>
                        let l := nth 0 idx 0 in
                        let n := nth 1 idx 0 in
                        let e := nth 2 idx 0 in
                        sum_list (map (fun s => mul (weight n (e / hd) l s)
                                                    (get v [s; n; e]))
                                      (seq 0 Sk))) in
        Linear_forward (out_proj m) ctx
  | _, _, _ => Raise (AssertionError "query, key and value should be 3D tensors")
  end.

End Def.
Arguments t A : clear implicits.
End MultiheadAttention.

(** ** PositionEmbeddingSine (demo.py, lines 339-367) *)

Module PositionEmbeddingSine.
Section Def.
Context {A : Type} {NA : Num A} {EA : Elementary A}.

Record t : Type := {
  num_pos_feats : Z;
  temperature : Z;
  normalize : bool;
  scale : Q;
  dim_t : tensor Z
}.

(** [math.pi], the double nearest to pi. *)
Definition math_pi : Q := 884279719003555 # 281474976710656.

Definition init (num_pos_feats temperature : Z) (normalize : bool)
  (scale : option Q) : result t :=
  _ <- (match scale with
        | Some _ => if negb normalize
                    then Raise (ValueError "normalize should be True if scale is passed")
                    else Ok tt
        | None => Ok tt
        end) ;;
  let scale := match scale with Some s => s | None => (2 * math_pi)%Q end in
  dim_t <- arange num_pos_feats ;;
  Ok {| num_pos_feats := num_pos_feats; temperature := temperature;
        normalize := normalize; scale := scale; dim_t := dim_t |}.

Definition call (m : t) (b h w : Z) : result (tensor A) :=
  s <- checked_size [b; h; w] ;;
  let mask := full_of s false in
  let not_mask := map_t negb mask in
  y_embed <- cumsum (to_float not_mask) 1 ;;
  x_embed <- cumsum (to_float not_mask) 2 ;;
  ' (y_embed, x_embed) <-
    (if normalize m then
       let eps := of_Q (1 # 1000000) in
       y_last <- getitem y_embed [full; Slice (Some (-1)%Z) None 1; full] ;;
       y <- broadcast2 div (map_t (fun v => sub v (of_Q (1 # 2))) y_embed)
                           (map_t (fun v => add v eps) y_last) ;;
       x_last <- getitem x_embed [full; full; Slice (Some (-1)%Z) None 1] ;;
       x <- broadcast2 div (map_t (fun v => sub v (of_Q (1 # 2))) x_embed)
                           (map_t (fun v => add v eps) x_last) ;;
       Ok (map_t (fun v => mul v (of_Q (scale m))) y,
           map_t (fun v => mul v (of_Q (scale m))) x)
     else Ok (y_embed, x_embed)) ;;
  let dim_t : tensor A :=
    map_t (fun k => pow (of_Z (temperature m))
                        (inject_Z (2 * (k / 2)) / inject_Z (num_pos_feats m))%Q)
          (dim_t m) in
  x_new <- getitem x_embed [full; full; full; NewAxis] ;;
  pos_x <- broadcast2 div x_new dim_t ;;
  y_new <- getitem y_embed [full; full; full; NewAxis] ;;
  pos_y <- broadcast2 div y_new dim_t ;;
  x_even <- getitem pos_x [full; full; full; Slice (Some 0%Z) None 2] ;;
  x_odd <- getitem pos_x [full; full; full; Slice (Some 1%Z) None 2] ;;
  pos_x <- stack_dim [map_t sin x_even; map_t cos x_odd] 4 ;;
  let pos_x := flatten_from pos_x 3 in
  y_even <- getitem pos_y [full; full; full; Slice (Some 0%Z) None 2] ;;
  y_odd <- getitem pos_y [full; full; full; Slice (Some 1%Z) None 2] ;;
  pos_y <- stack_dim [map_t sin y_even; map_t cos y_odd] 4 ;;
  let pos_y := flatten_from pos_y 3 in
  c <- cat [pos_y; pos_x] 3 ;;
  permute c [0; 3; 1; 2].

End Def.
End PositionEmbeddingSine.

(** ** MCLM (demo.py, lines 369-427) *)

(** The last two entries of a size, [shape[-2:]]. *)
Definition last2 (s : list Z) : list Z := skipn (length s - 2) s.

Definition to_2tuple (x : Z) : Z * Z := (x, x).

Module MCLM.
Section Def.
Context {A : Type} {NA : Num A} {EA : Elementary A}.

Record t : Type := {
  attention : list (MultiheadAttention.t A);
  linear1 : Linear A;
  linear2 : Linear A;
  linear3 : Linear A;
  linear4 : Linear A;
  norm1 : LayerNorm A;
  norm2 : LayerNorm A;
  pool_ratios : list Z;
  positional_encoding : PositionEmbeddingSine.t
}.

Definition init (ps : params A) (name : string) (d_model num_heads : Z)
  (pool_ratios : list Z) : result t :=
  attention <- mapM (fun i => MultiheadAttention.init ps
                                (name ++ ".attention." ++ string_of_nat i)
                                d_model num_heads)
                    (seq 0 5) ;;
  linear1 <- Linear_init ps (name ++ ".linear1") d_model (d_model * 2) true ;;
  linear2 <- Linear_init ps (name ++ ".linear2") (d_model * 2) d_model true ;;
  linear3 <- Linear_init ps (name ++ ".linear3") d_model (d_model * 2) true ;;
  linear4 <- Linear_init ps (name ++ ".linear4") (d_model * 2) d_model true ;;
  norm1 <- LayerNorm_init ps (name ++ ".norm1") d_model ;;
  norm2 <- LayerNorm_init ps (name ++ ".norm2") d_model ;;
  positional_encoding <- PositionEmbeddingSine.init (d_model / 2) 10000 true None ;;
  Ok {| attention := attention; linear1 := linear1; linear2 := linear2;
        linear3 := linear3; linear4 := linear4; norm1 := norm1; norm2 := norm2;
        pool_ratios := pool_ratios; positional_encoding := positional_encoding |}.

(** The body of the loop over the pool ratios (lines 394-401); [g_pos] is
    [None] all along the loop. *)
Definition pool_step (m : t) (concated_locs : tensor A) (h w : Z)
  (st : list (tensor A) * list (tensor A)) (pool_ratio : Z)
  : result (list (tensor A) * list (tensor A)) :=
  let '(pools, p_poses) := st in
  qh <- truediv (inject_Z h) (inject_Z pool_ratio) ;;
  qw <- truediv (inject_Z w) (inject_Z pool_ratio) ;;
  let tgt_hw := (py_round qh, py_round qw) in
  pool <- adaptive_avg_pool2d concated_locs tgt_hw ;;
  r <- rearrange pool [["b"]; ["c"]; ["h"]; ["w"]] [["h"; "w"]; ["b"]; ["c"]] [] ;;
  match zshape pool with
  | [pb; _; ph; pw] =>
      pos_emb <- PositionEmbeddingSine.call (positional_encoding m) pb ph pw ;;
      pos_emb <- rearrange pos_emb [["b"]; ["c"]; ["h"]; ["w"]]
                                   [["h"; "w"]; ["b"]; ["c"]] [] ;;
      Ok (pools ++ [r], p_poses ++ [pos_emb])
  | _ => Raise (IndexError "tuple index out of range")
  end.

Definition forward (m : t) (l g : tensor A) : result (tensor A) :=
  match zshape l with
  | [b; c; h; w] =>
      concated_locs <- rearrange l [["hg"; "wg"; "b"]; ["c"]; ["h"]; ["w"]]
                                   [["b"]; ["c"]; ["hg"; "h"]; ["wg"; "w"]]
                                   [("hg", 2); ("wg", 2)] ;;
      st <- foldM (pool_step m concated_locs h w) (pool_ratios m) ([], []) ;;
      let '(pools, p_poses) := st in
      pools <- cat pools 0 ;;
      p_poses <- cat p_poses 0 ;;
      g_pos <- match zshape g with
               | [gb; _; gh; gw] =>
                   pos_emb <- PositionEmbeddingSine.call
                                (positional_encoding m) gb gh gw ;;
                   rearrange pos_emb [["b"]; ["c"]; ["h"]; ["w"]]
                                     [["h"; "w"]; ["b"]; ["c"]] []
               | _ => Raise (IndexError "tuple index out of range")
               end ;;
      g_hw_b_c <- rearrange g [["b"]; ["c"]; ["h"]; ["w"]]
                              [["h"; "w"]; ["b"]; ["c"]] [] ;;
      query <- broadcast2 add g_hw_b_c g_pos ;;
      key <- broadcast2 add pools p_poses ;;
      attention0 <- list_item (attention m) 0 ;;
      a <- MultiheadAttention.forward attention0 query key pools ;;
      g_hw_b_c <- broadcast2 add g_hw_b_c (Dropout_forward a) ;;
      g_hw_b_c <- LayerNorm_forward (norm1 m) g_hw_b_c ;;
      f <- Linear_forward (linear1 m) g_hw_b_c ;;
      f <- Linear_forward (linear2 m) (Dropout_forward (map_t gelu f)) ;;
      g_hw_b_c <- broadcast2 add g_hw_b_c (Dropout_forward f) ;;
      g_hw_b_c <- LayerNorm_forward (norm2 m) g_hw_b_c ;;
      l_hw_b_c <- rearrange l [["b"]; ["c"]; ["h"]; ["w"]]
                              [["h"; "w"]; ["b"]; ["c"]] [] ;;
      _g_hw_b_c <- rearrange g_hw_b_c [["h"; "w"]; ["b"]; ["c"]]
                                      [["h"]; ["w"]; ["b"]; ["c"]]
                                      [("h", Z.to_nat h); ("w", Z.to_nat w)] ;;
      _g_hw_b_c <- rearrange _g_hw_b_c [["ng"; "h"]; ["nw"; "w"]; ["b"]; ["c"]]
                                       [["h"; "w"]; ["ng"; "nw"; "b"]; ["c"]]
                                       [("ng", 2); ("nw", 2)] ;;
      l_chunks <- chunk l_hw_b_c 4 1 ;;
      g_chunks <- chunk _g_hw_b_c 4 1 ;;
      outputs_re <- mapM (fun '(i, (_l, _g)) =>
                            att <- list_item (attention m) (i + 1) ;;
                            MultiheadAttention.forward att _l _g _g)
                         (enumerate (zip l_chunks g_chunks)) ;;
      outputs_re <- cat outputs_re 1 ;;
      l_hw_b_c <- broadcast2 add l_hw_b_c (Dropout_forward outputs_re) ;;
      l_hw_b_c <- LayerNorm_forward (norm1 m) l_hw_b_c ;;
      f <- Linear_forward (linear3 m) l_hw_b_c ;;
      f <- Linear_forward (linear4 m) (Dropout_forward (map_t gelu f)) ;;
      l_hw_b_c <- broadcast2 add l_hw_b_c (Dropout_forward f) ;;
      l_hw_b_c <- LayerNorm_forward (norm2 m) l_hw_b_c ;;
      l <- cat [l_hw_b_c; g_hw_b_c] 1 ;;
      rearrange l [["h"; "w"]; ["b"]; ["c"]] [["b"]; ["c"]; ["h"]; ["w"]]
                  [("h", Z.to_nat h); ("w", Z.to_nat w)]
  | _ => Raise (ValueError "not enough values to unpack")
  end.

End Def.
Arguments t A : clear implicits.
End MCLM.

(** ** MCRM (demo.py, lines 429-472) *)

Module MCRM.
Section Def.
Context {A : Type} {NA : Num A} {EA : Elementary A}.

Record t : Type := {
  attention : list (MultiheadAttention.t A);
  linear3 : Linear A;
  linear4 : Linear A;
  norm1 : LayerNorm A;
  norm2 : LayerNorm A;
  sal_conv : Conv2d A;
  pool_ratios : list Z
}.

Definition init (ps : params A) (name : string) (d_model num_heads : Z)
  (pool_ratios : list Z) : result t :=
  attention <- mapM (fun i => MultiheadAttention.init ps
                                (name ++ ".attention." ++ string_of_nat i)
                                d_model num_heads)
                    (seq 0 4) ;;
  linear3 <- Linear_init ps (name ++ ".linear3") d_model (d_model * 2) true ;;
  linear4 <- Linear_init ps (name ++ ".linear4") (d_model * 2) d_model true ;;
  norm1 <- LayerNorm_init ps (name ++ ".norm1") d_model ;;
  norm2 <- LayerNorm_init ps (name ++ ".norm2") d_model ;;
  sal_conv <- Conv2d_init ps (name ++ ".sal_conv") d_model 1
                (to_2tuple 1) (to_2tuple 1) (to_2tuple 0) ;;
  Ok {| attention := attention; linear3 := linear3; linear4 := linear4;
        norm1 := norm1; norm2 := norm2; sal_conv := sal_conv;
        pool_ratios := pool_ratios |}.

(** The body of the loop over the pool ratios (lines 448-451). *)
Definition pool_step (patched_glb : tensor A) (h w : Z)
  (pools : list (tensor A)) (pool_ratio : Z) : result (list (tensor A)) :=
  qh <- truediv (inject_Z h) (inject_Z pool_ratio) ;;
  qw <- truediv (inject_Z w) (inject_Z pool_ratio) ;;
  let tgt_hw := (py_round qh, py_round qw) in
  pool <- adaptive_avg_pool2d patched_glb tgt_hw ;;
  r <- rearrange pool [["nl"]; ["c"]; ["h"]; ["w"]] [["nl"]; ["c"]; ["h"; "w"]] [] ;;
  Ok (pools ++ [r]).

(** The result and the token attention map. *)
Definition forward (m : t) (x : tensor A) : result (tensor A * tensor A) :=
  match zshape x with
  | [b; c; h; w] =>
      parts <- split x [4; 1]%Z 0 ;;
      match parts with
      | [loc; glb] =>
          patched_glb <- image2patches glb ;;
          s <- Conv2d_forward (sal_conv m) glb ;;
          let token_attention_map := map_t sigmoid s in
          whole <- patches2image loc ;;
          token_attention_map <- interpolate token_attention_map
                                   (Some (last2 (zshape whole))) None Nearest ;;
          tam <- image2patches token_attention_map ;;
          loc <- broadcast2 mul loc tam ;;
          pools <- foldM (pool_step patched_glb h w) (pool_ratios m) [] ;;
          pools <- cat pools 2 ;;
          pools <- rearrange pools [["nl"]; ["c"]; ["nphw"]]
                                   [["nl"]; ["nphw"]; []; ["c"]] [] ;;
          loc_ <- rearrange loc [["nl"]; ["c"]; ["h"]; ["w"]]
                                [["nl"]; ["h"; "w"]; []; ["c"]] [] ;;
          queries <- unbind loc_ 0 ;;
          outputs <- mapM (fun '(i, q) =>
                             v <- getitem pools [At (Z.of_nat i)] ;;
                             let k := v in
                             att <- list_item (attention m) i ;;
                             MultiheadAttention.forward att q k v)
                          (enumerate queries) ;;
          outputs <- cat outputs 1 ;;
          src <- view loc [4; c; -1]%Z ;;
          src <- permute src [2; 0; 1] ;;
          src <- broadcast2 add src (Dropout_forward outputs) ;;
          src <- LayerNorm_forward (norm1 m) src ;;
          f <- Linear_forward (linear3 m) src ;;
          f <- Linear_forward (linear4 m) (Dropout_forward (map_t gelu f)) ;;
          src <- broadcast2 add src (Dropout_forward f) ;;
          src <- LayerNorm_forward (norm2 m) src ;;
          src <- permute src [1; 2; 0] ;;
          src <- view (contiguous src) [4; c; h; w]%Z ;;
          whole <- patches2image src ;;
          up <- interpolate whole (Some (last2 (zshape glb))) None Nearest ;;
          glb <- broadcast2 add glb up ;;
          out <- cat [src; glb] 0 ;;
          Ok (out, token_attention_map)
      | _ => Raise (ValueError "not enough values to unpack")
      end
  | _ => Raise (ValueError "not enough values to unpack")
  end.

End Def.
Arguments t A : clear implicits.
End MCRM.

(** ** PatchEmbed and SwinTransformer (demo.py, lines 227-316) *)

Module PatchEmbed.
Section Def.
Context {A : Type} {NA : Num A} {EA : Elementary A}.

Record t : Type := {
  patch_size : Z * Z;
  in_chans : Z;
  embed_dim : Z;
  proj : Conv2d A;
  norm : option (LayerNorm A)
}.

Definition init (ps : params A) (name : string) (patch_size in_chans embed_dim : Z)
  (norm_layer : bool) : result t :=
  let patch_size := to_2tuple patch_size in
  proj <- Conv2d_init ps (name ++ ".proj") in_chans embed_dim
            patch_size patch_size (to_2tuple 0) ;;
  norm <- (if norm_layer
           then n <- LayerNorm_init ps (name ++ ".norm") embed_dim ;; Ok (Some n)
           else Ok None) ;;
  Ok {| patch_size := patch_size; in_chans := in_chans; embed_dim := embed_dim;
        proj := proj; norm := norm |}.

Definition forward (m : t) (x : tensor A) : result (tensor A) :=
  match zshape x with
  | [_; _; H; W] =>
      wm <- pymod W (snd (patch_size m)) ;;
      x <- (if negb (wm =? 0)%Z
            then pad x [0; snd (patch_size m) - wm]%Z (of_Q 0%Q)
            else Ok x) ;;
      hm <- pymod H (fst (patch_size m)) ;;
      x <- (if negb (hm =? 0)%Z
            then pad x [0; 0; 0; fst (patch_size m) - hm]%Z (of_Q 0%Q)
            else Ok x) ;;
      x <- Conv2d_forward (proj m) x ;;
      match norm m with
      | Some norm =>
          match zshape x with
          | [_; _; Wh; Ww] =>
              let x := flatten_from x 2 in
              x <- transpose x 1 2 ;;
              x <- LayerNorm_forward norm x ;;
              x <- transpose x 1 2 ;;
              view x [-1; embed_dim m; Wh; Ww]%Z
          | _ => Raise (IndexError "dimension out of range")
          end
      | None => Ok x
      end
  | _ => Raise (ValueError "not enough values to unpack")
  end.

End Def.
Arguments t A : clear implicits.
End PatchEmbed.

(** The backbone is built with the default patch size 4, three input
    channels, MLP ratio 4, biased qkv, patch normalisation, all four output
    indices and without the absolute position embedding ([ape=False]), whose
    branch is left out. *)
Module SwinTransformer.
Section Def.
Context {A : Type} {NA : Num A} {EA : Elementary A}.

Record t : Type := {
  num_layers : nat;
  embed_dim : Z;
  out_indices : list nat;
  patch_embed : PatchEmbed.t A;
  layers : list (BasicLayer.t A);
  num_features : list Z;
  norms : list (nat * LayerNorm A)
}.

(** [getattr(self, f'norm{i}')]. *)
Fixpoint get_norm (norms : list (nat * LayerNorm A)) (i : nat)
  : result (LayerNorm A) :=
  match norms with
  | [] => Raise (AttributeError "object has no attribute norm{i}")
  | (j, n) :: rest => if i =? j then Ok n else get_norm rest i
  end.

Definition init (ps : params A) (name : string) (embed_dim : Z)
  (depths num_heads : list Z) (window_size : Z) : result t :=
  let num_layers := length depths in
  let out_indices := [0; 1; 2; 3] in
  patch_embed <- PatchEmbed.init ps (name ++ ".patch_embed") 4 3 embed_dim true ;;
  layers <- mapM (fun i_layer =>
                    depth <- list_item depths i_layer ;;
                    heads <- list_item num_heads i_layer ;;
                    BasicLayer.init ps (name ++ ".layers." ++ string_of_nat i_layer)
                      (embed_dim * 2 ^ Z.of_nat i_layer)%Z depth heads window_size
                      4%Q true None (i_layer <? num_layers - 1))
                 (seq 0 num_layers) ;;
  let num_features := map (fun i => (embed_dim * 2 ^ Z.of_nat i)%Z)
                          (seq 0 num_layers) in
  norms <- mapM (fun i_layer =>
                   nf <- list_item num_features i_layer ;;
                   layer <- LayerNorm_init ps (name ++ ".norm" ++ string_of_nat i_layer) nf ;;
                   Ok (i_layer, layer))
                out_indices ;;
  Ok {| num_layers := num_layers; embed_dim := embed_dim;
        out_indices := out_indices; patch_embed := patch_embed;
        layers := layers; num_features := num_features; norms := norms |}.

(** The body of the loop over the stages (lines 306-313). *)
Definition layer_step (m : t) (st : tensor A * Z * Z * list (tensor A)) (i : nat)
  : result (tensor A * Z * Z * list (tensor A)) :=
  let '(x, Wh, Ww, outs) := st in
  layer <- list_item (layers m) i ;;
  ' (x_out, H, W, x, Wh, Ww) <- BasicLayer.forward layer x Wh Ww ;;
  if existsb (Nat.eqb i) (out_indices m) then
    norm_layer <- get_norm (norms m) i ;;
    x_out <- LayerNorm_forward norm_layer x_out ;;
    nf <- list_item (num_features m) i ;;
    out <- view x_out [-1; H; W; nf]%Z ;;
    out <- permute out [0; 3; 1; 2] ;;
    Ok (x, Wh, Ww, outs ++ [contiguous out])
  else Ok (x, Wh, Ww, outs).

Definition forward (m : t) (x : tensor A) : result (list (tensor A)) :=
  x <- PatchEmbed.forward (patch_embed m) x ;;
  match zshape x with
  | [_; _; Wh; Ww] =>
      let outs := [contiguous x] in
      let x := flatten_from x 2 in
      x <- transpose x 1 2 ;;
      let x := Dropout_forward x in
      st <- foldM (layer_step m) (seq 0 (num_layers m)) (x, Wh, Ww, outs) ;;
      let '(_, _, _, outs) := st in
      Ok outs
  | _ => Raise (IndexError "dimension out of range")
  end.

End Def.
Arguments t A : clear implicits.
End SwinTransformer.

(** ** BEN_Base (demo.py, lines 474-568) *)

Section Helpers.
Context {A : Type} {NA : Num A} {EA : Elementary A}.

(** [make_cbr] and [make_cbg] (lines 321-325): a 3 x 3 convolution with
    padding 1, an instance normalisation and a GELU. *)
Definition make_cbr (ps : params A) (name : string) (in_dim out_dim : Z)
  : result (Conv2d A) :=
  Conv2d_init ps (name ++ ".0") in_dim out_dim (to_2tuple 3) (to_2tuple 1) (to_2tuple 1).

Definition make_cbg (ps : params A) (name : string) (in_dim out_dim : Z)
  : result (Conv2d A) :=
  Conv2d_init ps (name ++ ".0") in_dim out_dim (to_2tuple 3) (to_2tuple 1) (to_2tuple 1).

Definition cbr_forward (m : Conv2d A) (x : tensor A) : result (tensor A) :=
  x <- Conv2d_forward m x ;;
  x <- InstanceNorm2d_forward x ;;
  Ok (GELU_forward x).

(** [rescale_to] and [resize_as] (lines 327-331). *)
Definition rescale_to (x : tensor A) (scale_factor : Q) (interpolation : interp_mode)
  : result (tensor A) :=
  interpolate x None (Some scale_factor) interpolation.

Definition resize_as (x y : tensor A) (interpolation : interp_mode)
  : result (tensor A) :=
  interpolate x (Some (last2 (zshape y))) None interpolation.

(** [x.size(d)]. *)
Definition size_at (x : tensor A) (d : Z) : result Z :=
  k <- normal_dim d (length (shape x)) ;; Ok (Z.of_nat (nth k (shape x) 0)).

(** [range(n)]. *)
Definition range (n : Z) : list Z := map Z.of_nat (seq 0 (Z.to_nat n)).

End Helpers.

Module BEN_Base.
Section Def.
Context {A : Type} {NA : Num A} {EA : Elementary A}.

Record t : Type := {
  backbone : SwinTransformer.t A;
  sideout5 : Conv2d A;
  sideout4 : Conv2d A;
  sideout3 : Conv2d A;
  sideout2 : Conv2d A;
  sideout1 : Conv2d A;
  output5 : Conv2d A;
  output4 : Conv2d A;
  output3 : Conv2d A;
  output2 : Conv2d A;
  output1 : Conv2d A;
  multifieldcrossatt : MCLM.t A;
  conv1 : Conv2d A;
  conv2 : Conv2d A;
  conv3 : Conv2d A;
  conv4 : Conv2d A;
  dec_blk1 : MCRM.t A;
  dec_blk2 : MCRM.t A;
  dec_blk3 : MCRM.t A;
  dec_blk4 : MCRM.t A;
  insmask_head : Conv2d A * Conv2d A * Conv2d A;
  shallow : Conv2d A;
  upsample1 : Conv2d A;
  upsample2 : Conv2d A;
  output : Conv2d A
}.

Definition conv3x3 (ps : params A) (name : string) (in_dim out_dim : Z)
  : result (Conv2d A) :=
  Conv2d_init ps name in_dim out_dim (to_2tuple 3) (to_2tuple 1) (to_2tuple 1).

Definition init (ps : params A) : result t :=
  backbone <- SwinTransformer.init ps "backbone" 128 [2; 2; 18; 2]%Z
                [4; 8; 16; 32]%Z 12 ;;
  let emb_dim := 128%Z in
  sideout5 <- conv3x3 ps "sideout5.0" emb_dim 1 ;;
  sideout4 <- conv3x3 ps "sideout4.0" emb_dim 1 ;;
  sideout3 <- conv3x3 ps "sideout3.0" emb_dim 1 ;;
  sideout2 <- conv3x3 ps "sideout2.0" emb_dim 1 ;;
  sideout1 <- conv3x3 ps "sideout1.0" emb_dim 1 ;;
  output5 <- make_cbr ps "output5" 1024 emb_dim ;;
  output4 <- make_cbr ps "output4" 512 emb_dim ;;
  output3 <- make_cbr ps "output3" 256 emb_dim ;;
  output2 <- make_cbr ps "output2" 128 emb_dim ;;
  output1 <- make_cbr ps "output1" 128 emb_dim ;;
  multifieldcrossatt <- MCLM.init ps "multifieldcrossatt" emb_dim 1 [1; 4; 8]%Z ;;
  conv1 <- make_cbr ps "conv1" emb_dim emb_dim ;;
  conv2 <- make_cbr ps "conv2" emb_dim emb_dim ;;
  conv3 <- make_cbr ps "conv3" emb_dim emb_dim ;;
  conv4 <- make_cbr ps "conv4" emb_dim emb_dim ;;
  dec_blk1 <- MCRM.init ps "dec_blk1" emb_dim 1 [2; 4; 8]%Z ;;
  dec_blk2 <- MCRM.init ps "dec_blk2" emb_dim 1 [2; 4; 8]%Z ;;
  dec_blk3 <- MCRM.init ps "dec_blk3" emb_dim 1 [2; 4; 8]%Z ;;
  dec_blk4 <- MCRM.init ps "dec_blk4" emb_dim 1 [2; 4; 8]%Z ;;
  head0 <- conv3x3 ps "insmask_head.0" emb_dim 384 ;;
  head3 <- conv3x3 ps "insmask_head.3" 384 384 ;;
  head6 <- conv3x3 ps "insmask_head.6" 384 emb_dim ;;
  shallow <- conv3x3 ps "shallow.0" 3 emb_dim ;;
  upsample1 <- make_cbg ps "upsample1" emb_dim emb_dim ;;
  upsample2 <- make_cbg ps "upsample2" emb_dim emb_dim ;;
  output <- conv3x3 ps "output.0" emb_dim 1 ;;
  Ok {| backbone := backbone;
        sideout5 := sideout5; sideout4 := sideout4; sideout3 := sideout3;
        sideout2 := sideout2; sideout1 := sideout1;
        output5 := output5; output4 := output4; output3 := output3;
        output2 := output2; output1 := output1;
        multifieldcrossatt := multifieldcrossatt;
        conv1 := conv1; conv2 := conv2; conv3 := conv3; conv4 := conv4;
        dec_blk1 := dec_blk1; dec_blk2 := dec_blk2; dec_blk3 := dec_blk3;
        dec_blk4 := dec_blk4;
        insmask_head := (head0, head3, head6);
        shallow := shallow; upsample1 := upsample1; upsample2 := upsample2;
        output := output |}.

(** [self.insmask_head]: three convolutions, the first two followed by an
    instance normalisation and a GELU. *)
Definition insmask_head_forward (m : t) (x : tensor A) : result (tensor A) :=
  let '(head0, head3, head6) := insmask_head m in
  x <- cbr_forward head0 x ;;
  x <- cbr_forward head3 x ;;
  Conv2d_forward head6 x.

(** The five tiles of image [i]: its four quadrants, then its
    half-resolution view (lines 525-526). *)
Definition tiles (x glb_batch : tensor A) (i : Z) : result (tensor A) :=
  xi <- getitem x [At i; full; full; full] ;;
  xi <- unsqueeze xi 0 ;;
  loc_batch <- image2patches xi ;;
  gi <- getitem glb_batch [At i; full; full; full] ;;
  gi <- unsqueeze gi 0 ;;
  cat [loc_batch; gi] 0.

(** Lines 527-530: the tiles of image [i] are appended to the batch. *)
Definition input_step (x glb_batch : tensor A) (final_input : option (tensor A))
  (i : Z) : result (option (tensor A)) :=
  input_ <- tiles x glb_batch i ;;
  match final_input with
  | None => Ok (Some input_)
  | Some f => c <- cat [f; input_] 0 ;; Ok (Some c)
  end.

(** Lines 521-530: the batch of all tiles. *)
Definition build_input (x glb_batch : tensor A) (real_batch : Z)
  : result (option (tensor A)) :=
  foldM (input_step x glb_batch) (range real_batch) None.

(** Lines 534-567: the decoder on the features of image [i]. *)
Definition decode (m : t) (features : list (tensor A)) (shallow_batch : tensor A)
  (i : Z) : result (tensor A) :=
  let start := (i * 5)%Z in
  let end_ := ((i + 1) * 5)%Z in
  let rows (k : nat) :=
    f <- list_item features k ;;
    getitem f [Slice (Some start) (Some end_) 1; full; full; full] in
  f4 <- rows 4 ;;
  f3 <- rows 3 ;;
  f2 <- rows 2 ;;
  f1 <- rows 1 ;;
  f0 <- rows 0 ;;
  e5 <- cbr_forward (output5 m) f4 ;;
  e4 <- cbr_forward (output4 m) f3 ;;
  e3 <- cbr_forward (output3 m) f2 ;;
  e2 <- cbr_forward (output2 m) f1 ;;
  e1 <- cbr_forward (output1 m) f0 ;;
  parts <- split e5 [4; 1]%Z 0 ;;
  match parts with
  | [loc_e5; glb_e5] =>
      e5 <- MCLM.forward (multifieldcrossatt m) loc_e5 glb_e5 ;;
      r <- resize_as e5 e4 Bilinear ;;
      s <- broadcast2 add e4 r ;;
      ' (e4, tokenattmap4) <- MCRM.forward (dec_blk4 m) s ;;
      e4 <- cbr_forward (conv4 m) e4 ;;
      r <- resize_as e4 e3 Bilinear ;;
      s <- broadcast2 add e3 r ;;
      ' (e3, tokenattmap3) <- MCRM.forward (dec_blk3 m) s ;;
      e3 <- cbr_forward (conv3 m) e3 ;;
      r <- resize_as e3 e2 Bilinear ;;
      s <- broadcast2 add e2 r ;;
      ' (e2, tokenattmap2) <- MCRM.forward (dec_blk2 m) s ;;
      e2 <- cbr_forward (conv2 m) e2 ;;
      r <- resize_as e2 e1 Bilinear ;;
      s <- broadcast2 add e1 r ;;
      ' (e1, tokenattmap1) <- MCRM.forward (dec_blk1 m) s ;;
      e1 <- cbr_forward (conv1 m) e1 ;;
      parts <- split e1 [4; 1]%Z 0 ;;
      match parts with
      | [loc_e1; glb_e1] =>
          output1_cat <- patches2image loc_e1 ;;
          r <- resize_as glb_e1 output1_cat Bilinear ;;
          output1_cat <- broadcast2 add output1_cat r ;;
          final_output <- insmask_head_forward m output1_cat ;;
          shallow <- getitem shallow_batch [At i; full; full; full] ;;
          shallow <- unsqueeze shallow 0 ;;
          r <- resize_as shallow final_output Bilinear ;;
          final_output <- broadcast2 add final_output r ;;
          up <- rescale_to final_output 2 Nearest ;;
          final_output <- cbr_forward (upsample1 m) up ;;
          r <- resize_as shallow final_output Bilinear ;;
          s <- broadcast2 add final_output r ;;
          final_output <- rescale_to s 2 Nearest ;;
          final_output <- cbr_forward (upsample2 m) final_output ;;
          final_output <- Conv2d_forward (output m) final_output ;;
          let mask := map_t sigmoid final_output in
          Ok mask
      | _ => Raise (ValueError "not enough values to unpack")
      end
  | _ => Raise (ValueError "not enough values to unpack")
  end.

Definition forward (m : t) (x : tensor A) : result (tensor A) :=
  real_batch <- size_at x 0 ;;
  shallow_batch <- Conv2d_forward (shallow m) x ;;
  glb_batch <- rescale_to x (1 # 2) Bilinear ;;
  final_input <- build_input x glb_batch real_batch ;;
  features <- match final_input with
              | Some f => SwinTransformer.forward (backbone m) f
              | None => Raise (AttributeError "NoneType object has no attribute size")
              end ;;
  outputs <- mapM (decode m features shallow_batch) (range real_batch) ;;
  cat outputs 0.

End Def.
Arguments t A : clear implicits.
End BEN_Base.

(** ** postprocess_image (lines 667-673)

    The mask is a float32 tensor.  A finite float is the rational number
    it denotes, and every operation rounds its exact result to the nearest
    binary32 value, ties to even, as IEEE 754 prescribes. *)

Inductive fl : Type :=
| Fin (q : Q)
| PInf
| NInf
| NaN.

#[global] Instance Default_fl : Default fl := Fin 0%Q.
#[global] Instance Default_option {X : Type} : Default (option X) := None.

(** Nearest integer to [n / d] for [0 < d], ties to the even one. *)
Definition round_half_even (n d : Z) : Z :=
  let k := (n / d)%Z in
  match (2 * (n mod d) ?= d)%Z with
  | Lt => k
  | Gt => (k + 1)%Z
  | Eq => if Z.even k then k else (k + 1)%Z
  end.

(** Every finite binary32 value is an integer number of units [2^-149].
    A magnitude with integer part [F], in units, has its leading bit at
    [Z.log2 F]; 24 significant bits leave a spacing of
    [2 ^ (Z.log2 F - 23)] units, and of one unit for the subnormal
    numbers. *)
Definition f32_spacing (F : Z) : Z := (2 ^ Z.max 0 (Z.log2 F - 23))%Z.

(** Rounding of [n / d] units, [0 <= n] and [0 < d], to a number of units. *)
Definition rnd32_units (n d : Z) : Z :=
  let u := f32_spacing (n / d) in
  (round_half_even n (d * u) * u)%Z.

(** Rounding of a non-negative rational: a result of [2^128] or more
    overflows to the infinity. *)
Definition rnd32_abs (q : Q) : fl :=
  let m := rnd32_units (Qnum q * 2 ^ 149) (Zpos (Qden q)) in
  if (2 ^ 277 <=? m)%Z then PInf else Fin (Qred (m # 2 ^ 149)).

Definition fl_opp (x : fl) : fl :=
  match x with
  | Fin q => Fin (- q)
  | PInf => NInf
  | NInf => PInf
  | NaN => NaN
  end.

(** Round to nearest, ties to even. *)
Definition rnd32 (q : Q) : fl :=
  if Qle_bool 0 q then rnd32_abs q else fl_opp (rnd32_abs (- q)).

(** A float32 value: a NaN, an infinity or a rational that the rounding
    leaves unchanged. *)
Definition is_f32 (x : fl) : bool :=
  match x with
  | Fin q => match rnd32 q with Fin y => Qeq_bool y q | _ => false end
  | _ => true
  end.



(** The IEEE operations.  The sign of a zero is not represented: no result
    of [postprocess_image] depends on it, as its only division by a zero
    has a zero numerator. *)
Definition f32_add (x y : fl) : fl :=
  match x, y with
  | NaN, _ | _, NaN => NaN
  | PInf, NInf | NInf, PInf => NaN
  | PInf, _ | _, PInf => PInf
  | NInf, _ | _, NInf => NInf
  | Fin a, Fin b => rnd32 (a + b)
  end.

Definition f32_sub (x y : fl) : fl := f32_add x (fl_opp y).

(** Sign of a value that is not a NaN: -1, 0 or 1. *)
Definition fl_sgn (x : fl) : Z :=
  match x with
  | Fin q => Z.sgn (Qnum q)
  | PInf => 1
  | NInf => (-1)
  | NaN => 0
  end.

(** The infinity of sign [s], a NaN when [s] is zero. *)
Definition fl_inf (s : Z) : fl :=
  if (s =? 0)%Z then NaN else if (0 <? s)%Z then PInf else NInf.

Definition f32_mul (x y : fl) : fl :=
  match x, y with
  | NaN, _ | _, NaN => NaN
  | Fin a, Fin b => rnd32 (a * b)
  | _, _ => fl_inf (fl_sgn x * fl_sgn y)
  end.

Definition f32_div (x y : fl) : fl :=
  match x, y with
  | NaN, _ | _, NaN => NaN
  | Fin a, Fin b => if Qis_zero b then fl_inf (fl_sgn x) else rnd32 (a / b)
  | Fin _, _ => Fin 0
  | _, Fin b => fl_inf (fl_sgn x * (if Qle_bool 0 b then 1 else (-1)))
  | _, _ => NaN
  end.

(** *** The IEEE specification of the Standard Library

    [SpecFloat] specifies the operations of every binary format; binary32
    has 24 bits of precision and exponents below 128.  The operations
    above are compared with it on pseudo-random operands, large, small
    and subnormal; the quotient by a zero is left out, as its sign is that
    of the zero. *)
Definition of_spec_float (x : SpecFloat.spec_float) : fl :=
  match x with
  | SpecFloat.S754_zero _ => Fin 0
  | SpecFloat.S754_infinity false => PInf
  | SpecFloat.S754_infinity true => NInf
  | SpecFloat.S754_nan => NaN
  | SpecFloat.S754_finite s m e =>
      let v := if (0 <=? e)%Z then inject_Z (Zpos m * 2 ^ e)
               else Qmake (Zpos m) (Z.to_pos (2 ^ (- e))) in
      Fin (Qred (if s then - v else v))
  end.

Definition fl_same (x y : fl) : bool :=
  match x, y with
  | Fin a, Fin b => (Qnum a =? Qnum b)%Z && (Qden a =? Qden b)%positive
  | PInf, PInf | NInf, NInf | NaN, NaN => true
  | _, _ => false
  end.

Definition f32_agree (x y : SpecFloat.spec_float) : bool :=
  let a := of_spec_float x in
  let b := of_spec_float y in
  fl_same (of_spec_float (SpecFloat.SFadd 24 128 x y)) (f32_add a b)
  && fl_same (of_spec_float (SpecFloat.SFsub 24 128 x y)) (f32_sub a b)
  && fl_same (of_spec_float (SpecFloat.SFmul 24 128 x y)) (f32_mul a b)
  && (fl_same b (Fin 0)
      || fl_same (of_spec_float (SpecFloat.SFdiv 24 128 x y)) (f32_div a b)).

(** Pseudo-random float32 numbers [m * 2^e], with [|m| <= 2^24] and [e]
    in a window of [width] exponents from [low] on. *)
Definition next_seed (s : Z) : Z :=
  ((s * 6364136223846793005 + 1442695040888963407) mod 2 ^ 64)%Z.

Definition sample (low width s : Z) : SpecFloat.spec_float :=
  let m := ((s / 2 ^ 20) mod 2 ^ 25 - 2 ^ 24)%Z in
  let e := (low + (next_seed s / 2 ^ 20) mod width)%Z in
  SpecFloat.binary_normalize 24 128 m e false.

Fixpoint f32_agree_on (low width : Z) (n : nat) (s : Z) : bool :=
  match n with
  | O => true
  | S n' =>
      let s1 := next_seed (next_seed s) in
      let s2 := next_seed (next_seed s1) in
      f32_agree (sample low width s) (sample low width s1)
      && f32_agree_on low width n' s2
  end.

(** [x <= y] and [x < y]: false when one side is a NaN. *)
Definition fl_leb (x y : fl) : bool :=
  match x, y with
  | NaN, _ | _, NaN => false
  | NInf, _ | _, PInf => true
  | Fin a, Fin b => Qle_bool a b
  | _, _ => false
  end.

Definition fl_ltb (x y : fl) : bool := fl_leb x y && negb (fl_leb y x).

(** [astype(np.uint8)]: a finite value is truncated towards zero.  The C
    conversion is undefined for a NaN, an infinity and a value whose
    truncation is outside [0, 255]; [None] stands for such a byte. *)
Definition to_uint8 (x : fl) : option Z :=
  match x with
  | Fin q =>
      let z := py_int q in
      if ((0 <=? z) && (z <=? 255))%Z then Some z else None
  | _ => None
  end.

(** [torch.max(t)] and [torch.min(t)] over all elements: a NaN element
    makes the result a NaN. *)
Definition fl_max2 (a b : fl) : fl :=
  match a, b with
  | NaN, _ | _, NaN => NaN
  | _, _ => if fl_leb a b then b else a
  end.

Definition fl_min2 (a b : fl) : fl :=
  match a, b with
  | NaN, _ | _, NaN => NaN
  | _, _ => if fl_leb a b then a else b
  end.

Definition tensor_max (t : tensor fl) : result fl :=
  match data t with
  | [] => Raise (RuntimeError "max(): expected a non-empty tensor")
  | v :: l => Ok (fold_left fl_max2 l v)
  end.

Definition tensor_min (t : tensor fl) : result fl :=
  match data t with
  | [] => Raise (RuntimeError "min(): expected a non-empty tensor")
  | v :: l => Ok (fold_left fl_min2 l v)
  end.

Section Squeeze.
Context {A : Type} {DA : Default A}.

(** [torch.squeeze(t, 0)]. *)
Definition squeeze0 (t : tensor A) : tensor A :=
  match shape t with
  | 1 :: s => mkT s (data t)
  | _ => t
  end.

(** [np.squeeze(t)]: every axis of length one is dropped. *)
Definition np_squeeze (t : tensor A) : tensor A :=
  mkT (filter (fun d => negb (d =? 1)) (shape t)) (data t).

End Squeeze.

(** [(result - mi) / (ma - mi) * 255] for one element. *)
Definition scaled_value (mi ma v : fl) : fl :=
  f32_mul (f32_div (f32_sub v mi) (f32_sub ma mi)) (Fin 255).

Section Postprocess.

(** [F.interpolate(result, size=im_size, mode='bilinear')] on a float32
    tensor.  Which of its kernels PyTorch runs, and so the rounding of
    the resized values, depends on the sizes and on the device; the
    normalisation is modelled for whatever tensor the resize returns. *)
Variable bilinear : tensor fl -> list Z -> result (tensor fl).

(** The resized mask and its normalisation, before the cast to bytes. *)
Definition resized (result_ : tensor fl) (im_size : list Z) : result (tensor fl) :=
  r <- bilinear result_ im_size ;; Ok (squeeze0 r).

Definition postprocess_scaled (result_ : tensor fl) (im_size : list Z)
  : result (tensor fl) :=
  r <- resized result_ im_size ;;
  ma <- tensor_max r ;;
  mi <- tensor_min r ;;
  Ok (map_t (scaled_value mi ma) r).

Definition postprocess_image (result_ : tensor fl) (im_size : list Z)
  : result (tensor (option Z)) :=
  scaled <- postprocess_scaled result_ im_size ;;
  p <- permute scaled [1; 2; 0] ;;
  let im_array := map_t to_uint8 p in
  Ok (np_squeeze im_array).

End Postprocess.

(** *** The bilinear resize of ATen on the CPU

    [upsample_bilinear2d] with [align_corners=False] and no scale factor,
    every product and sum rounded to float32. *)

(** [static_cast<float>] of an integer. *)
Definition f32_of_Z (z : Z) : fl := rnd32 (inject_Z z).

(** [floorf] of a finite value. *)
Definition fl_floor (x : fl) : Z :=
  match x with Fin q => Qfloor q | _ => 0%Z end.

(** [compute_source_index_and_lambda]: the two source indices of a
    destination index along one axis, and their weights. *)
Definition f32_source (in_size out_size dst : nat) : nat * nat * fl * fl :=
  if out_size =? in_size then (dst, dst, Fin 1, Fin 0)
  else
    let scale :=
      f32_div (f32_of_Z (Z.of_nat in_size)) (f32_of_Z (Z.of_nat out_size)) in
    let src :=
      f32_sub (f32_mul scale (f32_add (f32_of_Z (Z.of_nat dst)) (Fin (1 # 2))))
              (Fin (1 # 2)) in
    let src := if fl_ltb src (Fin 0) then Fin 0 else src in
    let i0 := Nat.min (Z.to_nat (fl_floor src)) (in_size - 1) in
    let lam := f32_sub src (f32_of_Z (Z.of_nat i0)) in
    let lam := if fl_ltb lam (Fin 0) then Fin 0 else lam in
    let lam := if fl_ltb (Fin 1) lam then Fin 1 else lam in
    (i0, i0 + (if i0 <? in_size - 1 then 1 else 0), f32_sub (Fin 1) lam, lam).

(** The kernel for small outputs weighs the four sources by the products
    of the weights; the generic kernel interpolates along the width, then
    along the height. *)
Definition upsample_bilinear2d (x : tensor fl) (size : list Z)
  : result (tensor fl) :=
  match shape x, size with
  | [N; C; H; W], [oh; ow] =>
      if (C =? 0) || (H =? 0) || (W =? 0) then
        Raise (RuntimeError "expected a non-empty 4D data tensor")
      else if ((oh <=? 0) || (ow <=? 0))%Z then
        Raise (RuntimeError "input and output sizes should be greater than 0")
      else
        Ok (tabulate [N; C; Z.to_nat oh; Z.to_nat ow]
              (fun idx =>
                 let n := nth 0 idx 0 in
                 let c := nth 1 idx 0 in
                 let '(h0, h1, h0lambda, h1lambda) :=
                   f32_source H (Z.to_nat oh) (nth 2 idx 0) in
                 let '(w0, w1, w0lambda, w1lambda) :=
                   f32_source W (Z.to_nat ow) (nth 3 idx 0) in
                 let v00 := get x [n; c; h0; w0] in
                 let v01 := get x [n; c; h0; w1] in
                 let v10 := get x [n; c; h1; w0] in
                 let v11 := get x [n; c; h1; w1] in
                 if (oh + ow <=? 128)%Z then
                   f32_add
                     (f32_add
                        (f32_add (f32_mul (f32_mul h0lambda w0lambda) v00)
                                 (f32_mul (f32_mul h0lambda w1lambda) v01))
                        (f32_mul (f32_mul h1lambda w0lambda) v10))
                     (f32_mul (f32_mul h1lambda w1lambda) v11)
                 else
                   f32_add
                     (f32_mul (f32_add (f32_mul v00 w0lambda) (f32_mul v01 w1lambda))
                              h0lambda)
                     (f32_mul (f32_add (f32_mul v10 w0lambda) (f32_mul v11 w1lambda))
                              h1lambda)))
  | [_; _; _; _], _ =>
      Raise (ValueError "size must have one entry per spatial dimension")
  | _, _ => Raise (RuntimeError "interpolate is modelled on 4D inputs")
  end.

(** ** Invariants of the decoder layers *)

(** A convolution with the given channels, kernel, stride and padding. *)
Definition Conv2d_ok {A : Type} (m : Conv2d A) (Ci Co : nat) (k s p : nat * nat)
  : Prop :=
  shape (conv_weight m) = [Co; Ci; fst k; snd k] /\
  conv_stride m = s /\ conv_padding m = p.

(** An attention module of embedding size [E]. *)
Definition MultiheadAttention_ok {A : Type} (m : MultiheadAttention.t A) (E : nat)
  : Prop :=
  MultiheadAttention.embed_dim m = E /\
  shape (lin_weight (MultiheadAttention.out_proj m)) = [E; E].

(** The multi-field cross attention of embedding size [E = 4 n]. *)
Definition MCLM_ok {A : Type} (m : MCLM.t A) (E n : nat) : Prop :=
  E = 4 * n /\
  length (MCLM.attention m) = 5 /\
  Forall (fun a => MultiheadAttention_ok a E) (MCLM.attention m) /\
  shape (lin_weight (MCLM.linear1 m)) = [2 * E; E] /\
  shape (lin_weight (MCLM.linear2 m)) = [E; 2 * E] /\
  shape (lin_weight (MCLM.linear3 m)) = [2 * E; E] /\
  shape (lin_weight (MCLM.linear4 m)) = [E; 2 * E] /\
  ln_size (MCLM.norm1 m) = E /\ ln_size (MCLM.norm2 m) = E /\
  PositionEmbeddingSine.normalize (MCLM.positional_encoding m) = true /\
  shape (PositionEmbeddingSine.dim_t (MCLM.positional_encoding m)) = [2 * n].

(** A pool ratio that leaves at least one row and one column. *)
Definition pool_ratio_ok (h w r : Z) : Prop :=
  (0 < r)%Z /\
  (0 < py_round (inject_Z h / inject_Z r))%Z /\
  (0 < py_round (inject_Z w / inject_Z r))%Z.

(** A list of token tensors of embedding size [E], of the given lengths. *)
Definition token_shapes {A : Type} (ts : list (tensor A)) (ds : list nat) (E : nat)
  : Prop :=
  map shape ts = map (fun d => [d; 1; E]) ds.

(** The refinement block of embedding size [E]. *)
Definition MCRM_ok {A : Type} (m : MCRM.t A) (E : nat) : Prop :=
  length (MCRM.attention m) = 4 /\
  Forall (fun a => MultiheadAttention_ok a E) (MCRM.attention m) /\
  shape (lin_weight (MCRM.linear3 m)) = [2 * E; E] /\
  shape (lin_weight (MCRM.linear4 m)) = [E; 2 * E] /\
  ln_size (MCRM.norm1 m) = E /\ ln_size (MCRM.norm2 m) = E /\
  Conv2d_ok (MCRM.sal_conv m) E 1 (1, 1) (1, 1) (0, 0).

(** A stage whose blocks have [C] channels, [heads] heads and window [ws]. *)
Definition BasicLayer_ok {A : Type} (m : BasicLayer.t A) (C heads ws : nat)
  (down : bool) : Prop :=
  BasicLayer.window_size m = Z.of_nat ws /\ 0 < ws /\
  Forall (fun blk => exists hidden, SwinTransformerBlock_ok blk C heads ws hidden)
         (BasicLayer.blocks m) /\
  match BasicLayer.downsample m with
  | Some d =>
      down = true /\
      shape (lin_weight (PatchMerging.reduction d)) = [2 * C; 4 * C] /\
      ln_size (PatchMerging.norm d) = 4 * C
  | None => down = false
  end.

(** The patch embedding with patch size 4 and [C] output channels. *)
Definition PatchEmbed_ok {A : Type} (m : PatchEmbed.t A) (C : nat) : Prop :=
  PatchEmbed.patch_size m = (4%Z, 4%Z) /\
  PatchEmbed.embed_dim m = Z.of_nat C /\
  Conv2d_ok (PatchEmbed.proj m) 3 C (4, 4) (4, 4) (0, 0) /\
  exists n, PatchEmbed.norm m = Some n /\ ln_size n = C.

(** The four-stage backbone: stage [i] has [2^i * heads] heads of size [hd]. *)
Definition SwinTransformer_ok {A : Type} (m : SwinTransformer.t A)
  (heads hd ws : nat) : Prop :=
  let C := heads * hd in
  SwinTransformer.num_layers m = 4 /\
  SwinTransformer.out_indices m = [0; 1; 2; 3] /\
  PatchEmbed_ok (SwinTransformer.patch_embed m) C /\
  (exists l0 l1 l2 l3,
     SwinTransformer.layers m = [l0; l1; l2; l3] /\
     BasicLayer_ok l0 (heads * hd) heads ws true /\
     BasicLayer_ok l1 (2 * heads * hd) (2 * heads) ws true /\
     BasicLayer_ok l2 (4 * heads * hd) (4 * heads) ws true /\
     BasicLayer_ok l3 (8 * heads * hd) (8 * heads) ws false) /\
  SwinTransformer.num_features m
  = [Z.of_nat C; Z.of_nat (2 * C); Z.of_nat (4 * C); Z.of_nat (8 * C)] /\
  (exists n0 n1 n2 n3,
     SwinTransformer.norms m = [(0, n0); (1, n1); (2, n2); (3, n3)] /\
     ln_size n0 = C /\ ln_size n1 = 2 * C /\ ln_size n2 = 4 * C /\
     ln_size n3 = 8 * C).

(** The network as [BEN_Base.__init__] builds it: 128 = 4 * 32 channels in
    the decoder, a backbone of four stages with 4, 8, 16 and 32 heads of
    size 32 and window 12. *)
Definition BEN_Base_ok {A : Type} (m : BEN_Base.t A) : Prop :=
  let C := 4 * 32 in
  let cbr (c : Conv2d A) (i o : nat) := Conv2d_ok c i o (3, 3) (1, 1) (1, 1) in
  SwinTransformer_ok (BEN_Base.backbone m) 4 32 12 /\
  cbr (BEN_Base.output5 m) (8 * C) C /\
  cbr (BEN_Base.output4 m) (4 * C) C /\
  cbr (BEN_Base.output3 m) (2 * C) C /\
  cbr (BEN_Base.output2 m) C C /\
  cbr (BEN_Base.output1 m) C C /\
  (MCLM_ok (BEN_Base.multifieldcrossatt m) C 32 /\
   MCLM.pool_ratios (BEN_Base.multifieldcrossatt m) = [1; 4; 8]%Z) /\
  cbr (BEN_Base.conv1 m) C C /\ cbr (BEN_Base.conv2 m) C C /\
  cbr (BEN_Base.conv3 m) C C /\ cbr (BEN_Base.conv4 m) C C /\
  (MCRM_ok (BEN_Base.dec_blk1 m) C /\
   MCRM.pool_ratios (BEN_Base.dec_blk1 m) = [2; 4; 8]%Z) /\
  (MCRM_ok (BEN_Base.dec_blk2 m) C /\
   MCRM.pool_ratios (BEN_Base.dec_blk2 m) = [2; 4; 8]%Z) /\
  (MCRM_ok (BEN_Base.dec_blk3 m) C /\
   MCRM.pool_ratios (BEN_Base.dec_blk3 m) = [2; 4; 8]%Z) /\
  (MCRM_ok (BEN_Base.dec_blk4 m) C /\
   MCRM.pool_ratios (BEN_Base.dec_blk4 m) = [2; 4; 8]%Z) /\
  (cbr (fst (fst (BEN_Base.insmask_head m))) C 384 /\
   cbr (snd (fst (BEN_Base.insmask_head m))) 384 384 /\
   cbr (snd (BEN_Base.insmask_head m)) 384 C) /\
  cbr (BEN_Base.shallow m) 3 C /\
  cbr (BEN_Base.upsample1 m) C C /\ cbr (BEN_Base.upsample2 m) C C /\
  cbr (BEN_Base.output m) C 1.

(* ===================================================================== *)
(** * Properties *)
(* ===================================================================== *)

#[local] Arguments Nat.div : simpl never.
#[local] Arguments Nat.modulo : simpl never.
#[local] Arguments Nat.mul : simpl never.
#[local] Arguments Z.mul : simpl never.
#[local] Arguments Z.div : simpl never.
#[local] Arguments Z.modulo : simpl never.
#[local] Arguments Z.of_nat : simpl never.
#[local] Arguments Z.to_nat : simpl never.
#[local] Arguments tabulate : simpl never.
#[local] Arguments get : simpl never.
#[local] Arguments permute : simpl never.
#[local] Arguments reshape_to : simpl never.
#[local] Arguments view : simpl never.
#[local] Arguments slice_sel : simpl never.
#[local] Arguments at_sel : simpl never.


Lemma mod_2mul (n : nat) : (2 * n) mod 2 = 0.
Proof. rewrite Nat.mul_comm. apply Nat.Div0.mod_mul. Qed.

Lemma div_2mul (n : nat) : 2 * n / 2 = n.
Proof. rewrite Nat.mul_comm. apply Nat.div_mul. lia. Qed.

Create Rewrite HintDb arith_norm.
#[local] Hint Rewrite Nat.mul_1_r Nat.mul_1_l Nat.div_1_r Nat.mod_1_r
  mod_2mul div_2mul : arith_norm.

Lemma bind_Ok {A B : Type} (a : A) (k : A -> result B) : bind (Ok a) k = k a.
Proof. reflexivity. Qed.

Ltac lhs_cbn :=
  match goal with
  | |- _ = ?r => let R := fresh "rhs" in let E := fresh "Erhs" in
                 remember r as R eqn:E; cbn; autorewrite with arith_norm; cbn;
                 rewrite E; clear E R
  end.

Ltac split_range :=
  unfold in_range in *;
  repeat match goal with
         | Hx : Forall2 _ (_ :: _) (_ :: _) |- _ =>
             apply Forall2_cons_iff in Hx; destruct Hx
         end.

Ltac solve_range :=
  split_range; cbn;
  repeat (apply Forall2_cons; [first [assumption | lia | nia] |]);
  try apply Forall2_nil.

Ltac ok_step :=
  match goal with
  | |- context [bind (Ok ?a) ?k] => change (bind (Ok a) k) with (k a); cbv beta
  end.

(** ** Index arithmetic *)

Lemma div_exact (a m n : nat) : 0 < m -> n = a * m -> n / m = a.
Proof. intros Hm ->. apply Nat.div_mul. lia. Qed.

Lemma mod_exact (a m n : nat) : n = a * m -> n mod m = 0.
Proof. intros ->. apply Nat.Div0.mod_mul. Qed.

Lemma numel_app (s1 s2 : list nat) : numel (s1 ++ s2) = numel s1 * numel s2.
Proof.
  induction s1 as [|d s1 IH]; simpl; [lia|]. rewrite IH. lia.
Qed.

Lemma in_range_length (idx s : list nat) : in_range idx s -> length idx = length s.
Proof. induction 1; simpl; congruence. Qed.

Lemma in_range_numel_pos (idx s : list nat) : in_range idx s -> 0 < numel s.
Proof.
  induction 1 as [|i d idx s Hid _ IH]; simpl; [lia|]. nia.
Qed.

Lemma ravel_bound (s idx : list nat) : in_range idx s -> ravel s idx < numel s.
Proof.
  induction 1 as [|i d idx s Hid _ IH]; simpl; [lia|]. nia.
Qed.

Lemma unravel_length (s : list nat) (k : nat) : length (unravel s k) = length s.
Proof.
  revert k; induction s as [|d s IH]; intros k; simpl; [reflexivity|].
  now rewrite IH.
Qed.

Lemma unravel_in_range (s : list nat) (k : nat) :
  k < numel s -> in_range (unravel s k) s.
Proof.
  revert k; induction s as [|d s IH]; intros k Hk; simpl in *.
  - constructor.
  - assert (Hs : 0 < numel s) by nia.
    constructor.
    + apply Nat.Div0.div_lt_upper_bound. lia.
    + apply IH. apply Nat.mod_upper_bound. lia.
Qed.

Lemma ravel_unravel (s : list nat) (k : nat) :
  k < numel s -> ravel s (unravel s k) = k.
Proof.
  revert k; induction s as [|d s IH]; intros k Hk; simpl in *.
  - lia.
  - assert (Hs : 0 < numel s) by nia.
    rewrite IH by (apply Nat.mod_upper_bound; lia).
    pose proof (Nat.div_mod_eq k (numel s)). lia.
Qed.

Lemma unravel_ravel (s idx : list nat) :
  in_range idx s -> unravel s (ravel s idx) = idx.
Proof.
  induction 1 as [|i d idx s Hid Hr IH]; simpl; [reflexivity|].
  pose proof (ravel_bound _ _ Hr) as Hb.
  rewrite Nat.div_add_l by lia.
  rewrite (Nat.div_small _ _ Hb), Nat.add_0_r.
  rewrite Nat.add_comm, Nat.Div0.mod_add, (Nat.mod_small _ _ Hb), IH.
  reflexivity.
Qed.

Lemma seq_blocks (d n : nat) :
  seq 0 (d * n) = flat_map (fun i => map (fun r => i * n + r) (seq 0 n)) (seq 0 d).
Proof.
  induction d as [|d IH]; [reflexivity|].
  rewrite seq_S, flat_map_app. cbn [flat_map]. rewrite app_nil_r, <- IH.
  replace (S d * n) with (d * n + n) by lia. rewrite seq_app. f_equal.
  cbn [Nat.add]. clear IH. generalize (d * n) as a. intros a.
  revert a. induction n as [|n IHn]; intros a; [reflexivity|].
  cbn [seq map]. rewrite Nat.add_0_r. f_equal.
  rewrite IHn, <- seq_shift, map_map. apply map_ext. intros r. lia.
Qed.

Lemma indices_unravel (s : list nat) :
  indices s = map (unravel s) (seq 0 (numel s)).
Proof.
  induction s as [|d s IH]; [reflexivity|].
  cbn [indices numel fold_right]. fold (numel s).
  rewrite seq_blocks, IH. generalize (seq 0 d) as l.
  induction l as [|i l IHl]; [reflexivity|].
  cbn [flat_map]. rewrite map_app, IHl. f_equal.
  rewrite !map_map. apply map_ext_in. intros r Hr. apply in_seq in Hr.
  cbn [unravel]. rewrite Nat.div_add_l, Nat.div_small, Nat.add_0_r by lia.
  now rewrite Nat.add_comm, Nat.Div0.mod_add, Nat.mod_small by lia.
Qed.

(** ** Tabulation *)

Section CoreFacts.
Context {A : Type} {DA : Default A}.

Lemma wf_tabulate (s : list nat) (f : list nat -> A) : wf (tabulate s f).
Proof.
  unfold wf, tabulate; simpl.
  now rewrite indices_unravel, !length_map, length_seq.
Qed.

Lemma get_tabulate (s : list nat) (f : list nat -> A) (idx : list nat) :
  in_range idx s -> get (tabulate s f) idx = f idx.
Proof.
  intros Hr. unfold get, tabulate; simpl. rewrite indices_unravel, map_map.
  pose proof (ravel_bound _ _ Hr) as Hb.
  rewrite (nth_indep _ dflt (f (unravel s 0))) by now rewrite length_map, length_seq.
  rewrite (map_nth (fun k => f (unravel s k)) (seq 0 (numel s)) 0).
  rewrite seq_nth by assumption. simpl. now rewrite unravel_ravel.
Qed.

Lemma tabulate_ext (s : list nat) (f g : list nat -> A) :
  (forall idx, in_range idx s -> f idx = g idx) -> tabulate s f = tabulate s g.
Proof.
  intros Hfg. unfold tabulate. f_equal. rewrite indices_unravel, !map_map.
  apply map_ext_in. intros k Hk. apply in_seq in Hk.
  apply Hfg, unravel_in_range. lia.
Qed.

Lemma tabulate_get (t : tensor A) : wf t -> tabulate (shape t) (get t) = t.
Proof.
  destruct t as [s d]. unfold wf, tabulate, get; simpl. intros Hwf. f_equal.
  rewrite indices_unravel, map_map.
  apply nth_ext with (d := dflt) (d' := dflt).
  - now rewrite length_map, length_seq.
  - intros n Hn. rewrite length_map, length_seq in Hn.
    rewrite (nth_indep _ dflt ((fun k => nth (ravel s (unravel s k)) d dflt) 0))
      by now rewrite length_map, length_seq.
    rewrite (map_nth (fun k => nth (ravel s (unravel s k)) d dflt)).
    rewrite seq_nth by assumption. simpl. now rewrite ravel_unravel.
Qed.

End CoreFacts.

(** ** Views *)

Definition nonneg (req : list Z) : Prop := Forall (fun d => (0 <= d)%Z) req.

Lemma nonneg_no_invalid (req : list Z) :
  nonneg req -> existsb (fun d => (d <? -1)%Z) req = false.
Proof.
  induction 1 as [|d req Hd _ IH]; simpl; [reflexivity|].
  rewrite IH, orb_false_r. apply Z.ltb_ge. lia.
Qed.

Lemma nonneg_no_hole (req : list Z) :
  nonneg req -> count_occ Z.eq_dec req (-1)%Z = 0.
Proof.
  induction 1 as [|d req Hd _ IH]; simpl; [reflexivity|].
  destruct (Z.eq_dec d (-1)); [lia|assumption].
Qed.

Lemma nonneg_known_size (req : list Z) :
  nonneg req -> known_size req = numel (map Z.to_nat req).
Proof.
  induction 1 as [|d req Hd _ IH]; simpl; [reflexivity|].
  destruct (Z.eqb_spec d (-1)); [lia|]. now rewrite IH.
Qed.

Lemma nonneg_of_nat (s : list nat) : nonneg (map Z.of_nat s).
Proof. induction s; constructor; [lia|assumption]. Qed.

Lemma to_nat_of_nat (s : list nat) : map Z.to_nat (map Z.of_nat s) = s.
Proof.
  induction s as [|d s IH]; simpl; [reflexivity|]. now rewrite Nat2Z.id, IH.
Qed.

Lemma existsb_app_false {X} (p : X -> bool) (l1 l2 : list X) :
  existsb p l1 = false -> existsb p l2 = false -> existsb p (l1 ++ l2) = false.
Proof. intros H1 H2. now rewrite existsb_app, H1, H2. Qed.

Section ViewFacts.
Context {A : Type} {DA : Default A}.

Lemma view_exact (t : tensor A) (req : list Z) :
  nonneg req ->
  numel (shape t) = numel (map Z.to_nat req) ->
  view t req = Ok (mkT (map Z.to_nat req) (data t)).
Proof.
  intros Hnn Hn. unfold view.
  rewrite (nonneg_no_invalid _ Hnn), (nonneg_no_hole _ Hnn), (nonneg_known_size _ Hnn).
  simpl. now rewrite Hn, Nat.eqb_refl.
Qed.

Lemma view_infer (t : tensor A) (l1 l2 : list Z) :
  nonneg l1 -> nonneg l2 ->
  let m := numel (map Z.to_nat l1) * numel (map Z.to_nat l2) in
  0 < m ->
  numel (shape t) mod m = 0 ->
  view t (l1 ++ (-1)%Z :: l2)
  = Ok (mkT (map Z.to_nat l1 ++ numel (shape t) / m :: map Z.to_nat l2) (data t)).
Proof.
  intros Hn1 Hn2 m Hm Hmod. unfold view.
  assert (Hks : known_size (l1 ++ (-1)%Z :: l2) = m).
  { unfold m. rewrite <- (nonneg_known_size _ Hn1), <- (nonneg_known_size _ Hn2).
    clear. induction l1 as [|d l1 IH]; simpl; [lia|].
    destruct (d =? -1)%Z; rewrite IH; lia. }
  assert (Hinv : existsb (fun d => (d <? -1)%Z) (l1 ++ (-1)%Z :: l2) = false).
  { apply existsb_app_false; [now apply nonneg_no_invalid|].
    simpl. now apply nonneg_no_invalid. }
  rewrite Hinv, Hks, count_occ_app. simpl.
  rewrite (nonneg_no_hole _ Hn1), (nonneg_no_hole _ Hn2). simpl.
  rewrite Hmod. simpl.
  destruct (0 <? m) eqn:E; [|apply Nat.ltb_ge in E; lia].
  rewrite andb_true_r, orb_true_r.
  destruct (m =? 0) eqn:E0; [apply Nat.eqb_eq in E0; lia|].
  f_equal. f_equal. rewrite map_app. simpl. f_equal.
  - apply map_ext_in. intros d Hd.
    destruct (Z.eqb_spec d (-1)); [|reflexivity].
    subst d. unfold nonneg in Hn1. rewrite Forall_forall in Hn1.
    specialize (Hn1 _ Hd). lia.
  - f_equal. apply map_ext_in. intros d Hd.
    destruct (Z.eqb_spec d (-1)); [|reflexivity].
    subst d. unfold nonneg in Hn2. rewrite Forall_forall in Hn2.
    specialize (Hn2 _ Hd). lia.
Qed.

Lemma view_flat (t : tensor A) :
  view t [(-1)%Z] = Ok (mkT [numel (shape t)] (data t)).
Proof.
  change [(-1)%Z] with ([] ++ (-1)%Z :: @nil Z).
  rewrite view_infer; try apply Forall_nil.
  - cbn [map app numel fold_right]. now rewrite Nat.mul_1_r, Nat.div_1_r.
  - cbn. lia.
  - cbn. now rewrite Nat.mul_1_r, Nat.mod_1_r.
Qed.

Lemma view_infer_last (t : tensor A) (s : list nat) (d : nat) :
  0 < numel s -> numel (shape t) = numel s * d ->
  view t (map Z.of_nat s ++ [(-1)%Z]) = Ok (mkT (s ++ [d]) (data t)).
Proof.
  intros Hs Hn.
  rewrite view_infer; try apply Forall_nil; try apply nonneg_of_nat;
    rewrite ?to_nat_of_nat; cbn [map numel fold_right]; rewrite ?Nat.mul_1_r.
  - do 4 f_equal. apply (div_exact d); lia.
  - assumption.
  - apply (mod_exact d). lia.
Qed.

Lemma view_infer_first (t : tensor A) (s : list nat) (d : nat) :
  0 < numel s -> numel (shape t) = d * numel s ->
  view t ((-1)%Z :: map Z.of_nat s) = Ok (mkT (d :: s) (data t)).
Proof.
  intros Hs Hn.
  change ((-1)%Z :: map Z.of_nat s) with ([] ++ (-1)%Z :: map Z.of_nat s).
  rewrite view_infer; try apply Forall_nil; try apply nonneg_of_nat;
    rewrite ?to_nat_of_nat; cbn [map numel fold_right app]; rewrite ?Nat.mul_1_l.
  - do 3 f_equal. apply (div_exact d); lia.
  - assumption.
  - apply (mod_exact d). lia.
Qed.

Lemma view_of_nat (t : tensor A) (s : list nat) :
  numel (shape t) = numel s ->
  view t (map Z.of_nat s) = Ok (mkT s (data t)).
Proof.
  intros Hn. rewrite view_exact; rewrite ?to_nat_of_nat;
    [reflexivity | apply nonneg_of_nat | assumption].
Qed.

End ViewFacts.

(** ** Exact rational arithmetic of the batch count *)

Lemma Qis_zero_false (q : Q) : ~ (q == 0)%Q -> Qis_zero q = false.
Proof.
  intros Hq. unfold Qis_zero. apply Z.eqb_neq. intros E. apply Hq.
  unfold Qeq. simpl. lia.
Qed.

Lemma truediv_ok (a b : Q) : ~ (b == 0)%Q -> truediv a b = Ok (a / b)%Q.
Proof. intros Hb. unfold truediv. now rewrite Qis_zero_false. Qed.

Lemma py_int_inject (q : Q) (z : Z) : (q == inject_Z z)%Q -> py_int q = z.
Proof.
  intros E. unfold py_int.
  rewrite (Qfloor_comp _ _ E), (Qceiling_comp _ _ E), Qfloor_Z, Qceiling_Z.
  now destruct (Qle_bool 0 q).
Qed.

Lemma inject_Z_nonzero (z : Z) : z <> 0%Z -> ~ (inject_Z z == 0)%Q.
Proof. intros Hz E. apply Hz. unfold Qeq in E. simpl in E. lia. Qed.

(** ** Window partition / reverse *)

Lemma floordiv_mul (q d : nat) :
  0 < d -> floordiv (Z.of_nat (q * d)) (Z.of_nat d) = Ok (Z.of_nat q).
Proof.
  intros Hd. unfold floordiv.
  destruct (Z.eqb_spec (Z.of_nat d) 0); [lia|].
  rewrite Nat2Z.inj_mul, Z.div_mul by lia. reflexivity.
Qed.

Lemma reverse_batch (B h w k : Z) :
  (0 < h)%Z -> (0 < w)%Z -> (0 < k)%Z ->
  exists q1 q2 q3,
    truediv (inject_Z (h * k * (w * k))) (inject_Z k) = Ok q1 /\
    truediv q1 (inject_Z k) = Ok q2 /\
    truediv (inject_Z (B * h * w)) q2 = Ok q3 /\
    py_int q3 = B.
Proof.
  intros Hh Hw Hk.
  assert (Hk0 : ~ (inject_Z k == 0)%Q) by (apply inject_Z_nonzero; lia).
  assert (Hh0 : ~ (inject_Z h == 0)%Q) by (apply inject_Z_nonzero; lia).
  assert (Hw0 : ~ (inject_Z w == 0)%Q) by (apply inject_Z_nonzero; lia).
  assert (E2 : (inject_Z (h * k * (w * k)) / inject_Z k / inject_Z k
                == inject_Z h * inject_Z w)%Q).
  { rewrite !inject_Z_mult. field. assumption. }
  assert (H2 : ~ (inject_Z (h * k * (w * k)) / inject_Z k / inject_Z k == 0)%Q).
  { rewrite E2. intros E. apply Qmult_integral in E. tauto. }
  exists (inject_Z (h * k * (w * k)) / inject_Z k)%Q,
         (inject_Z (h * k * (w * k)) / inject_Z k / inject_Z k)%Q,
         (inject_Z (B * h * w)
          / (inject_Z (h * k * (w * k)) / inject_Z k / inject_Z k))%Q.
  repeat split; try (apply truediv_ok; assumption).
  apply py_int_inject.
  rewrite E2, !inject_Z_mult. field. tauto.
Qed.

Definition perm6 : list nat := [0; 1; 3; 2; 4; 5].

Lemma perm6_involutive (idx s : list nat) :
  length s = 6 -> in_range idx s ->
  permute_index perm6 (permute_index perm6 idx) = idx.
Proof.
  intros Hs Hr. apply in_range_length in Hr. rewrite Hs in Hr.
  do 7 (destruct idx as [|? idx]; try discriminate). reflexivity.
Qed.

Section WindowFacts.
Context {A : Type} {DA : Default A}.

Lemma permute6 (a b c d e f : nat) (l : list A) :
  permute (mkT [a; b; c; d; e; f] l) [0; 1; 3; 2; 4; 5]
  = Ok (tabulate [a; b; d; c; e; f]
          (fun idx => get (mkT [a; b; c; d; e; f] l) (permute_index perm6 idx))).
Proof. reflexivity. Qed.

Lemma window_partition_spec (x : tensor A) (B h w C k : nat) :
  shape x = [B; h * k; w * k; C] -> 0 < k -> 0 < C ->
  window_partition x (Z.of_nat k)
  = Ok (mkT [B * h * w; k; k; C]
          (data (tabulate [B; h; w; k; k; C]
             (fun idx => get (mkT [B; h; k; w; k; C] (data x))
                             (permute_index perm6 idx))))).
Proof.
  intros Hs Hk HC. unfold window_partition, zshape. rewrite Hs. simpl map.
  cbv beta iota.
  rewrite !floordiv_mul by assumption. repeat ok_step.
  change [Z.of_nat B; Z.of_nat h; Z.of_nat k; Z.of_nat w; Z.of_nat k; Z.of_nat C]
    with (map Z.of_nat [B; h; k; w; k; C]).
  rewrite view_exact;
    [| apply nonneg_of_nat | rewrite to_nat_of_nat, Hs; simpl; lia].
  rewrite to_nat_of_nat. repeat ok_step. rewrite permute6. repeat ok_step.
  unfold contiguous.
  change [(-1)%Z; Z.of_nat k; Z.of_nat k; Z.of_nat C]
    with ([] ++ (-1)%Z :: map Z.of_nat [k; k; C]).
  rewrite view_infer;
    rewrite ?to_nat_of_nat; try apply nonneg_of_nat; try constructor.
  - cbn [app map tabulate shape data]. do 2 f_equal. f_equal.
    apply (div_exact (B * h * w)); simpl; nia.
  - simpl. nia.
  - apply (mod_exact (B * h * w)). simpl. nia.
Qed.

Lemma window_reverse_spec (B h w C k : nat) (l : list A) :
  0 < B -> 0 < h -> 0 < w -> 0 < k ->
  window_reverse (mkT [B * h * w; k; k; C] l) (Z.of_nat k)
                 (Z.of_nat (h * k)) (Z.of_nat (w * k))
  = Ok (mkT [B; h * k; w * k; C]
          (data (tabulate [B; h; k; w; k; C]
             (fun idx => get (mkT [B; h; w; k; k; C] l)
                             (permute_index perm6 idx))))).
Proof.
  intros HB Hh Hw Hk. unfold window_reverse, zshape. simpl map.
  cbv beta iota.
  destruct (reverse_batch (Z.of_nat B) (Z.of_nat h) (Z.of_nat w) (Z.of_nat k)) as (q1 & q2 & q3 & E1 & E2 & E3 & E4); try lia.
  rewrite !Nat2Z.inj_mul. rewrite E1. repeat ok_step. rewrite E2. repeat ok_step.
  rewrite E3. repeat ok_step. rewrite E4.
  rewrite <- !Nat2Z.inj_mul, !floordiv_mul by assumption. repeat ok_step.
  change [Z.of_nat B; Z.of_nat h; Z.of_nat w; Z.of_nat k; Z.of_nat k; (-1)%Z]
    with (map Z.of_nat [B; h; w; k; k] ++ (-1)%Z :: []).
  rewrite view_infer; rewrite ?to_nat_of_nat; try apply nonneg_of_nat;
    try constructor.
  - cbn [app map shape data].
    replace (numel [B * h * w; k; k; C] / (numel [B; h; w; k; k] * numel []))
      with C by (symmetry; apply (div_exact C); simpl; nia).
    repeat ok_step. rewrite permute6. repeat ok_step. unfold contiguous.
    change [Z.of_nat B; Z.of_nat (h * k); Z.of_nat (w * k); (-1)%Z]
      with (map Z.of_nat [B; h * k; w * k] ++ (-1)%Z :: []).
    rewrite view_infer; rewrite ?to_nat_of_nat; try apply nonneg_of_nat;
      try constructor.
    + cbn [app map tabulate shape data]. do 2 f_equal. do 4 f_equal.
      apply (div_exact C); simpl; nia.
    + simpl. nia.
    + apply (mod_exact C). simpl. nia.
  - simpl. nia.
  - apply (mod_exact C). simpl. nia.
Qed.

Lemma window_roundtrip_nat (x : tensor A) (B h w C k : nat) :
  wf x -> shape x = [B; h * k; w * k; C] ->
  0 < B -> 0 < h -> 0 < w -> 0 < C -> 0 < k ->
  (y <- window_partition x (Z.of_nat k) ;;
   window_reverse y (Z.of_nat k) (Z.of_nat (h * k)) (Z.of_nat (w * k))) = Ok x.
Proof.
  intros Hwf Hs HB Hh Hw HC Hk.
  rewrite (window_partition_spec x B h w C k Hs Hk HC). repeat ok_step.
  rewrite window_reverse_spec by assumption.
  destruct x as [s l]. simpl in Hs. subst s. f_equal. f_equal.
  transitivity (data (tabulate [B; h; k; w; k; C]
                        (get (mkT [B; h; k; w; k; C] l)))).
  - f_equal. apply tabulate_ext. intros idx Hr.
    change (mkT [B; h; w; k; k; C] (data ?t)) with t.
    assert (Hr' : in_range (permute_index perm6 idx) [B; h; w; k; k; C]).
    { pose proof (in_range_length _ _ Hr) as Hl. simpl in Hl.
      do 7 (destruct idx as [|? idx]; try discriminate).
      solve_range. }
    etransitivity; [apply (get_tabulate _ _ _ Hr')|].
    now rewrite (perm6_involutive idx [B; h; k; w; k; C]).
  - assert (Hwf' : wf (mkT [B; h; k; w; k; C] l)).
    { unfold wf in *. simpl in *. lia. }
    now rewrite (tabulate_get _ Hwf').
Qed.

End WindowFacts.

(** C2.  Window partition followed by window reverse gives back the
    feature map: for a non-empty tensor of shape (B, H, W, C) whose H and W
    are multiples of the (positive) window size,
    [window_reverse(window_partition(x, ws), ws, H, W) = x]. *)
Theorem window_reverse_partition_roundtrip
  {A : Type} {DA : Default A} (x : tensor A) (B H W C : nat) (ws : Z) :
  wf x -> shape x = [B; H; W; C] ->
  (0 < ws)%Z -> (Z.of_nat H mod ws = 0)%Z -> (Z.of_nat W mod ws = 0)%Z ->
  0 < B -> 0 < H -> 0 < W -> 0 < C ->
  (windows <- window_partition x ws ;;
   window_reverse windows ws (Z.of_nat H) (Z.of_nat W)) = Ok x.
Proof.
  intros Hwf Hs Hws HH HW HB HH0 HW0 HC.
  apply Z.mod_divide in HH; [|lia]. apply Z.mod_divide in HW; [|lia].
  destruct HH as [h Eh], HW as [w Ew].
  assert (Ek : ws = Z.of_nat (Z.to_nat ws)) by lia.
  assert (EH : H = Z.to_nat h * Z.to_nat ws) by nia.
  assert (EW : W = Z.to_nat w * Z.to_nat ws) by nia.
  rewrite Ek, EH, EW. rewrite EH, EW in Hs.
  apply (window_roundtrip_nat x B (Z.to_nat h) (Z.to_nat w) C (Z.to_nat ws));
    try assumption; nia.
Qed.

Lemma window_reverse_partition_roundtrip_witness :
  (windows <- window_partition (mkT [1; 2; 4; 1] [1; 2; 3; 4; 5; 6; 7; 8]%Z) 2%Z ;;
   window_reverse windows 2%Z 2%Z 4%Z)
  = Ok (mkT [1; 2; 4; 1] [1; 2; 3; 4; 5; 6; 7; 8]%Z).
Proof.
  apply (window_reverse_partition_roundtrip
           (mkT [1; 2; 4; 1] [1; 2; 3; 4; 5; 6; 7; 8]%Z) 1 2 4 1 2%Z);
    try reflexivity; lia.
Defined.

Example window_partition_2x4 :
  window_partition (mkT [1; 2; 4; 1] [1; 2; 3; 4; 5; 6; 7; 8]%Z) 2%Z
  = Ok (mkT [2; 2; 2; 1] [1; 2; 5; 6; 3; 4; 7; 8]%Z).
Proof. reflexivity. Qed.

(** ** Quadrant split and reassembly *)

Section RearrangeFacts.
Context {A : Type} {DA : Default A}.

Lemma reshape_to_ok (t : tensor A) (s : list nat) :
  numel (shape t) = numel s -> reshape_to t s = Ok (mkT s (data t)).
Proof. intros E. unfold reshape_to. now rewrite E, Nat.eqb_refl. Qed.

Lemma permute_ok (t : tensor A) (dims : list nat) :
  is_perm (length (shape t)) dims = true ->
  permute t dims
  = Ok (tabulate (map (fun a => nth a (shape t) 0) dims)
          (fun idx' => get t (permute_index dims idx'))).
Proof. intros E. unfold permute. now rewrite E. Qed.

Lemma image2patches_spec (x : tensor A) (b c h w : nat) :
  shape x = [b; c; 2 * h; 2 * w] ->
  image2patches x
  = Ok (mkT [4 * b; c; h; w]
          (data (tabulate [2; 2; b; c; h; w]
             (fun idx => get (mkT [b; c; 2; h; 2; w] (data x))
                             (permute_index [2; 4; 0; 1; 3; 5] idx))))).
Proof.
  intros Hs. unfold image2patches, rearrange. rewrite Hs.
  lhs_cbn.
  rewrite reshape_to_ok by (rewrite Hs; cbn; lia). ok_step.
  rewrite permute_ok by reflexivity. ok_step.
  rewrite reshape_to_ok by (unfold tabulate; cbn; lia).
  repeat (f_equal; try lia).
Qed.

Lemma patches2image_spec (x : tensor A) (b c h w : nat) :
  shape x = [4 * b; c; h; w] ->
  patches2image x
  = Ok (mkT [b; c; 2 * h; 2 * w]
          (data (tabulate [b; c; 2; h; 2; w]
             (fun idx => get (mkT [2; 2; b; c; h; w] (data x))
                             (permute_index [2; 3; 0; 4; 1; 5] idx))))).
Proof.
  intros Hs. unfold patches2image, rearrange. rewrite Hs.
  change (2 * 2) with 4. replace (4 * b) with (b * 4) by lia. lhs_cbn.
  change (2 * 2) with 4. rewrite Nat.Div0.mod_mul, Nat.div_mul by lia. lhs_cbn.
  rewrite reshape_to_ok by (rewrite Hs; cbn; lia). ok_step.
  rewrite permute_ok by reflexivity. ok_step.
  rewrite reshape_to_ok by (unfold tabulate; cbn; lia).
  repeat (f_equal; try lia).
Qed.

Lemma quadrant_roundtrip_even (x : tensor A) (b c h w : nat) :
  wf x -> shape x = [b; c; 2 * h; 2 * w] ->
  (p <- image2patches x ;; patches2image p) = Ok x.
Proof.
  intros Hwf Hs.
  rewrite (image2patches_spec x b c h w Hs). ok_step.
  rewrite (patches2image_spec (mkT [4 * b; c; h; w] _) b c h w eq_refl).
  destruct x as [s l]. cbn [shape data] in *. subst s. f_equal. f_equal.
  transitivity (data (tabulate [b; c; 2; h; 2; w]
                        (get (mkT [b; c; 2; h; 2; w] l)))).
  - f_equal. apply tabulate_ext. intros idx Hr.
    change (mkT [2; 2; b; c; h; w] (data ?t)) with t.
    pose proof (in_range_length _ _ Hr) as Hl. cbn in Hl.
    do 7 (destruct idx as [|? idx]; try discriminate).
    rewrite get_tabulate.
    + reflexivity.
    + solve_range.
  - assert (Hwf' : wf (mkT [b; c; 2; h; 2; w] l)).
    { unfold wf in *. cbn in *. lia. }
    now rewrite (tabulate_get _ Hwf').
Qed.

End RearrangeFacts.

(** C6.  Splitting a feature map of even height and width into its four
    quadrants and reassembling them gives back the same tensor. *)
Theorem patches2image_image2patches
  {A : Type} {DA : Default A} (x : tensor A) (B C H W : nat) :
  wf x -> shape x = [B; C; H; W] ->
  Nat.even H = true -> Nat.even W = true ->
  (p <- image2patches x ;; patches2image p) = Ok x.
Proof.
  intros Hwf Hs HH HW.
  apply Nat.even_spec in HH, HW. destruct HH as [h ->], HW as [w ->].
  now apply (quadrant_roundtrip_even x B C h w).
Qed.

Lemma patches2image_image2patches_witness :
  (p <- image2patches (mkT [1; 1; 2; 2] [1; 2; 3; 4]%Z) ;; patches2image p)
  = Ok (mkT [1; 1; 2; 2] [1; 2; 3; 4]%Z).
Proof.
  apply (patches2image_image2patches (mkT [1; 1; 2; 2] [1; 2; 3; 4]%Z) 1 1 2 2);
    reflexivity.
Defined.

Example image2patches_4x4 :
  image2patches (mkT [1; 1; 4; 4]
    [0; 1; 2; 3; 4; 5; 6; 7; 8; 9; 10; 11; 12; 13; 14; 15]%Z)
  = Ok (mkT [4; 1; 2; 2]
    [0; 1; 4; 5; 2; 3; 6; 7; 8; 9; 12; 13; 10; 11; 14; 15]%Z).
Proof. reflexivity. Qed.

(** ** Relative position index *)

Example relative_position_index_2 :
  relative_position_index_of (2, 2)%Z
  = Ok (mkT [4; 4] [4; 3; 1; 0;
                    5; 4; 2; 1;
                    7; 6; 4; 3;
                    8; 7; 5; 4]%Z).
Proof. vm_compute. reflexivity. Qed.

(** ** The attention mask of a stage *)

Lemma Q_same_eq (a b : Q) : Q_same a b = true -> a = b.
Proof.
  unfold Q_same. intros E. apply andb_prop in E. destruct E as [E1 E2].
  apply Z.eqb_eq in E1. apply Pos.eqb_eq in E2.
  destruct a, b; simpl in *; congruence.
Qed.

Lemma mask_agrees_spec (size window shift : Z) (mask : tensor Q) (nW n : nat) :
  shape mask = [nW; n; n] ->
  mask_agrees size window shift mask = true ->
  forall w i j, w < nW -> i < n -> j < n ->
    get mask [w; i; j] = spec_mask_entry size window shift w i j.
Proof.
  intros Hs Hm w i j Hw Hi Hj. unfold mask_agrees in Hm. rewrite Hs in Hm.
  assert (Hin : forall k b, k < b -> In k (seq 0 b)) by (intros; apply in_seq; lia).
  pose proof (proj1 (forallb_forall _ _) Hm w (Hin _ _ Hw)) as H1. cbv beta in H1.
  pose proof (proj1 (forallb_forall _ _) H1 i (Hin _ _ Hi)) as H2. cbv beta in H2.
  pose proof (proj1 (forallb_forall _ _) H2 j (Hin _ _ Hj)) as H3. cbv beta in H3.
  now apply Q_same_eq.
Qed.


Section IndexFacts.
Context {A : Type} {DA : Default A}.

Lemma shape_tabulate (s : list nat) (f : list nat -> A) : shape (tabulate s f) = s.
Proof. reflexivity. Qed.

Lemma nth_tabulate (s : list nat) (f : list nat -> A) (k : nat) (d : A) :
  k < numel s -> nth k (data (tabulate s f)) d = f (unravel s k).
Proof.
  intros Hk. unfold tabulate. cbn [data]. rewrite indices_unravel, map_map.
  rewrite (nth_indep _ d (f (unravel s 0))) by now rewrite length_map, length_seq.
  rewrite (map_nth (fun k => f (unravel s k))). now rewrite seq_nth.
Qed.

End IndexFacts.

Lemma slice_sel_full (d : nat) : slice_sel None None 1 d = Ok (SRange 0 1 d).
Proof.
  unfold slice_sel. cbn [Z.leb Z.compare].
  destruct (Z.leb_spec (Z.of_nat d) 0).
  - replace d with 0 by lia. reflexivity.
  - f_equal. f_equal. rewrite Z.div_1_r. lia.
Qed.

Lemma arange_ok (n : nat) :
  arange (Z.of_nat n) = Ok (mkT [n] (map Z.of_nat (seq 0 n))).
Proof.
  unfold arange. destruct (Z.ltb_spec (Z.of_nat n) 0); [lia|].
  now rewrite Nat2Z.id.
Qed.

Ltac name_tab t Hs Hw Hg :=
  match goal with
  | |- context [tabulate ?s ?F] =>
      set (t := tabulate s F) in *;
      assert (Hs : shape t = s) by reflexivity;
      assert (Hw : wf t) by apply wf_tabulate;
      assert (Hg : forall idx, in_range idx s -> get t idx = F idx)
        by (let i := fresh in let Hr := fresh in
            intros i Hr; exact (get_tabulate s F i Hr));
      cbv beta in Hg; clearbody t
  end.


Section OpFacts.
Context {A : Type} {DA : Default A}.

Lemma nth_as_get (t : tensor A) (i : nat) :
  wf t -> i < numel (shape t) ->
  nth i (data t) dflt = get t (unravel (shape t) i).
Proof. intros _ Hi. unfold get. now rewrite ravel_unravel. Qed.

Lemma stack2_ok (a b : tensor A) :
  shape b = shape a ->
  stack [a; b] = Ok (mkT (2 :: shape a) (data a ++ data b)).
Proof.
  intros E. unfold stack. cbn [forallb]. rewrite E.
  destruct (list_eq_dec Nat.eq_dec (shape a) (shape a)); [|congruence].
  cbn. now rewrite app_nil_r.
Qed.

Lemma get_stacked_flat (a b : tensor A) (n c i : nat) :
  wf a -> wf b -> numel (shape a) = n -> numel (shape b) = n -> i < n -> c < 2 ->
  get (mkT [2; n] (data a ++ data b)) [c; i]
  = match c with
    | 0 => get a (unravel (shape a) i)
    | _ => get b (unravel (shape b) i)
    end.
Proof.
  intros Ha Hb Na Nb Hi Hc. unfold get at 1. cbn [shape data].
  replace (ravel [2; n] [c; i]) with (c * n + i) by (cbn; lia).
  unfold wf in Ha, Hb.
  destruct c as [|[|c]]; [| |lia].
  - rewrite app_nth1 by lia. apply nth_as_get; [assumption|lia].
  - rewrite app_nth2 by lia.
    replace (1 * n + i - length (data a)) with i by lia.
    apply nth_as_get; [assumption|lia].
Qed.

Lemma getitem_ok (t : tensor A) (ixs : list index) (p : list sel) :
  index_plan ixs (shape t) = Ok p ->
  getitem t ixs
  = Ok (tabulate (plan_shape p) (fun idx => get t (plan_source p idx))).
Proof. intros E. unfold getitem. now rewrite E. Qed.

Lemma update_at_ok (t : tensor A) (ixs : list index) (f : A -> A) (p : list sel) :
  index_plan ixs (shape t) = Ok p ->
  update_at t ixs f
  = Ok (tabulate (shape t)
          (fun idx => if plan_selects p idx then f (get t idx) else get t idx)).
Proof. intros E. unfold update_at. now rewrite E. Qed.

End OpFacts.

Section BroadcastFacts.
Context {A B C : Type} {DA : Default A} {DB : Default B} {DC : Default C}.

Lemma broadcast2_ok (f : A -> B -> C) (a : tensor A) (b : tensor B) (s : list nat) :
  broadcast_shape (shape a) (shape b) = Ok s ->
  broadcast2 f a b
  = Ok (tabulate s (fun idx => f (get a (broadcast_index (shape a) idx))
                                 (get b (broadcast_index (shape b) idx)))).
Proof. intros E. unfold broadcast2. now rewrite E. Qed.

End BroadcastFacts.

Lemma broadcast_shape_same (s : list nat) : broadcast_shape s s = Ok s.
Proof.
  unfold broadcast_shape.
  assert (E : forall r, broadcast_rev r r = Ok r).
  { induction r as [|d r IH]; [reflexivity|]. cbn. rewrite IH. cbn.
    now rewrite Nat.eqb_refl. }
  rewrite E. cbn. now rewrite rev_involutive.
Qed.

Lemma broadcast_shape_outer (c n : nat) :
  broadcast_shape [c; n; 1] [c; 1; n] = Ok [c; n; n].
Proof.
  unfold broadcast_shape. cbn. rewrite Nat.eqb_refl. cbn.
  destruct n as [|[|n]]; reflexivity.
Qed.

Lemma index_plan_full2_new (a b : nat) :
  index_plan [full; full; NewAxis] [a; b] = Ok [SRange 0 1 a; SRange 0 1 b; SNew].
Proof. cbn. now rewrite !slice_sel_full. Qed.

Lemma index_plan_full_new_full (a b : nat) :
  index_plan [full; NewAxis; full] [a; b] = Ok [SRange 0 1 a; SNew; SRange 0 1 b].
Proof. cbn. now rewrite !slice_sel_full. Qed.

Lemma index_plan_full2_at (a b c : nat) (k : nat) :
  k < c ->
  index_plan [full; full; At (Z.of_nat k)] [a; b; c]
  = Ok [SRange 0 1 a; SRange 0 1 b; SAt k].
Proof.
  intros Hk. cbn. rewrite !slice_sel_full. cbn. unfold at_sel. cbn.
  destruct (Z.ltb_spec (Z.of_nat k) (- Z.of_nat c)); [lia|].
  destruct (Z.leb_spec (Z.of_nat c) (Z.of_nat k)); [lia|]. cbn.
  destruct (Z.ltb_spec (Z.of_nat k) 0); [lia|]. now rewrite Nat2Z.id.
Qed.

Lemma plan_selects_full2_at (a b k i j c : nat) :
  i < a -> j < b ->
  plan_selects [SRange 0 1 a; SRange 0 1 b; SAt k] [i; j; c] = (c =? k).
Proof.
  intros Hi Hj. cbn [plan_selects].
  rewrite !Nat.sub_0_r, !Nat.mod_1_r, !Nat.div_1_r.
  rewrite (proj2 (Nat.ltb_lt i a) Hi), (proj2 (Nat.ltb_lt j b) Hj).
  cbn. now rewrite andb_true_r.
Qed.

Ltac use_getitem H :=
  match goal with
  | |- context [getitem ?t ?ixs] => rewrite (getitem_ok t ixs _ H)
  end.

Ltac use_update H :=
  match goal with
  | |- context [update_at ?t ?ixs ?f] => rewrite (update_at_ok t ixs f _ H)
  end.

Ltac use_broadcast H :=
  match goal with
  | |- context [broadcast2 ?f ?a ?b] => rewrite (broadcast2_ok f a b _ H)
  end.

Lemma get_arange (n r : nat) :
  r < n -> get (mkT [n] (map Z.of_nat (seq 0 n))) [r] = Z.of_nat r.
Proof.
  intros Hr. unfold get. cbn [shape data ravel numel fold_right].
  replace (r * 1 + 0) with r by lia.
  rewrite (nth_indep _ dflt (Z.of_nat 0)) by now rewrite length_map, length_seq.
  rewrite map_nth. now rewrite seq_nth.
Qed.

Lemma relative_position_index_closed (wh ww : nat) :
  0 < wh -> 0 < ww ->
  exists t,
    relative_position_index_of (Z.of_nat wh, Z.of_nat ww) = Ok t /\
    shape t = [wh * ww; wh * ww] /\ wf t /\
    forall i j, i < wh * ww -> j < wh * ww ->
      get t [i; j]
      = ((Z.of_nat (i / ww) - Z.of_nat (j / ww) + (Z.of_nat wh - 1))
           * (2 * Z.of_nat ww - 1)
         + (Z.of_nat (i mod ww) - Z.of_nat (j mod ww) + (Z.of_nat ww - 1)))%Z.
Proof.
  intros Hh Hw. unfold relative_position_index_of. cbn [fst snd].
  rewrite !arange_ok. repeat ok_step.
  unfold meshgrid. cbn [shape]. ok_step. cbn [fst snd].
  name_tab gh Hgh_s Hgh_w Hgh. name_tab gw Hgw_s Hgw_w Hgw.
  rewrite stack2_ok by congruence. ok_step.
  unfold flatten_from. cbn [shape data firstn skipn app]. rewrite Hgh_s.
  set (N := numel [wh; ww]).
  use_getitem (index_plan_full2_new 2 N). ok_step.
  match goal with
  | |- context [tabulate ?s ?F] => set (ta := tabulate s F)
  end.
  use_getitem (index_plan_full_new_full 2 N). ok_step.
  match goal with
  | |- context [tabulate ?s ?F] => set (tb := tabulate s F)
  end.
  set (cf := mkT [2; N] (data gh ++ data gw)) in *.
  assert (HN : N = wh * ww) by (unfold N; cbn; lia).
  assert (Hcf : forall c i, c < 2 -> i < N ->
            get cf [c; i] = if c =? 0 then Z.of_nat (i / ww) else Z.of_nat (i mod ww)).
  { intros c i Hc Hi. unfold cf.
    rewrite get_stacked_flat; try assumption;
      try (rewrite ?Hgh_s, ?Hgw_s; reflexivity).
    assert (Hr : in_range (unravel [wh; ww] i) [wh; ww])
      by (apply unravel_in_range; exact Hi).
    rewrite Hgh_s, Hgw_s.
    destruct c as [|c]; cbn [Nat.eqb].
    - rewrite Hgh by exact Hr. cbn [unravel nth numel fold_right].
      rewrite Nat.mul_1_r. apply get_arange.
      apply Nat.Div0.div_lt_upper_bound. lia.
    - rewrite Hgw by exact Hr. cbn [unravel nth numel fold_right].
      rewrite Nat.mul_1_r, Nat.div_1_r.
      apply get_arange. apply Nat.mod_upper_bound. lia. }
  clearbody cf.
  assert (Hta : forall c i, c < 2 -> i < N -> get ta [c; i; 0] = get cf [c; i]).
  { intros c i Hc Hi. unfold ta. rewrite get_tabulate by (cbn; solve_range).
    cbn [plan_source tl]. now rewrite !Nat.mul_1_l. }
  assert (Htb : forall c j, c < 2 -> j < N -> get tb [c; 0; j] = get cf [c; j]).
  { intros c j Hc Hj. unfold tb. rewrite get_tabulate by (cbn; solve_range).
    cbn [plan_source tl]. now rewrite !Nat.mul_1_l. }
  assert (Hta_s : shape ta = [2; N; 1]) by reflexivity.
  assert (Htb_s : shape tb = [2; 1; N]) by reflexivity.
  clearbody ta tb.
  match goal with
  | |- context [broadcast2 ?f ?a ?b] =>
      rewrite (broadcast2_ok f a b [2; N; N])
        by (rewrite Hta_s, Htb_s; apply broadcast_shape_outer)
  end.
  ok_step. rewrite Hta_s, Htb_s.
  name_tab rc Hrc_s Hrc_w Hrc.
  rewrite permute_ok by (rewrite Hrc_s; reflexivity). ok_step.
  rewrite Hrc_s. cbn [map nth]. unfold contiguous.
  name_tab pm Hpm_s Hpm_w Hpm.
  assert (Hpm' : forall i j c, i < N -> j < N -> c < 2 ->
            get pm [i; j; c] = (get cf [c; i] - get cf [c; j])%Z).
  { clearbody N. intros i j c Hi Hj Hc. rewrite Hpm by solve_range.
    cbn [permute_index map seq length index_of Nat.eqb nth].
    rewrite Hrc by solve_range. unfold broadcast_index. cbn.
    destruct (Nat.eqb_spec N 1) as [E|E].
    - replace i with 0 by lia. replace j with 0 by lia.
      rewrite Hta, Htb by lia. reflexivity.
    - rewrite Hta, Htb by lia. reflexivity. }
  clear Hpm Hrc Hta Htb.
  rewrite (update_at_ok pm _ _ [SRange 0 1 N; SRange 0 1 N; SAt 0])
    by (rewrite Hpm_s; apply (index_plan_full2_at N N 2 0); lia).
  ok_step. rewrite Hpm_s. name_tab u1 Hu1_s Hu1_w Hu1.
  rewrite (update_at_ok u1 _ _ [SRange 0 1 N; SRange 0 1 N; SAt 1])
    by (rewrite Hu1_s; apply (index_plan_full2_at N N 2 1); lia).
  ok_step. rewrite Hu1_s. name_tab u2 Hu2_s Hu2_w Hu2.
  rewrite (update_at_ok u2 _ _ [SRange 0 1 N; SRange 0 1 N; SAt 0])
    by (rewrite Hu2_s; apply (index_plan_full2_at N N 2 0); lia).
  ok_step. rewrite Hu2_s. name_tab u3 Hu3_s Hu3_w Hu3.
  unfold reduce_last. rewrite Hu3_s. cbn [rev app].
  eexists. split; [reflexivity|]. split; [now rewrite HN|].
  split; [apply wf_tabulate|].
  intros i j Hi Hj. rewrite <- HN in Hi, Hj.
  rewrite get_tabulate by solve_range. cbn [seq map fold_right app].
  rewrite !Hu3, !Hu2, !Hu1 by solve_range.
  rewrite !plan_selects_full2_at by assumption. cbn [Nat.eqb].
  rewrite !Hpm', !Hcf by lia. cbn [Nat.eqb]. lia.
Qed.

Ltac bind_inv H :=
  repeat match type of H with
         | bind ?m _ = Ok _ =>
             let E := fresh "E" in
             destruct m eqn:E; [cbn [bind] in H | discriminate H]
         end.

Lemma relative_position_index_offsets (wh ww : nat) (t : tensor Z) :
  0 < wh -> 0 < ww ->
  relative_position_index_of (Z.of_nat wh, Z.of_nat ww) = Ok t ->
  forall i j i' j',
    i < wh * ww -> j < wh * ww -> i' < wh * ww -> j' < wh * ww ->
    rel_offset ww i j = rel_offset ww i' j' ->
    get t [i; j] = get t [i'; j'].
Proof.
  intros Hh Hw Ht i j i' j' Hi Hj Hi' Hj' Ho.
  destruct (relative_position_index_closed wh ww Hh Hw) as (t' & Et & _ & _ & Hg).
  rewrite Ht in Et. injection Et as <-.
  rewrite !Hg by assumption. unfold rel_offset in Ho.
  injection Ho as E1 E2. lia.
Qed.

Lemma relative_position_index_bounds (wh ww : nat) (t : tensor Z) :
  0 < wh -> 0 < ww ->
  relative_position_index_of (Z.of_nat wh, Z.of_nat ww) = Ok t ->
  Forall (fun v => (0 <= v < (2 * Z.of_nat wh - 1) * (2 * Z.of_nat ww - 1))%Z)
         (data t).
Proof.
  intros Hh Hw Ht.
  destruct (relative_position_index_closed wh ww Hh Hw) as (t' & Et & Hs & Hwf & Hg).
  rewrite Ht in Et. injection Et as <-.
  apply Forall_forall. intros v Hv.
  destruct (In_nth _ _ dflt Hv) as (k & Hk & <-).
  pose proof Hwf as Hlen. unfold wf in Hlen. rewrite Hs in Hlen. cbn in Hlen.
  rewrite (nth_as_get t k Hwf) by (rewrite Hs; cbn; lia).
  rewrite Hs. cbn [unravel numel fold_right].
  assert (HN : 0 < wh * ww) by nia.
  rewrite !Nat.mul_1_r, Nat.div_1_r.
  rewrite Hg.
  - assert (k / (wh * ww) / ww < wh).
    { apply Nat.Div0.div_lt_upper_bound. 
      assert (k / (wh * ww) < wh * ww)
        by (apply Nat.Div0.div_lt_upper_bound; nia).
      lia. }
    assert (k mod (wh * ww) / ww < wh)
      by (apply Nat.Div0.div_lt_upper_bound;
          pose proof (Nat.mod_upper_bound k (wh * ww)); lia).
    pose proof (Nat.mod_upper_bound (k / (wh * ww)) ww).
    pose proof (Nat.mod_upper_bound (k mod (wh * ww)) ww).
    nia.
  - apply Nat.Div0.div_lt_upper_bound. nia.
  - apply Nat.mod_upper_bound. lia.
Qed.

Lemma mapM_at_sel (d : nat) (l : list Z) :
  Forall (fun v => (0 <= v < Z.of_nat d)%Z) l ->
  mapM (fun i => x <- at_sel i d ;; match x with SAt r => Ok r | _ => Ok 0 end) l
  = Ok (map Z.to_nat l).
Proof.
  induction 1 as [|v l Hv _ IH]; [reflexivity|].
  cbn [mapM map]. rewrite IH. unfold at_sel.
  destruct (Z.ltb_spec v (- Z.of_nat d)); [lia|].
  destruct (Z.leb_spec (Z.of_nat d) v); [lia|]. cbn.
  destruct (Z.ltb_spec v 0); [lia|]. reflexivity.
Qed.

Section ParamFacts.
Context {A : Type} {NA : Num A} {EA : Elementary A}.

Lemma checked_size_inv (dims : list Z) (s : list nat) :
  checked_size dims = Ok s -> nonneg dims /\ s = map Z.to_nat dims.
Proof.
  unfold checked_size. intros E.
  destruct (existsb (fun d => (d <? 0)%Z) dims) eqn:Ex; [discriminate|].
  injection E as <-. split; [|reflexivity].
  apply Forall_forall. intros d Hd.
  destruct (Z.ltb_spec d 0) as [Hlt|]; [|assumption].
  assert (existsb (fun d => (d <? 0)%Z) dims = true)
    by (apply existsb_exists; exists d; split; [assumption|now apply Z.ltb_lt]).
  congruence.
Qed.

Lemma checked_size_ok (dims : list Z) :
  nonneg dims -> checked_size dims = Ok (map Z.to_nat dims).
Proof.
  intros Hn. unfold checked_size.
  assert (E : existsb (fun d => (d <? 0)%Z) dims = false).
  { induction Hn as [|d l Hd _ IH]; [reflexivity|]. cbn [existsb].
    rewrite IH, orb_false_r. apply Z.ltb_ge. assumption. }
  now rewrite E.
Qed.

Lemma new_param_inv (ps : params A) (name : string) (dims : list Z) (t : tensor A) :
  new_param ps name dims = Ok t ->
  nonneg dims /\ shape t = map Z.to_nat dims /\ wf t.
Proof.
  unfold new_param. intros E. bind_inv E. injection E as <-.
  apply checked_size_inv in E0. destruct E0 as [Hn ->].
  repeat split; [assumption|]. unfold wf. cbn. now rewrite length_map, length_seq.
Qed.

Lemma new_param_ok (ps : params A) (name : string) (dims : list Z) :
  nonneg dims ->
  exists t, new_param ps name dims = Ok t /\ shape t = map Z.to_nat dims /\ wf t.
Proof.
  intros Hn. unfold new_param. rewrite (checked_size_ok _ Hn). cbn [bind].
  eexists. split; [reflexivity|]. split; [reflexivity|].
  unfold wf. cbn. now rewrite length_map, length_seq.
Qed.

Lemma WindowAttention_init_inv (ps : params A) (name : string) (dim : Z)
  (ws : Z * Z) (heads : Z) (qkv_bias : bool) (qk_scale : option A)
  (m : WindowAttention.t A) :
  WindowAttention.init ps name dim ws heads qkv_bias qk_scale = Ok m ->
  WindowAttention.window_size m = ws /\
  WindowAttention.num_heads m = heads /\
  WindowAttention.dim m = dim /\
  relative_position_index_of ws = Ok (WindowAttention.relative_position_index m) /\
  (0 <= heads)%Z /\ (0 <= dim)%Z /\ heads <> 0%Z /\
  shape (WindowAttention.relative_position_bias_table m)
  = [Z.to_nat ((2 * fst ws - 1) * (2 * snd ws - 1)); Z.to_nat heads] /\
  wf (WindowAttention.relative_position_bias_table m).
Proof.
  unfold WindowAttention.init. intros E. bind_inv E. injection E as <-.
  cbn. apply new_param_inv in E2. destruct E2 as (Hn & Hs & Hwf).
  unfold nonneg in Hn. 
  apply Forall_cons_iff in Hn. destruct Hn as [_ Hn].
  apply Forall_cons_iff in Hn. destruct Hn as [Hh _].
  unfold Linear_init in E5. bind_inv E5.
  apply new_param_inv in E2. destruct E2 as (Hn2 & _ & _).
  apply Forall_cons_iff in Hn2. destruct Hn2 as [Hd _].
  unfold floordiv in E0. destruct (Z.eqb_spec heads 0); [discriminate|].
  repeat split; try assumption.
Qed.

End ParamFacts.

Section BiasFacts.
Context {A : Type} {NA : Num A} {EA : Elementary A}.

Lemma take_rows_ok (table : tensor A) (idx : tensor Z) (d n : nat) (rest : list nat) :
  shape table = d :: rest -> shape idx = [n] ->
  Forall (fun v => (0 <= v < Z.of_nat d)%Z) (data idx) ->
  take_rows table idx
  = Ok (tabulate (n :: rest)
          (fun ix => get table (nth (nth 0 ix 0) (map Z.to_nat (data idx)) 0 :: tl ix))).
Proof.
  intros Ht Hi Hb. unfold take_rows. rewrite Ht, Hi.
  now rewrite (mapM_at_sel d _ Hb).
Qed.

Lemma relative_position_bias_spec (m : WindowAttention.t A) (wh ww heads : nat) :
  0 < wh -> 0 < ww ->
  WindowAttention.window_size m = (Z.of_nat wh, Z.of_nat ww) ->
  relative_position_index_of (Z.of_nat wh, Z.of_nat ww)
  = Ok (WindowAttention.relative_position_index m) ->
  shape (WindowAttention.relative_position_bias_table m)
  = [Z.to_nat ((2 * Z.of_nat wh - 1) * (2 * Z.of_nat ww - 1)); heads] ->
  exists b,
    WindowAttention.relative_position_bias m = Ok b /\
    shape b = [heads; wh * ww; wh * ww] /\ wf b /\
    forall h i j, h < heads -> i < wh * ww -> j < wh * ww ->
      get b [h; i; j]
      = get (WindowAttention.relative_position_bias_table m)
            [Z.to_nat (get (WindowAttention.relative_position_index m) [i; j]); h].
Proof.
  intros Hh Hw Hws Hidx Hts.
  destruct (relative_position_index_closed wh ww Hh Hw) as (t & Et & Hs & Hwf & Hg).
  pose proof (relative_position_index_bounds wh ww _ Hh Hw Hidx) as Hb.
  rewrite Hidx in Et. injection Et as <-.
  set (idx := WindowAttention.relative_position_index m) in *.
  set (table := WindowAttention.relative_position_bias_table m) in *.
  unfold WindowAttention.relative_position_bias. fold idx table.
  rewrite Hws. cbn [fst snd].
  set (N := wh * ww) in *.
  assert (HN : 0 < N) by (unfold N; nia).
  rewrite view_flat. ok_step.
  rewrite Hs. cbn [numel fold_right]. rewrite Nat.mul_1_r.
  rewrite (take_rows_ok table (mkT [N * N] (data idx)) _ (N * N) [heads] Hts eq_refl)
    by (cbn [data]; eapply Forall_impl; [|exact Hb]; cbn; intros; lia).
  ok_step. cbn [data].
  name_tab rows Hr_s Hr_w Hr.
  rewrite <- Nat2Z.inj_mul. fold N.
  change [Z.of_nat N; Z.of_nat N; (-1)%Z]
    with (map Z.of_nat [N; N] ++ [(-1)%Z]).
  rewrite (view_infer_last rows [N; N] heads)
    by (rewrite ?Hr_s; cbn; nia).
  ok_step.
  cbn [map app].
  rewrite permute_ok by reflexivity. ok_step. cbn [shape map nth].
  unfold contiguous.
  eexists. split; [reflexivity|]. split; [reflexivity|].
  split; [apply wf_tabulate|].
  intros h i j Hh' Hi Hj.
  rewrite get_tabulate by solve_range.
  cbn [permute_index map seq length index_of Nat.eqb nth].
  assert (Hflat : forall a b c, a < N -> b < N -> c < heads ->
            get (mkT [N; N; heads] (data rows)) [a; b; c]
            = get rows [a * N + b; c]).
  { intros a b c Ha Hb' Hc. unfold get. cbn [shape data]. rewrite Hr_s.
    f_equal. cbn. lia. }
  rewrite Hflat by assumption.
  rewrite Hr by solve_range.
  cbn [nth tl]. f_equal. f_equal.
  rewrite (nth_indep _ 0 (Z.to_nat dflt))
    by (unfold wf in Hwf; rewrite length_map, Hwf, Hs; cbn; nia).
  rewrite map_nth. f_equal. unfold get. rewrite Hs. f_equal. cbn. lia.
Qed.

End BiasFacts.

(** C7.  The relative-position index table of a WindowAttention instance is
    a function of the window size alone: construction stores exactly
    [relative_position_index_of window_size], whatever the channel count,
    head count and parameter values; for window size 2 it is the literal
    4x4 table below; an entry depends only on the 2D offset between the two
    positions; and so does the bias gathered from it, which is computed from
    the module alone (no input tensor enters it). *)
Theorem relative_position_index_depends_on_offsets_only
  {A : Type} {NA : Num A} {EA : Elementary A}
  (ps : params A) (name : string) (dim heads : Z) (wh ww : nat)
  (qkv_bias : bool) (qk_scale : option A) (m : WindowAttention.t A) :
  0 < wh -> 0 < ww ->
  WindowAttention.init ps name dim (Z.of_nat wh, Z.of_nat ww) heads
    qkv_bias qk_scale = Ok m ->
  relative_position_index_of (Z.of_nat wh, Z.of_nat ww)
  = Ok (WindowAttention.relative_position_index m) /\
  relative_position_index_of (2, 2)%Z
  = Ok (mkT [4; 4] [4; 3; 1; 0;
                    5; 4; 2; 1;
                    7; 6; 4; 3;
                    8; 7; 5; 4]%Z) /\
  (forall i j i' j',
     i < wh * ww -> j < wh * ww -> i' < wh * ww -> j' < wh * ww ->
     rel_offset ww i j = rel_offset ww i' j' ->
     get (WindowAttention.relative_position_index m) [i; j]
     = get (WindowAttention.relative_position_index m) [i'; j']) /\
  exists bias,
    WindowAttention.relative_position_bias m = Ok bias /\
    shape bias = [Z.to_nat heads; wh * ww; wh * ww] /\
    forall h i j i' j',
      h < Z.to_nat heads ->
      i < wh * ww -> j < wh * ww -> i' < wh * ww -> j' < wh * ww ->
      rel_offset ww i j = rel_offset ww i' j' ->
      get bias [h; i; j] = get bias [h; i'; j'].
Proof.
  intros Hh Hw Hinit.
  apply WindowAttention_init_inv in Hinit.
  destruct Hinit as (Hws & Hnh & _ & Hidx & _ & _ & _ & Hts & _).
  cbn [fst snd] in Hts.
  split; [exact Hidx|]. split; [vm_compute; reflexivity|].
  split.
  - intros i j i' j'. now apply (relative_position_index_offsets wh ww).
  - destruct (relative_position_bias_spec m wh ww (Z.to_nat heads) Hh Hw Hws Hidx Hts)
      as (b & Eb & Hbs & _ & Hb).
    exists b. split; [exact Eb|]. split; [exact Hbs|].
    intros h i j i' j' Hh' Hi Hj Hi' Hj' Ho.
    rewrite !Hb by assumption.
    now rewrite (relative_position_index_offsets wh ww _ Hh Hw Hidx i j i' j').
Qed.

Lemma relative_position_index_depends_on_offsets_only_witness :
  exists m : WindowAttention.t Rdefinitions.R,
    WindowAttention.init (fun _ _ => Rdefinitions.IZR 0) "attn" 4
      (Z.of_nat 2, Z.of_nat 2) 2 true None = Ok m /\
    relative_position_index_of (Z.of_nat 2, Z.of_nat 2)
    = Ok (WindowAttention.relative_position_index m) /\
    get (WindowAttention.relative_position_index m) [0; 1]
    = get (WindowAttention.relative_position_index m) [2; 3].
Proof.
  match goal with
  | |- exists m, ?e = Ok m /\ _ =>
      let v := eval vm_compute in e in
      match v with
      | Ok ?m0 =>
          assert (Hinit : e = Ok m0) by (vm_cast_no_check (eq_refl (Ok m0)));
          exists m0; split; [exact Hinit|];
          destruct (relative_position_index_depends_on_offsets_only
                      (fun _ _ => Rdefinitions.IZR 0) "attn" 4 2 2 2 true None m0
                      ltac:(lia) ltac:(lia) Hinit) as (H1 & _ & H3 & _)
      end
  end.
  split; [exact H1|]. apply H3; [lia | lia | lia | lia | reflexivity].
Defined.

(** ** Sizes of the results of the layers *)

Ltac step_with L :=
  let y := fresh "y" in
  let E := fresh "E" in
  let Hs := fresh "Hs" in
  let Hw := fresh "Hw" in
  destruct L as (y & E & Hs & Hw); rewrite E; ok_step.

Tactic Notation "step_as" constr(L) ident(y) :=
  let E := fresh "E_" y in
  let Hs := fresh "Hs_" y in
  let Hw := fresh "Hw_" y in
  destruct L as (y & E & Hs & Hw); rewrite E; ok_step.

Section ShapeFacts.
Context {A : Type} {NA : Num A} {EA : Elementary A}.

Lemma has_shape_tabulate (s : list nat) (F : list nat -> A) :
  has_shape (Ok (tabulate s F)) s.
Proof. exists (tabulate s F). repeat split. apply wf_tabulate. Qed.

Lemma has_shape_Ok (y : tensor A) (s : list nat) :
  shape y = s -> wf y -> has_shape (Ok y) s.
Proof. intros. now exists y. Qed.

Lemma wf_map_t {B : Type} (f : A -> B) (t : tensor A) : wf t -> wf (map_t f t).
Proof. unfold wf, map_t. cbn. now rewrite length_map. Qed.

Lemma along_last_shape (d' : nat) (f : list A -> nat -> A) (t : tensor A)
  (pre : list nat) (d : nat) :
  shape t = pre ++ [d] -> has_shape (along_last d' f t) (pre ++ [d']).
Proof.
  intros Hs. unfold along_last. rewrite Hs, rev_app_distr. cbn [rev app].
  rewrite rev_involutive. apply has_shape_tabulate.
Qed.

Lemma Linear_forward_shape (m : Linear A) (x : tensor A) (pre : list nat) (o i : nat) :
  shape (lin_weight m) = [o; i] -> shape x = pre ++ [i] ->
  has_shape (Linear_forward m x) (pre ++ [o]).
Proof.
  intros Hm Hx. unfold Linear_forward. rewrite Hm, Hx, last_last, Nat.eqb_refl.
  now apply along_last_shape with (d := i).
Qed.

Lemma LayerNorm_forward_shape (m : LayerNorm A) (x : tensor A) (pre : list nat) (d : nat) :
  ln_size m = d -> shape x = pre ++ [d] ->
  has_shape (LayerNorm_forward m x) (pre ++ [d]).
Proof.
  intros Hm Hx. unfold LayerNorm_forward. rewrite Hx, rev_app_distr. cbn [rev app].
  rewrite Hm, Nat.eqb_refl. now apply along_last_shape with (d := d).
Qed.

Lemma softmax_shape (t : tensor A) (pre : list nat) (d : nat) :
  shape t = pre ++ [d] -> has_shape (softmax t) (pre ++ [d]).
Proof.
  intros Hs. unfold softmax. rewrite Hs, last_last.
  now apply along_last_shape with (d := d).
Qed.

Lemma Mlp_forward_shape (m : Mlp A) (x : tensor A) (pre : list nat) (i h o : nat) :
  shape (lin_weight (fc1 m)) = [h; i] -> shape (lin_weight (fc2 m)) = [o; h] ->
  shape x = pre ++ [i] ->
  has_shape (Mlp_forward m x) (pre ++ [o]).
Proof.
  intros H1 H2 Hx. unfold Mlp_forward.
  step_with (Linear_forward_shape (fc1 m) x pre h i H1 Hx).
  unfold Dropout_forward.
  step_with (Linear_forward_shape (fc2 m) (map_t gelu y) pre o h H2 Hs).
  now apply has_shape_Ok.
Qed.

Lemma broadcast2_same_shape (f : A -> A -> A) (a b : tensor A) (s : list nat) :
  shape a = s -> shape b = s -> has_shape (broadcast2 f a b) s.
Proof.
  intros Ha Hb. rewrite (broadcast2_ok f a b s) by (rewrite Ha, Hb; apply broadcast_shape_same).
  apply has_shape_tabulate.
Qed.

End ShapeFacts.

Section MovementFacts.
Context {A : Type} {DA : Default A}.

Lemma pad4_shape (x : tensor A) (B H W C pr pb : nat) (v : A) :
  shape x = [B; H; W; C] ->
  has_shape (pad x [0; 0; 0; Z.of_nat pr; 0; Z.of_nat pb]%Z v)
            [B; H + pb; W + pr; C].
Proof.
  intros Hs. unfold pad. rewrite Hs. cbn [length pad_pairs Nat.even negb orb Nat.ltb Nat.leb].
  cbn [Nat.sub repeat app rev combine map].
  rewrite checked_size_ok
    by (repeat (apply Forall_cons; [lia|]); apply Forall_nil).
  ok_step. cbn [map].
  replace (Z.to_nat (Z.of_nat B + 0 + 0)) with B by lia.
  replace (Z.to_nat (Z.of_nat H + 0 + Z.of_nat pb)) with (H + pb) by lia.
  replace (Z.to_nat (Z.of_nat W + 0 + Z.of_nat pr)) with (W + pr) by lia.
  replace (Z.to_nat (Z.of_nat C + 0 + 0)) with C by lia.
  eexists. split; [reflexivity|]. split; [reflexivity|]. apply wf_tabulate.
Qed.

Lemma slice_sel_stride2 (a : nat) (k : nat) :
  a < 2 ->
  exists start, slice_sel (Some (Z.of_nat a)) None 2 (2 * k) = Ok (SRange start 2 k).
Proof.
  intros Ha. unfold slice_sel, clamp_bound. cbn [Z.leb Z.compare].
  assert (Hdiv : forall c, (0 <= c < 2)%Z ->
            ((Z.of_nat (2 * k) - c + 2 - 1) / 2)%Z
            = (if (c =? 0)%Z then Z.of_nat k else Z.of_nat k)%Z).
  { intros c Hc. destruct (Z.eqb_spec c 0) as [->|Hne].
    - replace (Z.of_nat (2 * k) - 0 + 2 - 1)%Z with (1 + Z.of_nat k * 2)%Z by lia.
      rewrite Z.div_add by lia. reflexivity.
    - replace c with 1%Z by lia.
      replace (Z.of_nat (2 * k) - 1 + 2 - 1)%Z with (0 + Z.of_nat k * 2)%Z by lia.
      rewrite Z.div_add by lia. reflexivity. }
  destruct (Z.ltb_spec (Z.of_nat a) 0); [lia|].
  destruct (Z.ltb_spec (Z.of_nat a) 0); [lia|].
  destruct (Z.ltb_spec (Z.of_nat (2 * k)) (Z.of_nat a)).
  - assert (k = 0) by lia. subst k.
    destruct (Z.leb_spec (Z.of_nat (2 * 0)) (Z.of_nat (2 * 0))); [|lia].
    now eexists.
  - destruct (Z.leb_spec (Z.of_nat (2 * k)) (Z.of_nat a)).
    + assert (k = 0) by lia. subst k. now eexists.
    + eexists. f_equal. f_equal. rewrite Hdiv by lia.
      destruct (Z.of_nat a =? 0)%Z; lia.
Qed.

Lemma getitem_stride2_shape (x : tensor A) (B h w C a b : nat) :
  shape x = [B; 2 * h; 2 * w; C] -> a < 2 -> b < 2 ->
  has_shape (getitem x [full; Slice (Some (Z.of_nat a)) None 2;
                        Slice (Some (Z.of_nat b)) None 2; full])
            [B; h; w; C].
Proof.
  intros Hs Ha Hb.
  destruct (slice_sel_stride2 a h Ha) as (sa & Ea).
  destruct (slice_sel_stride2 b w Hb) as (sb & Eb).
  unfold getitem. rewrite Hs. cbn [index_plan full].
  rewrite !slice_sel_full, Ea, Eb. cbn [bind map plan_shape flat_map app].
  apply has_shape_tabulate.
Qed.

Lemma same_except_refl (k : nat) (s : list nat) : same_except k s s = true.
Proof.
  unfold same_except. rewrite Nat.eqb_refl. cbn [andb].
  apply forallb_forall. intros a _. now rewrite Nat.eqb_refl, orb_true_r.
Qed.

Lemma cat4_last_shape (x0 x1 x2 x3 : tensor A) (B h w C : nat) :
  shape x0 = [B; h; w; C] -> shape x1 = [B; h; w; C] ->
  shape x2 = [B; h; w; C] -> shape x3 = [B; h; w; C] ->
  has_shape (cat [x0; x1; x2; x3] (-1)) [B; h; w; 4 * C].
Proof.
  intros H0 H1 H2 H3. unfold cat. rewrite H0. cbn [length].
  change (normal_dim (-1) 4) with (@Ok nat 3). ok_step.
  cbn [forallb fold_right]. rewrite H0, H1, H2, H3, !same_except_refl.
  cbn [andb firstn skipn nth app].
  replace (C + (C + (C + (C + 0)))) with (4 * C) by lia.
  apply has_shape_tabulate.
Qed.

End MovementFacts.

(** ** Patch merging *)

Section PatchMergingFacts.
Context {A : Type} {NA : Num A} {EA : Elementary A}.

Lemma Linear_init_inv (ps : params A) (name : string) (i o : Z) (bias : bool)
  (m : Linear A) :
  Linear_init ps name i o bias = Ok m ->
  (0 <= i)%Z /\ (0 <= o)%Z /\
  shape (lin_weight m) = [Z.to_nat o; Z.to_nat i] /\ wf (lin_weight m) /\
  match lin_bias m with
  | Some b => bias = true /\ shape b = [Z.to_nat o] /\ wf b
  | None => bias = false
  end.
Proof.
  unfold Linear_init. intros E. bind_inv E.
  apply new_param_inv in E0. destruct E0 as (Hn & Hs & Hw).
  apply Forall_cons_iff in Hn. destruct Hn as [Ho Hn].
  apply Forall_cons_iff in Hn. destruct Hn as [Hi _].
  destruct bias.
  - bind_inv E. injection E as <-. cbn.
    apply new_param_inv in E0. destruct E0 as (_ & Hsb & Hwb).
    repeat split; assumption.
  - injection E as <-. cbn. repeat split; assumption.
Qed.

Lemma LayerNorm_init_inv (ps : params A) (name : string) (d : Z) (m : LayerNorm A) :
  LayerNorm_init ps name d = Ok m -> (0 <= d)%Z /\ ln_size m = Z.to_nat d.
Proof.
  unfold LayerNorm_init. intros E. bind_inv E. injection E as <-. cbn.
  apply new_param_inv in E0. destruct E0 as (Hn & _ & _).
  apply Forall_cons_iff in Hn. destruct Hn as [Hd _]. now split.
Qed.

Lemma PatchMerging_init_inv (ps : params A) (name : string) (dim : Z)
  (m : PatchMerging.t A) :
  PatchMerging.init ps name dim = Ok m ->
  (0 <= dim)%Z /\
  shape (lin_weight (PatchMerging.reduction m))
  = [2 * Z.to_nat dim; 4 * Z.to_nat dim] /\
  lin_bias (PatchMerging.reduction m) = None /\
  ln_size (PatchMerging.norm m) = 4 * Z.to_nat dim.
Proof.
  unfold PatchMerging.init. intros E. bind_inv E. injection E as <-. cbn.
  match goal with
  | H : Linear_init _ _ _ _ _ = Ok _ |- _ =>
      apply Linear_init_inv in H; destruct H as (H4 & H2 & Hs & _ & Hb)
  end.
  match goal with
  | H : LayerNorm_init _ _ _ = Ok _ |- _ =>
      apply LayerNorm_init_inv in H; destruct H as (_ & Hl)
  end.
  match type of Hb with
  | match ?b with _ => _ end => destruct b; [destruct Hb; discriminate|]
  end.
  repeat split; try lia.
  rewrite Hs. f_equal; [lia|]. f_equal. lia.
Qed.

Lemma PatchMerging_forward_shape (m : PatchMerging.t A) (x : tensor A)
  (B H W C : nat) :
  shape (lin_weight (PatchMerging.reduction m)) = [2 * C; 4 * C] ->
  ln_size (PatchMerging.norm m) = 4 * C ->
  wf x -> shape x = [B; H * W; C] -> 0 < B -> 0 < C ->
  has_shape (PatchMerging.forward m x (Z.of_nat H) (Z.of_nat W))
            [B; ((H + 1) / 2) * ((W + 1) / 2); 2 * C].
Proof.
  intros Hred Hnorm Hwf Hs HB HC. unfold PatchMerging.forward, zshape.
  rewrite Hs. cbn [map]. rewrite <- Nat2Z.inj_mul, Z.eqb_refl.
  cbn [assert bind].
  change [Z.of_nat B; Z.of_nat H; Z.of_nat W; Z.of_nat C]
    with (map Z.of_nat [B; H; W; C]).
  rewrite view_of_nat by (rewrite Hs; cbn; lia). ok_step.
  set (h := (H + 1) / 2). set (w := (W + 1) / 2).
  assert (EH : H + H mod 2 = 2 * h).
  { unfold h. pose proof (Nat.div_mod_eq (H + 1) 2).
    pose proof (Nat.mod_upper_bound H 2). pose proof (Nat.mod_upper_bound (H + 1) 2).
    pose proof (Nat.div_mod_eq H 2).
    assert ((H + 1) mod 2 = 1 - H mod 2).
    { rewrite <- Nat.Div0.add_mod_idemp_l.
      destruct (H mod 2) as [|[|?]]; [reflexivity|reflexivity|lia]. }
    lia. }
  assert (EW : W + W mod 2 = 2 * w).
  { unfold w. pose proof (Nat.div_mod_eq (W + 1) 2).
    pose proof (Nat.mod_upper_bound W 2). pose proof (Nat.mod_upper_bound (W + 1) 2).
    pose proof (Nat.div_mod_eq W 2).
    assert ((W + 1) mod 2 = 1 - W mod 2).
    { rewrite <- Nat.Div0.add_mod_idemp_l.
      destruct (W mod 2) as [|[|?]]; [reflexivity|reflexivity|lia]. }
    lia. }
  assert (Hpad : has_shape
            (if ((Z.of_nat H mod 2 =? 1) || (Z.of_nat W mod 2 =? 1))%Z
             then pad (mkT [B; H; W; C] (data x))
                      [0; 0; 0; Z.of_nat W mod 2; 0; Z.of_nat H mod 2]%Z (of_Q 0%Q)
             else Ok (mkT [B; H; W; C] (data x)))
            [B; 2 * h; 2 * w; C]).
  { change 2%Z with (Z.of_nat 2). rewrite <- !Nat2Z.inj_mod.
    match goal with
    | |- has_shape (if ?c then _ else _) _ => destruct c eqn:Ep
    end.
    - rewrite <- EH, <- EW. now apply pad4_shape.
    - apply orb_false_elim in Ep. destruct Ep as [E1 E2].
      apply Z.eqb_neq in E1, E2.
      pose proof (Nat.mod_upper_bound H 2 ltac:(lia)).
      pose proof (Nat.mod_upper_bound W 2 ltac:(lia)).
      apply has_shape_Ok.
      + cbn. repeat (f_equal; try lia).
      + unfold wf in *. rewrite Hs in Hwf. cbn in *. lia. }
  step_with Hpad.
  change (Some 0%Z) with (Some (Z.of_nat 0)).
  change (Some 1%Z) with (Some (Z.of_nat 1)).
  step_with (getitem_stride2_shape y B h w C 0 0 Hs0 ltac:(lia) ltac:(lia)).
  step_with (getitem_stride2_shape y B h w C 1 0 Hs0 ltac:(lia) ltac:(lia)).
  step_with (getitem_stride2_shape y B h w C 0 1 Hs0 ltac:(lia) ltac:(lia)).
  step_with (getitem_stride2_shape y B h w C 1 1 Hs0 ltac:(lia) ltac:(lia)).
  step_with (cat4_last_shape y0 y1 y2 y3 B h w C Hs1 Hs2 Hs3 Hs4).
  change [Z.of_nat B; (-1)%Z; (4 * Z.of_nat C)%Z]
    with (map Z.of_nat [B] ++ (-1)%Z :: [(4 * Z.of_nat C)%Z]).
  rewrite view_infer; try apply nonneg_of_nat;
    [| repeat constructor; lia
     | rewrite to_nat_of_nat; cbn; nia
     | rewrite to_nat_of_nat, Hs5; apply (mod_exact (h * w)); cbn; lia ].
  ok_step. rewrite to_nat_of_nat, Hs5. cbn [map app].
  replace (numel [B; h; w; 4 * C] / (numel [B] * numel [Z.to_nat (4 * Z.of_nat C)]))
    with (h * w) by (symmetry; apply (div_exact (h * w)); cbn; nia).
  replace (Z.to_nat (4 * Z.of_nat C)) with (4 * C) by lia.
  step_with (LayerNorm_forward_shape (PatchMerging.norm m)
               (mkT [B; h * w; 4 * C] (data y4)) [B; h * w] (4 * C) Hnorm eq_refl).
  apply (Linear_forward_shape _ y5 [B; h * w] (2 * C) (4 * C) Hred Hs6).
Qed.

End PatchMergingFacts.

(** C5.  PatchMerging.forward on an input of shape (B, H*W, C), with C the
    channel count the module was built for, returns a tensor of shape
    (B, ceil(H/2) * ceil(W/2), 2*C); the projection from the 4*C
    concatenation to 2*C channels has no bias.  The witness below is the
    instance (1, 64, 16) with H = W = 8, whose result has shape (1, 16, 32). *)
Theorem PatchMerging_forward_output_shape
  {A : Type} {NA : Num A} {EA : Elementary A}
  (ps : params A) (name : string) (dim : Z) (m : PatchMerging.t A)
  (x : tensor A) (B H W : nat) :
  PatchMerging.init ps name dim = Ok m ->
  wf x -> shape x = [B; H * W; Z.to_nat dim] -> 0 < B -> (0 < dim)%Z ->
  has_shape (PatchMerging.forward m x (Z.of_nat H) (Z.of_nat W))
            [B; ((H + 1) / 2) * ((W + 1) / 2); 2 * Z.to_nat dim] /\
  lin_bias (PatchMerging.reduction m) = None /\
  shape (lin_weight (PatchMerging.reduction m))
  = [2 * Z.to_nat dim; 4 * Z.to_nat dim].
Proof.
  intros Hinit Hwf Hs HB Hdim.
  apply PatchMerging_init_inv in Hinit. destruct Hinit as (_ & Hred & Hbias & Hnorm).
  split; [|split; assumption].
  apply PatchMerging_forward_shape; try assumption. lia.
Qed.

Lemma PatchMerging_forward_output_shape_witness :
  exists m : PatchMerging.t Rdefinitions.R,
    PatchMerging.init (fun _ _ => Rdefinitions.IZR 0) "downsample" 16 = Ok m /\
    has_shape (PatchMerging.forward m (full_of [1; 64; 16] (Rdefinitions.IZR 0)) 8 8)
              [1; 16; 32].
Proof.
  match goal with
  | |- exists m, ?e = Ok m /\ _ =>
      let v := eval vm_compute in e in
      match v with
      | Ok ?m0 =>
          assert (Hinit : e = Ok m0) by (vm_cast_no_check (eq_refl (Ok m0)));
          exists m0; split; [exact Hinit|];
          exact (proj1 (PatchMerging_forward_output_shape
                          (fun _ _ => Rdefinitions.IZR 0) "downsample" 16 m0
                          (full_of [1; 64; 16] (Rdefinitions.IZR 0)) 1 8 8
                          Hinit eq_refl eq_refl ltac:(lia) ltac:(lia)))
      end
  end.
Defined.

(** ** Window attention and the shifted-window block *)

Lemma broadcast_rev_lead1 (r : list nat) (b : nat) :
  broadcast_rev (r ++ [b]) (r ++ [1]) = Ok (r ++ [b]).
Proof.
  induction r as [|d r IH]; cbn.
  - destruct (Nat.eqb_spec b 1) as [->|_]; [reflexivity|].
    now destruct (Nat.eqb_spec b 1).
  - rewrite IH. cbn. now rewrite Nat.eqb_refl.
Qed.

Lemma broadcast_shape_lead1 (s : list nat) (b : nat) :
  broadcast_shape (b :: s) (1 :: s) = Ok (b :: s).
Proof.
  unfold broadcast_shape. cbn [rev]. rewrite broadcast_rev_lead1. cbn [bind].
  now rewrite rev_app_distr, rev_involutive.
Qed.

Lemma broadcast_shape_mask (g nW h n : nat) :
  broadcast_shape [g; nW; h; n; n] [1; nW; 1; n; n] = Ok [g; nW; h; n; n].
Proof.
  unfold broadcast_shape. cbn. rewrite !Nat.eqb_refl. cbn.
  destruct (Nat.eqb_spec h 1) as [->|_]; cbn; rewrite ?Nat.eqb_refl; cbn.
  - destruct (Nat.eqb_spec g 1) as [->|_]; [reflexivity|].
    now destruct (Nat.eqb_spec g 1).
  - destruct (Nat.eqb_spec h 1); cbn; rewrite ?Nat.eqb_refl; cbn;
      (destruct (Nat.eqb_spec g 1) as [->|_]; [reflexivity|];
       now destruct (Nat.eqb_spec g 1)).
Qed.

Section AttentionFacts.
Context {A : Type} {NA : Num A} {EA : Elementary A}.

Lemma permute_shape (t : tensor A) (dims : list nat) :
  is_perm (length (shape t)) dims = true ->
  has_shape (permute t dims) (map (fun a => nth a (shape t) 0) dims).
Proof. intros E. rewrite permute_ok by assumption. apply has_shape_tabulate. Qed.

Lemma transpose4_last_shape (t : tensor A) (a b c d : nat) :
  shape t = [a; b; c; d] -> has_shape (transpose t (-2) (-1)) [a; b; d; c].
Proof.
  intros Hs. unfold transpose. rewrite Hs. cbn [length].
  change (normal_dim (-2) 4) with (@Ok nat 2).
  change (normal_dim (-1) 4) with (@Ok nat 3). cbn [bind].
  change (map _ (seq 0 4)) with [0; 1; 3; 2].
  pose proof (permute_shape t [0; 1; 3; 2]) as Hp. rewrite Hs in Hp.
  apply Hp. reflexivity.
Qed.

Lemma transpose4_mid_shape (t : tensor A) (a b c d : nat) :
  shape t = [a; b; c; d] -> has_shape (transpose t 1 2) [a; c; b; d].
Proof.
  intros Hs. unfold transpose. rewrite Hs. cbn [length].
  change (normal_dim 1 4) with (@Ok nat 1).
  change (normal_dim 2 4) with (@Ok nat 2). cbn [bind].
  change (map _ (seq 0 4)) with [0; 2; 1; 3].
  pose proof (permute_shape t [0; 2; 1; 3]) as Hp. rewrite Hs in Hp.
  apply Hp. reflexivity.
Qed.

Lemma matmul4_shape (a b : tensor A) (b1 b2 n k p : nat) :
  shape a = [b1; b2; n; k] -> shape b = [b1; b2; k; p] ->
  has_shape (matmul a b) [b1; b2; n; p].
Proof.
  intros Ha Hb. unfold matmul. rewrite Ha, Hb. cbn [rev app].
  rewrite Nat.eqb_refl, broadcast_shape_same. cbn [bind app].
  apply has_shape_tabulate.
Qed.

Lemma getitem_at5_shape (t : tensor A) (k n a b c d : nat) :
  shape t = [n; a; b; c; d] -> k < n ->
  has_shape (getitem t [At (Z.of_nat k)]) [a; b; c; d].
Proof.
  intros Hs Hk. unfold getitem. rewrite Hs. cbn [index_plan]. unfold at_sel.
  destruct (Z.ltb_spec (Z.of_nat k) (- Z.of_nat n)); [lia|].
  destruct (Z.leb_spec (Z.of_nat n) (Z.of_nat k)); [lia|]. cbn [orb bind map].
  apply has_shape_tabulate.
Qed.

Lemma unsqueeze_shape (t : tensor A) (k : nat) :
  wf t -> k <= length (shape t) ->
  has_shape (unsqueeze t (Z.of_nat k))
            (firstn k (shape t) ++ 1 :: skipn k (shape t)).
Proof.
  intros Hwf Hk. unfold unsqueeze, normal_dim.
  destruct (Z.ltb_spec (Z.of_nat k) (- Z.of_nat (S (length (shape t))))); [lia|].
  destruct (Z.leb_spec (Z.of_nat (S (length (shape t)))) (Z.of_nat k)); [lia|].
  cbn [orb bind]. destruct (Z.ltb_spec (Z.of_nat k) 0); [lia|].
  rewrite Nat2Z.id. apply has_shape_Ok; [reflexivity|].
  unfold wf in *. cbn [shape data]. rewrite Hwf.
  rewrite <- (firstn_skipn k (shape t)) at 1. rewrite !numel_app.
  cbn [numel fold_right]. fold (numel (skipn k (shape t))). lia.
Qed.

End AttentionFacts.

Section WindowAttentionShape.
Context {A : Type} {NA : Num A} {EA : Elementary A}.

Lemma WindowAttention_forward_shape (m : WindowAttention.t A) (x : tensor A)
  (mask : option (tensor A)) (B_ heads hdim ws : nat) :
  WindowAttention_ok m (heads * hdim) heads ws ->
  wf x -> shape x = [B_; ws * ws; heads * hdim] ->
  match mask with
  | Some mk => wf mk /\ exists nW g, shape mk = [nW; ws * ws; ws * ws]
                                     /\ B_ = g * nW /\ 0 < nW
  | None => True
  end ->
  has_shape (WindowAttention.forward m x mask) [B_; ws * ws; heads * hdim].
Proof.
  intros (Hnh & Hws & Hidx & Hts & Hqkv & Hproj & Hh & Hw) Hwf Hs Hmask.
  set (C := heads * hdim) in *. set (N := ws * ws) in *.
  unfold WindowAttention.forward, zshape. rewrite Hs. cbn [map].
  rewrite Hnh.
  assert (Efd : floordiv (Z.of_nat C) (Z.of_nat heads) = Ok (Z.of_nat hdim)).
  { unfold C. rewrite Nat.mul_comm. now apply floordiv_mul. }
  rewrite Efd. ok_step.
  step_as (Linear_forward_shape (WindowAttention.qkv m) x [B_; N] (3 * C) C Hqkv Hs) lin.
  change [Z.of_nat B_; Z.of_nat N; 3%Z; Z.of_nat heads; Z.of_nat hdim]
    with (map Z.of_nat [B_; N; 3; heads; hdim]).
  rewrite view_of_nat by (rewrite Hs_lin; unfold C; cbn; nia). ok_step.
  rewrite permute_ok by reflexivity. ok_step. cbn [shape map nth].
  name_tab pq Hpq_s Hpq_w Hpq. clear Hpq.
  change (At 0) with (At (Z.of_nat 0)). change (At 1) with (At (Z.of_nat 1)).
  change (At 2) with (At (Z.of_nat 2)).
  step_as (getitem_at5_shape pq 0 3 B_ heads N hdim Hpq_s ltac:(lia)) q.
  step_as (getitem_at5_shape pq 1 3 B_ heads N hdim Hpq_s ltac:(lia)) k.
  step_as (getitem_at5_shape pq 2 3 B_ heads N hdim Hpq_s ltac:(lia)) v.
  step_as (transpose4_last_shape k B_ heads N hdim Hs_k) kt.
  step_as (matmul4_shape (map_t (fun e => mul e (WindowAttention.scale m)) q) kt
             B_ heads N hdim N Hs_q Hs_kt) qk.
  destruct (relative_position_bias_spec m ws ws heads Hw Hw Hws Hidx Hts)
    as (b & Eb & Hb_s & Hb_w & _).
  rewrite Eb. ok_step. fold N in Hb_s.
  change 0%Z with (Z.of_nat 0).
  step_as (unsqueeze_shape b 0 Hb_w ltac:(lia)) b1. rewrite Hb_s in Hs_b1.
  cbn [firstn skipn app] in Hs_b1.
  rewrite (broadcast2_ok add qk b1 [B_; heads; N; N])
    by (rewrite Hs_qk, Hs_b1; apply broadcast_shape_lead1).
  ok_step. name_tab attn Hat_s Hat_w Hat. clear Hat.
  match goal with
  | |- has_shape (bind ?M _) _ => assert (Hsm : has_shape M [B_; heads; N; N])
  end.
  { destruct mask as [mk|].
    - destruct Hmask as (Hmw & nW & g & Hmk & HB & HnW).
      unfold zshape. rewrite Hmk. cbn [map hd].
      assert (Eg : floordiv (Z.of_nat B_) (Z.of_nat nW) = Ok (Z.of_nat g))
        by (rewrite HB; now apply floordiv_mul).
      rewrite Eg. ok_step.
      change [Z.of_nat g; Z.of_nat nW; Z.of_nat heads; Z.of_nat N; Z.of_nat N]
        with (map Z.of_nat [g; nW; heads; N; N]).
      rewrite view_of_nat by (rewrite Hat_s, HB; cbn; nia). ok_step.
      change (unsqueeze mk 1) with (unsqueeze mk (Z.of_nat 1)).
      step_as (unsqueeze_shape mk 1 Hmw ltac:(rewrite Hmk; cbn; lia)) m1.
      rewrite Hmk in Hs_m1. cbn [firstn skipn app] in Hs_m1.
      step_as (unsqueeze_shape m1 0 Hw_m1 ltac:(lia)) m2.
      rewrite Hs_m1 in Hs_m2. cbn [firstn skipn app] in Hs_m2.
      rewrite (broadcast2_ok add _ m2 [g; nW; heads; N; N])
        by (rewrite Hs_m2; apply broadcast_shape_mask).
      ok_step. name_tab am Ham_s Ham_w Ham. clear Ham.
      change [(-1)%Z; Z.of_nat heads; Z.of_nat N; Z.of_nat N]
        with ((-1)%Z :: map Z.of_nat [heads; N; N]).
      rewrite (view_infer_first am [heads; N; N] B_)
        by (rewrite ?Ham_s, ?HB; unfold N; cbn; nia).
      ok_step. apply (softmax_shape _ [B_; heads; N] N). reflexivity.
    - apply (softmax_shape attn [B_; heads; N] N). exact Hat_s. }
  step_as Hsm sm. unfold Dropout_forward.
  step_as (matmul4_shape sm v B_ heads N N hdim Hs_sm Hs_v) av.
  step_as (transpose4_mid_shape av B_ heads N hdim Hs_av) avt.
  change [Z.of_nat B_; Z.of_nat N; Z.of_nat C]
    with (map Z.of_nat [B_; N; C]).
  rewrite view_of_nat by (rewrite Hs_avt; unfold C; cbn; nia). ok_step.
  step_as (Linear_forward_shape (WindowAttention.proj m)
             (mkT [B_; N; C] (data avt)) [B_; N] C C Hproj eq_refl) out.
  now apply has_shape_Ok.
Qed.

End WindowAttentionShape.

Section BlockFacts.
Context {A : Type} {NA : Num A} {EA : Elementary A}.

Lemma roll1_shape (x : tensor A) (shift : Z) (k : nat) :
  k < length (shape x) ->
  has_shape (roll1 x shift (Z.of_nat k)) (shape x).
Proof.
  intros Hk. unfold roll1, normal_dim.
  destruct (Z.ltb_spec (Z.of_nat k) (- Z.of_nat (length (shape x)))); [lia|].
  destruct (Z.leb_spec (Z.of_nat (length (shape x))) (Z.of_nat k)); [lia|].
  cbn [orb bind]. apply has_shape_tabulate.
Qed.

Lemma roll_12_shape (x : tensor A) (s1 s2 : Z) (s : list nat) :
  shape x = s -> 2 < length s ->
  has_shape (roll x [s1; s2] [1; 2]%Z) s.
Proof.
  intros Hs Hl. unfold roll. cbn [length Nat.eqb combine foldM].
  change 1%Z with (Z.of_nat 1). change 2%Z with (Z.of_nat 2).
  step_as (roll1_shape x s1 1 ltac:(rewrite Hs; lia)) r1.
  step_as (roll1_shape r1 s2 2 ltac:(rewrite Hs_r1, Hs; lia)) r2.
  apply has_shape_Ok; [congruence|assumption].
Qed.

Lemma slice_sel_prefix (n d : nat) :
  n <= d -> slice_sel None (Some (Z.of_nat n)) 1 d = Ok (SRange 0 1 n).
Proof.
  intros Hn. unfold slice_sel, clamp_bound. cbn [Z.leb Z.compare].
  destruct (Z.ltb_spec (Z.of_nat n) 0); [lia|].
  destruct (Z.ltb_spec (Z.of_nat n) 0); [lia|].
  destruct (Z.ltb_spec (Z.of_nat d) (Z.of_nat n)); [lia|].
  f_equal. f_equal.
  destruct (Z.leb_spec (Z.of_nat n) 0).
  - lia.
  - rewrite Z.div_1_r. lia.
Qed.

Lemma crop_shape (x : tensor A) (B Hp Wp C H W : nat) :
  shape x = [B; Hp; Wp; C] -> H <= Hp -> W <= Wp ->
  has_shape (getitem x [full; Slice None (Some (Z.of_nat H)) 1;
                        Slice None (Some (Z.of_nat W)) 1; full])
            [B; H; W; C].
Proof.
  intros Hs HH HW. unfold getitem. rewrite Hs. cbn [index_plan full].
  rewrite !slice_sel_full, !slice_sel_prefix by assumption.
  cbn [bind map plan_shape flat_map app]. apply has_shape_tabulate.
Qed.

Lemma window_partition_shape (x : tensor A) (B h w C k : nat) :
  shape x = [B; h * k; w * k; C] -> 0 < k -> 0 < C ->
  has_shape (window_partition x (Z.of_nat k)) [B * h * w; k; k; C].
Proof.
  intros Hs Hk HC. rewrite (window_partition_spec x B h w C k Hs Hk HC).
  apply has_shape_Ok; [reflexivity|].
  unfold wf. cbn [shape data]. rewrite (wf_tabulate [B; h; w; k; k; C]).
  rewrite shape_tabulate. cbn. lia.
Qed.

Lemma window_reverse_shape (y : tensor A) (B h w C k : nat) :
  shape y = [B * h * w; k; k; C] -> 0 < B -> 0 < h -> 0 < w -> 0 < k ->
  has_shape (window_reverse y (Z.of_nat k) (Z.of_nat (h * k)) (Z.of_nat (w * k)))
            [B; h * k; w * k; C].
Proof.
  intros Hs HB Hh Hw Hk. destruct y as [s l]. cbn in Hs. subst s.
  rewrite window_reverse_spec by assumption.
  apply has_shape_Ok; [reflexivity|].
  unfold wf. cbn [shape data]. rewrite (wf_tabulate [B; h; k; w; k; C]).
  rewrite shape_tabulate. cbn. lia.
Qed.

Lemma pad_to_multiple (n k : nat) :
  0 < k ->
  let p := (k - n mod k) mod k in
  (n + p) mod k = 0 /\ p < k /\ (0 < n -> 0 < (n + p) / k) /\
  ((Z.of_nat k - Z.of_nat n mod Z.of_nat k) mod Z.of_nat k)%Z = Z.of_nat p.
Proof.
  intros Hk p.
  pose proof (Nat.mod_upper_bound n k ltac:(lia)) as Hr.
  pose proof (Nat.div_mod_eq n k) as Hn.
  assert (Hp : p < k) by (apply Nat.mod_upper_bound; lia).
  assert (Hpe : p = if n mod k =? 0 then 0 else k - n mod k).
  { unfold p. destruct (Nat.eqb_spec (n mod k) 0) as [E|E].
    - rewrite E, Nat.sub_0_r. apply Nat.Div0.mod_same.
    - apply Nat.mod_small. lia. }
  assert (Hsum : n + p = k * (n / k + (if n mod k =? 0 then 0 else 1))).
  { rewrite Hpe. destruct (Nat.eqb_spec (n mod k) 0) as [E|E]; nia. }
  repeat split.
  - rewrite Hsum, Nat.mul_comm. apply Nat.Div0.mod_mul.
  - assumption.
  - intros Hpos. rewrite Hsum, Nat.mul_comm, Nat.div_mul by lia.
    destruct (Nat.eqb_spec (n mod k) 0) as [E|E]; [|lia].
    assert (n / k <> 0) by (intros E0; rewrite E0 in Hn; lia). lia.
  - unfold p. now rewrite <- Nat2Z.inj_mod, <- Nat2Z.inj_sub, <- Nat2Z.inj_mod by lia.
Qed.

End BlockFacts.

Section BlockShape.
Context {A : Type} {NA : Num A} {EA : Elementary A}.

Lemma SwinTransformerBlock_forward_shape (m : SwinTransformerBlock.t A)
  (x mask : tensor A) (B H W heads hdim ws hidden : nat) :
  SwinTransformerBlock_ok m (heads * hdim) heads ws hidden ->
  SwinTransformerBlock.H m = Some (Z.of_nat H) ->
  SwinTransformerBlock.W m = Some (Z.of_nat W) ->
  wf x -> shape x = [B; H * W; heads * hdim] ->
  0 < B -> 0 < H -> 0 < W -> 0 < hdim ->
  ((0 < SwinTransformerBlock.shift_size m)%Z ->
   wf mask /\
   shape mask = [((H + (ws - H mod ws) mod ws) / ws)
                 * ((W + (ws - W mod ws) mod ws) / ws); ws * ws; ws * ws]) ->
  has_shape (SwinTransformerBlock.forward m x mask) [B; H * W; heads * hdim].
Proof.
  intros (Hws & Hshift & Hn1 & Hn2 & Hattn & Hfc1 & Hfc2) HH HW Hwf Hs
         HB HH0 HW0 Hhd Hmask.
  pose proof Hattn as (_ & _ & _ & _ & _ & _ & Hheads & Hwspos).
  set (C := heads * hdim) in *.
  assert (HC : 0 < C) by (unfold C; nia).
  unfold SwinTransformerBlock.forward, zshape. rewrite Hs, HH, HW. cbn [map].
  rewrite <- Nat2Z.inj_mul, Z.eqb_refl. cbn [assert bind].
  step_as (LayerNorm_forward_shape (SwinTransformerBlock.norm1 m) x [B; H * W] C
             Hn1 Hs) n1.
  change [Z.of_nat B; Z.of_nat H; Z.of_nat W; Z.of_nat C]
    with (map Z.of_nat [B; H; W; C]).
  rewrite view_of_nat by (rewrite Hs_n1; cbn; lia). ok_step.
  rewrite Hws.
  destruct (pad_to_multiple H ws Hwspos) as (HpH & HpHlt & HpHpos & HpHz).
  destruct (pad_to_multiple W ws Hwspos) as (HpW & HpWlt & HpWpos & HpWz).
  set (pb := (ws - H mod ws) mod ws) in *.
  set (pr := (ws - W mod ws) mod ws) in *.
  unfold pymod. destruct (Z.eqb_spec (Z.of_nat ws) 0) as [|_]; [lia|].
  repeat ok_step. rewrite HpHz, HpWz.
  step_as (pad4_shape (mkT [B; H; W; C] (data n1)) B H W C pr pb (of_Q 0%Q) eq_refl) xp.
  rewrite Hs_xp. cbn [nth].
  set (hp := (H + pb) / ws) in *. set (wp := (W + pr) / ws) in *.
  assert (EHp : H + pb = hp * ws).
  { unfold hp. pose proof (Nat.div_mod_eq (H + pb) ws). lia. }
  assert (EWp : W + pr = wp * ws).
  { unfold wp. pose proof (Nat.div_mod_eq (W + pr) ws). lia. }
  rewrite EHp, EWp in *.
  specialize (HpHpos HH0). specialize (HpWpos HW0).
  set (shift := SwinTransformerBlock.shift_size m) in *.
  set (N := ws * ws).
  assert (Hmid : forall (sx : tensor A) (am : option (tensor A))
                   (K : tensor A -> result (tensor A)) (S : list nat),
            wf sx -> shape sx = [B; hp * ws; wp * ws; C] ->
            match am with
            | Some mk => wf mk /\ shape mk = [hp * wp; N; N]
            | None => True
            end ->
            (forall rv, wf rv -> shape rv = [B; hp * ws; wp * ws; C] ->
                        has_shape (K rv) S) ->
            has_shape
              (x_windows <- window_partition sx (Z.of_nat ws) ;;
               x_windows <- view x_windows
                              [(-1)%Z; (Z.of_nat ws * Z.of_nat ws)%Z; Z.of_nat C] ;;
               attn_windows <- WindowAttention.forward
                                 (SwinTransformerBlock.attn m) x_windows am ;;
               attn_windows <- view attn_windows
                                 [(-1)%Z; Z.of_nat ws; Z.of_nat ws; Z.of_nat C] ;;
               bind (window_reverse attn_windows (Z.of_nat ws)
                       (Z.of_nat (hp * ws)) (Z.of_nat (wp * ws))) K)
              S).
  { intros sx am K S Hsxw Hsx Ham HK.
    step_as (window_partition_shape sx B hp wp C ws Hsx Hwspos HC) xw.
    rewrite <- Nat2Z.inj_mul. fold N.
    change [(-1)%Z; Z.of_nat N; Z.of_nat C] with ((-1)%Z :: map Z.of_nat [N; C]).
    rewrite (view_infer_first xw [N; C] (B * hp * wp))
      by (rewrite ?Hs_xw; unfold N; cbn; nia).
    ok_step.
    step_as (WindowAttention_forward_shape (SwinTransformerBlock.attn m)
               (mkT [B * hp * wp; N; C] (data xw)) am (B * hp * wp) heads hdim ws
               Hattn
               ltac:(unfold wf in *; rewrite Hs_xw in Hw_xw; unfold N;
                     cbn in *; lia)
               eq_refl
               ltac:(destruct am as [mk|]; [|exact I];
                     destruct Ham as [Hmkw Hmks]; split; [exact Hmkw|];
                     exists (hp * wp), B; repeat split; [exact Hmks | lia | nia]))
            aw.
    change [(-1)%Z; Z.of_nat ws; Z.of_nat ws; Z.of_nat C]
      with ((-1)%Z :: map Z.of_nat [ws; ws; C]).
    rewrite (view_infer_first aw [ws; ws; C] (B * hp * wp))
      by (rewrite ?Hs_aw; unfold N; cbn; nia).
    ok_step.
    step_as (window_reverse_shape (mkT [B * hp * wp; ws; ws; C] (data aw))
               B hp wp C ws eq_refl HB HpHpos HpWpos Hwspos) rv.
    now apply HK. }
  assert (Htail : forall (xr : tensor A),
            wf xr -> shape xr = [B; hp * ws; wp * ws; C] ->
            has_shape
              (x1 <- (if (0 <? Z.of_nat pr)%Z || (0 <? Z.of_nat pb)%Z
                      then y <- getitem xr [full; Slice None (Some (Z.of_nat H)) 1;
                                            Slice None (Some (Z.of_nat W)) 1; full] ;;
                           Ok (contiguous y)
                      else Ok xr) ;;
               x2 <- view x1 [Z.of_nat B; Z.of_nat (H * W); Z.of_nat C] ;;
               x3 <- broadcast2 add x (Dropout_forward x2) ;;
               n2 <- LayerNorm_forward (SwinTransformerBlock.norm2 m) x3 ;;
               y <- Mlp_forward (SwinTransformerBlock.mlp m) n2 ;;
               broadcast2 add x3 (Dropout_forward y))
              [B; H * W; C]).
  { intros xr Hxrw Hxr.
    assert (Hcrop : has_shape
              (if (0 <? Z.of_nat pr)%Z || (0 <? Z.of_nat pb)%Z
               then y <- getitem xr [full; Slice None (Some (Z.of_nat H)) 1;
                                     Slice None (Some (Z.of_nat W)) 1; full] ;;
                    Ok (contiguous y)
               else Ok xr) [B; H; W; C]).
    { destruct ((0 <? Z.of_nat pr)%Z || (0 <? Z.of_nat pb)%Z) eqn:Ep.
      - step_as (crop_shape xr B (hp * ws) (wp * ws) C H W Hxr
                   ltac:(lia) ltac:(lia)) cr.
        now apply has_shape_Ok.
      - apply orb_false_elim in Ep. destruct Ep as [E1 E2].
        apply Z.ltb_ge in E1, E2.
        apply has_shape_Ok; [|assumption].
        rewrite Hxr. repeat (f_equal; try lia). }
    step_as Hcrop x1.
    change [Z.of_nat B; Z.of_nat (H * W); Z.of_nat C]
      with (map Z.of_nat [B; H * W; C]).
    rewrite view_of_nat by (rewrite Hs_x1; cbn; lia). ok_step.
    unfold Dropout_forward.
    step_as (broadcast2_same_shape add x (mkT [B; H * W; C] (data x1))
               [B; H * W; C] Hs eq_refl) x3.
    step_as (LayerNorm_forward_shape (SwinTransformerBlock.norm2 m) x3
               [B; H * W] C Hn2 Hs_x3) n2.
    step_as (Mlp_forward_shape (SwinTransformerBlock.mlp m) n2 [B; H * W]
               C hidden C Hfc1 Hfc2 Hs_n2) y.
    apply (broadcast2_same_shape add x3 y [B; H * W; C] Hs_x3 Hs_y). }
  destruct (Z.ltb_spec 0 shift) as [Hsh|Hsh].
  - destruct (Hmask Hsh) as [Hmw Hms].
    step_as (roll_12_shape xp (- shift) (- shift) [B; hp * ws; wp * ws; C]
               Hs_xp ltac:(cbn; lia)) sx.
    cbn [fst snd].
    apply (Hmid sx (Some mask)); [assumption | assumption | now split |].
    intros rv Hw_rv Hs_rv.
    step_as (roll_12_shape rv shift shift [B; hp * ws; wp * ws; C]
               Hs_rv ltac:(cbn; lia)) xr.
    apply (Htail xr Hw_xr Hs_xr).
  - ok_step. cbn [fst snd].
    apply (Hmid xp None); [assumption | assumption | exact I |].
    intros rv Hw_rv Hs_rv. ok_step.
    apply (Htail rv Hw_rv Hs_rv).
Qed.

End BlockShape.

Section InitFacts.
Context {A : Type} {NA : Num A} {EA : Elementary A}.

Lemma WindowAttention_init_ok (ps : params A) (name : string) (dim heads : Z)
  (ws : nat) (qkv_bias : bool) (qk_scale : option A) (m : WindowAttention.t A) :
  WindowAttention.init ps name dim (Z.of_nat ws, Z.of_nat ws) heads qkv_bias qk_scale
  = Ok m ->
  0 < ws ->
  WindowAttention_ok m (Z.to_nat dim) (Z.to_nat heads) ws /\
  (0 < heads)%Z /\ (0 <= dim)%Z.
Proof.
  intros Hinit Hws. pose proof Hinit as Hinv.
  apply WindowAttention_init_inv in Hinv.
  destruct Hinv as (Hw & Hnh & Hd & Hidx & Hh0 & Hd0 & Hhne & Hts & _).
  cbn [fst snd] in Hts.
  unfold WindowAttention.init in Hinit. bind_inv Hinit. injection Hinit as <-.
  cbn in *.
  repeat match goal with
         | H : Linear_init _ _ _ _ _ = Ok _ |- _ =>
             apply Linear_init_inv in H;
             let Hs := fresh "Hlin" in
             destruct H as (_ & _ & Hs & _ & _)
         end.
  unfold WindowAttention_ok. cbn.
  repeat split; try assumption; try lia.
  rewrite Hlin0. f_equal. lia.
Qed.

Lemma Mlp_init_inv (ps : params A) (name : string) (i h o : Z) (m : Mlp A) :
  Mlp_init ps name i h o = Ok m ->
  shape (lin_weight (fc1 m)) = [Z.to_nat h; Z.to_nat i] /\
  shape (lin_weight (fc2 m)) = [Z.to_nat o; Z.to_nat h].
Proof.
  unfold Mlp_init. intros E. bind_inv E. injection E as <-. cbn.
  repeat match goal with
         | H : Linear_init _ _ _ _ _ = Ok _ |- _ =>
             apply Linear_init_inv in H;
             let Hs := fresh "Hlin" in
             destruct H as (_ & _ & Hs & _ & _)
         end.
  now split.
Qed.

Lemma SwinTransformerBlock_init_ok (ps : params A) (name : string)
  (dim heads shift : Z) (ws : nat) (mlp_ratio : Q) (qkv_bias : bool)
  (qk_scale : option A) (m : SwinTransformerBlock.t A) :
  SwinTransformerBlock.init ps name dim heads (Z.of_nat ws) shift mlp_ratio
    qkv_bias qk_scale = Ok m ->
  exists hidden,
    SwinTransformerBlock_ok m (Z.to_nat dim) (Z.to_nat heads) ws hidden /\
    SwinTransformerBlock.shift_size m = shift /\
    (0 <= shift < Z.of_nat ws)%Z /\ (0 < heads)%Z /\ (0 <= dim)%Z.
Proof.
  unfold SwinTransformerBlock.init, assert. intros E.
  destruct ((0 <=? shift)%Z && (shift <? Z.of_nat ws)%Z) eqn:Hsh;
    [|discriminate]. cbn [bind] in E.
  apply andb_prop in Hsh. destruct Hsh as [Hs1 Hs2].
  apply Z.leb_le in Hs1. apply Z.ltb_lt in Hs2.
  bind_inv E. injection E as <-. cbn.
  unfold SwinTransformerBlock.to_2tuple in *.
  match goal with
  | H : WindowAttention.init _ _ _ _ _ _ _ = Ok _ |- _ =>
      apply WindowAttention_init_ok in H; [|lia];
      destruct H as (Hattn & Hh & Hd)
  end.
  repeat match goal with
         | H : LayerNorm_init _ _ _ = Ok _ |- _ =>
             apply LayerNorm_init_inv in H;
             let Hs := fresh "Hln" in destruct H as (_ & Hs)
         end.
  match goal with
  | H : Mlp_init _ _ _ _ _ = Ok _ |- _ =>
      apply Mlp_init_inv in H; destruct H as (Hf1 & Hf2)
  end.
  exists (Z.to_nat (py_or (Some (py_int (inject_Z dim * mlp_ratio)%Q)) dim)).
  unfold SwinTransformerBlock_ok.
  cbn [SwinTransformerBlock.window_size SwinTransformerBlock.shift_size
       SwinTransformerBlock.norm1 SwinTransformerBlock.norm2
       SwinTransformerBlock.attn SwinTransformerBlock.mlp].
  repeat match goal with |- _ /\ _ => split end;
    try assumption; try lia; try reflexivity.
Qed.

End InitFacts.

(** ** Construction-time and forward-time failures *)

Section FailureFacts.
Context {A : Type} {NA : Num A} {EA : Elementary A}.

Lemma view_exact_fail (t : tensor A) (req : list Z) :
  nonneg req ->
  numel (shape t) <> numel (map Z.to_nat req) ->
  view t req = Raise (RuntimeError "shape is invalid for input size").
Proof.
  intros Hnn Hn. unfold view.
  rewrite (nonneg_no_invalid _ Hnn), (nonneg_no_hole _ Hnn), (nonneg_known_size _ Hnn).
  cbn [Nat.ltb Nat.leb Nat.eqb].
  destruct (Nat.eqb_spec (numel (shape t)) (numel (map Z.to_nat req))); [contradiction|].
  reflexivity.
Qed.

Lemma Linear_init_succeeds (ps : params A) (name : string) (i o : Z) (bias : bool) :
  (0 <= i)%Z -> (0 <= o)%Z -> exists m, Linear_init ps name i o bias = Ok m.
Proof.
  intros Hi Ho. unfold Linear_init.
  destruct (new_param_ok ps (name ++ ".weight") [o; i]) as (w & Ew & _);
    [repeat constructor; assumption|].
  rewrite Ew. cbn [bind]. destruct bias; [|eexists; reflexivity].
  destruct (new_param_ok ps (name ++ ".bias") [o]) as (b & Eb & _);
    [repeat constructor; assumption|].
  rewrite Eb. cbn [bind]. eexists; reflexivity.
Qed.

Lemma LayerNorm_init_succeeds (ps : params A) (name : string) (d : Z) :
  (0 <= d)%Z -> exists m, LayerNorm_init ps name d = Ok m.
Proof.
  intros Hd. unfold LayerNorm_init.
  destruct (new_param_ok ps (name ++ ".weight") [d]) as (w & Ew & _);
    [repeat constructor; assumption|].
  destruct (new_param_ok ps (name ++ ".bias") [d]) as (b & Eb & _);
    [repeat constructor; assumption|].
  rewrite Ew, Eb. cbn [bind]. eexists; reflexivity.
Qed.

Lemma WindowAttention_init_succeeds (ps : params A) (name : string)
  (dim heads : Z) (ws : nat) (qkv_bias : bool) :
  0 < ws -> (0 < heads <= dim)%Z ->
  exists m, WindowAttention.init ps name dim (Z.of_nat ws, Z.of_nat ws) heads
              qkv_bias None = Ok m.
Proof.
  intros Hws Hh. unfold WindowAttention.init, floordiv.
  destruct (Z.eqb_spec heads 0); [lia|]. cbn [bind].
  unfold WindowAttention.inv_sqrt.
  assert (Hq : (0 < dim / heads)%Z) by (apply Z.div_str_pos; lia).
  destruct (Z.eqb_spec (dim / heads) 0); [lia|]. cbn [bind fst snd].
  destruct (new_param_ok ps (name ++ ".relative_position_bias_table")
              [((2 * Z.of_nat ws - 1) * (2 * Z.of_nat ws - 1))%Z; heads])
    as (tb & Etb & _); [repeat constructor; nia|].
  rewrite Etb. cbn [bind].
  destruct (relative_position_index_closed ws ws Hws Hws) as (ix & Eix & _).
  rewrite Eix. cbn [bind].
  destruct (Linear_init_succeeds ps (name ++ ".qkv") dim (dim * 3) qkv_bias)
    as (q & Eq); try lia.
  destruct (Linear_init_succeeds ps (name ++ ".proj") dim dim true)
    as (p & Ep); try lia.
  rewrite Eq, Ep. cbn [bind]. eexists; reflexivity.
Qed.

Lemma py_int_nonneg (q : Q) : (0 <= q)%Q -> (0 <= py_int q)%Z.
Proof.
  intros Hq. unfold py_int.
  destruct (Qle_bool 0 q) eqn:E.
  - change 0%Z with (Qfloor 0). now apply Qfloor_resp_le.
  - apply Qle_bool_iff in Hq. congruence.
Qed.

Lemma SwinTransformerBlock_init_succeeds (ps : params A) (name : string)
  (dim heads shift : Z) (ws : nat) (mlp_ratio : Q) (qkv_bias : bool) :
  (0 < heads <= dim)%Z -> (0 <= shift < Z.of_nat ws)%Z -> (0 <= mlp_ratio)%Q ->
  exists m, SwinTransformerBlock.init ps name dim heads (Z.of_nat ws) shift
              mlp_ratio qkv_bias None = Ok m.
Proof.
  intros Hh Hs Hr. unfold SwinTransformerBlock.init, assert.
  destruct (Z.leb_spec 0 shift); [|lia].
  destruct (Z.ltb_spec shift (Z.of_nat ws)); [|lia]. cbn [andb bind].
  destruct (LayerNorm_init_succeeds ps (name ++ ".norm1") dim) as (n1 & E1); [lia|].
  destruct (LayerNorm_init_succeeds ps (name ++ ".norm2") dim) as (n2 & E2); [lia|].
  destruct (WindowAttention_init_succeeds ps (name ++ ".attn") dim heads ws qkv_bias)
    as (at_ & Ea); [lia | lia |].
  unfold SwinTransformerBlock.to_2tuple. rewrite E1, Ea, E2. cbn [bind].
  assert (Hhid : (0 <= py_or (Some (py_int (inject_Z dim * mlp_ratio)%Q)) dim)%Z).
  { unfold py_or.
    assert (0 <= py_int (inject_Z dim * mlp_ratio)%Q)%Z.
    { apply py_int_nonneg. apply Qmult_le_0_compat; [|assumption].
      change 0%Q with (inject_Z 0). rewrite <- Zle_Qle. lia. }
    destruct (py_int (inject_Z dim * mlp_ratio)%Q =? 0)%Z; lia. }
  unfold Mlp_init.
  destruct (Linear_init_succeeds ps ((name ++ ".mlp") ++ ".fc1") dim
              (py_or (Some (py_int (inject_Z dim * mlp_ratio)%Q)) dim) true)
    as (f1 & Ef1); [lia | lia |].
  destruct (Linear_init_succeeds ps ((name ++ ".mlp") ++ ".fc2")
              (py_or (Some (py_int (inject_Z dim * mlp_ratio)%Q)) dim)
              (py_or None dim) true)
    as (f2 & Ef2); [lia | cbn; lia |].
  rewrite Ef1, Ef2. cbn [bind]. eexists; reflexivity.
Qed.

Lemma SwinTransformerBlock_init_rejects_shift (ps : params A) (name : string)
  (dim heads ws shift : Z) (mlp_ratio : Q) (qkv_bias : bool) (qk_scale : option A) :
  ~ (0 <= shift < ws)%Z ->
  SwinTransformerBlock.init ps name dim heads ws shift mlp_ratio qkv_bias qk_scale
  = Raise (AssertionError "shift_size must in 0-window_size").
Proof.
  intros Hs. unfold SwinTransformerBlock.init, assert.
  destruct (Z.leb_spec 0 shift); destruct (Z.ltb_spec shift ws);
    cbn [andb bind]; try reflexivity. lia.
Qed.

Lemma WindowAttention_forward_indivisible (m : WindowAttention.t A) (x : tensor A)
  (mask : option (tensor A)) (B_ N C heads ws : nat) :
  WindowAttention_ok m C heads ws ->
  C mod heads <> 0 ->
  shape x = [B_; N; C] -> 0 < B_ -> 0 < N ->
  WindowAttention.forward m x mask
  = Raise (RuntimeError "shape is invalid for input size").
Proof.
  intros (Hnh & Hws & Hidx & Hts & Hqkv & Hproj & Hh & Hw) Hmod Hs HB HN.
  unfold WindowAttention.forward, zshape. rewrite Hs. cbn [map]. rewrite Hnh.
  unfold floordiv. destruct (Z.eqb_spec (Z.of_nat heads) 0); [lia|]. cbn [bind].
  step_as (Linear_forward_shape (WindowAttention.qkv m) x [B_; N] (3 * C) C Hqkv Hs) lin.
  rewrite view_exact_fail; [reflexivity| |].
  - repeat (apply Forall_cons; [try lia|]); try apply Forall_nil.
    apply Z.div_pos; lia.
  - rewrite Hs_lin. cbn [map numel fold_right app].
    rewrite <- Nat2Z.inj_div, !Nat2Z.id.
    pose proof (Nat.div_mod_eq C heads).
    pose proof (Nat.mod_upper_bound C heads ltac:(lia)).
    change (Z.to_nat 3) with 3. rewrite !Nat.mul_1_r. intros Heq.
    apply Nat.mul_cancel_l in Heq; [|lia].
    apply Nat.mul_cancel_l in Heq; [|lia]. lia.
Qed.

End FailureFacts.

(** C4.  SwinTransformerBlock.forward keeps the shape (B, H*W, C) of its
    input, for every H and W (multiples of the window size or not) and
    every shift size the constructor accepts: the bottom/right padding
    makes both padded sizes multiples of the window size, and the crop
    after the inverse shift restores (B, H, W, C) before the residual add.
    The block is one built by the constructor for C channels; the tensor is
    non-empty, the head count divides C, and for a shifted block the mask
    has the size of the stage's attention mask. *)
Theorem SwinTransformerBlock_forward_keeps_shape
  {A : Type} {NA : Num A} {EA : Elementary A}
  (ps : params A) (name : string) (dim num_heads shift_size : Z)
  (window_size : nat) (mlp_ratio : Q) (qkv_bias : bool) (qk_scale : option A)
  (m : SwinTransformerBlock.t A) (x mask_matrix : tensor A) (B H W : nat) :
  SwinTransformerBlock.init ps name dim num_heads (Z.of_nat window_size)
    shift_size mlp_ratio qkv_bias qk_scale = Ok m ->
  (0 < dim)%Z -> (dim mod num_heads = 0)%Z ->
  wf x -> shape x = [B; H * W; Z.to_nat dim] ->
  0 < B -> 0 < H -> 0 < W ->
  let pad_b := (window_size - H mod window_size) mod window_size in
  let pad_r := (window_size - W mod window_size) mod window_size in
  ((0 < shift_size)%Z ->
   wf mask_matrix /\
   shape mask_matrix
   = [((H + pad_b) / window_size) * ((W + pad_r) / window_size);
      window_size * window_size; window_size * window_size]) ->
  (0 <= shift_size < Z.of_nat window_size)%Z /\
  (H + pad_b) mod window_size = 0 /\
  (W + pad_r) mod window_size = 0 /\
  has_shape
    (SwinTransformerBlock.forward
       (SwinTransformerBlock.set_resolution m (Z.of_nat H) (Z.of_nat W))
       x mask_matrix)
    [B; H * W; Z.to_nat dim].
Proof.
  intros Hinit Hdim Hdiv Hwf Hs HB HH HW pad_b pad_r Hmask.
  apply SwinTransformerBlock_init_ok in Hinit.
  destruct Hinit as (hidden & Hok & Hshift & Hrange & Hheads & _).
  pose proof Hok as (_ & _ & _ & _ & (_ & _ & _ & _ & _ & _ & _ & Hws) & _).
  split; [assumption|].
  destruct (pad_to_multiple H window_size Hws) as (HpH & _).
  destruct (pad_to_multiple W window_size Hws) as (HpW & _).
  split; [exact HpH|]. split; [exact HpW|].
  apply Z.mod_divide in Hdiv; [|lia]. destruct Hdiv as [q Hq].
  assert (Hdn : Z.to_nat dim = Z.to_nat num_heads * Z.to_nat q) by nia.
  rewrite Hdn in *.
  apply (SwinTransformerBlock_forward_shape _ x mask_matrix B H W
           (Z.to_nat num_heads) (Z.to_nat q) window_size hidden);
    try assumption; try reflexivity.
  - nia.
  - cbn [SwinTransformerBlock.set_resolution SwinTransformerBlock.shift_size].
    rewrite Hshift. exact Hmask.
Qed.

Lemma SwinTransformerBlock_forward_keeps_shape_witness :
  exists m : SwinTransformerBlock.t Rdefinitions.R,
    SwinTransformerBlock.init (fun _ _ => Rdefinitions.IZR 0) "blocks.1" 4 2
      (Z.of_nat 2) 1 4%Q true None = Ok m /\
    has_shape
      (SwinTransformerBlock.forward
         (SwinTransformerBlock.set_resolution m (Z.of_nat 3) (Z.of_nat 3))
         (full_of [1; 9; 4] (Rdefinitions.IZR 0))
         (full_of [4; 4; 4] (Rdefinitions.IZR 0)))
      [1; 9; 4].
Proof.
  match goal with
  | |- exists m, ?e = Ok m /\ _ =>
      let v := eval vm_compute in e in
      match v with
      | Ok ?m0 =>
          assert (Hinit : e = Ok m0) by (vm_cast_no_check (eq_refl (Ok m0)));
          exists m0; split; [exact Hinit|];
          exact (proj2 (proj2 (proj2
                   (SwinTransformerBlock_forward_keeps_shape
                      (fun _ _ => Rdefinitions.IZR 0) "blocks.1" 4 2 1 2 4%Q true None m0
                      (full_of [1; 9; 4] (Rdefinitions.IZR 0))
                      (full_of [4; 4; 4] (Rdefinitions.IZR 0)) 1 3 3
                      Hinit ltac:(lia) eq_refl eq_refl eq_refl
                      ltac:(lia) ltac:(lia) ltac:(lia)
                      (fun _ => conj eq_refl eq_refl)))))
      end
  end.
Defined.

(** C9 (as amended).  Construction performs no divisibility check: with a
    head count that does not divide the channel count, WindowAttention and
    a SwinTransformerBlock containing one are constructed, and it is
    WindowAttention.forward that raises, at the reshape of the qkv
    projection.  A shift size outside [0, window size) is rejected by the
    assertion of SwinTransformerBlock's constructor, whatever the other
    arguments are. *)
Theorem divisibility_fails_at_forward_shift_at_construction
  {A : Type} {NA : Num A} {EA : Elementary A}
  (ps : params A) (name : string) (dim num_heads shift_size : Z)
  (window_size : nat) (mlp_ratio : Q) (qkv_bias : bool)
  (x : tensor A) (mask : option (tensor A)) (B_ : nat) :
  (0 < window_size -> (0 < num_heads <= dim)%Z -> (dim mod num_heads <> 0)%Z ->
   (0 <= shift_size < Z.of_nat window_size)%Z -> (0 <= mlp_ratio)%Q ->
   shape x = [B_; window_size * window_size; Z.to_nat dim] -> 0 < B_ ->
   (exists m,
      WindowAttention.init ps name dim (Z.of_nat window_size, Z.of_nat window_size)
        num_heads qkv_bias None = Ok m /\
      WindowAttention.forward m x mask
      = Raise (RuntimeError "shape is invalid for input size")) /\
   (exists blk,
      SwinTransformerBlock.init ps name dim num_heads (Z.of_nat window_size)
        shift_size mlp_ratio qkv_bias None = Ok blk)) /\
  (forall bad_shift qk_scale,
     ~ (0 <= bad_shift < Z.of_nat window_size)%Z ->
     SwinTransformerBlock.init ps name dim num_heads (Z.of_nat window_size)
       bad_shift mlp_ratio qkv_bias qk_scale
     = Raise (AssertionError "shift_size must in 0-window_size")).
Proof.
  split.
  - intros Hws Hh Hmod Hshift Hratio Hs HB. split.
    + destruct (WindowAttention_init_succeeds ps name dim num_heads window_size
                  qkv_bias Hws Hh) as (m & Em).
      exists m. split; [exact Em|].
      apply WindowAttention_init_ok in Em; [|assumption].
      destruct Em as (Hok & _ & _).
      apply (WindowAttention_forward_indivisible m x mask B_
               (window_size * window_size) (Z.to_nat dim) (Z.to_nat num_heads)
               window_size Hok); try assumption; [|nia].
      intros E. apply Hmod.
      rewrite <- (Z2Nat.id dim), <- (Z2Nat.id num_heads) by lia.
      rewrite <- Nat2Z.inj_mod, E. reflexivity.
    + now apply SwinTransformerBlock_init_succeeds.
  - intros bad_shift qk_scale Hbad.
    now apply SwinTransformerBlock_init_rejects_shift.
Qed.

Lemma divisibility_fails_at_forward_shift_at_construction_witness :
  (exists m : WindowAttention.t Rdefinitions.R,
     WindowAttention.init (fun _ _ => Rdefinitions.IZR 0) "attn" 5
       (Z.of_nat 2, Z.of_nat 2) 2 true None = Ok m /\
     WindowAttention.forward m (full_of [1; 2 * 2; Z.to_nat 5] (Rdefinitions.IZR 0)) None
     = Raise (RuntimeError "shape is invalid for input size")) /\
  (exists blk : SwinTransformerBlock.t Rdefinitions.R,
     SwinTransformerBlock.init (fun _ _ => Rdefinitions.IZR 0) "attn" 5 2
       (Z.of_nat 2) 1 4%Q true None = Ok blk) /\
  SwinTransformerBlock.init (fun _ _ => Rdefinitions.IZR 0) "attn" 5 2
    (Z.of_nat 2) 2 4%Q true None
  = Raise (AssertionError "shift_size must in 0-window_size").
Proof.
  destruct (divisibility_fails_at_forward_shift_at_construction
              (fun _ _ => Rdefinitions.IZR 0) "attn" 5 2 1 2 4%Q true
              (full_of [1; 2 * 2; Z.to_nat 5] (Rdefinitions.IZR 0)) None 1)
    as (Hmain & Hshift).
  destruct (Hmain ltac:(lia) ltac:(lia) ltac:(discriminate) ltac:(lia)
              ltac:(discriminate) eq_refl ltac:(lia)) as (H1 & H2).
  split; [exact H1 | split; [exact H2 | ]].
  apply (Hshift 2%Z None). cbn. lia.
Defined.

(** C9, the claim as stated, fails: a WindowAttention with 5 channels and 2
    heads is constructed without error, and its forward raises. *)
Lemma WindowAttention_indivisible_counterexample :
  (5 mod 2 <> 0)%Z /\
  exists m : WindowAttention.t Rdefinitions.R,
    WindowAttention.init (fun _ _ => Rdefinitions.IZR 0) "attn" 5 (2, 2)%Z 2 true None
    = Ok m /\
    WindowAttention.forward m (full_of [1; 4; 5] (Rdefinitions.IZR 0)) None
    = Raise (RuntimeError "shape is invalid for input size").
Proof.
  split; [discriminate|].
  match goal with
  | |- exists m, ?e = Ok m /\ _ =>
      let v := eval vm_compute in e in
      match v with
      | Ok ?m0 => exists m0; split; [vm_cast_no_check (eq_refl (Ok m0))|]
      end
  end.
  vm_compute. reflexivity.
Qed.

(** ** postprocess_image *)

(** *** Rounding to float32 *)

Lemma round_half_even_spec (n d : Z) :
  (0 < d)%Z ->
  let k := round_half_even n d in
  ((2 * k - 1) * d <= 2 * n <= (2 * k + 1) * d)%Z /\
  ((2 * n = (2 * k + 1) * d)%Z -> Z.even k = true) /\
  ((2 * n = (2 * k - 1) * d)%Z -> Z.even k = true).
Proof.
  intros Hd. unfold round_half_even.
  pose proof (Z.div_mod n d ltac:(lia)) as E.
  pose proof (Z.mod_pos_bound n d Hd) as Hr.
  set (q := (n / d)%Z) in *. set (r := (n mod d)%Z) in *.
  destruct (Z.compare_spec (2 * r) d) as [Heq|Hlt|Hgt]; cbn zeta.
  - destruct (Z.even q) eqn:Ev.
    + split; [nia|]. split; [intros _; exact Ev|intros; nia].
    + assert (Z.even (q + 1) = true) as Ev1.
      { rewrite Z.even_add, Ev. reflexivity. }
      split; [nia|]. split; [intros; nia|intros _; exact Ev1].
  - split; [nia|]. split; intros; nia.
  - split; [nia|]. split; intros; nia.
Qed.

Lemma round_half_even_mono (n1 d1 n2 d2 : Z) :
  (0 < d1)%Z -> (0 < d2)%Z -> (n1 * d2 <= n2 * d1)%Z ->
  (round_half_even n1 d1 <= round_half_even n2 d2)%Z.
Proof.
  intros H1 H2 Hle.
  destruct (round_half_even_spec n1 d1 H1) as ((Ha & _) & _ & He1).
  destruct (round_half_even_spec n2 d2 H2) as ((_ & Hb) & He2 & _).
  set (k1 := round_half_even n1 d1) in *. set (k2 := round_half_even n2 d2) in *.
  destruct (Z_le_gt_dec k1 k2) as [|Hgt]; [assumption|exfalso].
  assert (Hc : ((2 * k1 - 1) * (d1 * d2) <= (2 * k2 + 1) * (d1 * d2))%Z).
  { apply Z.le_trans with (2 * n1 * d2)%Z; [nia|].
    apply Z.le_trans with (2 * n2 * d1)%Z; nia. }
  assert (Hp : (0 < d1 * d2)%Z) by nia.
  assert (Hk : (2 * k1 - 1 <= 2 * k2 + 1)%Z).
  { apply Z.mul_le_mono_pos_r with (d1 * d2)%Z; assumption. }
  assert (Ek : k1 = (k2 + 1)%Z) by lia.
  assert (E1 : (2 * n1 = (2 * k1 - 1) * d1)%Z).
  { apply Z.le_antisymm; [|lia].
    apply Z.mul_le_mono_pos_r with d2; [assumption|].
    apply Z.le_trans with (2 * n2 * d1)%Z; [nia|].
    replace (2 * k1 - 1)%Z with (2 * k2 + 1)%Z by lia. nia. }
  assert (E2 : (2 * n2 = (2 * k2 + 1) * d2)%Z).
  { apply Z.le_antisymm; [lia|].
    apply Z.mul_le_mono_pos_r with d1; [assumption|].
    apply Z.le_trans with (2 * n1 * d2)%Z; [|nia].
    rewrite E1. replace (2 * k1 - 1)%Z with (2 * k2 + 1)%Z by lia. nia. }
  specialize (He1 E1). specialize (He2 E2).
  rewrite Ek, Z.even_add, He2 in He1. discriminate.
Qed.

Lemma round_half_even_exact (k d : Z) :
  (0 < d)%Z -> round_half_even (k * d) d = k.
Proof.
  intros Hd. unfold round_half_even.
  rewrite Z.mod_mul, Z.div_mul by lia. cbn zeta.
  destruct (Z.compare_spec (2 * 0) d); lia.
Qed.

Lemma round_half_even_le (n d c : Z) :
  (0 < d)%Z -> (n <= c * d)%Z -> (round_half_even n d <= c)%Z.
Proof.
  intros Hd Hle.
  apply Z.le_trans with (round_half_even (c * d) d).
  - apply round_half_even_mono; try assumption. nia.
  - rewrite round_half_even_exact by assumption. lia.
Qed.

Lemma round_half_even_ge (n d c : Z) :
  (0 < d)%Z -> (c * d <= n)%Z -> (c <= round_half_even n d)%Z.
Proof.
  intros Hd Hle.
  apply Z.le_trans with (round_half_even (c * d) d).
  - rewrite round_half_even_exact by assumption. lia.
  - apply round_half_even_mono; try assumption. nia.
Qed.

Lemma f32_spacing_pos (F : Z) : (0 < f32_spacing F)%Z.
Proof. unfold f32_spacing. apply Z.pow_pos_nonneg; lia. Qed.

Lemma Zdiv_le_cross (n1 d1 n2 d2 : Z) :
  (0 < d1)%Z -> (0 < d2)%Z -> (n1 * d2 <= n2 * d1)%Z -> (n1 / d1 <= n2 / d2)%Z.
Proof.
  intros H1 H2 Hle. apply Z.div_le_lower_bound; [assumption|].
  pose proof (Z.mul_div_le n1 d1 H1) as Hf.
  apply Z.mul_le_mono_pos_r with d1; [assumption|]. nia.
Qed.

Lemma rnd32_units_mono (n1 d1 n2 d2 : Z) :
  (0 <= n1)%Z -> (0 < d1)%Z -> (0 < d2)%Z -> (n1 * d2 <= n2 * d1)%Z ->
  (rnd32_units n1 d1 <= rnd32_units n2 d2)%Z.
Proof.
  intros Hn H1 H2 Hle. unfold rnd32_units, f32_spacing.
  pose proof (Zdiv_le_cross n1 d1 n2 d2 H1 H2 Hle) as HF.
  assert (HF1 : (0 <= n1 / d1)%Z) by (apply Z.div_pos; lia).
  set (F1 := (n1 / d1)%Z) in *. set (F2 := (n2 / d2)%Z) in *.
  pose proof (Z.log2_le_mono F1 F2 HF) as Hlog.
  set (e1 := Z.max 0 (Z.log2 F1 - 23)). set (e2 := Z.max 0 (Z.log2 F2 - 23)).
  assert (He1 : (0 <= e1)%Z) by lia. assert (He2 : (0 <= e2)%Z) by lia.
  assert (Hu1 : (0 < 2 ^ e1)%Z) by (apply Z.pow_pos_nonneg; lia).
  assert (Hu2 : (0 < 2 ^ e2)%Z) by (apply Z.pow_pos_nonneg; lia).
  destruct (Z.eq_dec e1 e2) as [E|Hne].
  - rewrite <- E. apply Z.mul_le_mono_nonneg_r; [lia|].
    apply round_half_even_mono; nia.
  - assert (Hlt : (e1 + 1 <= e2)%Z) by lia.
    apply Z.le_trans with (2 ^ 24 * 2 ^ e1)%Z.
    + apply Z.mul_le_mono_nonneg_r; [lia|].
      apply round_half_even_le; [nia|].
      assert (Hb : (F1 + 1 <= 2 ^ (e1 + 24))%Z).
      { destruct (Z.eq_dec F1 0) as [->|Hnz].
        - apply Z.le_trans with (2 ^ 0)%Z; [simpl; lia|].
          apply Z.pow_le_mono_r; lia.
        - destruct (Z.log2_spec F1 ltac:(lia)) as [_ Hs].
          apply Z.le_trans with (2 ^ Z.succ (Z.log2 F1))%Z; [lia|].
          apply Z.pow_le_mono_r; lia. }
      assert (Hn1 : (n1 < (F1 + 1) * d1)%Z).
      { unfold F1. pose proof (Z.div_mod n1 d1 ltac:(lia)).
        pose proof (Z.mod_pos_bound n1 d1 H1). nia. }
      rewrite Z.pow_add_r in Hb by lia. nia.
    + apply Z.le_trans with (2 ^ 23 * 2 ^ e2)%Z.
      * rewrite <- !Z.pow_add_r by lia. apply Z.pow_le_mono_r; lia.
      * apply Z.mul_le_mono_nonneg_r; [lia|].
        apply round_half_even_ge; [nia|].
        assert (HF2 : (0 < F2)%Z).
        { destruct (Z_lt_le_dec 0 F2) as [|Hneg]; [assumption|].
          assert (e2 = 0%Z) by (unfold e2; rewrite (Z.log2_nonpos F2 Hneg); lia).
          lia. }
        destruct (Z.log2_spec F2 HF2) as [Hs _].
        assert (Ee : Z.log2 F2 = (e2 + 23)%Z) by (unfold e2 in *; lia).
        rewrite Ee, Z.pow_add_r in Hs by lia.
        assert (Hn2 : (F2 * d2 <= n2)%Z).
        { unfold F2. pose proof (Z.mul_div_le n2 d2 H2). lia. }
        nia.
Qed.

Lemma rnd32_units_nonneg (n d : Z) :
  (0 <= n)%Z -> (0 < d)%Z -> (0 <= rnd32_units n d)%Z.
Proof.
  intros Hn Hd. change 0%Z with (rnd32_units 0 1) at 1.
  apply rnd32_units_mono; lia.
Qed.


Lemma f32_units_mono (a b : Q) :
  (0 <= a)%Q -> (a <= b)%Q ->
  (rnd32_units (Qnum a * 2 ^ 149) (Zpos (Qden a))
   <= rnd32_units (Qnum b * 2 ^ 149) (Zpos (Qden b)))%Z.
Proof.
  intros Ha Hab. unfold Qle in *. simpl in Ha.
  assert (Hp : (0 < 2 ^ 149)%Z) by (apply Z.pow_pos_nonneg; lia).
  set (P := (2 ^ 149)%Z) in *.
  apply rnd32_units_mono; try lia; nia.
Qed.

Lemma Qle_bool_nonneg_Qeq (a b : Q) :
  (a == b)%Q -> Qle_bool 0 a = Qle_bool 0 b.
Proof.
  intros E. destruct (Qle_bool 0 b) eqn:Hb.
  - apply Qle_bool_iff. rewrite E. now apply Qle_bool_iff.
  - destruct (Qle_bool 0 a) eqn:Ha; [|reflexivity].
    apply Qle_bool_iff in Ha. rewrite E in Ha. apply Qle_bool_iff in Ha.
    congruence.
Qed.

Lemma rnd32_abs_Qeq (a b : Q) :
  (0 <= a)%Q -> (a == b)%Q -> rnd32_abs a = rnd32_abs b.
Proof.
  intros Ha E. unfold rnd32_abs.
  assert (Hb : (0 <= b)%Q) by now rewrite <- E.
  assert (Eu : rnd32_units (Qnum a * 2 ^ 149) (Zpos (Qden a))
               = rnd32_units (Qnum b * 2 ^ 149) (Zpos (Qden b))).
  { apply Z.le_antisymm; apply f32_units_mono; try assumption;
      rewrite E; apply Qle_refl. }
  now rewrite Eu.
Qed.

(** Equal rationals round to the same value. *)
Lemma rnd32_Qeq (a b : Q) : (a == b)%Q -> rnd32 a = rnd32 b.
Proof.
  intros E. unfold rnd32. rewrite (Qle_bool_nonneg_Qeq a b E).
  destruct (Qle_bool 0 b) eqn:Hb.
  - apply rnd32_abs_Qeq; [|exact E]. rewrite E. now apply Qle_bool_iff.
  - f_equal. apply rnd32_abs_Qeq; [|now rewrite E].
    assert (~ (0 <= b)%Q) as Hn by (rewrite <- Qle_bool_iff; congruence).
    apply Qnot_le_lt in Hn. rewrite E.
    apply Qlt_le_weak. apply (Qopp_lt_compat b 0) in Hn. exact Hn.
Qed.



Lemma rnd32_0 (q : Q) : (q == 0)%Q -> rnd32 q = Fin 0.
Proof. intros E. rewrite (rnd32_Qeq q 0 E). vm_compute. reflexivity. Qed.






(** The rounding agrees with the IEEE specification of the Standard
    Library: over the whole range of exponents, within a few binades of
    1, and among the subnormal numbers; on the operands of the example
    [postprocess_image_rounding]. *)
Example f32_agrees_with_SpecFloat :
  f32_agree_on (-170) 300 100 12345 = true /\
  f32_agree_on (-20) 40 100 999 = true /\
  f32_agree_on (-175) 60 100 777 = true /\
  f32_agree (SpecFloat.binary_normalize 24 128 386610 (-19) false)
            (SpecFloat.binary_normalize 24 128 473969 (-19) false) = true.
Proof. vm_compute. repeat split; reflexivity. Qed.

(** *** The normalisation of one element *)










(** *** Rounded values are float32 values *)

Lemma rnd32_units_multiple (n d : Z) :
  (0 <= n)%Z -> (0 < d)%Z ->
  exists k,
    (0 <= k <= 2 ^ 24)%Z /\
    rnd32_units n d = (k * 2 ^ Z.max 0 (Z.log2 (n / d) - 23))%Z.
Proof.
  intros Hn Hd. unfold rnd32_units, f32_spacing.
  set (F := (n / d)%Z). set (e := Z.max 0 (Z.log2 F - 23)).
  assert (He : (0 <= e)%Z) by (unfold e; lia).
  assert (Hu : (0 < 2 ^ e)%Z) by (apply Z.pow_pos_nonneg; lia).
  exists (round_half_even n (d * 2 ^ e)). split; [|reflexivity].
  assert (HF : (0 <= F)%Z) by (apply Z.div_pos; lia).
  split.
  - apply round_half_even_ge; nia.
  - apply round_half_even_le; [nia|].
    assert (Hb : (F + 1 <= 2 ^ (e + 24))%Z).
    { destruct (Z.eq_dec F 0) as [E0|Hnz].
      - rewrite E0. apply Z.le_trans with (2 ^ 0)%Z; [simpl; lia|].
        apply Z.pow_le_mono_r; lia.
      - destruct (Z.log2_spec F ltac:(lia)) as [_ Hs].
        apply Z.le_trans with (2 ^ Z.succ (Z.log2 F))%Z; [lia|].
        apply Z.pow_le_mono_r; unfold e; lia. }
    assert (Hn1 : (n < (F + 1) * d)%Z).
    { unfold F. pose proof (Z.div_mod n d ltac:(lia)).
      pose proof (Z.mod_pos_bound n d Hd). nia. }
    rewrite Z.pow_add_r in Hb by lia. nia.
Qed.

(** Rounding a rounded number of units changes nothing. *)
Lemma rnd32_units_idempotent (n d : Z) :
  (0 <= n)%Z -> (0 < d)%Z ->
  rnd32_units (rnd32_units n d) 1 = rnd32_units n d.
Proof.
  intros Hn Hd.
  destruct (rnd32_units_multiple n d Hn Hd) as (k & Hk & ->).
  set (e := Z.max 0 (Z.log2 (n / d) - 23)).
  assert (He : (0 <= e)%Z) by (unfold e; lia).
  unfold rnd32_units, f32_spacing. rewrite Z.div_1_r, Z.mul_1_l.
  set (m := (k * 2 ^ e)%Z). set (e' := Z.max 0 (Z.log2 m - 23)).
  assert (He' : (0 <= e')%Z) by (unfold e'; lia).
  assert (Hdiv : exists c, m = (c * 2 ^ e')%Z).
  { destruct (Z.eq_dec k 0) as [E0|Hk0].
    - exists 0%Z. unfold m. rewrite E0. reflexivity.
    - destruct (Z.eq_dec k (2 ^ 24)) as [E24|Hk24].
      + exists (2 ^ 23)%Z.
        assert (Em : m = (2 ^ (24 + e))%Z)
          by (unfold m; rewrite E24, Z.pow_add_r by lia; reflexivity).
        assert (Ee : e' = (e + 1)%Z).
        { unfold e'. rewrite Em, Z.log2_pow2 by lia. lia. }
        rewrite Ee, Em, <- Z.pow_add_r by lia. f_equal. lia.
      + assert (Hlog : (Z.log2 k < 24)%Z) by (apply Z.log2_lt_pow2; lia).
        assert (Elog : Z.log2 m = (e + Z.log2 k)%Z)
          by (unfold m; apply Z.log2_mul_pow2; lia).
        assert (Hle : (e' <= e)%Z) by (unfold e'; lia).
        exists (k * 2 ^ (e - e'))%Z. unfold m.
        rewrite <- Z.mul_assoc, <- Z.pow_add_r by lia. do 2 f_equal. lia. }
  destruct Hdiv as (c & Ec). rewrite Ec at 1.
  rewrite round_half_even_exact by (apply Z.pow_pos_nonneg; lia).
  now rewrite <- Ec.
Qed.

Lemma rnd32_abs_idempotent (q y : Q) :
  (0 <= q)%Q -> rnd32_abs q = Fin y -> rnd32_abs y = Fin y /\ (0 <= y)%Q.
Proof.
  intros Hq. unfold rnd32_abs at 1.
  assert (Hn : (0 <= Qnum q * 2 ^ 149)%Z).
  { unfold Qle in Hq. simpl in Hq. apply Z.mul_nonneg_nonneg; [lia|].
    apply Z.pow_nonneg. lia. }
  pose proof (rnd32_units_idempotent _ (Zpos (Qden q)) Hn eq_refl) as Hidem.
  pose proof (rnd32_units_nonneg _ (Zpos (Qden q)) Hn eq_refl) as Hm.
  set (m := rnd32_units (Qnum q * 2 ^ 149) (Zpos (Qden q))) in *.
  destruct (Z.leb_spec (2 ^ 277) m) as [|Hlt]; [discriminate|]. intros E.
  assert (Ey : y = Qred (m # 2 ^ 149)) by congruence.
  assert (Hy0 : (0 <= m # 2 ^ 149)%Q) by (unfold Qle; cbn [Qnum Qden]; lia).
  assert (Hy : (0 <= y)%Q) by (rewrite Ey, Qred_correct; exact Hy0).
  split; [|exact Hy].
  rewrite (rnd32_abs_Qeq y (m # 2 ^ 149) Hy)
    by (rewrite Ey; apply Qred_correct).
  unfold rnd32_abs. cbn [Qnum Qden].
  assert (Eu : rnd32_units (m * 2 ^ 149) (Zpos (2 ^ 149)) = m).
  { rewrite <- Hidem at 2.
    assert (Hp : (0 < Zpos (2 ^ 149))%Z) by reflexivity.
    assert (EP : Zpos (2 ^ 149) = (2 ^ 149)%Z) by reflexivity.
    apply Z.le_antisymm; apply rnd32_units_mono; try lia; rewrite EP; nia. }
  rewrite Eu. destruct (Z.leb_spec (2 ^ 277) m); [lia|]. now rewrite Ey.
Qed.

Lemma is_f32_rnd32 (q : Q) : is_f32 (rnd32 q) = true.
Proof.
  unfold rnd32. destruct (Qle_bool 0 q) eqn:Hq.
  - apply Qle_bool_iff in Hq.
    destruct (rnd32_abs q) as [y| | |] eqn:E; try reflexivity.
    destruct (rnd32_abs_idempotent q y Hq E) as [Ey Hy].
    unfold is_f32, rnd32. rewrite (proj2 (Qle_bool_iff 0 y) Hy), Ey.
    apply Qeq_bool_iff. reflexivity.
  - assert (Hneg : (0 <= - q)%Q).
    { assert (~ (0 <= q)%Q) as Hn by (rewrite <- Qle_bool_iff; congruence).
      apply Qnot_le_lt in Hn. apply Qlt_le_weak.
      apply (Qopp_lt_compat q 0) in Hn. exact Hn. }
    destruct (rnd32_abs (- q)) as [y| | |] eqn:E; try reflexivity.
    destruct (rnd32_abs_idempotent (- q) y Hneg E) as [Ey Hy].
    cbn [fl_opp]. unfold is_f32, rnd32.
    destruct (Qle_bool 0 (- y)) eqn:Hs.
    + apply Qle_bool_iff in Hs.
      assert (E0 : (- y == 0)%Q).
      { apply Qle_antisym; [|exact Hs].
        apply (Qopp_le_compat 0 y) in Hy. exact Hy. }
      rewrite (rnd32_abs_Qeq (- y) 0 Hs E0).
      change (rnd32_abs 0) with (rnd32 0). rewrite (rnd32_0 0) by reflexivity.
      apply Qeq_bool_iff. now rewrite E0.
    + rewrite (rnd32_abs_Qeq (- - y) y) by
        (try apply Qopp_involutive; rewrite Qopp_involutive; exact Hy).
      rewrite Ey. cbn [fl_opp]. apply Qeq_bool_iff. reflexivity.
Qed.

Lemma is_f32_fl_inf (s : Z) : is_f32 (fl_inf s) = true.
Proof. unfold fl_inf. destruct (s =? 0)%Z, (0 <? s)%Z; reflexivity. Qed.

Lemma is_f32_add (x y : fl) : is_f32 (f32_add x y) = true.
Proof.
  destruct x as [a| | |], y as [b| | |]; cbn [f32_add]; try reflexivity.
  apply is_f32_rnd32.
Qed.

(** The resize of ATen returns float32 values, in the shape the
    normalisation expects. *)
Lemma upsample_bilinear2d_float32 (x : tensor fl) (N C H W : nat) (oh ow : Z) :
  shape x = [N; C; H; W] -> 0 < C -> 0 < H -> 0 < W -> (0 < oh)%Z -> (0 < ow)%Z ->
  exists r0,
    upsample_bilinear2d x [oh; ow] = Ok r0 /\
    shape r0 = [N; C; Z.to_nat oh; Z.to_nat ow] /\ wf r0 /\
    forallb is_f32 (data r0) = true.
Proof.
  intros Hs HC HH HW Hoh How. unfold upsample_bilinear2d. rewrite Hs.
  destruct (Nat.eqb_spec C 0); [lia|]. destruct (Nat.eqb_spec H 0); [lia|].
  destruct (Nat.eqb_spec W 0); [lia|]. cbn [orb].
  destruct (Z.leb_spec oh 0); [lia|]. destruct (Z.leb_spec ow 0); [lia|].
  cbn [orb]. eexists. split; [reflexivity|]. split; [reflexivity|].
  split; [apply wf_tabulate|].
  unfold tabulate. cbn [data]. apply forallb_forall. intros v Hv.
  apply in_map_iff in Hv. destruct Hv as (idx & <- & _).
  destruct (f32_source H (Z.to_nat oh) (nth 2 idx 0)) as [[[h0 h1] lh0] lh1].
  destruct (f32_source W (Z.to_nat ow) (nth 3 idx 0)) as [[[w0 w1] lw0] lw1].
  destruct (oh + ow <=? 128)%Z; apply is_f32_add.
Qed.

(** *** Maximum and minimum of a tensor *)









Lemma tensor_min_max_defined (t : tensor fl) :
  data t <> [] -> exists mi ma, tensor_min t = Ok mi /\ tensor_max t = Ok ma.
Proof.
  unfold tensor_min, tensor_max. destruct (data t); [congruence|].
  intros _. eauto.
Qed.

(** *** The output bytes *)

Lemma get_map_t_in {A B : Type} {DA : Default A} {DB : Default B}
  (f : A -> B) (t : tensor A) (idx : list nat) :
  wf t -> in_range idx (shape t) -> get (map_t f t) idx = f (get t idx).
Proof.
  unfold get, map_t, wf; simpl. intros Hwf Hr.
  pose proof (ravel_bound _ _ Hr) as Hb.
  rewrite (nth_indep _ dflt (f dflt)) by (rewrite length_map; lia).
  apply map_nth.
Qed.



Lemma in_range3 (idx : list nat) (a b c : nat) :
  in_range idx [a; b; c] ->
  exists i j k, idx = [i; j; k] /\ i < a /\ j < b /\ k < c.
Proof.
  intros Hr. inversion Hr as [|i ? r1 ? Hi H1]; subst.
  inversion H1 as [|j ? r2 ? Hj H2]; subst.
  inversion H2 as [|k ? r3 ? Hk H3]; subst.
  inversion H3; subst. now exists i, j, k.
Qed.

Lemma in_indices_range (s idx : list nat) : In idx (indices s) -> in_range idx s.
Proof.
  rewrite indices_unravel. intros Hin. apply in_map_iff in Hin.
  destruct Hin as (k & <- & Hk). apply in_seq in Hk.
  apply unravel_in_range. lia.
Qed.

Lemma interpolate_size_shape {A : Type} {NA : Num A} (x : tensor A)
  (N C H W : nat) (oh ow : Z) (mode : interp_mode) :
  shape x = [N; C; H; W] -> 0 < C -> 0 < H -> 0 < W -> (0 < oh)%Z -> (0 < ow)%Z ->
  has_shape (interpolate x (Some [oh; ow]) None mode) [N; C; Z.to_nat oh; Z.to_nat ow].
Proof.
  intros Hs HC HH HW Hoh How. unfold interpolate. rewrite Hs. cbn [bind].
  destruct (Nat.eqb_spec C 0); [lia|]. destruct (Nat.eqb_spec H 0); [lia|].
  destruct (Nat.eqb_spec W 0); [lia|]. cbn [orb].
  destruct (Z.leb_spec oh 0); [lia|]. destruct (Z.leb_spec ow 0); [lia|].
  cbn [orb]. apply has_shape_tabulate.
Qed.

Lemma np_squeeze_map_tabulate {A B : Type} (f : A -> B) (s : list nat)
  (g : list nat -> A) :
  data (np_squeeze (map_t f (tabulate s g))) = map (fun idx => f (g idx)) (indices s).
Proof. unfold np_squeeze, map_t, tabulate. cbv [data]. apply map_map. Qed.

Lemma resized_squeezed (bilinear : tensor fl -> list Z -> result (tensor fl))
  (x : tensor fl) (im_size : list Z) (r0 : tensor fl) (s : list nat) :
  bilinear x im_size = Ok r0 -> shape r0 = 1 :: s ->
  resized bilinear x im_size = Ok (mkT s (data r0)).
Proof.
  intros E Hs. unfold resized. rewrite E. cbn [bind]. unfold squeeze0.
  now rewrite Hs.
Qed.

Lemma postprocess_image_bytes (bilinear : tensor fl -> list Z -> result (tensor fl))
  (x : tensor fl) (im_size : list Z) (C H W : nat) (r : tensor fl) (mi ma : fl) :
  resized bilinear x im_size = Ok r -> shape r = [C; H; W] -> wf r ->
  tensor_min r = Ok mi -> tensor_max r = Ok ma ->
  postprocess_scaled bilinear x im_size = Ok (map_t (scaled_value mi ma) r) /\
  exists out,
    postprocess_image bilinear x im_size = Ok out /\
    data out = map (fun idx => to_uint8 (scaled_value mi ma
                                (get r (permute_index [1; 2; 0] idx))))
                   (indices [H; W; C]).
Proof.
  intros Er Hs Hwf Emi Ema.
  assert (Esc : postprocess_scaled bilinear x im_size
                = Ok (map_t (scaled_value mi ma) r)).
  { unfold postprocess_scaled. rewrite Er. cbn [bind]. rewrite Ema. cbn [bind].
    rewrite Emi. reflexivity. }
  split; [exact Esc|].
  unfold postprocess_image. rewrite Esc. cbn [bind].
  rewrite permute_ok by (unfold map_t; cbn [shape]; rewrite Hs; reflexivity).
  cbn [bind]. eexists. split; [reflexivity|].
  change (shape (map_t (scaled_value mi ma) r)) with (shape r). rewrite Hs.
  cbn [map nth]. rewrite np_squeeze_map_tabulate. apply map_ext_in.
  intros idx Hin.
  apply in_indices_range in Hin.
  destruct (in_range3 _ _ _ _ Hin) as (h & w & c & -> & Hh & Hw & Hc).
  f_equal. change (permute_index [1; 2; 0] [h; w; c]) with [c; h; w].
  apply get_map_t_in; [exact Hwf|]. rewrite Hs. solve_range.
Qed.

(** With the resize of ATen, [postprocess_image] returns on every batch
    of one non-empty mask and every positive size, and the resized mask
    meets the conditions of the normalisation. *)
Lemma postprocess_image_returns (x : tensor fl) (C H W : nat) (oh ow : Z) :
  shape x = [1; C; H; W] -> 0 < C -> 0 < H -> 0 < W -> (0 < oh)%Z -> (0 < ow)%Z ->
  exists r0 out,
    upsample_bilinear2d x [oh; ow] = Ok r0 /\
    shape r0 = [1; C; Z.to_nat oh; Z.to_nat ow] /\ wf r0 /\
    forallb is_f32 (data r0) = true /\
    postprocess_image upsample_bilinear2d x [oh; ow] = Ok out /\
    length (data out) = Z.to_nat oh * Z.to_nat ow * C.
Proof.
  intros Hs HC HH HW Hoh How.
  destruct (upsample_bilinear2d_float32 x 1 C H W oh ow Hs HC HH HW Hoh How)
    as (r0 & E0 & Hs0 & Hwf0 & Hf).
  pose proof (resized_squeezed upsample_bilinear2d x [oh; ow] r0
                [C; Z.to_nat oh; Z.to_nat ow] E0 Hs0) as Er.
  set (r := mkT [C; Z.to_nat oh; Z.to_nat ow] (data r0)) in *.
  assert (Hlen0 : length (data r) = C * (Z.to_nat oh * Z.to_nat ow)).
  { unfold wf in Hwf0. rewrite Hs0 in Hwf0. cbn [numel fold_right] in Hwf0.
    cbn [r data]. lia. }
  assert (Hwr : wf r).
  { unfold wf. change (shape r) with [C; Z.to_nat oh; Z.to_nat ow].
    cbn [numel fold_right]. lia. }
  assert (Hne : data r <> []).
  { intros E. rewrite E in Hlen0. cbn [length] in Hlen0.
    assert (0 < C * (Z.to_nat oh * Z.to_nat ow))
      by (apply Nat.mul_pos_pos; [|apply Nat.mul_pos_pos]; lia).
    lia. }
  destruct (tensor_min_max_defined r Hne) as (mi & ma & Emi & Ema).
  destruct (postprocess_image_bytes upsample_bilinear2d x [oh; ow] C
              (Z.to_nat oh) (Z.to_nat ow) r mi ma Er eq_refl Hwr Emi Ema)
    as (_ & out & Eout & Hdata).
  exists r0, out. repeat split; try assumption.
  rewrite Hdata, length_map, indices_unravel, length_map, length_seq.
  cbn [numel fold_right]. lia.
Qed.




Example postprocess_image_rounding :
  postprocess_image upsample_bilinear2d
    (mkT [1; 1; 2; 2] [Fin 0; Fin (386610 # 524288); Fin (473969 # 524288); Fin 0])
    [2; 2]%Z
  = Ok (mkT [2; 2] [Some 0; Some 208; Some 255; Some 0]%Z).
Proof. vm_compute. reflexivity. Qed.

Example postprocess_image_3x3 :
  postprocess_image upsample_bilinear2d
    (mkT [1; 1; 2; 2] [Fin 0; Fin (1 # 2); Fin 1; Fin (1 # 4)]) [3; 3]%Z
  = Ok (mkT [3; 3] [Some 0; Some 63; Some 127; Some 127; Some 111; Some 95;
                    Some 255; Some 159; Some 63]%Z).
Proof. vm_compute. reflexivity. Qed.

Example postprocess_image_constant :
  postprocess_scaled upsample_bilinear2d
    (mkT [1; 1; 2; 2] [Fin (1 # 2); Fin (1 # 2); Fin (1 # 2); Fin (1 # 2)]) [2; 2]%Z
  = Ok (mkT [1; 2; 2] [NaN; NaN; NaN; NaN]) /\
  postprocess_image upsample_bilinear2d
    (mkT [1; 1; 2; 2] [Fin (1 # 2); Fin (1 # 2); Fin (1 # 2); Fin (1 # 2)]) [2; 2]%Z
  = Ok (mkT [2; 2] [None; None; None; None]).
Proof. split; vm_compute; reflexivity. Qed.

(** ** Shapes of the decoder layers *)

Section LayerFacts.
Context {A : Type} {NA : Num A} {EA : Elementary A}.

Lemma Conv2d_init_inv (ps : params A) (name : string) (ci co : Z)
  (k s p : Z * Z) (m : Conv2d A) :
  Conv2d_init ps name ci co k s p = Ok m ->
  Conv2d_ok m (Z.to_nat ci) (Z.to_nat co) (Z.to_nat (fst k), Z.to_nat (snd k))
    (Z.to_nat (fst s), Z.to_nat (snd s)) (Z.to_nat (fst p), Z.to_nat (snd p)).
Proof.
  unfold Conv2d_init. intros E.
  destruct ((fst s <=? 0)%Z || (snd s <=? 0)%Z); [discriminate|].
  destruct ((fst p <? 0)%Z || (snd p <? 0)%Z); [discriminate|].
  bind_inv E. injection E as <-.
  match goal with H : new_param _ (_ ++ ".weight") _ = Ok _ |- _ =>
    apply new_param_inv in H; destruct H as (_ & Hs & _) end.
  unfold Conv2d_ok. cbn [conv_weight conv_stride conv_padding fst snd].
  repeat split. exact Hs.
Qed.

Lemma Conv2d_init_succeeds (ps : params A) (name : string) (ci co : Z)
  (k s p : Z * Z) :
  (0 <= ci)%Z -> (0 <= co)%Z -> (0 <= fst k)%Z -> (0 <= snd k)%Z ->
  (0 < fst s)%Z -> (0 < snd s)%Z -> (0 <= fst p)%Z -> (0 <= snd p)%Z ->
  exists m, Conv2d_init ps name ci co k s p = Ok m.
Proof.
  intros Hci Hco Hk1 Hk2 Hs1 Hs2 Hp1 Hp2. unfold Conv2d_init.
  destruct (Z.leb_spec (fst s) 0); [lia|]. destruct (Z.leb_spec (snd s) 0); [lia|].
  destruct (Z.ltb_spec (fst p) 0); [lia|]. destruct (Z.ltb_spec (snd p) 0); [lia|].
  cbn [orb].
  destruct (new_param_ok ps (name ++ ".weight") [co; ci; fst k; snd k])
    as (w & Ew & _); [repeat constructor; assumption|].
  rewrite Ew. cbn [bind].
  destruct (new_param_ok ps (name ++ ".bias") [co]) as (b & Eb & _);
    [repeat constructor; assumption|].
  rewrite Eb. cbn [bind]. eexists; reflexivity.
Qed.

Lemma Conv2d_forward_shape (m : Conv2d A) (x : tensor A)
  (Ci Co N H W : nat) (k s p : nat * nat) :
  Conv2d_ok m Ci Co k s p -> shape x = [N; Ci; H; W] ->
  fst k <= H + 2 * fst p -> snd k <= W + 2 * snd p ->
  has_shape (Conv2d_forward m x)
    [N; Co; (H + 2 * fst p - fst k) / fst s + 1; (W + 2 * snd p - snd k) / snd s + 1].
Proof.
  intros (Hw & Hst & Hpd) Hx Hk1 Hk2. unfold Conv2d_forward.
  rewrite Hx, Hw, Hst, Hpd. destruct s as [sh sw], p as [ph pw], k as [kh kw].
  cbn [fst snd] in *. rewrite Nat.eqb_refl. cbn [negb].
  destruct (Nat.ltb_spec (H + 2 * ph) kh); [lia|].
  destruct (Nat.ltb_spec (W + 2 * pw) kw); [lia|].
  cbn [orb]. apply has_shape_tabulate.
Qed.

(** A 3 x 3 convolution with stride 1 and padding 1 keeps the spatial size. *)
Lemma conv3x3_forward_shape (m : Conv2d A) (x : tensor A) (Ci Co N H W : nat) :
  Conv2d_ok m Ci Co (3, 3) (1, 1) (1, 1) -> shape x = [N; Ci; H; W] ->
  0 < H -> 0 < W ->
  has_shape (Conv2d_forward m x) [N; Co; H; W].
Proof.
  intros Hm Hx HH HW.
  pose proof (Conv2d_forward_shape m x Ci Co N H W _ _ _ Hm Hx) as Hc.
  cbn [fst snd] in Hc.
  replace ((H + 2 * 1 - 3) / 1 + 1) with H in Hc by (rewrite Nat.div_1_r; lia).
  replace ((W + 2 * 1 - 3) / 1 + 1) with W in Hc by (rewrite Nat.div_1_r; lia).
  apply Hc; lia.
Qed.

(** A 1 x 1 convolution keeps the spatial size. *)
Lemma conv1x1_forward_shape (m : Conv2d A) (x : tensor A) (Ci Co N H W : nat) :
  Conv2d_ok m Ci Co (1, 1) (1, 1) (0, 0) -> shape x = [N; Ci; H; W] ->
  0 < H -> 0 < W ->
  has_shape (Conv2d_forward m x) [N; Co; H; W].
Proof.
  intros Hm Hx HH HW.
  pose proof (Conv2d_forward_shape m x Ci Co N H W _ _ _ Hm Hx) as Hc.
  cbn [fst snd] in Hc.
  replace ((H + 2 * 0 - 1) / 1 + 1) with H in Hc by (rewrite Nat.div_1_r; lia).
  replace ((W + 2 * 0 - 1) / 1 + 1) with W in Hc by (rewrite Nat.div_1_r; lia).
  apply Hc; lia.
Qed.

(** A convolution whose stride is its kernel size, on a multiple of it. *)
Lemma conv_patch_forward_shape (m : Conv2d A) (x : tensor A)
  (Ci Co N h w k : nat) :
  Conv2d_ok m Ci Co (k, k) (k, k) (0, 0) -> shape x = [N; Ci; k * h; k * w] ->
  0 < k -> 0 < h -> 0 < w ->
  has_shape (Conv2d_forward m x) [N; Co; h; w].
Proof.
  intros Hm Hx Hk Hh Hw.
  pose proof (Conv2d_forward_shape m x Ci Co N (k * h) (k * w) _ _ _ Hm Hx) as Hc.
  cbn [fst snd] in Hc.
  assert (E : forall n, 0 < n -> (k * n + 2 * 0 - k) / k + 1 = n).
  { intros n Hn. replace (k * n + 2 * 0 - k) with ((n - 1) * k) by nia.
    rewrite Nat.div_mul by lia. lia. }
  rewrite !E in Hc by assumption. apply Hc; nia.
Qed.

Lemma InstanceNorm2d_forward_shape (x : tensor A) (N C H W : nat) :
  shape x = [N; C; H; W] -> H * W <> 1 ->
  has_shape (InstanceNorm2d_forward x) [N; C; H; W].
Proof.
  intros Hx Hne. unfold InstanceNorm2d_forward. rewrite Hx.
  destruct (Nat.eqb_spec (H * W) 1); [contradiction|]. apply has_shape_tabulate.
Qed.

Lemma cbr_forward_shape (m : Conv2d A) (x : tensor A) (Ci Co N H W : nat) :
  Conv2d_ok m Ci Co (3, 3) (1, 1) (1, 1) -> shape x = [N; Ci; H; W] ->
  1 < H -> 0 < W ->
  has_shape (cbr_forward m x) [N; Co; H; W].
Proof.
  intros Hm Hx HH HW. unfold cbr_forward.
  step_as (conv3x3_forward_shape m x Ci Co N H W Hm Hx ltac:(lia) HW) y.
  step_as (InstanceNorm2d_forward_shape y N Co H W Hs_y ltac:(nia)) z.
  apply has_shape_Ok; [exact Hs_z|]. unfold GELU_forward. now apply wf_map_t.
Qed.

Lemma make_cbr_inv (ps : params A) (name : string) (i o : Z) (m : Conv2d A) :
  make_cbr ps name i o = Ok m ->
  Conv2d_ok m (Z.to_nat i) (Z.to_nat o) (3, 3) (1, 1) (1, 1).
Proof. intros E. apply Conv2d_init_inv in E. exact E. Qed.

Lemma make_cbg_inv (ps : params A) (name : string) (i o : Z) (m : Conv2d A) :
  make_cbg ps name i o = Ok m ->
  Conv2d_ok m (Z.to_nat i) (Z.to_nat o) (3, 3) (1, 1) (1, 1).
Proof. intros E. apply Conv2d_init_inv in E. exact E. Qed.

Lemma conv3x3_inv (ps : params A) (name : string) (i o : Z) (m : Conv2d A) :
  BEN_Base.conv3x3 ps name i o = Ok m ->
  Conv2d_ok m (Z.to_nat i) (Z.to_nat o) (3, 3) (1, 1) (1, 1).
Proof. intros E. apply Conv2d_init_inv in E. exact E. Qed.

End LayerFacts.

Section ResizeFacts.
Context {A : Type} {NA : Num A} {EA : Elementary A}.

Lemma last2_zshape (y : tensor A) (pre : list nat) (h w : nat) :
  shape y = pre ++ [h; w] -> last2 (zshape y) = [Z.of_nat h; Z.of_nat w].
Proof.
  intros Hs. unfold last2, zshape. rewrite Hs, map_app, length_app. cbn [map length].
  replace (length (map Z.of_nat pre) + 2 - 2) with (length (map Z.of_nat pre) + 0) by lia.
  rewrite skipn_app, Nat.add_0_r, skipn_all. cbn [app].
  now replace (length (map Z.of_nat pre) - length (map Z.of_nat pre)) with 0 by lia.
Qed.

Lemma resize_as_shape (x y : tensor A) (N C H W : nat) (pre : list nat)
  (h w : nat) (mode : interp_mode) :
  shape x = [N; C; H; W] -> shape y = pre ++ [h; w] ->
  0 < C -> 0 < H -> 0 < W -> 0 < h -> 0 < w ->
  has_shape (resize_as x y mode) [N; C; h; w].
Proof.
  intros Hx Hy HC HH HW Hh Hw. unfold resize_as.
  rewrite (last2_zshape y pre h w Hy).
  pose proof (interpolate_size_shape x N C H W (Z.of_nat h) (Z.of_nat w) mode
                Hx HC HH HW ltac:(lia) ltac:(lia)) as Hi.
  now rewrite !Nat2Z.id in Hi.
Qed.

Lemma Qfloor_double (n : nat) :
  Qfloor (inject_Z (Z.of_nat n) * 2) = Z.of_nat (2 * n).
Proof.
  assert (E : (inject_Z (Z.of_nat n) * 2 == inject_Z (Z.of_nat (2 * n)))%Q).
  { rewrite Nat2Z.inj_mul. unfold Qeq, Qmult, inject_Z. simpl. lia. }
  rewrite E. apply Qfloor_Z.
Qed.

Lemma Qfloor_half (n : nat) :
  Qfloor (inject_Z (Z.of_nat (2 * n)) * (1 # 2)) = Z.of_nat n.
Proof.
  assert (E : (inject_Z (Z.of_nat (2 * n)) * (1 # 2) == inject_Z (Z.of_nat n))%Q).
  { rewrite Nat2Z.inj_mul. unfold Qeq, Qmult, inject_Z. simpl. lia. }
  rewrite E. apply Qfloor_Z.
Qed.

Lemma interpolate_scale_shape (x : tensor A) (N C H W oh ow : nat) (s : Q)
  (mode : interp_mode) :
  shape x = [N; C; H; W] -> 0 < C -> 0 < H -> 0 < W ->
  Qfloor (inject_Z (Z.of_nat H) * s) = Z.of_nat oh ->
  Qfloor (inject_Z (Z.of_nat W) * s) = Z.of_nat ow ->
  0 < oh -> 0 < ow ->
  has_shape (interpolate x None (Some s) mode) [N; C; oh; ow].
Proof.
  intros Hs HC HH HW Eh Ew Hoh How. unfold interpolate. rewrite Hs, Eh, Ew.
  cbn [bind].
  destruct (Nat.eqb_spec C 0); [lia|]. destruct (Nat.eqb_spec H 0); [lia|].
  destruct (Nat.eqb_spec W 0); [lia|]. cbn [orb].
  destruct (Z.leb_spec (Z.of_nat oh) 0); [lia|].
  destruct (Z.leb_spec (Z.of_nat ow) 0); [lia|].
  cbn [orb]. rewrite !Nat2Z.id. apply has_shape_tabulate.
Qed.

(** Doubling with the nearest mode, halving with the bilinear mode. *)
Lemma rescale_to_double_shape (x : tensor A) (N C H W : nat) (mode : interp_mode) :
  shape x = [N; C; H; W] -> 0 < C -> 0 < H -> 0 < W ->
  has_shape (rescale_to x 2 mode) [N; C; 2 * H; 2 * W].
Proof.
  intros Hs HC HH HW. unfold rescale_to.
  apply (interpolate_scale_shape x N C H W); try assumption; try lia;
    apply Qfloor_double.
Qed.

Lemma rescale_to_half_shape (x : tensor A) (N C h w : nat) (mode : interp_mode) :
  shape x = [N; C; 2 * h; 2 * w] -> 0 < C -> 0 < h -> 0 < w ->
  has_shape (rescale_to x (1 # 2) mode) [N; C; h; w].
Proof.
  intros Hs HC Hh Hw. unfold rescale_to.
  apply (interpolate_scale_shape x N C (2 * h) (2 * w)); try assumption; try lia;
    apply Qfloor_half.
Qed.

Lemma adaptive_avg_pool2d_shape (x : tensor A) (N C H W : nat) (oh ow : Z) :
  shape x = [N; C; H; W] -> 0 < C -> 0 < H -> 0 < W ->
  (0 <= oh)%Z -> (0 <= ow)%Z ->
  has_shape (adaptive_avg_pool2d x (oh, ow)) [N; C; Z.to_nat oh; Z.to_nat ow].
Proof.
  intros Hs HC HH HW Hoh How. unfold adaptive_avg_pool2d. rewrite Hs.
  destruct (Z.ltb_spec oh 0); [lia|]. destruct (Z.ltb_spec ow 0); [lia|].
  cbn [orb].
  destruct (Nat.eqb_spec C 0); [lia|]. destruct (Nat.eqb_spec H 0); [lia|].
  destruct (Nat.eqb_spec W 0); [lia|]. cbn [orb]. apply has_shape_tabulate.
Qed.

End ResizeFacts.

Section PieceFacts.
Context {A : Type} {DA : Default A}.

Lemma narrow_shape (x : tensor A) (k start len : nat) :
  shape (narrow x k start len) = firstn k (shape x) ++ len :: skipn (S k) (shape x)
  /\ wf (narrow x k start len).
Proof. split; [reflexivity|apply wf_tabulate]. Qed.

Lemma normal_dim_nat (k n : nat) : k < n -> normal_dim (Z.of_nat k) n = Ok k.
Proof.
  intros Hk. unfold normal_dim.
  destruct (Z.ltb_spec (Z.of_nat k) (- Z.of_nat n)); [lia|].
  destruct (Z.leb_spec (Z.of_nat n) (Z.of_nat k)); [lia|]. cbn [orb].
  destruct (Z.ltb_spec (Z.of_nat k) 0); [lia|]. now rewrite Nat2Z.id.
Qed.

Lemma normal_dim_0 (n : nat) : normal_dim 0 (S n) = Ok 0.
Proof. exact (normal_dim_nat 0 (S n) (Nat.lt_0_succ n)). Qed.

(** [x.split([4, 1], dim=0)] on five rows. *)
Lemma split_4_1 (x : tensor A) (s : list nat) :
  shape x = 5 :: s ->
  exists loc glb,
    split x [4; 1]%Z 0 = Ok [loc; glb] /\
    shape loc = 4 :: s /\ wf loc /\ shape glb = 1 :: s /\ wf glb.
Proof.
  intros Hs. unfold split. rewrite Hs. cbn [length].
  rewrite normal_dim_0. cbn [bind existsb Z.ltb Z.compare orb].
  cbn [fold_right nth]. change (4 + (1 + 0) =? Z.of_nat 5)%Z with true.
  cbn [map narrow_all]. eexists _, _. split; [reflexivity|].
  change (Z.to_nat 4) with 4. change (Z.to_nat 1) with 1.
  repeat split; try apply wf_tabulate;
    unfold narrow; rewrite Hs; reflexivity.
Qed.

Lemma select_shape (x : tensor A) (k i : nat) :
  shape (select x k i) = firstn k (shape x) ++ skipn (S k) (shape x)
  /\ wf (select x k i).
Proof. split; [reflexivity|apply wf_tabulate]. Qed.

Lemma same_except_at (k : nat) (pre post : list nat) (d d' : nat) :
  k = length pre ->
  same_except k (pre ++ d :: post) (pre ++ d' :: post) = true.
Proof.
  intros ->. unfold same_except. rewrite !length_app. cbn [length].
  rewrite Nat.eqb_refl. cbn [andb]. apply forallb_forall. intros a Ha.
  apply in_seq in Ha. destruct (Nat.eqb_spec a (length pre)) as [->|Hne];
    [reflexivity|]. cbn [orb]. apply Nat.eqb_eq.
  destruct (Nat.lt_ge_cases a (length pre)).
  - now rewrite !app_nth1 by assumption.
  - rewrite !app_nth2 by assumption.
    destruct (a - length pre) as [|j] eqn:Ej; [lia|reflexivity].
Qed.

(** Concatenation along axis [length pre] of tensors that agree on the
    other axes. *)
Lemma cat_shape (ts : list (tensor A)) (pre post ds : list nat) :
  ts <> [] ->
  map shape ts = map (fun d => pre ++ d :: post) ds ->
  has_shape (cat ts (Z.of_nat (length pre))) (pre ++ list_sum ds :: post).
Proof.
  intros Hne Hs. unfold cat. destruct ts as [|t ts]; [congruence|].
  destruct ds as [|d ds]; [discriminate|]. cbn [map] in Hs.
  injection Hs as Ht Hts. rewrite Ht, length_app. cbn [length].
  rewrite normal_dim_nat by lia. cbn [bind].
  assert (Hall : forall (u : list (tensor A)) dl,
            map shape u = map (fun d => pre ++ d :: post) dl ->
            forallb (fun u => same_except (length pre) (pre ++ d :: post) (shape u)) u
            = true /\
            fold_right (fun u acc => nth (length pre) (shape u) 0 + acc) 0 u
            = list_sum dl).
  { induction u as [|u0 u IH]; intros dl Hm; destruct dl as [|d0 dl];
      try discriminate; [now split|].
    cbn [map] in Hm. injection Hm as H0 Hm. destruct (IH dl Hm) as [I1 I2].
    cbn [forallb fold_right list_sum]. rewrite H0, I1, I2.
    rewrite same_except_at by reflexivity. split; [reflexivity|].
    now rewrite app_nth2, Nat.sub_diag by lia. }
  destruct (Hall (t :: ts) (d :: ds)) as [H1 H2].
  { cbn [map]. now rewrite Ht, Hts. }
  rewrite H1, H2.
  rewrite firstn_app, Nat.sub_diag, firstn_all. cbn [firstn]. rewrite app_nil_r.
  replace (S (length pre)) with (length pre + 1) by lia.
  rewrite skipn_app, skipn_all2 by lia. cbn [app].
  replace (length pre + 1 - length pre) with 1 by lia. cbn [skipn].
  apply has_shape_tabulate.
Qed.

End PieceFacts.

(** ** Shapes of the rearrangements *)

Section RearrangeShape.
Context {A : Type} {DA : Default A}.

Lemma rearrange_shape (x : tensor A) (lhs rhs : list (list string))
  (lengths sizes : axis_env) (perm : list nat) :
  infer_axes lengths lhs (shape x) = Ok sizes ->
  axis_positions (concat rhs) (concat lhs) = Ok perm ->
  length (concat rhs) = length (concat lhs) ->
  numel (shape x) = numel (map snd sizes) ->
  is_perm (length (map snd sizes)) perm = true ->
  numel (map (fun a => nth a (map snd sizes) 0) perm)
  = numel (map (group_size sizes) rhs) ->
  has_shape (rearrange x lhs rhs lengths) (map (group_size sizes) rhs).
Proof.
  intros Ei Ep El En Hperm En'. unfold rearrange. rewrite Ei, Ep. cbn [bind].
  rewrite El, Nat.eqb_refl. cbn [bind].
  rewrite reshape_to_ok by exact En. cbn [bind].
  rewrite permute_ok by exact Hperm. cbn [bind shape].
  rewrite reshape_to_ok by exact En'.
  apply has_shape_Ok; [reflexivity|].
  unfold wf. cbn [shape data]. rewrite <- En'.
  apply (wf_tabulate (map (fun a => nth a (map snd sizes) 0) perm)).
Qed.

End RearrangeShape.

Ltac rearrange_side :=
  cbn; autorewrite with arith_norm; cbn;
  rewrite ?Nat.eqb_refl; cbn; autorewrite with arith_norm;
  first [reflexivity | nia | idtac].

(** [rearrange_as sizes perm target]: the shape of a rearrangement whose
    elementary axes have the given sizes. *)
Ltac rearrange_as x sizes perm :=
  match goal with
  | |- has_shape (rearrange x ?lhs ?rhs ?env) ?s =>
      let R := fresh "R" in
      pose proof (rearrange_shape x lhs rhs env sizes perm) as R;
      replace s with (map (group_size sizes) rhs)
        by (cbn; autorewrite with arith_norm; repeat (f_equal; try nia));
      apply R; clear R;
      [ match goal with Hs : shape x = _ |- _ => rewrite Hs end; rearrange_side
      | reflexivity
      | reflexivity
      | match goal with Hs : shape x = _ |- _ => rewrite Hs end; rearrange_side
      | reflexivity
      | rearrange_side ]
  end.

Section RearrangePatterns.
Context {A : Type} {DA : Default A}.

(** ['b c h w -> (h w) b c']. *)
Lemma rearrange_bchw_to_hw_b_c (x : tensor A) (b c h w : nat) :
  shape x = [b; c; h; w] ->
  has_shape (rearrange x [["b"]; ["c"]; ["h"]; ["w"]] [["h"; "w"]; ["b"]; ["c"]] [])
            [h * w; b; c].
Proof.
  intros Hs.
  rearrange_as x [("b", b); ("c", c); ("h", h); ("w", w)] [2; 3; 0; 1].
Qed.

(** ['(h w) b c -> h w b c'] with [h] and [w] given. *)
Lemma rearrange_hw_b_c_to_h_w_b_c (x : tensor A) (b c h w : nat) :
  shape x = [h * w; b; c] ->
  has_shape (rearrange x [["h"; "w"]; ["b"]; ["c"]] [["h"]; ["w"]; ["b"]; ["c"]]
               [("h", h); ("w", w)])
            [h; w; b; c].
Proof.
  intros Hs.
  rearrange_as x [("h", h); ("w", w); ("b", b); ("c", c)] [0; 1; 2; 3].
Qed.

(** ['(ng h) (nw w) b c -> (h w) (ng nw b) c'] with [ng = nw = 2]. *)
Lemma rearrange_quadrants_of_tokens (x : tensor A) (b c h w : nat) :
  shape x = [2 * h; 2 * w; b; c] ->
  has_shape (rearrange x [["ng"; "h"]; ["nw"; "w"]; ["b"]; ["c"]]
               [["h"; "w"]; ["ng"; "nw"; "b"]; ["c"]] [("ng", 2); ("nw", 2)])
            [h * w; 4 * b; c].
Proof.
  intros Hs.
  rearrange_as x [("ng", 2); ("h", h); ("nw", 2); ("w", w); ("b", b); ("c", c)]
               [1; 3; 0; 2; 4; 5].
Qed.

(** ['(h w) b c -> b c h w'] with [h] and [w] given. *)
Lemma rearrange_hw_b_c_to_bchw (x : tensor A) (b c h w : nat) :
  shape x = [h * w; b; c] ->
  has_shape (rearrange x [["h"; "w"]; ["b"]; ["c"]] [["b"]; ["c"]; ["h"]; ["w"]]
               [("h", h); ("w", w)])
            [b; c; h; w].
Proof.
  intros Hs.
  rearrange_as x [("h", h); ("w", w); ("b", b); ("c", c)] [2; 3; 0; 1].
Qed.

(** ['nl c h w -> nl c (h w)']. *)
Lemma rearrange_flatten_hw (x : tensor A) (n c h w : nat) :
  shape x = [n; c; h; w] ->
  has_shape (rearrange x [["nl"]; ["c"]; ["h"]; ["w"]] [["nl"]; ["c"]; ["h"; "w"]] [])
            [n; c; h * w].
Proof.
  intros Hs.
  rearrange_as x [("nl", n); ("c", c); ("h", h); ("w", w)] [0; 1; 2; 3].
Qed.

(** ['nl c nphw -> nl nphw 1 c']. *)
Lemma rearrange_tokens_last (x : tensor A) (n c p : nat) :
  shape x = [n; c; p] ->
  has_shape (rearrange x [["nl"]; ["c"]; ["nphw"]] [["nl"]; ["nphw"]; []; ["c"]] [])
            [n; p; 1; c].
Proof.
  intros Hs.
  rearrange_as x [("nl", n); ("c", c); ("nphw", p)] [0; 2; 1].
Qed.

(** ['nl c h w -> nl (h w) 1 c']. *)
Lemma rearrange_pixels_last (x : tensor A) (n c h w : nat) :
  shape x = [n; c; h; w] ->
  has_shape (rearrange x [["nl"]; ["c"]; ["h"]; ["w"]] [["nl"]; ["h"; "w"]; []; ["c"]] [])
            [n; h * w; 1; c].
Proof.
  intros Hs.
  rearrange_as x [("nl", n); ("c", c); ("h", h); ("w", w)] [0; 2; 3; 1].
Qed.

Lemma image2patches_shape (x : tensor A) (b c h w : nat) :
  shape x = [b; c; 2 * h; 2 * w] -> has_shape (image2patches x) [4 * b; c; h; w].
Proof.
  intros Hs. rewrite (image2patches_spec x b c h w Hs).
  apply has_shape_Ok; [reflexivity|]. unfold wf, tabulate. cbn [shape data].
  rewrite length_map, indices_unravel, length_map, length_seq.
  unfold numel. cbn [fold_right]. ring.
Qed.

Lemma patches2image_shape (x : tensor A) (b c h w : nat) :
  shape x = [4 * b; c; h; w] -> has_shape (patches2image x) [b; c; 2 * h; 2 * w].
Proof.
  intros Hs. rewrite (patches2image_spec x b c h w Hs).
  apply has_shape_Ok; [reflexivity|]. unfold wf, tabulate. cbn [shape data].
  rewrite length_map, indices_unravel, length_map, length_seq.
  unfold numel. cbn [fold_right]. ring.
Qed.

End RearrangePatterns.

(** ** Multi-head attention *)

Section MultiheadFacts.
Context {A : Type} {NA : Num A} {EA : Elementary A}.

Lemma MultiheadAttention_init_inv (ps : params A) (name : string) (e h : Z)
  (m : MultiheadAttention.t A) :
  MultiheadAttention.init ps name e h = Ok m ->
  MultiheadAttention_ok m (Z.to_nat e).
Proof.
  unfold MultiheadAttention.init. intros E.
  destruct ((e <=? 0)%Z || (h <=? 0)%Z); [discriminate|].
  bind_inv E. injection E as <-.
  match goal with H : Linear_init _ _ _ _ _ = Ok _ |- _ =>
    apply Linear_init_inv in H; destruct H as (_ & _ & Hs & _) end.
  split; [reflexivity|exact Hs].
Qed.

Lemma MultiheadAttention_init_succeeds (ps : params A) (name : string) (e h : Z) :
  (0 < e)%Z -> (0 < h)%Z -> (e mod h = 0)%Z ->
  exists m, MultiheadAttention.init ps name e h = Ok m.
Proof.
  intros He Hh Hm. unfold MultiheadAttention.init.
  destruct (Z.leb_spec e 0); [lia|]. destruct (Z.leb_spec h 0); [lia|].
  cbn [orb]. unfold floordiv. destruct (Z.eqb_spec h 0); [lia|]. cbn [bind].
  assert (e / h * h = e)%Z as -> by (pose proof (Z.div_mod e h); lia).
  rewrite Z.eqb_refl. cbn [assert bind].
  destruct (new_param_ok ps (name ++ ".in_proj_weight") [3 * e; e]%Z)
    as (w & -> & _); [repeat constructor; lia|]. cbn [bind].
  destruct (new_param_ok ps (name ++ ".in_proj_bias") [3 * e]%Z)
    as (b & -> & _); [repeat constructor; lia|]. cbn [bind].
  destruct (Linear_init_succeeds ps (name ++ ".out_proj") e e true) as (o & ->);
    [lia|lia|]. cbn [bind]. eexists; reflexivity.
Qed.

Lemma MultiheadAttention_forward_shape (m : MultiheadAttention.t A)
  (query key value : tensor A) (L N Sk E : nat) :
  MultiheadAttention_ok m E ->
  shape query = [L; N; E] -> shape key = [Sk; N; E] -> shape value = [Sk; N; E] ->
  has_shape (MultiheadAttention.forward m query key value) [L; N; E].
Proof.
  intros (He & Ho) Hq Hk Hv. unfold MultiheadAttention.forward.
  rewrite Hq, Hk, Hv, He, !Nat.eqb_refl. cbn [negb andb].
  apply (Linear_forward_shape _ _ [L; N] E E Ho). reflexivity.
Qed.

End MultiheadFacts.

Section PieceFacts2.
Context {A : Type} {DA : Default A}.

(** [x.chunk(4, dim=1)] on an axis of length four. *)
Lemma chunk_4 (x : tensor A) (a c : nat) :
  shape x = [a; 4; c] ->
  exists x0 x1 x2 x3,
    chunk x 4 1 = Ok [x0; x1; x2; x3] /\
    Forall (fun y => shape y = [a; 1; c] /\ wf y) [x0; x1; x2; x3].
Proof.
  intros Hs. unfold chunk. rewrite Hs.
  change (normal_dim 1 (length [a; 4; c])) with (@Ok nat 1). cbn [bind].
  change (4 <=? 0)%Z with false. cbv iota.
  exists (narrow x 1 0 1), (narrow x 1 1 1), (narrow x 1 2 1), (narrow x 1 3 1).
  split; [reflexivity|].
  repeat constructor; try apply wf_tabulate; unfold narrow; rewrite Hs; reflexivity.
Qed.

(** [x.unbind(dim=0)] on four rows. *)
Lemma unbind_4 (x : tensor A) (s : list nat) :
  shape x = 4 :: s ->
  exists x0 x1 x2 x3,
    unbind x 0 = Ok [x0; x1; x2; x3] /\
    Forall (fun y => shape y = s /\ wf y) [x0; x1; x2; x3].
Proof.
  intros Hs. unfold unbind. rewrite Hs. cbn [length].
  rewrite normal_dim_0. cbn [bind nth seq map].
  eexists _, _, _, _. split; [reflexivity|].
  repeat constructor; try apply wf_tabulate; unfold select; rewrite Hs; reflexivity.
Qed.

Lemma stack_dim_pair_shape (a b : tensor A) (s : list nat) :
  shape a = s -> shape b = s ->
  has_shape (stack_dim [a; b] (Z.of_nat (length s))) (s ++ [2]).
Proof.
  intros Ha Hb. unfold stack_dim. rewrite Ha.
  rewrite normal_dim_nat by lia. cbn [bind forallb]. rewrite Ha, Hb.
  destruct (list_eq_dec Nat.eq_dec s s) as [_|Hn]; [|contradiction].
  cbn [andb length]. rewrite firstn_all, skipn_all. apply has_shape_tabulate.
Qed.

Lemma flatten_from_shape (t : tensor A) (pre post : list nat) :
  wf t -> shape t = pre ++ post ->
  has_shape (Ok (flatten_from t (length pre))) (pre ++ [numel post]).
Proof.
  intros Hwf Hs. apply has_shape_Ok.
  - unfold flatten_from. cbn [shape]. rewrite Hs.
    rewrite firstn_app, Nat.sub_diag, firstn_all, skipn_app, Nat.sub_diag, skipn_all.
    cbn [firstn skipn]. now rewrite app_nil_r.
  - unfold wf, flatten_from in *. cbn [shape data]. rewrite Hwf, Hs.
    rewrite firstn_app, Nat.sub_diag, firstn_all, skipn_app, Nat.sub_diag, skipn_all.
    cbn [firstn skipn app]. rewrite app_nil_r, !numel_app.
    unfold numel at 4. cbn [fold_right]. lia.
Qed.

End PieceFacts2.

(** ** Broadcasting and slicing *)

Lemma broadcast_rev_into (r1 r2 : list nat) :
  Forall2 (fun d1 d2 => d2 = d1 \/ d2 = 1) r1 r2 -> broadcast_rev r1 r2 = Ok r1.
Proof.
  induction 1 as [|d1 d2 r1 r2 Hd _ IH]; [reflexivity|].
  cbn [broadcast_rev]. rewrite IH. cbn [bind].
  destruct (Nat.eqb_spec d1 d2); [reflexivity|].
  destruct (Nat.eqb_spec d1 1); [lia|].
  destruct (Nat.eqb_spec d2 1); [reflexivity|lia].
Qed.

(** A size whose entries are those of [s1] or 1 broadcasts to [s1]. *)
Lemma broadcast_shape_into (s1 s2 : list nat) :
  Forall2 (fun d1 d2 => d2 = d1 \/ d2 = 1) s1 s2 -> broadcast_shape s1 s2 = Ok s1.
Proof.
  intros Hf. unfold broadcast_shape.
  rewrite broadcast_rev_into; [cbn [bind]; now rewrite rev_involutive|].
  clear -Hf. induction Hf as [|d1 d2 r1 r2 Hd Hf IH]; [constructor|].
  cbn [rev]. apply Forall2_app; [exact IH|]. constructor; [exact Hd|constructor].
Qed.

Lemma broadcast_shape_from (s1 s2 : list nat) :
  Forall2 (fun d1 d2 => d1 = d2 \/ d1 = 1) s1 s2 -> broadcast_shape s1 s2 = Ok s2.
Proof.
  intros Hf. unfold broadcast_shape.
  assert (E : forall r1 r2, Forall2 (fun d1 d2 => d1 = d2 \/ d1 = 1) r1 r2 ->
            broadcast_rev r1 r2 = Ok r2).
  { induction 1 as [|d1 d2 r1 r2 Hd _ IH]; [reflexivity|].
    cbn [broadcast_rev]. rewrite IH. cbn [bind].
    destruct (Nat.eqb_spec d1 d2); [now subst|].
    destruct (Nat.eqb_spec d1 1); [reflexivity|lia]. }
  rewrite E; [cbn [bind]; now rewrite rev_involutive|].
  clear -Hf. induction Hf as [|d1 d2 r1 r2 Hd Hf IH]; [constructor|].
  cbn [rev]. apply Forall2_app; [exact IH|]. constructor; [exact Hd|constructor].
Qed.

(** A trailing axis of length one against a vector. *)
Lemma broadcast_shape_last (pre : list nat) (n : nat) :
  broadcast_shape (pre ++ [1]) [n] = Ok (pre ++ [n]).
Proof.
  unfold broadcast_shape. rewrite rev_app_distr. cbn [rev app broadcast_rev].
  destruct (rev pre) as [|d r] eqn:Er.
  - cbn [broadcast_rev bind]. assert (pre = []) as ->.
    { destruct pre as [|p pre]; [reflexivity|]. cbn [rev] in Er.
      now destruct (rev pre). }
    destruct (Nat.eqb_spec 1 n) as [<-|_]; reflexivity.
  - cbn [broadcast_rev bind]. rewrite <- Er.
    destruct (Nat.eqb_spec 1 n) as [<-|_]; cbn [Nat.eqb bind rev];
      now rewrite rev_involutive.
Qed.

Ltac broadcast_side :=
  repeat (apply Forall2_cons; [first [left; reflexivity | right; reflexivity]|]);
  apply Forall2_nil.

Section BroadcastOps.
Context {A B C : Type} {DA : Default A} {DB : Default B} {DC : Default C}.

Lemma broadcast2_into_shape (f : A -> B -> C) (a : tensor A) (b : tensor B) :
  Forall2 (fun d1 d2 => d2 = d1 \/ d2 = 1) (shape a) (shape b) ->
  has_shape (broadcast2 f a b) (shape a).
Proof.
  intros Hf. rewrite (broadcast2_ok f a b (shape a)) by now apply broadcast_shape_into.
  exists (tabulate (shape a) (fun idx => f (get a (broadcast_index (shape a) idx))
                                       (get b (broadcast_index (shape b) idx)))).
  repeat split. apply wf_tabulate.
Qed.

Lemma broadcast2_from_shape (f : A -> B -> C) (a : tensor A) (b : tensor B) :
  Forall2 (fun d1 d2 => d1 = d2 \/ d1 = 1) (shape a) (shape b) ->
  has_shape (broadcast2 f a b) (shape b).
Proof.
  intros Hf. rewrite (broadcast2_ok f a b (shape b)) by now apply broadcast_shape_from.
  exists (tabulate (shape b) (fun idx => f (get a (broadcast_index (shape a) idx))
                                       (get b (broadcast_index (shape b) idx)))).
  repeat split. apply wf_tabulate.
Qed.

Lemma broadcast2_eq_shape (f : A -> B -> C) (a : tensor A) (b : tensor B)
  (s : list nat) :
  shape a = s -> shape b = s -> has_shape (broadcast2 f a b) s.
Proof.
  intros Ha Hb. rewrite <- Ha. apply broadcast2_into_shape. rewrite Ha, Hb.
  clear. induction s; constructor; auto.
Qed.

Lemma broadcast2_last_shape (f : A -> B -> C) (a : tensor A) (b : tensor B)
  (pre : list nat) (n : nat) :
  shape a = pre ++ [1] -> shape b = [n] ->
  has_shape (broadcast2 f a b) (pre ++ [n]).
Proof.
  intros Ha Hb.
  rewrite (broadcast2_ok f a b (pre ++ [n]))
    by (rewrite Ha, Hb; apply broadcast_shape_last).
  eexists. repeat split. apply wf_tabulate.
Qed.

End BroadcastOps.

Lemma slice_sel_last (d : nat) :
  0 < d -> slice_sel (Some (-1)%Z) None 1 d = Ok (SRange (d - 1) 1 1).
Proof.
  intros Hd. unfold slice_sel, clamp_bound. cbn [Z.leb Z.compare Z.ltb].
  destruct (Z.ltb_spec (-1 + Z.of_nat d) 0); [lia|].
  destruct (Z.ltb_spec (Z.of_nat d) (-1 + Z.of_nat d)); [lia|].
  destruct (Z.leb_spec (Z.of_nat d) (-1 + Z.of_nat d)); [lia|].
  f_equal. f_equal; [lia|]. rewrite Z.div_1_r. lia.
Qed.

Lemma slice_sel_range (a b d : nat) :
  a <= b -> b <= d ->
  slice_sel (Some (Z.of_nat a)) (Some (Z.of_nat b)) 1 d = Ok (SRange a 1 (b - a)).
Proof.
  intros Hab Hbd. unfold slice_sel, clamp_bound. cbn [Z.leb Z.compare].
  destruct (Z.ltb_spec (Z.of_nat a) 0); [lia|].
  destruct (Z.ltb_spec (Z.of_nat b) 0); [lia|].
  destruct (Z.ltb_spec (Z.of_nat a) 0); [lia|].
  destruct (Z.ltb_spec (Z.of_nat b) 0); [lia|].
  destruct (Z.ltb_spec (Z.of_nat d) (Z.of_nat a)); [lia|].
  destruct (Z.ltb_spec (Z.of_nat d) (Z.of_nat b)); [lia|].
  destruct (Z.leb_spec (Z.of_nat b) (Z.of_nat a)).
  - f_equal. f_equal; lia.
  - f_equal. f_equal; [lia|]. rewrite Z.div_1_r. lia.
Qed.

Lemma at_sel_nat (i d : nat) : i < d -> at_sel (Z.of_nat i) d = Ok (SAt i).
Proof.
  intros Hi. unfold at_sel.
  destruct (Z.ltb_spec (Z.of_nat i) (- Z.of_nat d)); [lia|].
  destruct (Z.leb_spec (Z.of_nat d) (Z.of_nat i)); [lia|]. cbn [orb].
  destruct (Z.ltb_spec (Z.of_nat i) 0); [lia|]. now rewrite Nat2Z.id.
Qed.

Section SliceShapes.
Context {A : Type} {DA : Default A}.

(** [x[i, :, :, :]]. *)
Lemma getitem_row_shape (x : tensor A) (i n a b c : nat) :
  shape x = [n; a; b; c] -> i < n ->
  has_shape (getitem x [At (Z.of_nat i); full; full; full]) [a; b; c].
Proof.
  intros Hs Hi. unfold getitem. rewrite Hs. cbn [index_plan full].
  rewrite at_sel_nat by assumption. rewrite !slice_sel_full.
  cbn [bind map plan_shape flat_map app]. apply has_shape_tabulate.
Qed.

(** [x[a:b, :, :, :]]. *)
Lemma getitem_rows_shape (x : tensor A) (lo hi n a b c : nat) :
  shape x = [n; a; b; c] -> lo <= hi -> hi <= n ->
  has_shape (getitem x [Slice (Some (Z.of_nat lo)) (Some (Z.of_nat hi)) 1;
                        full; full; full])
            [hi - lo; a; b; c].
Proof.
  intros Hs Hlo Hhi. unfold getitem. rewrite Hs. cbn [index_plan full].
  rewrite slice_sel_range by assumption. rewrite !slice_sel_full.
  cbn [bind map plan_shape flat_map app]. apply has_shape_tabulate.
Qed.

(** [x[:, -1:, :]] and [x[:, :, -1:]]. *)
Lemma getitem_last_row_shape (x : tensor A) (b h w : nat) :
  shape x = [b; h; w] -> 0 < h ->
  has_shape (getitem x [full; Slice (Some (-1)%Z) None 1; full]) [b; 1; w].
Proof.
  intros Hs Hh. unfold getitem. rewrite Hs. cbn [index_plan full].
  rewrite slice_sel_last by assumption. rewrite !slice_sel_full.
  cbn [bind map plan_shape flat_map app]. apply has_shape_tabulate.
Qed.

Lemma getitem_last_col_shape (x : tensor A) (b h w : nat) :
  shape x = [b; h; w] -> 0 < w ->
  has_shape (getitem x [full; full; Slice (Some (-1)%Z) None 1]) [b; h; 1].
Proof.
  intros Hs Hh. unfold getitem. rewrite Hs. cbn [index_plan full].
  rewrite slice_sel_last by assumption. rewrite !slice_sel_full.
  cbn [bind map plan_shape flat_map app]. apply has_shape_tabulate.
Qed.

(** [x[:, :, :, None]]. *)
Lemma getitem_new_axis_shape (x : tensor A) (b h w : nat) :
  shape x = [b; h; w] ->
  has_shape (getitem x [full; full; full; NewAxis]) [b; h; w; 1].
Proof.
  intros Hs. unfold getitem. rewrite Hs. cbn [index_plan full].
  rewrite !slice_sel_full.
  cbn [bind map plan_shape flat_map app]. apply has_shape_tabulate.
Qed.

(** [x[:, :, :, a::2]] for [a] 0 or 1. *)
Lemma getitem_alternate_shape (x : tensor A) (b h w n a : nat) :
  shape x = [b; h; w; 2 * n] -> a < 2 ->
  has_shape (getitem x [full; full; full; Slice (Some (Z.of_nat a)) None 2])
            [b; h; w; n].
Proof.
  intros Hs Ha. destruct (slice_sel_stride2 a n Ha) as (sa & Ea).
  unfold getitem. rewrite Hs. cbn [index_plan full].
  rewrite !slice_sel_full, Ea.
  cbn [bind map plan_shape flat_map app]. apply has_shape_tabulate.
Qed.

End SliceShapes.

(** ** The sine position embedding *)

Section PositionFacts.
Context {A : Type} {NA : Num A} {EA : Elementary A}.

Lemma cumsum_shape (t : tensor A) (k : nat) :
  k < length (shape t) -> has_shape (cumsum t (Z.of_nat k)) (shape t).
Proof.
  intros Hk. unfold cumsum. rewrite normal_dim_nat by assumption. cbn [bind].
  apply has_shape_tabulate.
Qed.

Lemma PositionEmbeddingSine_init_inv (npf T : Z) (m : PositionEmbeddingSine.t) :
  PositionEmbeddingSine.init npf T true None = Ok m ->
  PositionEmbeddingSine.normalize m = true /\
  shape (PositionEmbeddingSine.dim_t m) = [Z.to_nat npf].
Proof.
  unfold PositionEmbeddingSine.init. cbn [bind]. unfold arange.
  destruct (npf <? 0)%Z; [discriminate|]. cbn [bind]. intros E.
  injection E as <-. split; reflexivity.
Qed.

Lemma PositionEmbeddingSine_init_succeeds (npf T : Z) :
  (0 <= npf)%Z -> exists m, PositionEmbeddingSine.init npf T true None = Ok m.
Proof.
  intros Hn. unfold PositionEmbeddingSine.init. cbn [bind]. unfold arange.
  destruct (Z.ltb_spec npf 0); [lia|]. cbn [bind]. eexists; reflexivity.
Qed.

Lemma sin_cos_interleave_shape (pos : tensor A) (b h w n : nat) :
  shape pos = [b; h; w; 2 * n] ->
  has_shape (x_even <- getitem pos [full; full; full; Slice (Some 0%Z) None 2] ;;
             x_odd <- getitem pos [full; full; full; Slice (Some 1%Z) None 2] ;;
             p <- stack_dim [map_t sin x_even; map_t cos x_odd] 4 ;;
             Ok (flatten_from p 3))
            [b; h; w; 2 * n].
Proof.
  intros Hs.
  change (Slice (Some 0%Z) None 2) with (Slice (Some (Z.of_nat 0)) None 2).
  change (Slice (Some 1%Z) None 2) with (Slice (Some (Z.of_nat 1)) None 2).
  step_as (getitem_alternate_shape pos b h w n 0 Hs ltac:(lia)) e.
  step_as (getitem_alternate_shape pos b h w n 1 Hs ltac:(lia)) o.
  pose proof (stack_dim_pair_shape (map_t sin e) (map_t cos o) [b; h; w; n]
                Hs_e Hs_o) as Hst.
  cbn [length app] in Hst. change (Z.of_nat 4) with 4%Z in Hst. step_as Hst p.
  pose proof (flatten_from_shape p [b; h; w] [n; 2] Hw_p Hs_p) as Hf.
  cbn [length app] in Hf. unfold numel in Hf. cbn [fold_right] in Hf.
  replace (n * (2 * 1)) with (2 * n) in Hf by lia. exact Hf.
Qed.

Lemma PositionEmbeddingSine_call_shape (m : PositionEmbeddingSine.t)
  (b h w n : nat) :
  PositionEmbeddingSine.normalize m = true ->
  shape (PositionEmbeddingSine.dim_t m) = [2 * n] ->
  0 < h -> 0 < w ->
  has_shape (PositionEmbeddingSine.call (A := A) m
               (Z.of_nat b) (Z.of_nat h) (Z.of_nat w))
            [b; 2 * n + 2 * n; h; w].
Proof.
  intros Hn Hd Hh Hw. unfold PositionEmbeddingSine.call.
  rewrite checked_size_ok by (repeat constructor; lia). ok_step.
  cbn [map]. rewrite !Nat2Z.id.
  set (nm := to_float (map_t negb (full_of [b; h; w] false))).
  assert (Hnm : shape nm = [b; h; w]) by reflexivity.
  pose proof (cumsum_shape nm 1) as Hy. rewrite Hnm in Hy.
  specialize (Hy ltac:(cbn; lia)). change (Z.of_nat 1) with 1%Z in Hy.
  step_as Hy y.
  pose proof (cumsum_shape nm 2) as Hx. rewrite Hnm in Hx.
  specialize (Hx ltac:(cbn; lia)). change (Z.of_nat 2) with 2%Z in Hx.
  step_as Hx x.
  rewrite Hn.
  step_as (getitem_last_row_shape y b h w Hs_y Hh) yl.
  match goal with |- context [broadcast2 div ?a ?b] =>
    pose proof (broadcast2_into_shape div a b) as Hb end.
  cbn [map_t shape] in Hb. rewrite Hs_y, Hs_yl in Hb.
  specialize (Hb ltac:(broadcast_side)). step_as Hb y1.
  step_as (getitem_last_col_shape x b h w Hs_x Hw) xl.
  match goal with |- context [broadcast2 div ?a ?b] =>
    pose proof (broadcast2_into_shape div a b) as Hb2 end.
  cbn [map_t shape] in Hb2. rewrite Hs_x, Hs_xl in Hb2.
  specialize (Hb2 ltac:(broadcast_side)). step_as Hb2 x1.
  ok_step. lazy beta iota.
  match goal with |- context [getitem ?t [full; full; full; NewAxis]] =>
    step_as (getitem_new_axis_shape t b h w Hs_x1) xn end.
  match goal with |- context [broadcast2 div xn ?d] =>
    pose proof (broadcast2_last_shape div xn d [b; h; w] (2 * n) Hs_xn Hd) as Hpx
  end.
  cbn [app] in Hpx. step_as Hpx px.
  match goal with |- context [getitem ?t [full; full; full; NewAxis]] =>
    step_as (getitem_new_axis_shape t b h w Hs_y1) yn end.
  match goal with |- context [broadcast2 div yn ?d] =>
    pose proof (broadcast2_last_shape div yn d [b; h; w] (2 * n) Hs_yn Hd) as Hpy
  end.
  cbn [app] in Hpy. step_as Hpy py.
  change (Slice (Some 0%Z) None 2) with (Slice (Some (Z.of_nat 0)) None 2).
  change (Slice (Some 1%Z) None 2) with (Slice (Some (Z.of_nat 1)) None 2).
  step_as (getitem_alternate_shape px b h w n 0 Hs_px ltac:(lia)) xe.
  step_as (getitem_alternate_shape px b h w n 1 Hs_px ltac:(lia)) xo.
  pose proof (stack_dim_pair_shape (map_t sin xe) (map_t cos xo) [b; h; w; n]
                Hs_xe Hs_xo) as Hsx.
  cbn [length app] in Hsx. change (Z.of_nat 4) with 4%Z in Hsx. step_as Hsx sx.
  step_as (getitem_alternate_shape py b h w n 0 Hs_py ltac:(lia)) ye.
  step_as (getitem_alternate_shape py b h w n 1 Hs_py ltac:(lia)) yo.
  pose proof (stack_dim_pair_shape (map_t sin ye) (map_t cos yo) [b; h; w; n]
                Hs_ye Hs_yo) as Hsy.
  cbn [length app] in Hsy. change (Z.of_nat 4) with 4%Z in Hsy. step_as Hsy sy.
  destruct (flatten_from_shape sx [b; h; w] [n; 2] Hw_sx Hs_sx)
    as (fx & Efx & Hs_fx & Hw_fx).
  destruct (flatten_from_shape sy [b; h; w] [n; 2] Hw_sy Hs_sy)
    as (fy & Efy & Hs_fy & Hw_fy).
  cbn [length] in Efx, Efy. injection Efx as Efx. injection Efy as Efy.
  rewrite Efx, Efy.
  cbn [app] in Hs_fx, Hs_fy. unfold numel in Hs_fx, Hs_fy.
  cbn [fold_right] in Hs_fx, Hs_fy.
  replace (n * (2 * 1)) with (2 * n) in Hs_fx, Hs_fy by lia.
  pose proof (cat_shape [fy; fx] [b; h; w] [] [2 * n; 2 * n]) as Hc.
  cbn [map length list_sum] in Hc. rewrite Hs_fx, Hs_fy in Hc.
  specialize (Hc ltac:(discriminate) eq_refl).
  unfold list_sum in Hc. cbn [fold_right] in Hc. rewrite Nat.add_0_r in Hc.
  change (Z.of_nat 3) with 3%Z in Hc. step_as Hc c.
  pose proof (permute_shape c [0; 3; 1; 2]) as Hp. rewrite Hs_c in Hp.
  apply Hp. reflexivity.
Qed.

End PositionFacts.

(** ** MCLM *)

Section MCLMFacts.
Context {A : Type} {NA : Num A} {EA : Elementary A}.

Lemma truediv_pos (a b : Z) :
  (0 < b)%Z -> truediv (inject_Z a) (inject_Z b) = Ok (inject_Z a / inject_Z b)%Q.
Proof.
  intros Hb. apply truediv_ok. unfold Qeq, inject_Z. simpl. lia.
Qed.

Lemma zshape4 (x : tensor A) (a b c d : nat) :
  shape x = [a; b; c; d] ->
  zshape x = [Z.of_nat a; Z.of_nat b; Z.of_nat c; Z.of_nat d].
Proof. intros Hs. unfold zshape. now rewrite Hs. Qed.

Lemma token_shapes_app (ts : list (tensor A)) (ds : list nat) (E : nat)
  (t : tensor A) (d : nat) :
  token_shapes ts ds E -> shape t = [d; 1; E] ->
  token_shapes (ts ++ [t]) (ds ++ [d]) E.
Proof.
  unfold token_shapes. intros H1 H2. rewrite !map_app, H1. cbn [map].
  now rewrite H2.
Qed.

Lemma MCLM_pool_step_shape (m : MCLM.t A) (E n : nat) (cl : tensor A)
  (H W : nat) (h w r : Z) (pools p_poses : list (tensor A)) (ds : list nat) :
  MCLM_ok m E n -> shape cl = [1; E; H; W] -> 0 < E -> 0 < H -> 0 < W ->
  pool_ratio_ok h w r ->
  token_shapes pools ds E -> token_shapes p_poses ds E ->
  exists a b d,
    MCLM.pool_step m cl h w (pools, p_poses) r = Ok (pools ++ [a], p_poses ++ [b]) /\
    token_shapes (pools ++ [a]) (ds ++ [d]) E /\
    token_shapes (p_poses ++ [b]) (ds ++ [d]) E.
Proof.
  intros Hm Hcl HE HH HW (Hr & Hth & Htw) Hp Hq.
  destruct Hm as (En & _ & _ & _ & _ & _ & _ & _ & _ & Hnorm & Hdt).
  unfold MCLM.pool_step. rewrite !truediv_pos by assumption. cbn [bind].
  set (th := py_round (inject_Z h / inject_Z r)) in *.
  set (tw := py_round (inject_Z w / inject_Z r)) in *.
  step_as (adaptive_avg_pool2d_shape cl 1 E H W th tw Hcl HE HH HW
             ltac:(lia) ltac:(lia)) pool.
  step_as (rearrange_bchw_to_hw_b_c pool 1 E (Z.to_nat th) (Z.to_nat tw) Hs_pool) a.
  rewrite (zshape4 pool _ _ _ _ Hs_pool).
  pose proof (PositionEmbeddingSine_call_shape (A := A) (MCLM.positional_encoding m)
                1 (Z.to_nat th) (Z.to_nat tw) n Hnorm Hdt
                ltac:(lia) ltac:(lia)) as Hpe.
  replace (2 * n + 2 * n) with E in Hpe by lia.
  step_as Hpe pe.
  step_as (rearrange_bchw_to_hw_b_c pe 1 E (Z.to_nat th) (Z.to_nat tw) Hs_pe) b.
  exists a, b, (Z.to_nat th * Z.to_nat tw). split; [reflexivity|].
  split; now apply token_shapes_app.
Qed.

Lemma MCLM_pools_shape (m : MCLM.t A) (E n : nat) (cl : tensor A)
  (H W : nat) (h w : Z) (ratios : list Z) :
  MCLM_ok m E n -> shape cl = [1; E; H; W] -> 0 < E -> 0 < H -> 0 < W ->
  Forall (pool_ratio_ok h w) ratios ->
  forall pools p_poses ds,
    token_shapes pools ds E -> token_shapes p_poses ds E ->
    exists pools' p_poses' ds',
      foldM (MCLM.pool_step m cl h w) ratios (pools, p_poses)
      = Ok (pools', p_poses') /\
      token_shapes pools' ds' E /\ token_shapes p_poses' ds' E /\
      length ds' = length ds + length ratios.
Proof.
  intros Hm Hcl HE HH HW Hr. induction Hr as [|r ratios Hr0 _ IH];
    intros pools p_poses ds Hp Hq.
  - exists pools, p_poses, ds. cbn [foldM length]. repeat split; auto.
  - destruct (MCLM_pool_step_shape m E n cl H W h w r pools p_poses ds
                Hm Hcl HE HH HW Hr0 Hp Hq) as (a & b & d & Es & Ha & Hb).
    cbn [foldM]. rewrite Es. cbn [bind].
    destruct (IH _ _ _ Ha Hb) as (pools' & p_poses' & ds' & Ef & H1 & H2 & Hl).
    exists pools', p_poses', ds'. repeat split; auto.
    rewrite Hl, length_app. cbn [length]. lia.
Qed.

Lemma token_cat_shape (ts : list (tensor A)) (ds : list nat) (E : nat) :
  token_shapes ts ds E -> ds <> [] ->
  has_shape (cat ts 0) [list_sum ds; 1; E].
Proof.
  intros Hs Hne. apply (cat_shape ts [] [1; E] ds); [|exact Hs].
  intros ->. destruct ds; [congruence|discriminate].
Qed.

End MCLMFacts.

Lemma mapM_inv {X Y : Type} (f : X -> result Y) (l : list X) (ys : list Y) :
  mapM f l = Ok ys -> Forall2 (fun x y => f x = Ok y) l ys.
Proof.
  revert ys; induction l as [|x l IH]; intros ys E; cbn [mapM] in E.
  - injection E as <-. constructor.
  - destruct (f x) as [y|e] eqn:Ey; [cbn [bind] in E|discriminate].
    destruct (mapM f l) as [ys'|e] eqn:El; [cbn [bind] in E|discriminate].
    injection E as <-. constructor; [exact Ey|now apply IH].
Qed.

Lemma mapM_succeeds {X Y : Type} (f : X -> result Y) (l : list X) :
  Forall (fun x => exists y, f x = Ok y) l -> exists ys, mapM f l = Ok ys.
Proof.
  induction 1 as [|x l (y & Ey) _ (ys & El)]; cbn [mapM].
  - eexists; reflexivity.
  - rewrite Ey, El. cbn [bind]. eexists; reflexivity.
Qed.

Lemma Forall2_length_eq {X Y : Type} (R : X -> Y -> Prop) (l : list X) (l' : list Y) :
  Forall2 R l l' -> length l' = length l.
Proof. induction 1; cbn [length]; congruence. Qed.

Lemma Forall2_right {X Y : Type} (R : X -> Y -> Prop) (P : Y -> Prop)
  (l : list X) (l' : list Y) :
  (forall x y, R x y -> P y) -> Forall2 R l l' -> Forall P l'.
Proof. intros HR. induction 1; constructor; eauto. Qed.

Section MCLMShape.
Context {A : Type} {NA : Num A} {EA : Elementary A}.

Lemma MCLM_init_inv (ps : params A) (name : string) (d : Z) (n : nat)
  (ratios : list Z) (m : MCLM.t A) :
  d = Z.of_nat (4 * n) ->
  MCLM.init ps name d 1 ratios = Ok m ->
  MCLM_ok m (4 * n) n /\ MCLM.pool_ratios m = ratios.
Proof.
  intros Hd E. unfold MCLM.init in E. bind_inv E. injection E as <-.
  cbn [MCLM.attention MCLM.linear1 MCLM.linear2 MCLM.linear3 MCLM.linear4
       MCLM.norm1 MCLM.norm2 MCLM.positional_encoding MCLM.pool_ratios].
  split; [|reflexivity].
  match goal with H : mapM _ _ = Ok _ |- _ => apply mapM_inv in H; rename H into Hatt end.
  repeat match goal with
         | H : Linear_init _ _ _ _ _ = Ok _ |- _ =>
             apply Linear_init_inv in H; destruct H as (_ & _ & ? & _)
         | H : LayerNorm_init _ _ _ = Ok _ |- _ =>
             apply LayerNorm_init_inv in H; destruct H as (_ & ?)
         | H : PositionEmbeddingSine.init _ _ _ _ = Ok _ |- _ =>
             apply PositionEmbeddingSine_init_inv in H; destruct H as (? & ?)
         end.
  assert (E1 : Z.to_nat d = 4 * n) by lia.
  assert (E2 : Z.to_nat (d * 2) = 2 * (4 * n)) by lia.
  assert (E3 : Z.to_nat (d / 2) = 2 * n).
  { subst d. replace (Z.of_nat (4 * n)) with (Z.of_nat (2 * n) * 2)%Z by lia.
    rewrite Z.div_mul by lia. lia. }
  rewrite ?E1, ?E2, ?E3 in *.
  repeat split; try assumption.
  - apply Forall2_length_eq in Hatt. exact Hatt.
  - eapply Forall2_right; [|exact Hatt]. cbv beta. intros i att_i Hi.
    apply MultiheadAttention_init_inv in Hi. now rewrite E1 in Hi.
Qed.

Lemma MCLM_init_succeeds (ps : params A) (name : string) (d : Z)
  (ratios : list Z) :
  (0 < d)%Z -> exists m, MCLM.init ps name d 1 ratios = Ok m.
Proof.
  intros Hd. unfold MCLM.init.
  destruct (mapM_succeeds
              (fun i => MultiheadAttention.init ps
                          (name ++ ".attention." ++ string_of_nat i) d 1)
              (seq 0 5)) as (att & ->).
  { apply Forall_forall. intros i _.
    apply MultiheadAttention_init_succeeds; [lia|lia|apply Z.mod_1_r]. }
  cbn [bind].
  destruct (Linear_init_succeeds ps (name ++ ".linear1") d (d * 2) true)
    as (l1 & ->); [lia|lia|]. cbn [bind].
  destruct (Linear_init_succeeds ps (name ++ ".linear2") (d * 2) d true)
    as (l2 & ->); [lia|lia|]. cbn [bind].
  destruct (Linear_init_succeeds ps (name ++ ".linear3") d (d * 2) true)
    as (l3 & ->); [lia|lia|]. cbn [bind].
  destruct (Linear_init_succeeds ps (name ++ ".linear4") (d * 2) d true)
    as (l4 & ->); [lia|lia|]. cbn [bind].
  destruct (LayerNorm_init_succeeds ps (name ++ ".norm1") d) as (n1 & ->); [lia|].
  cbn [bind].
  destruct (LayerNorm_init_succeeds ps (name ++ ".norm2") d) as (n2 & ->); [lia|].
  cbn [bind].
  destruct (PositionEmbeddingSine_init_succeeds (d / 2) 10000) as (pe & ->).
  { apply Z.div_pos; lia. }
  cbn [bind]. eexists; reflexivity.
Qed.

End MCLMShape.

Tactic Notation "step_app" constr(L) ident(y) :=
  let H := fresh "Hstep" in
  let E := fresh "E_" y in
  let Hs := fresh "Hs_" y in
  let Hw := fresh "Hw_" y in
  pose proof L as H; cbn [app length] in H;
  change (Z.of_nat 0) with 0%Z in H; change (Z.of_nat 1) with 1%Z in H;
  change (Z.of_nat 2) with 2%Z in H; change (Z.of_nat 3) with 3%Z in H;
  destruct H as (y & E & Hs & Hw); rewrite E; ok_step.

Section MCLMForward.
Context {A : Type} {NA : Num A} {EA : Elementary A}.

Lemma MCLM_forward_shape (m : MCLM.t A) (E n h w : nat) (l g : tensor A) :
  MCLM_ok m E n -> 0 < E -> 0 < h -> 0 < w ->
  MCLM.pool_ratios m <> [] ->
  Forall (pool_ratio_ok (Z.of_nat (2 * h)) (Z.of_nat (2 * w))) (MCLM.pool_ratios m) ->
  shape l = [4; E; 2 * h; 2 * w] -> shape g = [1; E; 2 * h; 2 * w] ->
  has_shape (MCLM.forward m l g) [5; E; 2 * h; 2 * w].
Proof.
  intros Hm HE Hh Hw Hne Hr Hl Hg.
  pose proof Hm as (En & Hlen & Hatt & L1 & L2 & L3 & L4 & N1 & N2 & Hnorm & Hdt).
  unfold MCLM.forward. rewrite (zshape4 l _ _ _ _ Hl).
  set (T := 2 * h * (2 * w)).
  (* the four quadrants side by side *)
  pose proof (patches2image_shape l 1 E (2 * h) (2 * w)) as Hc.
  rewrite Nat.mul_1_r in Hc. specialize (Hc Hl). unfold patches2image in Hc.
  step_as Hc cl.
  destruct (MCLM_pools_shape m E n cl _ _ (Z.of_nat (2 * h)) (Z.of_nat (2 * w))
              (MCLM.pool_ratios m) Hm Hs_cl HE ltac:(lia) ltac:(lia) Hr
              [] [] [] eq_refl eq_refl)
    as (pools & pposes & ds & Ef & Hp & Hq & Hlds).
  rewrite Ef. ok_step.
  assert (Hds : ds <> []).
  { intros ->. cbn [length] in Hlds. destruct (MCLM.pool_ratios m); [congruence|].
    cbn [length] in Hlds. lia. }
  step_as (token_cat_shape pools ds E Hp Hds) P.
  step_as (token_cat_shape pposes ds E Hq Hds) PP.
  set (K := list_sum ds) in *.
  rewrite (zshape4 g _ _ _ _ Hg).
  pose proof (PositionEmbeddingSine_call_shape (A := A) (MCLM.positional_encoding m)
                1 (2 * h) (2 * w) n Hnorm Hdt ltac:(lia) ltac:(lia)) as Hpe.
  replace (2 * n + 2 * n) with E in Hpe by lia.
  step_as Hpe pe.
  step_as (rearrange_bchw_to_hw_b_c pe 1 E (2 * h) (2 * w) Hs_pe) gpos.
  step_as (rearrange_bchw_to_hw_b_c g 1 E (2 * h) (2 * w) Hg) G.
  fold T in Hs_gpos, Hs_G.
  step_as (broadcast2_eq_shape add G gpos _ Hs_G Hs_gpos) query.
  step_as (broadcast2_eq_shape add P PP _ Hs_P Hs_PP) key.
  destruct (MCLM.attention m) as [|a0 [|a1 [|a2 [|a3 [|a4 [|a5 rest]]]]]];
    try discriminate Hlen.
  apply Forall_cons_iff in Hatt. destruct Hatt as [A0 Hatt].
  apply Forall_cons_iff in Hatt. destruct Hatt as [A1 Hatt].
  apply Forall_cons_iff in Hatt. destruct Hatt as [A2 Hatt].
  apply Forall_cons_iff in Hatt. destruct Hatt as [A3 Hatt].
  apply Forall_cons_iff in Hatt. destruct Hatt as [A4 _].
  cbn [list_item nth_error]. ok_step. unfold Dropout_forward.
  step_as (MultiheadAttention_forward_shape a0 query key P T 1 K E A0
             Hs_query Hs_key Hs_P) att.
  step_as (broadcast2_eq_shape add G att _ Hs_G Hs_att) G1.
  step_app (LayerNorm_forward_shape (MCLM.norm1 m) G1 [T; 1] E N1 Hs_G1) G2.
  step_app (Linear_forward_shape (MCLM.linear1 m) G2 [T; 1] (2 * E) E L1 Hs_G2) F1.
  step_app (Linear_forward_shape (MCLM.linear2 m) (map_t gelu F1) [T; 1] E (2 * E)
              L2 Hs_F1) F2.
  step_as (broadcast2_eq_shape add G2 F2 _ Hs_G2 Hs_F2) G3.
  step_app (LayerNorm_forward_shape (MCLM.norm2 m) G3 [T; 1] E N2 Hs_G3) G4.
  (* the local tokens *)
  step_as (rearrange_bchw_to_hw_b_c l 4 E (2 * h) (2 * w) Hl) Lt.
  fold T in Hs_Lt. rewrite !Nat2Z.id.
  step_as (rearrange_hw_b_c_to_h_w_b_c G4 1 E (2 * h) (2 * w) Hs_G4) Gg.
  step_as (rearrange_quadrants_of_tokens Gg 1 E h w Hs_Gg) Gq.
  rewrite Nat.mul_1_r in Hs_Gq.
  destruct (chunk_4 Lt T E Hs_Lt) as (l0 & l1 & l2 & l3 & -> & HLs).
  destruct (chunk_4 Gq (h * w) E Hs_Gq) as (g0 & g1 & g2 & g3 & -> & HGs).
  cbn [bind].
  repeat match goal with
         | H : Forall _ (_ :: _) |- _ =>
             apply Forall_cons_iff in H; destruct H as [[? ?] H]
         end.
  cbn [zip combine enumerate length seq mapM list_item nth_error Nat.add bind].
  step_as (MultiheadAttention_forward_shape a1 l0 g0 g0 T 1 (h * w) E A1
             ltac:(assumption) ltac:(assumption) ltac:(assumption)) o0.
  step_as (MultiheadAttention_forward_shape a2 l1 g1 g1 T 1 (h * w) E A2
             ltac:(assumption) ltac:(assumption) ltac:(assumption)) o1.
  step_as (MultiheadAttention_forward_shape a3 l2 g2 g2 T 1 (h * w) E A3
             ltac:(assumption) ltac:(assumption) ltac:(assumption)) o2.
  step_as (MultiheadAttention_forward_shape a4 l3 g3 g3 T 1 (h * w) E A4
             ltac:(assumption) ltac:(assumption) ltac:(assumption)) o3.
  cbn [bind].
  pose proof (cat_shape [o0; o1; o2; o3] [T] [E] [1; 1; 1; 1]) as Hcat.
  cbn [map] in Hcat. rewrite Hs_o0, Hs_o1, Hs_o2, Hs_o3 in Hcat.
  specialize (Hcat ltac:(discriminate) eq_refl).
  change (list_sum [1; 1; 1; 1]) with 4 in Hcat.
  step_app Hcat O.
  step_as (broadcast2_eq_shape add Lt O _ Hs_Lt Hs_O) Lt1.
  step_app (LayerNorm_forward_shape (MCLM.norm1 m) Lt1 [T; 4] E N1 Hs_Lt1) Lt2.
  step_app (Linear_forward_shape (MCLM.linear3 m) Lt2 [T; 4] (2 * E) E L3 Hs_Lt2) F3.
  step_app (Linear_forward_shape (MCLM.linear4 m) (map_t gelu F3) [T; 4] E (2 * E)
              L4 Hs_F3) F4.
  step_as (broadcast2_eq_shape add Lt2 F4 _ Hs_Lt2 Hs_F4) Lt3.
  step_app (LayerNorm_forward_shape (MCLM.norm2 m) Lt3 [T; 4] E N2 Hs_Lt3) Lt4.
  pose proof (cat_shape [Lt4; G4] [T] [E] [4; 1]) as Hcat2.
  cbn [map] in Hcat2. rewrite Hs_Lt4, Hs_G4 in Hcat2.
  specialize (Hcat2 ltac:(discriminate) eq_refl).
  change (list_sum [4; 1]) with 5 in Hcat2.
  step_app Hcat2 R.
  apply (rearrange_hw_b_c_to_bchw R 5 E (2 * h) (2 * w) Hs_R).
Qed.

End MCLMForward.

(** ** MCRM *)

Section MCRMFacts.
Context {A : Type} {NA : Num A} {EA : Elementary A}.

Lemma MCRM_init_inv (ps : params A) (name : string) (d : Z) (ratios : list Z)
  (m : MCRM.t A) :
  (0 <= d)%Z ->
  MCRM.init ps name d 1 ratios = Ok m ->
  MCRM_ok m (Z.to_nat d) /\ MCRM.pool_ratios m = ratios.
Proof.
  intros Hd E. unfold MCRM.init in E. bind_inv E. injection E as <-.
  cbn [MCRM.attention MCRM.linear3 MCRM.linear4 MCRM.norm1 MCRM.norm2
       MCRM.sal_conv MCRM.pool_ratios].
  split; [|reflexivity].
  match goal with H : mapM _ _ = Ok _ |- _ => apply mapM_inv in H; rename H into Hatt end.
  repeat match goal with
         | H : Linear_init _ _ _ _ _ = Ok _ |- _ =>
             apply Linear_init_inv in H; destruct H as (_ & _ & ? & _)
         | H : LayerNorm_init _ _ _ = Ok _ |- _ =>
             apply LayerNorm_init_inv in H; destruct H as (_ & ?)
         | H : Conv2d_init _ _ _ _ _ _ _ = Ok _ |- _ =>
             apply Conv2d_init_inv in H
         end.
  assert (E2 : Z.to_nat (d * 2) = 2 * Z.to_nat d) by lia.
  rewrite ?E2 in *.
  repeat split; try assumption.
  - apply Forall2_length_eq in Hatt. exact Hatt.
  - eapply Forall2_right; [|exact Hatt]. cbv beta. intros i att_i Hi.
    now apply MultiheadAttention_init_inv in Hi.
  - match goal with H : Conv2d_ok _ _ _ _ _ _ |- _ => apply H end.
  - match goal with H : Conv2d_ok _ _ _ _ _ _ |- _ => apply H end.
  - match goal with H : Conv2d_ok _ _ _ _ _ _ |- _ => apply H end.
Qed.

Lemma MCRM_init_succeeds (ps : params A) (name : string) (d : Z)
  (ratios : list Z) :
  (0 < d)%Z -> exists m, MCRM.init ps name d 1 ratios = Ok m.
Proof.
  intros Hd. unfold MCRM.init.
  destruct (mapM_succeeds
              (fun i => MultiheadAttention.init ps
                          (name ++ ".attention." ++ string_of_nat i) d 1)
              (seq 0 4)) as (att & ->).
  { apply Forall_forall. intros i _.
    apply MultiheadAttention_init_succeeds; [lia|lia|apply Z.mod_1_r]. }
  cbn [bind].
  destruct (Linear_init_succeeds ps (name ++ ".linear3") d (d * 2) true)
    as (l3 & ->); [lia|lia|]. cbn [bind].
  destruct (Linear_init_succeeds ps (name ++ ".linear4") (d * 2) d true)
    as (l4 & ->); [lia|lia|]. cbn [bind].
  destruct (LayerNorm_init_succeeds ps (name ++ ".norm1") d) as (n1 & ->); [lia|].
  cbn [bind].
  destruct (LayerNorm_init_succeeds ps (name ++ ".norm2") d) as (n2 & ->); [lia|].
  cbn [bind].
  destruct (Conv2d_init_succeeds ps (name ++ ".sal_conv") d 1
              (to_2tuple 1) (to_2tuple 1) (to_2tuple 0)) as (c & ->);
    cbn [to_2tuple fst snd]; try lia.
  cbn [bind]. eexists; reflexivity.
Qed.

Lemma MCRM_pool_step_shape (pg : tensor A) (E H W : nat) (h w r : Z)
  (pools : list (tensor A)) (ds : list nat) :
  shape pg = [4; E; H; W] -> 0 < E -> 0 < H -> 0 < W ->
  pool_ratio_ok h w r ->
  map shape pools = map (fun d => [4; E; d]) ds ->
  exists a d,
    MCRM.pool_step pg h w pools r = Ok (pools ++ [a]) /\
    map shape (pools ++ [a]) = map (fun d => [4; E; d]) (ds ++ [d]).
Proof.
  intros Hpg HE HH HW (Hr & Hth & Htw) Hp.
  unfold MCRM.pool_step. rewrite !truediv_pos by assumption. cbn [bind].
  set (th := py_round (inject_Z h / inject_Z r)) in *.
  set (tw := py_round (inject_Z w / inject_Z r)) in *.
  step_as (adaptive_avg_pool2d_shape pg 4 E H W th tw Hpg HE HH HW
             ltac:(lia) ltac:(lia)) pool.
  step_as (rearrange_flatten_hw pool 4 E (Z.to_nat th) (Z.to_nat tw) Hs_pool) a.
  exists a, (Z.to_nat th * Z.to_nat tw). split; [reflexivity|].
  rewrite !map_app, Hp. cbn [map]. now rewrite Hs_a.
Qed.

Lemma MCRM_pools_shape (pg : tensor A) (E H W : nat) (h w : Z) (ratios : list Z) :
  shape pg = [4; E; H; W] -> 0 < E -> 0 < H -> 0 < W ->
  Forall (pool_ratio_ok h w) ratios ->
  forall pools ds,
    map shape pools = map (fun d => [4; E; d]) ds ->
    exists pools' ds',
      foldM (MCRM.pool_step pg h w) ratios pools = Ok pools' /\
      map shape pools' = map (fun d => [4; E; d]) ds' /\
      length ds' = length ds + length ratios.
Proof.
  intros Hpg HE HH HW Hr. induction Hr as [|r ratios Hr0 _ IH]; intros pools ds Hp.
  - exists pools, ds. cbn [foldM length]. repeat split; auto.
  - destruct (MCRM_pool_step_shape pg E H W h w r pools ds Hpg HE HH HW Hr0 Hp)
      as (a & d & Es & Ha).
    cbn [foldM]. rewrite Es. cbn [bind].
    destruct (IH _ _ Ha) as (pools' & ds' & Ef & H1 & Hl).
    exists pools', ds'. repeat split; auto.
    rewrite Hl, length_app. cbn [length]. lia.
Qed.

Lemma getitem_at4_shape (t : tensor A) (k n a b c : nat) :
  shape t = [n; a; b; c] -> k < n ->
  has_shape (getitem t [At (Z.of_nat k)]) [a; b; c].
Proof.
  intros Hs Hk. unfold getitem. rewrite Hs. cbn [index_plan].
  rewrite at_sel_nat by assumption. cbn [orb bind map]. apply has_shape_tabulate.
Qed.

Lemma view_shape_of_nat (t : tensor A) (s : list nat) :
  wf t -> numel (shape t) = numel s ->
  has_shape (view t (map Z.of_nat s)) s.
Proof.
  intros Hwf Hn. rewrite view_of_nat by assumption.
  apply has_shape_Ok; [reflexivity|]. unfold wf in *. cbn [shape data]. lia.
Qed.

Lemma view_shape_infer_last (t : tensor A) (s : list nat) (d : nat) :
  wf t -> 0 < numel s -> numel (shape t) = numel s * d ->
  has_shape (view t (map Z.of_nat s ++ [(-1)%Z])) (s ++ [d]).
Proof.
  intros Hwf Hs Hn. rewrite (view_infer_last t s d) by assumption.
  apply has_shape_Ok; [reflexivity|]. unfold wf in *. cbn [shape data].
  rewrite numel_app. unfold numel at 2. cbn [fold_right]. lia.
Qed.

Lemma view_shape_infer_first (t : tensor A) (s : list nat) (d : nat) :
  wf t -> 0 < numel s -> numel (shape t) = d * numel s ->
  has_shape (view t ((-1)%Z :: map Z.of_nat s)) (d :: s).
Proof.
  intros Hwf Hs Hn. rewrite (view_infer_first t s d) by assumption.
  apply has_shape_Ok; [reflexivity|]. unfold wf in *. cbn [shape data].
  change (numel (d :: s)) with (d * numel s). lia.
Qed.

End MCRMFacts.

Section MCRMForward.
Context {A : Type} {NA : Num A} {EA : Elementary A}.

Lemma MCRM_forward_shape (m : MCRM.t A) (E h w : nat) (x : tensor A) :
  MCRM_ok m E -> 0 < E -> 0 < h -> 0 < w ->
  MCRM.pool_ratios m <> [] ->
  Forall (pool_ratio_ok (Z.of_nat (2 * h)) (Z.of_nat (2 * w))) (MCRM.pool_ratios m) ->
  shape x = [5; E; 2 * h; 2 * w] ->
  exists out tam,
    MCRM.forward m x = Ok (out, tam) /\ shape out = [5; E; 2 * h; 2 * w] /\ wf out.
Proof.
  intros Hm HE Hh Hw Hne Hr Hx.
  destruct Hm as (Hlen & Hatt & L3 & L4 & N1 & N2 & Hconv).
  unfold MCRM.forward. rewrite (zshape4 x _ _ _ _ Hx).
  set (T := 2 * h * (2 * w)).
  destruct (split_4_1 x [E; 2 * h; 2 * w] Hx) as (loc & glb & -> & Hsl & Hwl & Hsg & Hwg).
  cbn [bind].
  pose proof (image2patches_shape glb 1 E h w Hsg) as Hpg.
  rewrite Nat.mul_1_r in Hpg. step_as Hpg pg.
  step_as (conv1x1_forward_shape (MCRM.sal_conv m) glb E 1 1 (2 * h) (2 * w)
             Hconv Hsg ltac:(lia) ltac:(lia)) s.
  pose proof (patches2image_shape loc 1 E (2 * h) (2 * w)) as Hwh.
  rewrite Nat.mul_1_r in Hwh. specialize (Hwh Hsl). step_as Hwh whole.
  pose proof (resize_as_shape (map_t sigmoid s) whole 1 1 (2 * h) (2 * w) [1; E]
                (2 * (2 * h)) (2 * (2 * w)) Nearest Hs_s Hs_whole
                ltac:(lia) ltac:(lia) ltac:(lia) ltac:(lia) ltac:(lia)) as Htam.
  unfold resize_as in Htam. step_as Htam tam.
  pose proof (image2patches_shape tam 1 1 (2 * h) (2 * w) Hs_tam) as Htp.
  rewrite Nat.mul_1_r in Htp. step_as Htp tp.
  pose proof (broadcast2_into_shape mul loc tp) as Hmul.
  rewrite Hsl, Hs_tp in Hmul. specialize (Hmul ltac:(broadcast_side)).
  step_as Hmul loc2.
  destruct (MCRM_pools_shape pg E h w (Z.of_nat (2 * h)) (Z.of_nat (2 * w))
              (MCRM.pool_ratios m) Hs_pg HE Hh Hw Hr [] [] eq_refl)
    as (pools & ds & Ef & Hp & Hlds).
  rewrite Ef. ok_step.
  assert (Hds : pools <> []).
  { intros ->. destruct ds; [|discriminate]. cbn [length] in Hlds.
    destruct (MCRM.pool_ratios m); [congruence|]. cbn [length] in Hlds. lia. }
  step_app (cat_shape pools [4; E] [] ds Hds Hp) P.
  set (K := list_sum ds) in *.
  step_as (rearrange_tokens_last P 4 E K Hs_P) PL.
  step_as (rearrange_pixels_last loc2 4 E (2 * h) (2 * w) Hs_loc2) LL.
  fold T in Hs_LL.
  destruct (unbind_4 LL [T; 1; E] Hs_LL) as (q0 & q1 & q2 & q3 & -> & Hq).
  cbn [bind].
  repeat match goal with
         | H : Forall _ (_ :: _) |- _ =>
             apply Forall_cons_iff in H; destruct H as [[? ?] H]
         end.
  destruct (MCRM.attention m) as [|a0 [|a1 [|a2 [|a3 [|a4 rest]]]]];
    try discriminate Hlen.
  apply Forall_cons_iff in Hatt. destruct Hatt as [A0 Hatt].
  apply Forall_cons_iff in Hatt. destruct Hatt as [A1 Hatt].
  apply Forall_cons_iff in Hatt. destruct Hatt as [A2 Hatt].
  apply Forall_cons_iff in Hatt. destruct Hatt as [A3 _].
  cbn [enumerate combine length seq mapM].
  step_as (getitem_at4_shape PL 0 4 K 1 E Hs_PL ltac:(lia)) v0.
  cbn [list_item nth_error]. ok_step.
  step_as (MultiheadAttention_forward_shape a0 q0 v0 v0 T 1 K E A0
             ltac:(assumption) Hs_v0 Hs_v0) o0.
  step_as (getitem_at4_shape PL 1 4 K 1 E Hs_PL ltac:(lia)) v1.
  cbn [list_item nth_error]. ok_step.
  step_as (MultiheadAttention_forward_shape a1 q1 v1 v1 T 1 K E A1
             ltac:(assumption) Hs_v1 Hs_v1) o1.
  step_as (getitem_at4_shape PL 2 4 K 1 E Hs_PL ltac:(lia)) v2.
  cbn [list_item nth_error]. ok_step.
  step_as (MultiheadAttention_forward_shape a2 q2 v2 v2 T 1 K E A2
             ltac:(assumption) Hs_v2 Hs_v2) o2.
  step_as (getitem_at4_shape PL 3 4 K 1 E Hs_PL ltac:(lia)) v3.
  cbn [list_item nth_error]. ok_step.
  step_as (MultiheadAttention_forward_shape a3 q3 v3 v3 T 1 K E A3
             ltac:(assumption) Hs_v3 Hs_v3) o3.
  cbn [bind].
  pose proof (cat_shape [o0; o1; o2; o3] [T] [E] [1; 1; 1; 1]) as Hcat.
  cbn [map] in Hcat. rewrite Hs_o0, Hs_o1, Hs_o2, Hs_o3 in Hcat.
  specialize (Hcat ltac:(discriminate) eq_refl).
  change (list_sum [1; 1; 1; 1]) with 4 in Hcat.
  step_app Hcat O.
  change [4%Z; Z.of_nat E; (-1)%Z] with (map Z.of_nat [4; E] ++ [(-1)%Z]).
  assert (Hnum : numel (shape loc2) = numel [4; E] * T).
  { rewrite Hs_loc2. unfold numel, T. cbn [fold_right]. ring. }
  step_app (view_shape_infer_last loc2 [4; E] T Hw_loc2
              ltac:(unfold numel; cbn [fold_right]; lia) Hnum) V.
  pose proof (permute_shape V [2; 0; 1]) as Hperm. rewrite Hs_V in Hperm.
  specialize (Hperm eq_refl). cbn [map nth] in Hperm. step_as Hperm S0.
  unfold Dropout_forward.
  step_as (broadcast2_eq_shape add S0 O _ Hs_S0 Hs_O) S1.
  step_app (LayerNorm_forward_shape (MCRM.norm1 m) S1 [T; 4] E N1 Hs_S1) S2.
  step_app (Linear_forward_shape (MCRM.linear3 m) S2 [T; 4] (2 * E) E L3 Hs_S2) F3.
  step_app (Linear_forward_shape (MCRM.linear4 m) (map_t gelu F3) [T; 4] E (2 * E)
              L4 Hs_F3) F4.
  step_as (broadcast2_eq_shape add S2 F4 _ Hs_S2 Hs_F4) S3.
  step_app (LayerNorm_forward_shape (MCRM.norm2 m) S3 [T; 4] E N2 Hs_S3) S4.
  pose proof (permute_shape S4 [1; 2; 0]) as Hperm2. rewrite Hs_S4 in Hperm2.
  specialize (Hperm2 eq_refl). cbn [map nth] in Hperm2. step_as Hperm2 S5.
  unfold contiguous.
  change [4%Z; Z.of_nat E; Z.of_nat (2 * h); Z.of_nat (2 * w)]
    with (map Z.of_nat [4; E; 2 * h; 2 * w]).
  assert (Hnum2 : numel (shape S5) = numel [4; E; 2 * h; 2 * w]).
  { rewrite Hs_S5. unfold numel, T. cbn [fold_right]. ring. }
  step_as (view_shape_of_nat S5 [4; E; 2 * h; 2 * w] Hw_S5 Hnum2) src.
  pose proof (patches2image_shape src 1 E (2 * h) (2 * w)) as Hwh2.
  rewrite Nat.mul_1_r in Hwh2. specialize (Hwh2 Hs_src). step_as Hwh2 whole2.
  pose proof (resize_as_shape whole2 glb 1 E (2 * (2 * h)) (2 * (2 * w)) [1; E]
                (2 * h) (2 * w) Nearest Hs_whole2 Hsg
                ltac:(lia) ltac:(lia) ltac:(lia) ltac:(lia) ltac:(lia)) as Hup.
  unfold resize_as in Hup. step_as Hup up.
  step_as (broadcast2_eq_shape add glb up _ Hsg Hs_up) glb2.
  pose proof (cat_shape [src; glb2] [] [E; 2 * h; 2 * w] [4; 1]) as Hcat2.
  cbn [map app] in Hcat2. rewrite Hs_src, Hs_glb2 in Hcat2.
  specialize (Hcat2 ltac:(discriminate) eq_refl).
  change (list_sum [4; 1]) with 5 in Hcat2.
  step_app Hcat2 out.
  exists out, tam. repeat split; assumption.
Qed.

End MCRMForward.

(** ** The attention mask of a stage, for any grid *)

Lemma Qceiling_ratio (a b q : nat) :
  0 < b -> (q - 1) * b < a -> a <= q * b -> 0 < q ->
  Qceiling (inject_Z (Z.of_nat a) / inject_Z (Z.of_nat b)) = Z.of_nat q.
Proof.
  intros Hb Hlo Hhi Hq.
  set (x := (inject_Z (Z.of_nat a) / inject_Z (Z.of_nat b))%Q).
  assert (Hb0 : (0 < inject_Z (Z.of_nat b))%Q).
  { change 0%Q with (inject_Z 0). rewrite <- Zlt_Qlt. lia. }
  assert (Hx1 : (x <= inject_Z (Z.of_nat q))%Q).
  { unfold x. apply Qle_shift_div_r; [exact Hb0|].
    rewrite <- inject_Z_mult, <- Zle_Qle. nia. }
  assert (Hx2 : (inject_Z (Z.of_nat q - 1) < x)%Q).
  { unfold x. apply Qlt_shift_div_l; [exact Hb0|].
    rewrite <- inject_Z_mult, <- Zlt_Qlt. nia. }
  apply Z.le_antisymm.
  - rewrite <- (Qceiling_Z (Z.of_nat q)). now apply Qceiling_resp_le.
  - assert (Hlt : (Z.of_nat q - 1 < Qceiling x)%Z).
    { rewrite Zlt_Qlt. eapply Qlt_le_trans; [exact Hx2|apply Qle_ceiling]. }
    lia.
Qed.

Lemma padded_ceiling (n k : nat) :
  0 < k -> 0 < n ->
  (Qceiling (inject_Z (Z.of_nat n) / inject_Z (Z.of_nat k)) * Z.of_nat k)%Z
  = Z.of_nat ((n + (k - n mod k) mod k) / k * k).
Proof.
  intros Hk Hn.
  destruct (pad_to_multiple n k Hk) as (Hmod & Hp & Hq & _).
  set (p := (k - n mod k) mod k) in *.
  set (q := (n + p) / k) in *.
  assert (Hnp : n + p = q * k).
  { pose proof (Nat.div_mod_eq (n + p) k). fold q in H. lia. }
  assert (Hq0 : 0 < q) by auto.
  assert (Hlo : (q - 1) * k < n) by nia.
  rewrite (Qceiling_ratio n k q Hk Hlo ltac:(lia) Hq0). lia.
Qed.

Lemma foldM_invariant {S X : Type} (P : S -> Prop) (f : S -> X -> result S)
  (l : list X) (s : S) :
  P s ->
  (forall s x, In x l -> P s -> exists s', f s x = Ok s' /\ P s') ->
  exists s', foldM f l s = Ok s' /\ P s'.
Proof.
  revert s; induction l as [|x l IH]; intros s Hs Hf; cbn [foldM].
  - now exists s.
  - destruct (Hf s x (or_introl eq_refl) Hs) as (s1 & -> & H1). cbn [bind].
    apply IH; [exact H1|]. intros s2 y Hy. apply Hf. now right.
Qed.

Lemma slice_sel_succeeds (a b : option Z) (d : nat) :
  exists x, slice_sel a b 1 d = Ok x.
Proof. unfold slice_sel. cbn [Z.leb Z.compare]. eexists; reflexivity. Qed.

Lemma broadcast_shape_outer' (c n : nat) :
  broadcast_shape [c; 1; n] [c; n; 1] = Ok [c; n; n].
Proof.
  unfold broadcast_shape. cbn. rewrite !Nat.eqb_refl. cbn.
  destruct n as [|[|n]]; reflexivity.
Qed.

Section MaskShape.
Context {A : Type} {NA : Num A} {EA : Elementary A}.

(** An update through four slices keeps the size. *)
Lemma update_at_slices_shape (t : tensor A) (a b c d : nat)
  (h1 h2 w1 w2 : option Z) (f : A -> A) :
  shape t = [a; b; c; d] ->
  has_shape (update_at t [full; Slice h1 h2 1; Slice w1 w2 1; full] f) [a; b; c; d].
Proof.
  intros Hs. unfold update_at. rewrite Hs. cbn [index_plan full].
  rewrite !slice_sel_full.
  destruct (slice_sel_succeeds h1 h2 b) as (x1 & ->).
  destruct (slice_sel_succeeds w1 w2 c) as (x2 & ->).
  cbn [bind]. apply has_shape_tabulate.
Qed.

Lemma broadcast_index_id (s idx : list nat) :
  in_range idx s -> broadcast_index s idx = idx.
Proof.
  intros Hr. unfold broadcast_index.
  rewrite (in_range_length _ _ Hr), Nat.sub_diag. cbn [skipn].
  induction Hr as [|i d idx s Hid _ IH]; [reflexivity|].
  cbn [combine map]. rewrite IH. f_equal.
  destruct (Nat.eqb_spec d 1); [lia|reflexivity].
Qed.

Lemma masked_fill_two_valued (am : tensor A) (v0 v1 : A) :
  wf am ->
  exists out,
    (filled <- masked_fill am (map_t (fun v => negb (is_zero v)) am) v1 ;;
     masked_fill filled (map_t is_zero am) v0) = Ok out /\
    shape out = shape am /\ wf out /\
    Forall (fun v => v = v0 \/ v = v1) (data out) /\
    forall idx, in_range idx (shape am) ->
      get out idx = if is_zero (get am idx) then v0 else v1.
Proof.
  intros Hwf. unfold masked_fill.
  rewrite (broadcast2_ok _ am _ (shape am)) by apply broadcast_shape_same.
  ok_step.
  rewrite (broadcast2_ok _ _ _ (shape am)) by apply broadcast_shape_same.
  eexists. split; [reflexivity|]. split; [reflexivity|].
  split; [apply wf_tabulate|].
  match goal with |- context [tabulate (shape am) ?F] => set (G := F) end.
  assert (HG : forall idx, in_range idx (shape am) ->
                 G idx = if is_zero (get am idx) then v0 else v1).
  { intros idx Hin. unfold G. rewrite shape_tabulate. cbn [map_t shape].
    rewrite !broadcast_index_id by assumption.
    rewrite get_map_t_in, get_tabulate by assumption.
    rewrite !broadcast_index_id by assumption.
    rewrite get_map_t_in by assumption.
    destruct (is_zero (get am idx)); reflexivity. }
  split.
  - unfold tabulate. cbn [data]. apply Forall_map, Forall_forall.
    intros idx Hin. apply in_indices_range in Hin. rewrite (HG idx Hin).
    destruct (is_zero (get am idx)); auto.
  - intros idx Hin. rewrite get_tabulate by assumption. now apply HG.
Qed.

Lemma unsqueeze_data (t u : tensor A) (k : Z) :
  unsqueeze t k = Ok u -> data u = data t.
Proof.
  unfold unsqueeze. destruct (normal_dim k _); [|discriminate].
  cbn [bind]. intros E. injection E as <-. reflexivity.
Qed.

Lemma BasicLayer_attn_mask_labels (m : BasicLayer.t A) (H W ws : nat) :
  BasicLayer.window_size m = Z.of_nat ws -> 0 < ws -> 0 < H -> 0 < W ->
  let nW := ((H + (ws - H mod ws) mod ws) / ws)
            * ((W + (ws - W mod ws) mod ws) / ws) in
  exists mask labels,
    BasicLayer.attn_mask m (Z.of_nat H) (Z.of_nat W) = Ok mask /\
    shape mask = [nW; ws * ws; ws * ws] /\
    wf mask /\
    Forall (fun v => v = of_Q 0%Q \/ v = of_Q (-100)%Q) (data mask) /\
    shape labels = [nW; ws * ws] /\
    forall k i j, k < nW -> i < ws * ws -> j < ws * ws ->
      get mask [k; i; j]
      = if is_zero (sub (get labels [k; j]) (get labels [k; i]))
        then of_Q 0%Q else of_Q (-100)%Q.
Proof.
  intros Hws Hk HH HW. unfold BasicLayer.attn_mask. rewrite Hws.
  rewrite !truediv_pos by lia. cbn [bind].
  rewrite !padded_ceiling by assumption.
  set (hq := (H + (ws - H mod ws) mod ws) / ws).
  set (wq := (W + (ws - W mod ws) mod ws) / ws).
  unfold zeros. rewrite checked_size_ok by (repeat constructor; lia).
  cbn [bind map]. rewrite !Nat2Z.id. change (Z.to_nat 1) with 1. cbv zeta.
  set (s := [1; hq * ws; wq * ws; 1]).
  match goal with |- context [foldM ?f ?l (?t0, 0%Z)] =>
    destruct (foldM_invariant
                (fun st : tensor A * Z => shape (fst st) = s /\ wf (fst st))
                f l (t0, 0%Z)) as (st & Est & Hst_s & Hst_w)
  end.
  { split; [reflexivity|]. unfold wf, full_of. cbn [shape data].
    apply repeat_length. }
  { intros st hsl Hin1 [Hs1 Hw1].
    match goal with |- context [foldM ?f ?l st] =>
      apply (foldM_invariant
               (fun st : tensor A * Z => shape (fst st) = s /\ wf (fst st)) f l st)
    end; [now split|].
    intros [img cnt] wsl Hin2 [Hs2 Hw2]. cbn [fst] in Hs2, Hw2.
    cbn [In] in Hin1, Hin2.
    destruct Hin1 as [<-|[<-|[<-|[]]]]; destruct Hin2 as [<-|[<-|[<-|[]]]];
      match goal with
      | |- context [update_at img [full; Slice ?h1 ?h2 1; Slice ?w1 ?w2 1; full] ?f] =>
        destruct (update_at_slices_shape img _ _ _ _ h1 h2 w1 w2 f Hs2)
          as (y & -> & Hy & Hwy)
      end; cbn [bind]; eexists; (split; [reflexivity|]); split; assumption. }
  rewrite Est. ok_step.
  destruct st as [img cnt]. cbn [fst] in *.
  pose proof (window_partition_shape img 1 hq wq 1 ws Hst_s Hk ltac:(lia)) as Hwp.
  step_as Hwp mw.
  rewrite <- Nat2Z.inj_mul.
  change [(-1)%Z; Z.of_nat (ws * ws)] with ((-1)%Z :: map Z.of_nat [ws * ws]).
  assert (Hnum : numel (shape mw) = (1 * hq * wq) * numel [ws * ws]).
  { rewrite Hs_mw. unfold numel. cbn [fold_right]. ring. }
  step_as (view_shape_infer_first mw [ws * ws] (1 * hq * wq) Hw_mw
             ltac:(unfold numel; cbn [fold_right]; nia) Hnum) mv.
  pose proof (unsqueeze_shape mv 1 Hw_mv) as Hu1. rewrite Hs_mv in Hu1.
  specialize (Hu1 ltac:(cbn; lia)). cbn [firstn skipn app] in Hu1.
  change (Z.of_nat 1) with 1%Z in Hu1. step_as Hu1 ua.
  pose proof (unsqueeze_shape mv 2 Hw_mv) as Hu2. rewrite Hs_mv in Hu2.
  specialize (Hu2 ltac:(cbn; lia)). cbn [firstn skipn app] in Hu2.
  change (Z.of_nat 2) with 2%Z in Hu2. step_as Hu2 ub.
  rewrite (broadcast2_ok sub ua ub [1 * hq * wq; ws * ws; ws * ws])
    by (rewrite Hs_ua, Hs_ub; apply broadcast_shape_outer').
  ok_step.
  set (am := tabulate _ _).
  assert (Hs_am : shape am = [1 * hq * wq; ws * ws; ws * ws]) by reflexivity.
  destruct (masked_fill_two_valued am (of_Q 0%Q) (of_Q (-100)%Q))
    as (out & E & Hs_out & Hw_out & Hvals & Hget); [apply wf_tabulate|].
  exists out, mv. split; [exact E|].
  rewrite Nat.mul_1_l in Hs_am, Hs_mv, Hs_ua, Hs_ub.
  split; [now rewrite Hs_out, Hs_am|]. split; [exact Hw_out|].
  split; [exact Hvals|]. split; [exact Hs_mv|].
  intros k i j Hk' Hi Hj.
  assert (Hr : in_range [k; i; j] [hq * wq; ws * ws; ws * ws]) by solve_range.
  rewrite Hget by (rewrite Hs_am; exact Hr).
  unfold am at 1. rewrite get_tabulate by (rewrite Nat.mul_1_l; exact Hr).
  rewrite Hs_ua, Hs_ub.
  replace (broadcast_index [hq * wq; 1; ws * ws] [k; i; j]) with [k; 0; j].
  2:{ unfold broadcast_index. cbn [length Nat.sub skipn combine map Nat.eqb].
      destruct (Nat.eqb_spec (hq * wq) 1); destruct (Nat.eqb_spec (ws * ws) 1);
        repeat f_equal; lia. }
  replace (broadcast_index [hq * wq; ws * ws; 1] [k; i; j]) with [k; i; 0].
  2:{ unfold broadcast_index. cbn [length Nat.sub skipn combine map Nat.eqb].
      destruct (Nat.eqb_spec (hq * wq) 1); destruct (Nat.eqb_spec (ws * ws) 1);
        repeat f_equal; lia. }
  assert (Ea : get ua [k; 0; j] = get mv [k; j]).
  { unfold get. rewrite (unsqueeze_data mv ua _ E_ua), Hs_ua, Hs_mv.
    f_equal; try (cbn [ravel]; unfold numel; cbn [fold_right]; ring). }
  assert (Eb : get ub [k; i; 0] = get mv [k; i]).
  { unfold get. rewrite (unsqueeze_data mv ub _ E_ub), Hs_ub, Hs_mv.
    f_equal; try (cbn [ravel]; unfold numel; cbn [fold_right]; ring). }
  now rewrite Ea, Eb.
Qed.

Lemma BasicLayer_attn_mask_spec (m : BasicLayer.t A) (H W ws : nat) :
  BasicLayer.window_size m = Z.of_nat ws -> 0 < ws -> 0 < H -> 0 < W ->
  exists mask,
    BasicLayer.attn_mask m (Z.of_nat H) (Z.of_nat W) = Ok mask /\
    shape mask
    = [((H + (ws - H mod ws) mod ws) / ws) * ((W + (ws - W mod ws) mod ws) / ws);
       ws * ws; ws * ws] /\
    wf mask /\
    Forall (fun v => v = of_Q 0%Q \/ v = of_Q (-100)%Q) (data mask).
Proof.
  intros Hws Hk HH HW.
  destruct (BasicLayer_attn_mask_labels m H W ws Hws Hk HH HW)
    as (mask & labels & E & Hs & Hw & Hv & _).
  exists mask. now repeat split.
Qed.

Lemma BasicLayer_attn_mask_shape (m : BasicLayer.t A) (H W ws : nat) :
  BasicLayer.window_size m = Z.of_nat ws -> 0 < ws -> 0 < H -> 0 < W ->
  has_shape (BasicLayer.attn_mask m (Z.of_nat H) (Z.of_nat W))
    [((H + (ws - H mod ws) mod ws) / ws) * ((W + (ws - W mod ws) mod ws) / ws);
     ws * ws; ws * ws].
Proof.
  intros Hws Hk HH HW.
  destruct (BasicLayer_attn_mask_spec m H W ws Hws Hk HH HW)
    as (mask & E & Hs & Hw & _).
  exists mask. now repeat split.
Qed.

End MaskShape.

(** ** The stages of the backbone *)

Section StageFacts.
Context {A : Type} {NA : Num A} {EA : Elementary A}.

Lemma BasicLayer_init_inv (ps : params A) (name : string)
  (dim depth heads : Z) (ws : nat) (mlp_ratio : Q) (qkv_bias : bool)
  (qk_scale : option A) (down : bool) (m : BasicLayer.t A) :
  0 < ws ->
  BasicLayer.init ps name dim depth heads (Z.of_nat ws) mlp_ratio qkv_bias
    qk_scale down = Ok m ->
  BasicLayer_ok m (Z.to_nat dim) (Z.to_nat heads) ws down.
Proof.
  intros Hws E. unfold BasicLayer.init in E.
  destruct (mapM _ _) as [blocks|] eqn:Eb; [cbn [bind] in E|discriminate].
  apply mapM_inv in Eb.
  assert (Hblocks : Forall (fun blk => exists hidden,
                       SwinTransformerBlock_ok blk (Z.to_nat dim) (Z.to_nat heads)
                         ws hidden) blocks).
  { eapply Forall2_right; [|exact Eb]. cbv beta. intros i blk Hi.
    apply SwinTransformerBlock_init_ok in Hi.
    destruct Hi as (hidden & Hok & _). now exists hidden. }
  destruct down.
  - destruct (PatchMerging.init _ _ _) as [d|] eqn:Ed; [cbn [bind] in E|discriminate].
    injection E as <-. apply PatchMerging_init_inv in Ed.
    destruct Ed as (_ & Hred & _ & Hn).
    unfold BasicLayer_ok.
    cbn [BasicLayer.window_size BasicLayer.blocks BasicLayer.downsample].
    repeat split; assumption.
  - cbn [bind] in E. injection E as <-. unfold BasicLayer_ok.
    cbn [BasicLayer.window_size BasicLayer.blocks BasicLayer.downsample].
    repeat split; assumption.
Qed.

Lemma foldM_blocks_shape (blocks : list (SwinTransformerBlock.t A))
  (mask : tensor A) (B H W heads hdim ws : nat) :
  Forall (fun blk => exists hidden,
            SwinTransformerBlock_ok blk (heads * hdim) heads ws hidden) blocks ->
  0 < B -> 0 < H -> 0 < W -> 0 < hdim ->
  wf mask ->
  shape mask = [((H + (ws - H mod ws) mod ws) / ws)
                * ((W + (ws - W mod ws) mod ws) / ws); ws * ws; ws * ws] ->
  forall x, wf x -> shape x = [B; H * W; heads * hdim] ->
  has_shape
    (foldM (fun x blk =>
              SwinTransformerBlock.forward
                (SwinTransformerBlock.set_resolution blk (Z.of_nat H) (Z.of_nat W))
                x mask) blocks x)
    [B; H * W; heads * hdim].
Proof.
  intros Hb HB HH HW Hhd Hwm Hsm.
  induction Hb as [|blk blocks (hidden & Hok) _ IH]; intros x Hwx Hsx.
  - cbn [foldM]. now apply has_shape_Ok.
  - cbn [foldM].
    pose proof (SwinTransformerBlock_forward_shape
                  (SwinTransformerBlock.set_resolution blk (Z.of_nat H) (Z.of_nat W))
                  x mask B H W heads hdim ws hidden Hok eq_refl eq_refl Hwx Hsx
                  HB HH HW Hhd (fun _ => conj Hwm Hsm)) as Hf.
    step_as Hf y. now apply IH.
Qed.

Lemma BasicLayer_forward_shape (m : BasicLayer.t A) (x : tensor A)
  (B H W heads hdim ws : nat) (down : bool) :
  BasicLayer_ok m (heads * hdim) heads ws down ->
  0 < B -> 0 < H -> 0 < W -> 0 < hdim -> 0 < heads ->
  wf x -> shape x = [B; H * W; heads * hdim] ->
  exists x_out x_down,
    BasicLayer.forward m x (Z.of_nat H) (Z.of_nat W)
    = Ok (x_out, Z.of_nat H, Z.of_nat W, x_down,
          Z.of_nat (if down then (H + 1) / 2 else H),
          Z.of_nat (if down then (W + 1) / 2 else W)) /\
    shape x_out = [B; H * W; heads * hdim] /\ wf x_out /\
    wf x_down /\
    shape x_down = if down
                   then [B; ((H + 1) / 2) * ((W + 1) / 2); 2 * (heads * hdim)]
                   else [B; H * W; heads * hdim].
Proof.
  intros (Hws & Hk & Hblocks & Hdown) HB HH HW Hhd Hheads Hwx Hsx.
  unfold BasicLayer.forward.
  step_as (BasicLayer_attn_mask_shape m H W ws Hws Hk HH HW) mask.
  step_as (foldM_blocks_shape (BasicLayer.blocks m) mask B H W heads hdim ws
             Hblocks HB HH HW Hhd Hw_mask Hs_mask x Hwx Hsx) y.
  destruct (BasicLayer.downsample m) as [d|].
  - destruct Hdown as (-> & Hred & Hn).
    step_as (PatchMerging_forward_shape d y B H W (heads * hdim) Hred Hn Hw_y Hs_y
               HB ltac:(nia)) z.
    exists y, z. split; [|repeat split; assumption].
    do 2 f_equal.
    + f_equal. rewrite Nat2Z.inj_div, Nat2Z.inj_add. reflexivity.
    + rewrite Nat2Z.inj_div, Nat2Z.inj_add. reflexivity.
  - subst down. exists y, y. repeat split; assumption.
Qed.

End StageFacts.

Section BackboneFacts.
Context {A : Type} {NA : Num A} {EA : Elementary A}.

Lemma transpose3_shape (t : tensor A) (a b c : nat) :
  shape t = [a; b; c] -> has_shape (transpose t 1 2) [a; c; b].
Proof.
  intros Hs. unfold transpose. rewrite Hs. cbn [length].
  change (normal_dim 1 3) with (@Ok nat 1).
  change (normal_dim 2 3) with (@Ok nat 2). cbn [bind].
  change (map _ (seq 0 3)) with [0; 2; 1].
  pose proof (permute_shape t [0; 2; 1]) as Hp. rewrite Hs in Hp.
  apply Hp. reflexivity.
Qed.

Lemma PatchEmbed_init_inv (ps : params A) (name : string) (C : Z)
  (m : PatchEmbed.t A) :
  PatchEmbed.init ps name 4 3 C true = Ok m -> PatchEmbed_ok m (Z.to_nat C).
Proof.
  unfold PatchEmbed.init. intros E.
  destruct (Conv2d_init _ _ _ _ _ _ _) as [proj|] eqn:Ep; [cbn [bind] in E|discriminate].
  destruct (LayerNorm_init _ _ _) as [n|] eqn:En; [cbn [bind] in E|discriminate].
  injection E as <-. apply Conv2d_init_inv in Ep.
  apply LayerNorm_init_inv in En. destruct En as (HC & Hn).
  unfold PatchEmbed_ok.
  cbn [PatchEmbed.patch_size PatchEmbed.embed_dim PatchEmbed.proj PatchEmbed.norm].
  split; [reflexivity|]. split; [lia|]. split; [exact Ep|].
  exists n. now split.
Qed.

Lemma PatchEmbed_init_succeeds (ps : params A) (name : string) (C : Z) :
  (0 <= C)%Z -> exists m, PatchEmbed.init ps name 4 3 C true = Ok m.
Proof.
  intros HC. unfold PatchEmbed.init.
  destruct (Conv2d_init_succeeds ps (name ++ ".proj") 3 C
              (to_2tuple 4) (to_2tuple 4) (to_2tuple 0)) as (p & ->);
    cbn [to_2tuple fst snd]; try lia.
  cbn [bind].
  destruct (LayerNorm_init_succeeds ps (name ++ ".norm") C) as (n & ->); [lia|].
  cbn [bind]. eexists; reflexivity.
Qed.

Lemma PatchEmbed_forward_shape (m : PatchEmbed.t A) (x : tensor A) (N C h w : nat) :
  PatchEmbed_ok m C -> wf x -> shape x = [N; 3; 4 * h; 4 * w] ->
  0 < C -> 0 < h -> 0 < w ->
  has_shape (PatchEmbed.forward m x) [N; C; h; w].
Proof.
  intros (Hps & Hed & Hproj & n & Hn & Hln) Hwx Hsx HC Hh Hw.
  unfold PatchEmbed.forward. rewrite (zshape4 x _ _ _ _ Hsx), Hps.
  cbn [fst snd]. unfold pymod. cbn [Z.eqb bind].
  assert (Em : forall k, (Z.of_nat (4 * k) mod 4 = 0)%Z).
  { intros k. rewrite Nat2Z.inj_mul, Z.mul_comm. apply Z.mod_mul. lia. }
  rewrite !Em. cbn [Z.eqb negb bind].
  step_as (conv_patch_forward_shape (PatchEmbed.proj m) x 3 C N h w 4 Hproj Hsx
             ltac:(lia) Hh Hw) y.
  rewrite Hn, (zshape4 y _ _ _ _ Hs_y), Hed.
  destruct (flatten_from_shape y [N; C] [h; w] Hw_y Hs_y) as (f & Ef & Hs_f & Hw_f).
  cbn [length] in Ef. injection Ef as Ef. rewrite Ef.
  cbn [app] in Hs_f. unfold numel in Hs_f. cbn [fold_right] in Hs_f.
  rewrite Nat.mul_1_r in Hs_f.
  step_as (transpose3_shape f N C (h * w) Hs_f) t1.
  step_app (LayerNorm_forward_shape n t1 [N; h * w] C Hln Hs_t1) t2.
  step_as (transpose3_shape t2 N (h * w) C Hs_t2) t3.
  change [(-1)%Z; Z.of_nat C; Z.of_nat h; Z.of_nat w]
    with ((-1)%Z :: map Z.of_nat [C; h; w]).
  apply (view_shape_infer_first t3 [C; h; w] N Hw_t3).
  - unfold numel. cbn [fold_right]. nia.
  - rewrite Hs_t3. unfold numel. cbn [fold_right]. ring.
Qed.

Lemma pad_last_shape (x : tensor A) (N C H W pr : nat) (v : A) :
  shape x = [N; C; H; W] ->
  has_shape (pad x [0; Z.of_nat pr]%Z v) [N; C; H; W + pr].
Proof.
  intros Hs. unfold pad. rewrite Hs.
  cbn [length pad_pairs Nat.even negb orb Nat.ltb Nat.leb].
  cbn [Nat.sub repeat app rev combine map].
  rewrite checked_size_ok
    by (repeat (apply Forall_cons; [lia|]); apply Forall_nil).
  ok_step. cbn [map].
  replace (Z.to_nat (Z.of_nat N + 0 + 0)) with N by lia.
  replace (Z.to_nat (Z.of_nat C + 0 + 0)) with C by lia.
  replace (Z.to_nat (Z.of_nat H + 0 + 0)) with H by lia.
  replace (Z.to_nat (Z.of_nat W + 0 + Z.of_nat pr)) with (W + pr) by lia.
  eexists. split; [reflexivity|]. split; [reflexivity|]. apply wf_tabulate.
Qed.

Lemma pad_rows_shape (x : tensor A) (N C H W pb : nat) (v : A) :
  shape x = [N; C; H; W] ->
  has_shape (pad x [0; 0; 0; Z.of_nat pb]%Z v) [N; C; H + pb; W].
Proof.
  intros Hs. unfold pad. rewrite Hs.
  cbn [length pad_pairs Nat.even negb orb Nat.ltb Nat.leb].
  cbn [Nat.sub repeat app rev combine map].
  rewrite checked_size_ok
    by (repeat (apply Forall_cons; [lia|]); apply Forall_nil).
  ok_step. cbn [map].
  replace (Z.to_nat (Z.of_nat N + 0 + 0)) with N by lia.
  replace (Z.to_nat (Z.of_nat C + 0 + 0)) with C by lia.
  replace (Z.to_nat (Z.of_nat H + 0 + Z.of_nat pb)) with (H + pb) by lia.
  replace (Z.to_nat (Z.of_nat W + 0 + 0)) with W by lia.
  eexists. split; [reflexivity|]. split; [reflexivity|]. apply wf_tabulate.
Qed.

Lemma quarter_up (n : nat) :
  (if n mod 4 =? 0 then n else n + (4 - n mod 4)) = 4 * ((n + 3) / 4).
Proof.
  pose proof (Nat.div_mod_eq n 4). pose proof (Nat.div_mod_eq (n + 3) 4).
  pose proof (Nat.mod_upper_bound n 4 ltac:(lia)).
  pose proof (Nat.mod_upper_bound (n + 3) 4 ltac:(lia)).
  destruct (Nat.eqb_spec (n mod 4) 0); lia.
Qed.

Lemma PatchEmbed_forward_shape_padded (m : PatchEmbed.t A) (x : tensor A)
  (N C H W : nat) :
  PatchEmbed_ok m C -> wf x -> shape x = [N; 3; H; W] ->
  0 < C -> 0 < H -> 0 < W ->
  has_shape (PatchEmbed.forward m x) [N; C; (H + 3) / 4; (W + 3) / 4].
Proof.
  intros (Hps & Hed & Hproj & n & Hn & Hln) Hwx Hsx HC HH HW.
  unfold PatchEmbed.forward. rewrite (zshape4 x _ _ _ _ Hsx), Hps.
  cbn [fst snd]. unfold pymod. cbn [Z.eqb bind].
  change 4%Z with (Z.of_nat 4). rewrite <- !Nat2Z.inj_mod.
  pose proof (Nat.mod_upper_bound W 4 ltac:(lia)) as HmW.
  pose proof (Nat.mod_upper_bound H 4 ltac:(lia)) as HmH.
  assert (Hx1 : has_shape
                  (if negb (Z.of_nat (W mod 4) =? 0)%Z
                   then pad x [0%Z; (Z.of_nat 4 - Z.of_nat (W mod 4))%Z] (of_Q 0%Q)
                   else Ok x)
                  [N; 3; H; 4 * ((W + 3) / 4)]).
  { rewrite <- (quarter_up W).
    destruct (Z.eqb_spec (Z.of_nat (W mod 4)) 0) as [E|E]; cbn [negb].
    - replace (W mod 4 =? 0) with true by (symmetry; apply Nat.eqb_eq; lia).
      now apply has_shape_Ok.
    - replace (W mod 4 =? 0) with false by (symmetry; apply Nat.eqb_neq; lia).
      rewrite <- Nat2Z.inj_sub by lia. now apply pad_last_shape. }
  step_as Hx1 x1.
  assert (Hx2 : has_shape
                  (if negb (Z.of_nat (H mod 4) =? 0)%Z
                   then pad x1 [0%Z; 0%Z; 0%Z; (Z.of_nat 4 - Z.of_nat (H mod 4))%Z]
                          (of_Q 0%Q)
                   else Ok x1)
                  [N; 3; 4 * ((H + 3) / 4); 4 * ((W + 3) / 4)]).
  { rewrite <- (quarter_up H).
    destruct (Z.eqb_spec (Z.of_nat (H mod 4)) 0) as [E|E]; cbn [negb].
    - replace (H mod 4 =? 0) with true by (symmetry; apply Nat.eqb_eq; lia).
      now apply has_shape_Ok.
    - replace (H mod 4 =? 0) with false by (symmetry; apply Nat.eqb_neq; lia).
      rewrite <- Nat2Z.inj_sub by lia. now apply pad_rows_shape. }
  step_as Hx2 x2.
  set (h := (H + 3) / 4) in *. set (w := (W + 3) / 4) in *.
  assert (Hh : 0 < h) by (apply Nat.div_str_pos; lia).
  assert (Hw : 0 < w) by (apply Nat.div_str_pos; lia).
  step_as (conv_patch_forward_shape (PatchEmbed.proj m) x2 3 C N h w 4 Hproj Hs_x2
             ltac:(lia) Hh Hw) y.
  rewrite Hn, (zshape4 y _ _ _ _ Hs_y), Hed.
  destruct (flatten_from_shape y [N; C] [h; w] Hw_y Hs_y) as (f & Ef & Hs_f & Hw_f).
  cbn [length] in Ef. injection Ef as Ef. rewrite Ef.
  cbn [app] in Hs_f. unfold numel in Hs_f. cbn [fold_right] in Hs_f.
  rewrite Nat.mul_1_r in Hs_f.
  step_as (transpose3_shape f N C (h * w) Hs_f) t1.
  step_app (LayerNorm_forward_shape n t1 [N; h * w] C Hln Hs_t1) t2.
  step_as (transpose3_shape t2 N (h * w) C Hs_t2) t3.
  change [(-1)%Z; Z.of_nat C; Z.of_nat h; Z.of_nat w]
    with ((-1)%Z :: map Z.of_nat [C; h; w]).
  apply (view_shape_infer_first t3 [C; h; w] N Hw_t3).
  - unfold numel. cbn [fold_right]. nia.
  - rewrite Hs_t3. unfold numel. cbn [fold_right]. ring.
Qed.

Lemma PatchMerging_init_succeeds (ps : params A) (name : string) (dim : Z) :
  (0 <= dim)%Z -> exists m, PatchMerging.init ps name dim = Ok m.
Proof.
  intros Hd. unfold PatchMerging.init.
  destruct (Linear_init_succeeds ps (name ++ ".reduction") (4 * dim) (2 * dim) false)
    as (r & ->); [lia|lia|]. cbn [bind].
  destruct (LayerNorm_init_succeeds ps (name ++ ".norm") (4 * dim)) as (n & ->);
    [lia|]. cbn [bind]. eexists; reflexivity.
Qed.

Lemma BasicLayer_init_succeeds (ps : params A) (name : string)
  (dim depth heads : Z) (ws : nat) (mlp_ratio : Q) (qkv_bias : bool) (down : bool) :
  0 < ws -> (0 < heads <= dim)%Z -> (0 <= mlp_ratio)%Q ->
  exists m, BasicLayer.init ps name dim depth heads (Z.of_nat ws) mlp_ratio
              qkv_bias None down = Ok m.
Proof.
  intros Hws Hh Hr. unfold BasicLayer.init.
  match goal with |- context [mapM ?f ?l] =>
    destruct (mapM_succeeds f l) as (blocks & ->)
  end.
  { apply Forall_forall. intros i _.
    apply SwinTransformerBlock_init_succeeds; [assumption| |assumption].
    destruct (i mod 2 =? 0); [lia|].
    split; [apply Z.div_pos; lia|apply Z.div_lt_upper_bound; lia]. }
  cbn [bind]. destruct down.
  - destruct (PatchMerging_init_succeeds ps (name ++ ".downsample") dim) as (d & ->);
      [lia|]. cbn [bind]. eexists; reflexivity.
  - cbn [bind]. eexists; reflexivity.
Qed.

End BackboneFacts.

Section BackboneShape.
Context {A : Type} {NA : Num A} {EA : Elementary A}.

Lemma half_up_pos (n : nat) : 0 < n -> 0 < (n + 1) / 2.
Proof. intros Hn. apply Nat.div_str_pos. lia. Qed.

Lemma layer_step_shape (m : SwinTransformer.t A) (i : nat) (layer : BasicLayer.t A)
  (norm : LayerNorm A) (x : tensor A) (outs : list (tensor A))
  (N H W heads hd ws : nat) (down : bool) :
  nth_error (SwinTransformer.layers m) i = Some layer ->
  BasicLayer_ok layer (heads * hd) heads ws down ->
  existsb (Nat.eqb i) (SwinTransformer.out_indices m) = true ->
  SwinTransformer.get_norm (SwinTransformer.norms m) i = Ok norm ->
  ln_size norm = heads * hd ->
  nth_error (SwinTransformer.num_features m) i = Some (Z.of_nat (heads * hd)) ->
  0 < N -> 0 < H -> 0 < W -> 0 < hd -> 0 < heads ->
  wf x -> shape x = [N; H * W; heads * hd] ->
  exists x' out,
    SwinTransformer.layer_step m (x, Z.of_nat H, Z.of_nat W, outs) i
    = Ok (x', Z.of_nat (if down then (H + 1) / 2 else H),
          Z.of_nat (if down then (W + 1) / 2 else W), outs ++ [out]) /\
    shape out = [N; heads * hd; H; W] /\ wf out /\
    wf x' /\
    shape x' = if down
               then [N; ((H + 1) / 2) * ((W + 1) / 2); 2 * (heads * hd)]
               else [N; H * W; heads * hd].
Proof.
  intros Hl Hok Hout Hnorm Hln Hnf HN HH HW Hhd Hheads Hwx Hsx.
  unfold SwinTransformer.layer_step, list_item. rewrite Hl. cbn [bind].
  destruct (BasicLayer_forward_shape layer x N H W heads hd ws down Hok
              HN HH HW Hhd Hheads Hwx Hsx)
    as (x_out & x_down & -> & Hs_o & Hw_o & Hw_d & Hs_d).
  cbn [bind]. rewrite Hout, Hnorm. cbn [bind].
  step_app (LayerNorm_forward_shape norm x_out [N; H * W] (heads * hd) Hln Hs_o) y.
  rewrite Hnf. cbn [bind].
  change [(-1)%Z; Z.of_nat H; Z.of_nat W; Z.of_nat (heads * hd)]
    with ((-1)%Z :: map Z.of_nat [H; W; heads * hd]).
  assert (Hnum : numel (shape y) = N * numel [H; W; heads * hd]).
  { rewrite Hs_y. unfold numel. cbn [fold_right]. ring. }
  step_as (view_shape_infer_first y [H; W; heads * hd] N Hw_y
             ltac:(unfold numel; cbn [fold_right]; nia) Hnum) v.
  pose proof (permute_shape v [0; 3; 1; 2]) as Hp. rewrite Hs_v in Hp.
  specialize (Hp eq_refl). cbn [map nth] in Hp. step_as Hp out.
  exists x_down, out. unfold contiguous. repeat split; assumption.
Qed.

Lemma SwinTransformer_forward_stages (m : SwinTransformer.t A) (x : tensor A)
  (N heads hd ws h w : nat) :
  SwinTransformer_ok m heads hd ws ->
  has_shape (PatchEmbed.forward (SwinTransformer.patch_embed m) x)
    [N; heads * hd; h; w] ->
  0 < N -> 0 < heads -> 0 < hd -> 0 < h -> 0 < w ->
  let C := heads * hd in
  let h1 := (h + 1) / 2 in let w1 := (w + 1) / 2 in
  let h2 := (h1 + 1) / 2 in let w2 := (w1 + 1) / 2 in
  let h3 := (h2 + 1) / 2 in let w3 := (w2 + 1) / 2 in
  exists f0 f1 f2 f3 f4,
    SwinTransformer.forward m x = Ok [f0; f1; f2; f3; f4] /\
    (shape f0 = [N; C; h; w] /\ wf f0) /\
    (shape f1 = [N; C; h; w] /\ wf f1) /\
    (shape f2 = [N; 2 * C; h1; w1] /\ wf f2) /\
    (shape f3 = [N; 4 * C; h2; w2] /\ wf f3) /\
    (shape f4 = [N; 8 * C; h3; w3] /\ wf f4).
Proof.
  intros (Hnl & Hoi & Hpe & (l0 & l1 & l2 & l3 & Hls & K0 & K1 & K2 & K3) & Hnf
          & (n0 & n1 & n2 & n3 & Hns & M0 & M1 & M2 & M3))
         Hemb HN Hheads Hhd Hh Hw C h1 w1 h2 w2 h3 w3.
  assert (HC : 0 < C) by (unfold C; nia).
  pose proof (half_up_pos h Hh) as Hh1. fold h1 in Hh1.
  pose proof (half_up_pos w Hw) as Hw1. fold w1 in Hw1.
  pose proof (half_up_pos h1 Hh1) as Hh2. fold h2 in Hh2.
  pose proof (half_up_pos w1 Hw1) as Hw2. fold w2 in Hw2.
  unfold SwinTransformer.forward.
  fold C in Hemb. step_as Hemb e.
  rewrite (zshape4 e _ _ _ _ Hs_e).
  destruct (flatten_from_shape e [N; C] [h; w] Hw_e Hs_e) as (f & Ef & Hs_f & Hw_f).
  cbn [length] in Ef. injection Ef as Ef. rewrite Ef.
  cbn [app] in Hs_f. unfold numel in Hs_f. cbn [fold_right] in Hs_f.
  rewrite Nat.mul_1_r in Hs_f.
  step_as (transpose3_shape f N C (h * w) Hs_f) t0.
  unfold Dropout_forward, contiguous. rewrite Hnl.
  change (seq 0 4) with [0; 1; 2; 3]. cbn [foldM].
  (* stage 0 *)
  destruct (layer_step_shape m 0 l0 n0 t0 [e] N h w heads hd ws true)
    as (x1 & o0 & -> & Hs_o0 & Hw_o0 & Hw_x1 & Hs_x1);
    try assumption;
    try (rewrite Hls; reflexivity); try (rewrite Hoi; reflexivity);
    try (rewrite Hns; reflexivity); try (rewrite Hnf; reflexivity).
  cbn [bind]. fold h1 w1 in Hs_x1 |- *.
  (* stage 1 *)
  rewrite Nat.mul_assoc in Hs_x1.
  destruct (layer_step_shape m 1 l1 n1 x1 ([e] ++ [o0]) N h1 w1 (2 * heads) hd ws true)
    as (x2 & o1 & -> & Hs_o1 & Hw_o1 & Hw_x2 & Hs_x2);
    try assumption; try lia;
    try (rewrite Hls; reflexivity); try (rewrite Hoi; reflexivity);
    try (rewrite Hns; reflexivity);
    try (rewrite Hnf; cbn [nth_error]; do 2 f_equal; unfold C; ring);
    try (rewrite M1; unfold C; ring).
  cbn [bind]. fold h2 w2 in Hs_x2 |- *.
  (* stage 2 *)
  replace (2 * (2 * heads * hd)) with (4 * heads * hd) in Hs_x2 by ring.
  destruct (layer_step_shape m 2 l2 n2 x2 (([e] ++ [o0]) ++ [o1]) N h2 w2
              (4 * heads) hd ws true)
    as (x3 & o2 & -> & Hs_o2 & Hw_o2 & Hw_x3 & Hs_x3);
    try assumption; try lia;
    try (rewrite Hls; reflexivity); try (rewrite Hoi; reflexivity);
    try (rewrite Hns; reflexivity);
    try (rewrite Hnf; cbn [nth_error]; do 2 f_equal; unfold C; ring);
    try (rewrite M2; unfold C; ring).
  cbn [bind]. fold h3 w3 in Hs_x3 |- *.
  (* stage 3 *)
  replace (2 * (4 * heads * hd)) with (8 * heads * hd) in Hs_x3 by ring.
  pose proof (half_up_pos h2 Hh2) as Hh3. fold h3 in Hh3.
  pose proof (half_up_pos w2 Hw2) as Hw3. fold w3 in Hw3.
  destruct (layer_step_shape m 3 l3 n3 x3 ((([e] ++ [o0]) ++ [o1]) ++ [o2]) N h3 w3
              (8 * heads) hd ws false)
    as (x4 & o3 & -> & Hs_o3 & Hw_o3 & Hw_x4 & Hs_x4);
    try assumption; try lia;
    try (rewrite Hls; reflexivity); try (rewrite Hoi; reflexivity);
    try (rewrite Hns; reflexivity);
    try (rewrite Hnf; cbn [nth_error]; do 2 f_equal; unfold C; ring);
    try (rewrite M3; unfold C; ring).
  cbn [bind app].
  exists e, o0, o1, o2, o3. split; [reflexivity|].
  repeat split; try assumption.
  - rewrite Hs_o1. f_equal. f_equal. unfold C. ring.
  - rewrite Hs_o2. f_equal. f_equal. unfold C. ring.
  - rewrite Hs_o3. f_equal. f_equal. unfold C. ring.
Qed.

Lemma SwinTransformer_forward_shape (m : SwinTransformer.t A) (x : tensor A)
  (N heads hd ws h w : nat) :
  SwinTransformer_ok m heads hd ws -> wf x -> shape x = [N; 3; 4 * h; 4 * w] ->
  0 < N -> 0 < heads -> 0 < hd -> 0 < h -> 0 < w ->
  let C := heads * hd in
  let h1 := (h + 1) / 2 in let w1 := (w + 1) / 2 in
  let h2 := (h1 + 1) / 2 in let w2 := (w1 + 1) / 2 in
  let h3 := (h2 + 1) / 2 in let w3 := (w2 + 1) / 2 in
  exists f0 f1 f2 f3 f4,
    SwinTransformer.forward m x = Ok [f0; f1; f2; f3; f4] /\
    (shape f0 = [N; C; h; w] /\ wf f0) /\
    (shape f1 = [N; C; h; w] /\ wf f1) /\
    (shape f2 = [N; 2 * C; h1; w1] /\ wf f2) /\
    (shape f3 = [N; 4 * C; h2; w2] /\ wf f3) /\
    (shape f4 = [N; 8 * C; h3; w3] /\ wf f4).
Proof.
  intros Hok Hwx Hsx HN Hheads Hhd Hh Hw.
  apply (SwinTransformer_forward_stages m x N heads hd ws h w); try assumption.
  destruct Hok as (_ & _ & Hpe & _).
  apply PatchEmbed_forward_shape; try assumption. nia.
Qed.

Lemma SwinTransformer_forward_shape_padded (m : SwinTransformer.t A)
  (x : tensor A) (N heads hd ws H W : nat) :
  SwinTransformer_ok m heads hd ws -> wf x -> shape x = [N; 3; H; W] ->
  0 < N -> 0 < heads -> 0 < hd -> 0 < H -> 0 < W ->
  let C := heads * hd in
  let h := (H + 3) / 4 in let w := (W + 3) / 4 in
  let h1 := (h + 1) / 2 in let w1 := (w + 1) / 2 in
  let h2 := (h1 + 1) / 2 in let w2 := (w1 + 1) / 2 in
  let h3 := (h2 + 1) / 2 in let w3 := (w2 + 1) / 2 in
  exists f0 f1 f2 f3 f4,
    SwinTransformer.forward m x = Ok [f0; f1; f2; f3; f4] /\
    (shape f0 = [N; C; h; w] /\ wf f0) /\
    (shape f1 = [N; C; h; w] /\ wf f1) /\
    (shape f2 = [N; 2 * C; h1; w1] /\ wf f2) /\
    (shape f3 = [N; 4 * C; h2; w2] /\ wf f3) /\
    (shape f4 = [N; 8 * C; h3; w3] /\ wf f4).
Proof.
  intros Hok Hwx Hsx HN Hheads Hhd HH HW C h w.
  apply (SwinTransformer_forward_stages m x N heads hd ws h w); try assumption;
    try (apply Nat.div_str_pos; lia).
  destruct Hok as (_ & _ & Hpe & _).
  apply PatchEmbed_forward_shape_padded; try assumption. nia.
Qed.

End BackboneShape.

Section BackboneInit.
Context {A : Type} {NA : Num A} {EA : Elementary A}.

Lemma SwinTransformer_init_inv (ps : params A) (name : string)
  (m : SwinTransformer.t A) :
  SwinTransformer.init ps name 128 [2; 2; 18; 2]%Z [4; 8; 16; 32]%Z 12 = Ok m ->
  SwinTransformer_ok m 4 32 12.
Proof.
  unfold SwinTransformer.init. cbn [length]. intros E.
  destruct (PatchEmbed.init _ _ _ _ _ _) as [pe|] eqn:Epe;
    [cbn [bind] in E|discriminate].
  destruct (mapM _ (seq 0 4)) as [layers|] eqn:El; [cbn [bind] in E|discriminate].
  destruct (mapM _ [0; 1; 2; 3]) as [norms|] eqn:En; [cbn [bind] in E|discriminate].
  injection E as <-.
  apply PatchEmbed_init_inv in Epe.
  apply mapM_inv in El. change (seq 0 4) with [0; 1; 2; 3] in El.
  inversion El as [|i0 l0 r0 ls0 H0 El0]; subst.
  inversion El0 as [|i1 l1 r1 ls1 H1 El1]; subst.
  inversion El1 as [|i2 l2 r2 ls2 H2 El2]; subst.
  inversion El2 as [|i3 l3 r3 ls3 H3 El3]; subst.
  inversion El3; subst. clear El El0 El1 El2 El3.
  cbn [list_item nth_error bind] in H0, H1, H2, H3.
  pose proof (BasicLayer_init_inv ps _ _ _ _ 12 _ _ _ _ l0 ltac:(lia) H0) as K0.
  pose proof (BasicLayer_init_inv ps _ _ _ _ 12 _ _ _ _ l1 ltac:(lia) H1) as K1.
  pose proof (BasicLayer_init_inv ps _ _ _ _ 12 _ _ _ _ l2 ltac:(lia) H2) as K2.
  pose proof (BasicLayer_init_inv ps _ _ _ _ 12 _ _ _ _ l3 ltac:(lia) H3) as K3.
  apply mapM_inv in En.
  inversion En as [|j0 n0 q0 ns0 G0 En0]; subst.
  inversion En0 as [|j1 n1 q1 ns1 G1 En1]; subst.
  inversion En1 as [|j2 n2 q2 ns2 G2 En2]; subst.
  inversion En2 as [|j3 n3 q3 ns3 G3 En3]; subst.
  inversion En3; subst. clear En En0 En1 En2 En3.
  cbn [list_item nth_error bind map seq] in G0, G1, G2, G3.
  repeat match goal with
         | H : bind (LayerNorm_init ?p ?n ?d) _ = Ok _ |- _ =>
             let E := fresh "E" in
             destruct (LayerNorm_init p n d) eqn:E; [cbn [bind] in H|discriminate H];
             injection H as <-; apply LayerNorm_init_inv in E; destruct E as (_ & ?)
         end.
  unfold SwinTransformer_ok.
  cbn [SwinTransformer.num_layers SwinTransformer.out_indices
       SwinTransformer.patch_embed SwinTransformer.layers
       SwinTransformer.num_features SwinTransformer.norms].
  split; [reflexivity|]. split; [reflexivity|]. split; [exact Epe|].
  split; [exists l0, l1, l2, l3; split; [reflexivity|];
          repeat split; [apply K0|apply K0|apply K0|apply K0| | | | | | | | | | | |]|].
  all: try (first [apply K1 | apply K2 | apply K3]).
  split; [reflexivity|].
  eexists _, _, _, _. split; [reflexivity|]. repeat split; assumption.
Qed.

End BackboneInit.

(** ** Construction of the network *)

Section NetworkInit.
Context {A : Type} {NA : Num A} {EA : Elementary A}.

Lemma SwinTransformer_init_succeeds (ps : params A) (name : string) :
  exists m, SwinTransformer.init ps name 128 [2; 2; 18; 2]%Z [4; 8; 16; 32]%Z 12
            = Ok m.
Proof.
  unfold SwinTransformer.init. cbn [length].
  destruct (PatchEmbed_init_succeeds ps (name ++ ".patch_embed") 128) as (pe & ->);
    [lia|]. cbn [bind].
  match goal with |- context [mapM ?f (seq 0 4)] =>
    destruct (mapM_succeeds f (seq 0 4)) as (layers & ->)
  end.
  { change (seq 0 4) with [0; 1; 2; 3].
    repeat (apply Forall_cons; [cbn [list_item nth_error bind];
      apply (BasicLayer_init_succeeds ps _ _ _ _ 12);
        [lia | split; now vm_compute | discriminate]|]).
    apply Forall_nil. }
  cbn [bind].
  match goal with |- context [mapM ?f [0; 1; 2; 3]] =>
    destruct (mapM_succeeds f [0; 1; 2; 3]) as (norms & ->)
  end.
  { repeat (apply Forall_cons; [cbn [list_item nth_error bind map seq];
      match goal with |- context [LayerNorm_init ?p ?n ?d] =>
        destruct (LayerNorm_init_succeeds p n d) as (ln & ->);
          [now vm_compute|cbn [bind]; eexists; reflexivity]
      end|]).
    apply Forall_nil. }
  cbn [bind]. eexists; reflexivity.
Qed.

Lemma conv3x3_succeeds (ps : params A) (name : string) (i o : Z) :
  (0 <= i)%Z -> (0 <= o)%Z ->
  exists m, Conv2d_init ps name i o (to_2tuple 3) (to_2tuple 1) (to_2tuple 1) = Ok m.
Proof.
  intros Hi Ho. apply Conv2d_init_succeeds; cbn [to_2tuple fst snd]; lia.
Qed.

Lemma bind_succeeds {X Y : Type} (m : result X) (k : X -> result Y) :
  (exists a, m = Ok a) -> (forall a, exists b, k a = Ok b) ->
  exists b, bind m k = Ok b.
Proof. intros (a & ->) Hk. exact (Hk a). Qed.

Lemma BEN_Base_init_succeeds (ps : params A) : exists m, BEN_Base.init ps = Ok m.
Proof.
  unfold BEN_Base.init.
  repeat (apply bind_succeeds;
          [first [ apply SwinTransformer_init_succeeds
                 | apply conv3x3_succeeds; lia
                 | apply MCLM_init_succeeds; lia
                 | apply MCRM_init_succeeds; lia ]
          | intros ?]).
  eexists; reflexivity.
Qed.

Lemma conv3x3_inv_nat (ps : params A) (name : string) (i o : Z) (ci co : nat)
  (m : Conv2d A) :
  Z.to_nat i = ci -> Z.to_nat o = co ->
  Conv2d_init ps name i o (to_2tuple 3) (to_2tuple 1) (to_2tuple 1) = Ok m ->
  Conv2d_ok m ci co (3, 3) (1, 1) (1, 1).
Proof. intros <- <- E. apply Conv2d_init_inv in E. exact E. Qed.

Lemma MCRM_init_inv_nat (ps : params A) (name : string) (d : Z) (E : nat)
  (ratios : list Z) (m : MCRM.t A) :
  (0 <= d)%Z -> Z.to_nat d = E ->
  MCRM.init ps name d 1 ratios = Ok m ->
  MCRM_ok m E /\ MCRM.pool_ratios m = ratios.
Proof. intros Hd <- Hi. exact (MCRM_init_inv ps name d ratios m Hd Hi). Qed.

Lemma bind_Ok_inv {X Y : Type} (m : result X) (k : X -> result Y) (y : Y) :
  bind m k = Ok y -> exists a, m = Ok a /\ k a = Ok y.
Proof. destruct m as [a|e]; [intros E; now exists a|discriminate]. Qed.

Ltac bind_inv_lemma H :=
  repeat (apply bind_Ok_inv in H;
          let a := fresh "a" in let E := fresh "E" in
          destruct H as (a & E & H); cbv beta zeta in H).

Lemma BEN_Base_init_inv (ps : params A) (m : BEN_Base.t A) :
  BEN_Base.init ps = Ok m -> BEN_Base_ok m.
Proof.
  unfold BEN_Base.init, BEN_Base.conv3x3, make_cbr, make_cbg. intros E.
  bind_inv_lemma E. injection E as <-.
  repeat match goal with
         | H : SwinTransformer.init _ _ _ _ _ _ = Ok _ |- _ =>
             apply SwinTransformer_init_inv in H
         | H : Conv2d_init _ _ 1024 128 _ _ _ = Ok _ |- _ =>
             apply (conv3x3_inv_nat _ _ _ _ (8 * (4 * 32)) (4 * 32)) in H;
               [|vm_compute; reflexivity|vm_compute; reflexivity]
         | H : Conv2d_init _ _ 512 128 _ _ _ = Ok _ |- _ =>
             apply (conv3x3_inv_nat _ _ _ _ (4 * (4 * 32)) (4 * 32)) in H;
               [|vm_compute; reflexivity|vm_compute; reflexivity]
         | H : Conv2d_init _ _ 256 128 _ _ _ = Ok _ |- _ =>
             apply (conv3x3_inv_nat _ _ _ _ (2 * (4 * 32)) (4 * 32)) in H;
               [|vm_compute; reflexivity|vm_compute; reflexivity]
         | H : Conv2d_init _ _ 128 128 _ _ _ = Ok _ |- _ =>
             apply (conv3x3_inv_nat _ _ _ _ (4 * 32) (4 * 32)) in H;
               [|vm_compute; reflexivity|vm_compute; reflexivity]
         | H : Conv2d_init _ _ 128 1 _ _ _ = Ok _ |- _ =>
             apply (conv3x3_inv_nat _ _ _ _ (4 * 32) 1) in H;
               [|vm_compute; reflexivity|vm_compute; reflexivity]
         | H : Conv2d_init _ _ 128 384 _ _ _ = Ok _ |- _ =>
             apply (conv3x3_inv_nat _ _ _ _ (4 * 32) 384) in H;
               [|vm_compute; reflexivity|vm_compute; reflexivity]
         | H : Conv2d_init _ _ 384 384 _ _ _ = Ok _ |- _ =>
             apply (conv3x3_inv_nat _ _ _ _ 384 384) in H;
               [|vm_compute; reflexivity|vm_compute; reflexivity]
         | H : Conv2d_init _ _ 384 128 _ _ _ = Ok _ |- _ =>
             apply (conv3x3_inv_nat _ _ _ _ 384 (4 * 32)) in H;
               [|vm_compute; reflexivity|vm_compute; reflexivity]
         | H : Conv2d_init _ _ 3 128 _ _ _ = Ok _ |- _ =>
             apply (conv3x3_inv_nat _ _ _ _ 3 (4 * 32)) in H;
               [|vm_compute; reflexivity|vm_compute; reflexivity]
         | H : MCLM.init _ _ _ _ _ = Ok _ |- _ =>
             apply (MCLM_init_inv _ _ _ 32) in H; [|vm_compute; reflexivity]
         | H : MCRM.init _ _ _ _ _ = Ok _ |- _ =>
             apply (MCRM_init_inv_nat _ _ _ (4 * 32)) in H;
               [|lia|vm_compute; reflexivity]
         end.
  unfold BEN_Base_ok.
  cbn [BEN_Base.backbone BEN_Base.output5 BEN_Base.output4 BEN_Base.output3
       BEN_Base.output2 BEN_Base.output1 BEN_Base.multifieldcrossatt
       BEN_Base.conv1 BEN_Base.conv2 BEN_Base.conv3 BEN_Base.conv4
       BEN_Base.dec_blk1 BEN_Base.dec_blk2 BEN_Base.dec_blk3 BEN_Base.dec_blk4
       BEN_Base.insmask_head BEN_Base.shallow BEN_Base.upsample1
       BEN_Base.upsample2 BEN_Base.output fst snd].
  repeat match goal with H : _ /\ _ |- _ => destruct H end.
  repeat match goal with |- _ /\ _ => split end; assumption.
Qed.

End NetworkInit.

(** ** The forward pass of the network *)

Section NetworkShape.
Context {A : Type} {NA : Num A} {EA : Elementary A}.

Lemma unsqueeze0_shape (t : tensor A) (s : list nat) :
  wf t -> shape t = s -> has_shape (unsqueeze t 0) (1 :: s).
Proof.
  intros Hwf Hs. pose proof (unsqueeze_shape t 0 Hwf ltac:(lia)) as Hu.
  cbn [firstn skipn app] in Hu. rewrite Hs in Hu. exact Hu.
Qed.

Lemma tiles_shape (x glb : tensor A) (i B Sz : nat) :
  shape x = [B; 3; 2 * Sz; 2 * Sz] -> shape glb = [B; 3; Sz; Sz] -> i < B ->
  has_shape (BEN_Base.tiles x glb (Z.of_nat i)) [5; 3; Sz; Sz].
Proof.
  intros Hx Hg Hi. unfold BEN_Base.tiles.
  step_as (getitem_row_shape x i B 3 (2 * Sz) (2 * Sz) Hx Hi) xi.
  step_as (unsqueeze0_shape xi _ Hw_xi Hs_xi) xu.
  pose proof (image2patches_shape xu 1 3 Sz Sz Hs_xu) as Hp.
  rewrite Nat.mul_1_r in Hp. step_as Hp loc.
  step_as (getitem_row_shape glb i B 3 Sz Sz Hg Hi) gi.
  step_as (unsqueeze0_shape gi _ Hw_gi Hs_gi) gu.
  pose proof (cat_shape [loc; gu] [] [3; Sz; Sz] [4; 1]) as Hc.
  cbn [map app] in Hc. rewrite Hs_loc, Hs_gu in Hc.
  specialize (Hc ltac:(discriminate) eq_refl).
  change (list_sum [4; 1]) with 5 in Hc. exact Hc.
Qed.

Lemma build_input_steps (x glb : tensor A) (B Sz : nat) :
  shape x = [B; 3; 2 * Sz; 2 * Sz] -> shape glb = [B; 3; Sz; Sz] ->
  forall n a acc,
    a + n <= B ->
    match acc with
    | None => a = 0
    | Some f => 0 < a /\ shape f = [5 * a; 3; Sz; Sz] /\ wf f
    end ->
    exists acc',
      foldM (BEN_Base.input_step x glb) (map Z.of_nat (seq a n)) acc = Ok acc' /\
      match acc' with
      | None => a + n = 0
      | Some f => 0 < a + n /\ shape f = [5 * (a + n); 3; Sz; Sz] /\ wf f
      end.
Proof.
  intros Hx Hg. induction n as [|n IH]; intros a acc Hle Hacc.
  - exists acc. cbn [seq map foldM]. split; [reflexivity|].
    rewrite Nat.add_0_r. exact Hacc.
  - cbn [seq map foldM]. unfold BEN_Base.input_step at 1.
    step_as (tiles_shape x glb a B Sz Hx Hg ltac:(lia)) t.
    destruct acc as [f|].
    + destruct Hacc as (Ha & Hsf & Hwf).
      pose proof (cat_shape [f; t] [] [3; Sz; Sz] [5 * a; 5]) as Hc.
      cbn [map app] in Hc. rewrite Hsf, Hs_t in Hc.
      specialize (Hc ltac:(discriminate) eq_refl).
      unfold list_sum in Hc. cbn [fold_right length] in Hc.
      change (Z.of_nat 0) with 0%Z in Hc.
      replace (5 * a + (5 + 0)) with (5 * S a) in Hc by lia.
      step_as Hc c. cbn [bind].
      destruct (IH (S a) (Some c)) as (acc' & E & Hacc'); [lia|auto with arith|].
      exists acc'. split; [exact E|].
      now replace (a + S n) with (S a + n) by lia.
    + subst a. cbn [bind].
      destruct (IH 1 (Some t)) as (acc' & E & Hacc'); [lia| |].
      { split; [lia|]. split; [exact Hs_t|exact Hw_t]. }
      exists acc'. split; [exact E|exact Hacc'].
Qed.

Lemma build_input_shape (x glb : tensor A) (B Sz : nat) :
  shape x = [B; 3; 2 * Sz; 2 * Sz] -> shape glb = [B; 3; Sz; Sz] -> 0 < B ->
  exists f,
    BEN_Base.build_input x glb (Z.of_nat B) = Ok (Some f) /\
    shape f = [5 * B; 3; Sz; Sz] /\ wf f.
Proof.
  intros Hx Hg HB. unfold BEN_Base.build_input, range. rewrite Nat2Z.id.
  destruct (build_input_steps x glb B Sz Hx Hg B 0 None ltac:(lia) eq_refl)
    as (acc & E & Hacc).
  destruct acc as [f|]; [|cbn in Hacc; lia].
  exists f. split; [exact E|]. cbn [Nat.add] in Hacc. apply Hacc.
Qed.

Lemma feature_rows_shape (f : tensor A) (B i c h w : nat) :
  shape f = [5 * B; c; h; w] -> i < B ->
  has_shape (getitem f [Slice (Some (Z.of_nat i * 5)%Z)
                              (Some ((Z.of_nat i + 1) * 5)%Z) 1; full; full; full])
            [5; c; h; w].
Proof.
  intros Hs Hi.
  replace (Z.of_nat i * 5)%Z with (Z.of_nat (5 * i)) by lia.
  replace ((Z.of_nat i + 1) * 5)%Z with (Z.of_nat (5 * i + 5)) by lia.
  pose proof (getitem_rows_shape f (5 * i) (5 * i + 5) (5 * B) c h w Hs
                ltac:(lia) ltac:(lia)) as Hg.
  now replace (5 * i + 5 - 5 * i) with 5 in Hg by lia.
Qed.

End NetworkShape.

(** ** The decoder *)

Lemma py_round_pos (q : Q) : (1 # 2 < q)%Q -> (0 < py_round q)%Z.
Proof.
  intros Hq. unfold py_round.
  assert (Hf : (0 <= Qfloor q)%Z).
  { change 0%Z with (Qfloor 0). apply Qfloor_resp_le.
    apply Qlt_le_weak. eapply Qlt_trans; [|exact Hq]. reflexivity. }
  destruct (Qle_bool (q - inject_Z (Qfloor q)) (1 # 2)) eqn:E1; [|lia].
  destruct (Qle_bool (1 # 2) (q - inject_Z (Qfloor q))) eqn:E2.
  - destruct (Z.even (Qfloor q)); [|lia].
    apply Qle_bool_iff in E1. 
    assert (Hne : Qfloor q <> 0%Z).
    { intros E0. rewrite E0 in E1. unfold Qminus in E1.
      change (- inject_Z 0)%Q with 0%Q in E1. rewrite Qplus_0_r in E1.
      apply Qle_not_lt in E1. contradiction. }
    lia.
  - assert (Hne : Qfloor q <> 0%Z).
    { intros E0. rewrite E0 in E2. unfold Qminus in E2.
      change (- inject_Z 0)%Q with 0%Q in E2.
      assert (Hle : Qle_bool (1 # 2) (q + 0) = true).
      { apply Qle_bool_iff. rewrite Qplus_0_r. now apply Qlt_le_weak. }
      congruence. }
    lia.
Qed.

Lemma pool_ratio_ok_intro (h w r : nat) :
  0 < r -> r < 2 * h -> r < 2 * w ->
  pool_ratio_ok (Z.of_nat h) (Z.of_nat w) (Z.of_nat r).
Proof.
  intros Hr Hh Hw. unfold pool_ratio_ok. split; [lia|].
  assert (Hp : forall n, r < 2 * n ->
                 (1 # 2 < inject_Z (Z.of_nat n) / inject_Z (Z.of_nat r))%Q).
  { intros n Hn. apply Qlt_shift_div_l.
    - change 0%Q with (inject_Z 0). rewrite <- Zlt_Qlt. lia.
    - unfold Qlt, Qmult, inject_Z. cbn [Qnum Qden]. lia. }
  split; apply py_round_pos, Hp; assumption.
Qed.

Section DecoderShape.
Context {A : Type} {NA : Num A} {EA : Elementary A}.

Lemma insmask_head_forward_shape (m : BEN_Base.t A) (x : tensor A) (H W : nat) :
  BEN_Base_ok m -> shape x = [1; 4 * 32; H; W] -> 1 < H -> 0 < W ->
  has_shape (BEN_Base.insmask_head_forward m x) [1; 4 * 32; H; W].
Proof.
  intros Hok Hs HH HW.
  destruct Hok as (_ & _ & _ & _ & _ & _ & _ & _ & _ & _ & _ & _ & _ & _ & _
                   & (Hh0 & Hh3 & Hh6) & _).
  unfold BEN_Base.insmask_head_forward.
  destruct (BEN_Base.insmask_head m) as ((head0 & head3) & head6).
  cbn [fst snd] in Hh0, Hh3, Hh6.
  step_as (cbr_forward_shape head0 x _ _ 1 H W Hh0 Hs HH HW) a.
  step_as (cbr_forward_shape head3 a _ _ 1 H W Hh3 Hs_a HH HW) b.
  apply (conv3x3_forward_shape head6 b _ _ 1 H W Hh6 Hs_b); lia.
Qed.

Lemma decode_shape (m : BEN_Base.t A) (f0 f1 f2 f3 f4 sh : tensor A)
  (B i k : nat) :
  BEN_Base_ok m -> i < B -> 3 <= k ->
  shape f0 = [5 * B; 4 * 32; 2 * (2 * (2 * (2 * k))); 2 * (2 * (2 * (2 * k)))] ->
  shape f1 = [5 * B; 4 * 32; 2 * (2 * (2 * (2 * k))); 2 * (2 * (2 * (2 * k)))] ->
  shape f2 = [5 * B; 2 * (4 * 32); 2 * (2 * (2 * k)); 2 * (2 * (2 * k))] ->
  shape f3 = [5 * B; 4 * (4 * 32); 2 * (2 * k); 2 * (2 * k)] ->
  shape f4 = [5 * B; 8 * (4 * 32); 2 * k; 2 * k] ->
  shape sh = [B; 4 * 32; 128 * k; 128 * k] ->
  exists z,
    BEN_Base.decode m [f0; f1; f2; f3; f4] sh (Z.of_nat i)
    = Ok (map_t sigmoid z) /\
    shape z = [1; 1; 128 * k; 128 * k] /\ wf z.
Proof.
  intros Hok Hi Hk H0 H1 H2 H3 H4 Hsh.
  pose proof Hok as (_ & Ho5 & Ho4 & Ho3 & Ho2 & Ho1 & (Hmclm & Hmr)
                     & Hc1 & Hc2 & Hc3 & Hc4 & (Hd1 & Hr1) & (Hd2 & Hr2)
                     & (Hd3 & Hr3) & (Hd4 & Hr4) & _ & _ & Hu1 & Hu2 & Hout).
  unfold BEN_Base.decode. cbn [list_item nth_error]. repeat ok_step.
  step_as (feature_rows_shape f4 B i _ _ _ H4 Hi) r4.
  step_as (feature_rows_shape f3 B i _ _ _ H3 Hi) r3.
  step_as (feature_rows_shape f2 B i _ _ _ H2 Hi) r2.
  step_as (feature_rows_shape f1 B i _ _ _ H1 Hi) r1.
  step_as (feature_rows_shape f0 B i _ _ _ H0 Hi) r0.
  step_as (cbr_forward_shape _ r4 _ _ 5 _ _ Ho5 Hs_r4 ltac:(lia) ltac:(lia)) e5.
  step_as (cbr_forward_shape _ r3 _ _ 5 _ _ Ho4 Hs_r3 ltac:(lia) ltac:(lia)) e4.
  step_as (cbr_forward_shape _ r2 _ _ 5 _ _ Ho3 Hs_r2 ltac:(lia) ltac:(lia)) e3.
  step_as (cbr_forward_shape _ r1 _ _ 5 _ _ Ho2 Hs_r1 ltac:(lia) ltac:(lia)) e2.
  step_as (cbr_forward_shape _ r0 _ _ 5 _ _ Ho1 Hs_r0 ltac:(lia) ltac:(lia)) e1.
  destruct (split_4_1 e5 _ Hs_e5) as (loc5 & glb5 & -> & Hs_loc5 & Hw_loc5
                                      & Hs_glb5 & Hw_glb5).
  ok_step.
  assert (Hpm : Forall (pool_ratio_ok (Z.of_nat (2 * k)) (Z.of_nat (2 * k)))
                  [1; 4; 8]%Z).
  { repeat constructor;
      first [ apply (pool_ratio_ok_intro (2 * k) (2 * k) 1); lia
            | apply (pool_ratio_ok_intro (2 * k) (2 * k) 4); lia
            | apply (pool_ratio_ok_intro (2 * k) (2 * k) 8); lia ]. }
  assert (Hpr : forall n, 2 * k <= n ->
                  Forall (pool_ratio_ok (Z.of_nat (2 * n)) (Z.of_nat (2 * n)))
                    [2; 4; 8]%Z).
  { intros n Hn. repeat constructor;
      first [ apply (pool_ratio_ok_intro (2 * n) (2 * n) 2); lia
            | apply (pool_ratio_ok_intro (2 * n) (2 * n) 4); lia
            | apply (pool_ratio_ok_intro (2 * n) (2 * n) 8); lia ]. }
  step_as (MCLM_forward_shape _ _ 32 k k loc5 glb5 Hmclm ltac:(lia) ltac:(lia)
             ltac:(lia) ltac:(rewrite Hmr; discriminate)
             ltac:(rewrite Hmr; exact Hpm) Hs_loc5 Hs_glb5) g5.
  (* stage 4 *)
  step_as (resize_as_shape g5 e4 _ _ _ _ [5; 4 * 32] _ _ Bilinear Hs_g5 Hs_e4
             ltac:(lia) ltac:(lia) ltac:(lia) ltac:(lia) ltac:(lia)) u4.
  step_as (broadcast2_same_shape add e4 u4 _ Hs_e4 Hs_u4) s4.
  destruct (MCRM_forward_shape _ (4 * 32) (2 * k) (2 * k) s4 Hd4 ltac:(lia)
              ltac:(lia) ltac:(lia) ltac:(rewrite Hr4; discriminate)
              ltac:(rewrite Hr4; apply Hpr; lia) Hs_s4)
    as (o4 & tam4 & -> & Hs_o4 & Hw_o4).
  ok_step. lazy beta iota.
  step_as (cbr_forward_shape _ o4 _ _ 5 _ _ Hc4 Hs_o4 ltac:(lia) ltac:(lia)) d4.
  (* stage 3 *)
  step_as (resize_as_shape d4 e3 _ _ _ _ [5; 4 * 32] _ _ Bilinear Hs_d4 Hs_e3
             ltac:(lia) ltac:(lia) ltac:(lia) ltac:(lia) ltac:(lia)) u3.
  step_as (broadcast2_same_shape add e3 u3 _ Hs_e3 Hs_u3) s3.
  destruct (MCRM_forward_shape _ (4 * 32) (2 * (2 * k)) (2 * (2 * k)) s3 Hd3
              ltac:(lia) ltac:(lia) ltac:(lia) ltac:(rewrite Hr3; discriminate)
              ltac:(rewrite Hr3; apply Hpr; lia) Hs_s3)
    as (o3 & tam3 & -> & Hs_o3 & Hw_o3).
  ok_step. lazy beta iota.
  step_as (cbr_forward_shape _ o3 _ _ 5 _ _ Hc3 Hs_o3 ltac:(lia) ltac:(lia)) d3.
  (* stage 2 *)
  step_as (resize_as_shape d3 e2 _ _ _ _ [5; 4 * 32] _ _ Bilinear Hs_d3 Hs_e2
             ltac:(lia) ltac:(lia) ltac:(lia) ltac:(lia) ltac:(lia)) u2.
  step_as (broadcast2_same_shape add e2 u2 _ Hs_e2 Hs_u2) s2.
  destruct (MCRM_forward_shape _ (4 * 32) (2 * (2 * (2 * k))) (2 * (2 * (2 * k)))
              s2 Hd2
              ltac:(lia) ltac:(lia) ltac:(lia) ltac:(rewrite Hr2; discriminate)
              ltac:(rewrite Hr2; apply Hpr; lia) Hs_s2)
    as (o2 & tam2 & -> & Hs_o2 & Hw_o2).
  ok_step. lazy beta iota.
  step_as (cbr_forward_shape _ o2 _ _ 5 _ _ Hc2 Hs_o2 ltac:(lia) ltac:(lia)) d2.
  (* stage 1 *)
  step_as (resize_as_shape d2 e1 _ _ _ _ [5; 4 * 32] _ _ Bilinear Hs_d2 Hs_e1
             ltac:(lia) ltac:(lia) ltac:(lia) ltac:(lia) ltac:(lia)) u1.
  step_as (broadcast2_same_shape add e1 u1 _ Hs_e1 Hs_u1) s1.
  destruct (MCRM_forward_shape _ (4 * 32) (2 * (2 * (2 * k))) (2 * (2 * (2 * k)))
              s1 Hd1
              ltac:(lia) ltac:(lia) ltac:(lia) ltac:(rewrite Hr1; discriminate)
              ltac:(rewrite Hr1; apply Hpr; lia) Hs_s1)
    as (o1 & tam1 & -> & Hs_o1 & Hw_o1).
  ok_step. lazy beta iota.
  step_as (cbr_forward_shape _ o1 _ _ 5 _ _ Hc1 Hs_o1 ltac:(lia) ltac:(lia)) d1.
  destruct (split_4_1 d1 _ Hs_d1) as (loc1 & glb1 & -> & Hs_loc1 & Hw_loc1
                                      & Hs_glb1 & Hw_glb1).
  ok_step.
  pose proof (patches2image_shape loc1 1 _ _ _ Hs_loc1) as Hp.
  step_as Hp cat1.
  step_as (resize_as_shape glb1 cat1 _ _ _ _ [1; 4 * 32] _ _ Bilinear Hs_glb1
             Hs_cat1 ltac:(lia) ltac:(lia) ltac:(lia) ltac:(lia) ltac:(lia)) ug.
  step_as (broadcast2_same_shape add cat1 ug _ Hs_cat1 Hs_ug) c1.
  step_as (insmask_head_forward_shape m c1 _ _ Hok Hs_c1 ltac:(lia) ltac:(lia)) fo.
  step_as (getitem_row_shape sh i B _ _ _ Hsh Hi) shi.
  step_as (unsqueeze0_shape shi _ Hw_shi Hs_shi) shu.
  step_as (resize_as_shape shu fo _ _ _ _ [1; 4 * 32] _ _ Bilinear Hs_shu
             Hs_fo ltac:(lia) ltac:(lia) ltac:(lia) ltac:(lia) ltac:(lia)) us.
  step_as (broadcast2_same_shape add fo us _ Hs_fo Hs_us) fo2.
  step_as (rescale_to_double_shape fo2 _ _ _ _ Nearest Hs_fo2 ltac:(lia)
             ltac:(lia) ltac:(lia)) up1.
  step_as (cbr_forward_shape _ up1 _ _ 1 _ _ Hu1 Hs_up1 ltac:(lia) ltac:(lia)) fo3.
  step_as (resize_as_shape shu fo3 _ _ _ _ [1; 4 * 32] _ _ Bilinear Hs_shu
             Hs_fo3 ltac:(lia) ltac:(lia) ltac:(lia) ltac:(lia) ltac:(lia)) us2.
  step_as (broadcast2_same_shape add fo3 us2 _ Hs_fo3 Hs_us2) fo4.
  step_as (rescale_to_double_shape fo4 _ _ _ _ Nearest Hs_fo4 ltac:(lia)
             ltac:(lia) ltac:(lia)) up2.
  step_as (cbr_forward_shape _ up2 _ _ 1 _ _ Hu2 Hs_up2 ltac:(lia) ltac:(lia)) fo5.
  step_as (conv3x3_forward_shape _ fo5 _ _ 1 _ _ Hout Hs_fo5 ltac:(lia)
             ltac:(lia)) fo6.
  exists fo6. split; [reflexivity|]. split; [|assumption].
  rewrite Hs_fo6. now replace (2 * (2 * (2 * (2 * (2 * (2 * (2 * k)))))))
    with (128 * k) by lia.
Qed.

Lemma mapM_Forall {X Y : Type} (f : X -> result Y) (P : Y -> Prop)
  (l : list X) :
  Forall (fun i => exists y, f i = Ok y /\ P y) l ->
  exists ys, mapM f l = Ok ys /\ length ys = length l /\ Forall P ys.
Proof.
  induction 1 as [|i l (y & E & Hy) _ (ys & Eys & Hlen & Hall)].
  - exists []. repeat split; constructor.
  - exists (y :: ys). cbn [mapM]. rewrite E, Eys. cbn [bind length].
    repeat split; [congruence|]. now constructor.
Qed.

Lemma get_closed (P : A -> Prop) (t : tensor A) (idx : list nat) :
  P dflt -> Forall P (data t) -> P (get t idx).
Proof.
  intros Hd Hall. unfold get.
  destruct (nth_in_or_default (ravel (shape t) idx) (data t) dflt) as [Hin | ->];
    [|exact Hd].
  now apply (proj1 (Forall_forall P (data t)) Hall).
Qed.

Lemma cat_source_closed (P : A -> Prop) (ts : list (tensor A)) (k : nat) :
  P dflt -> Forall (fun t => Forall P (data t)) ts ->
  forall idx, P (cat_source ts k idx).
Proof.
  intros Hd. induction 1 as [|t ts Ht _ IH]; intros idx; cbn [cat_source].
  - exact Hd.
  - destruct (nth k idx 0 <? nth k (shape t) 0); [now apply get_closed|apply IH].
Qed.

Lemma cat_closed (P : A -> Prop) (ts : list (tensor A)) (d : Z) (out : tensor A) :
  P dflt -> Forall (fun t => Forall P (data t)) ts ->
  cat ts d = Ok out -> Forall P (data out).
Proof.
  intros Hd Hall. unfold cat. destruct ts as [|t ts]; [discriminate|].
  destruct (normal_dim d (length (shape t))) as [k|]; [|discriminate].
  cbn [bind]. destruct (forallb _ _); [|discriminate].
  intros E. injection E as <-. unfold tabulate. cbn [data].
  apply Forall_map, Forall_forall. intros idx _.
  exact (cat_source_closed P (t :: ts) k Hd Hall idx).
Qed.

Lemma list_sum_repeat_1 (n : nat) : list_sum (repeat 1 n) = n.
Proof.
  unfold list_sum. induction n as [|n IH]; [reflexivity|].
  cbn [repeat fold_right]. now rewrite IH.
Qed.

Lemma cat_rows_shape (ys : list (tensor A)) (post : list nat) :
  ys <> [] -> Forall (fun y => shape y = 1 :: post /\ wf y) ys ->
  has_shape (cat ys 0) (length ys :: post).
Proof.
  intros Hne Hall.
  pose proof (cat_shape ys [] post (repeat 1 (length ys)) Hne) as Hc.
  cbn [length app] in Hc. change (Z.of_nat 0) with 0%Z in Hc.
  rewrite list_sum_repeat_1 in Hc. apply Hc. clear Hc Hne.
  induction Hall as [|y ys (Hs & _) _ IH]; [reflexivity|].
  cbn [map length repeat]. now rewrite Hs, IH.
Qed.

Lemma BEN_Base_forward_shape (m : BEN_Base.t A) (x : tensor A) (B k : nat) :
  BEN_Base_ok m -> 0 < B -> 3 <= k -> shape x = [B; 3; 128 * k; 128 * k] ->
  exists out,
    BEN_Base.forward m x = Ok out /\
    shape out = [B; 1; 128 * k; 128 * k] /\ wf out /\
    forall P : A -> Prop,
      P dflt -> (forall u, P (sigmoid u)) -> Forall P (data out).
Proof.
  intros Hok HB Hk Hs.
  pose proof Hok as (Hbb & _ & _ & _ & _ & _ & _ & _ & _ & _ & _ & _ & _ & _
                     & _ & _ & Hsh & _).
  unfold BEN_Base.forward, size_at. rewrite Hs. cbn [length].
  rewrite normal_dim_0. ok_step. ok_step. cbn [nth].
  step_as (conv3x3_forward_shape _ x _ _ B (128 * k) (128 * k) Hsh Hs
             ltac:(lia) ltac:(lia)) sh.
  assert (Hs2 : shape x = [B; 3; 2 * (64 * k); 2 * (64 * k)]).
  { rewrite Hs. now replace (2 * (64 * k)) with (128 * k) by lia. }
  step_as (rescale_to_half_shape x B 3 (64 * k) (64 * k) Bilinear Hs2 ltac:(lia)
             ltac:(lia) ltac:(lia)) glb.
  destruct (build_input_shape x glb B (64 * k) Hs2 Hs_glb HB)
    as (f & -> & Hs_f & Hw_f).
  ok_step.
  assert (Hs_f' : shape f = [5 * B; 3; 4 * (16 * k); 4 * (16 * k)]).
  { rewrite Hs_f. now replace (4 * (16 * k)) with (64 * k) by lia. }
  destruct (SwinTransformer_forward_shape _ f (5 * B) 4 32 12 (16 * k) (16 * k)
              Hbb Hw_f Hs_f' ltac:(lia) ltac:(lia) ltac:(lia) ltac:(lia)
              ltac:(lia))
    as (f0 & f1 & f2 & f3 & f4 & -> & (H0 & _) & (H1 & _) & (H2 & _)
        & (H3 & _) & (H4 & _)).
  ok_step.
  assert (E1 : (16 * k + 1) / 2 = 2 * (2 * (2 * k))).
  { symmetry. apply Nat.div_unique with 1; lia. }
  assert (E2 : (2 * (2 * (2 * k)) + 1) / 2 = 2 * (2 * k)).
  { symmetry. apply Nat.div_unique with 1; lia. }
  assert (E3 : (2 * (2 * k) + 1) / 2 = 2 * k).
  { symmetry. apply Nat.div_unique with 1; lia. }
  rewrite E1 in H2, H3, H4. rewrite E2 in H3, H4. rewrite E3 in H4.
  replace (16 * k) with (2 * (2 * (2 * (2 * k)))) in H0, H1 by lia.
  destruct (mapM_Forall (BEN_Base.decode m [f0; f1; f2; f3; f4] sh)
              (fun y => exists z, y = map_t sigmoid z /\
                                  shape z = [1; 1; 128 * k; 128 * k] /\ wf z)
              (range (Z.of_nat B)))
    as (ys & -> & Hlen & Hall).
  { unfold range. rewrite Nat2Z.id. apply Forall_forall. intros z Hz.
    apply in_map_iff in Hz. destruct Hz as (i & <- & Hi).
    apply in_seq in Hi.
    destruct (decode_shape m f0 f1 f2 f3 f4 sh B i k) as (y & E & Hy);
      try assumption; [lia|].
    exists (map_t sigmoid y). split; [exact E|]. now exists y. }
  ok_step.
  unfold range in Hlen. rewrite length_map, length_seq, Nat2Z.id in Hlen.
  destruct (cat_rows_shape ys [1; 128 * k; 128 * k]) as (out & E & Hso & Hwo).
  { destruct ys; [cbn in Hlen; lia|discriminate]. }
  { eapply Forall_impl; [|exact Hall]. intros y (z & -> & Hsz & Hwz).
    split; [exact Hsz|now apply wf_map_t]. }
  exists out. split; [exact E|]. split; [now rewrite Hso, Hlen|].
  split; [exact Hwo|]. intros P Hd Hsig.
  apply (cat_closed P ys 0 out Hd); [|exact E].
  eapply Forall_impl; [|exact Hall]. intros y (z & -> & _).
  cbn [map_t data]. apply Forall_map, Forall_forall. intros u _. apply Hsig.
Qed.

End DecoderShape.

(** ** The sigmoid over the real numbers *)

Lemma sigmoid_R_unfold (u : Rdefinitions.R) :
  sigmoid u
  = Rdefinitions.Rdiv (Rdefinitions.Q2R 1)
      (Rdefinitions.Rplus (Rdefinitions.Q2R 1)
         (RealScalar.Rexp (Rdefinitions.Rminus (Rdefinitions.Q2R 0) u))).
Proof. reflexivity. Qed.

Section SigmoidRange.
Import Reals.
Local Open Scope R_scope.

Lemma Rexp_eq : RealScalar.Rexp = Rtrigo_def.exp.
Proof. exact (proj2_sig (RealScalar.sealed Rtrigo_def.exp)). Qed.

Lemma Q2R_zero : Q2R 0 = 0.
Proof. unfold Q2R. cbn [Qnum Qden]. Lra.lra. Qed.

Lemma Q2R_one : Q2R 1 = 1.
Proof. unfold Q2R. cbn [Qnum Qden]. rewrite Rinv_1. Lra.lra. Qed.

Lemma sigmoid_R_range (u : R) : 0 < sigmoid u < 1.
Proof.
  rewrite sigmoid_R_unfold, Rexp_eq, Q2R_zero, Q2R_one.
  pose proof (exp_pos (0 - u)) as He. split.
  - apply Rdiv_lt_0_compat; Lra.lra.
  - unfold Rdiv. rewrite Rmult_1_l. rewrite <- Rinv_1 at 2.
    apply Rinv_lt_contravar; Lra.lra.
Qed.

End SigmoidRange.

(** * The layers, one by one *)

Section LayerFailures.
Context {A : Type} {NA : Num A} {EA : Elementary A}.


Lemma floordiv_nat (a b : nat) :
  0 < b -> floordiv (Z.of_nat a) (Z.of_nat b) = Ok (Z.of_nat (a / b)).
Proof.
  intros Hb. unfold floordiv.
  destruct (Z.eqb_spec (Z.of_nat b) 0); [lia|]. now rewrite Nat2Z.inj_div.
Qed.

Lemma window_partition_indivisible (x : tensor A) (B H W C ws : nat) :
  shape x = [B; H; W; C] -> 0 < B -> 0 < H -> 0 < W -> 0 < C -> 0 < ws ->
  ~ (H mod ws = 0 /\ W mod ws = 0) ->
  window_partition x (Z.of_nat ws)
  = Raise (RuntimeError "shape is invalid for input size").
Proof.
  intros Hs HB HH HW HC Hws Hnd. unfold window_partition, zshape.
  rewrite Hs. cbn [map]. rewrite !floordiv_nat by assumption. repeat ok_step.
  rewrite view_exact_fail; [reflexivity| |].
  - repeat (apply Forall_cons; [lia|]). apply Forall_nil.
  - rewrite Hs. cbn [map numel fold_right]. rewrite !Nat2Z.id.
    pose proof (Nat.div_mod_eq H ws) as EH.
    pose proof (Nat.div_mod_eq W ws) as EW.
    set (a := H / ws) in *. set (b := W / ws) in *.
    assert (Hab : a * ws * (b * ws) < H * W).
    { destruct (Nat.eq_dec (H mod ws) 0) as [E0|E0].
      - assert (W mod ws <> 0) by tauto. nia.
      - nia. }
    nia.
Qed.

End LayerFailures.



(** X2.  window_partition (lines 52-56) works exactly on feature maps whose
    height and width are multiples of the window size: it then returns
    B * (H / ws) * (W / ws) windows of ws x ws, and otherwise its first
    view raises. *)
Theorem window_partition_succeeds_iff_divisible
  {A : Type} {NA : Num A} (x : tensor A) (B H W C ws : nat) :
  shape x = [B; H; W; C] -> 0 < B -> 0 < H -> 0 < W -> 0 < C -> 0 < ws ->
  (H mod ws = 0 /\ W mod ws = 0 ->
   has_shape (window_partition x (Z.of_nat ws))
     [B * (H / ws) * (W / ws); ws; ws; C]) /\
  (~ (H mod ws = 0 /\ W mod ws = 0) ->
   window_partition x (Z.of_nat ws)
   = Raise (RuntimeError "shape is invalid for input size")).
Proof.
  intros Hs HB HH HW HC Hws. split.
  - intros (EH & EW).
    apply (window_partition_shape x B (H / ws) (W / ws) C ws); try assumption.
    rewrite Hs.
    pose proof (Nat.div_mod_eq H ws). pose proof (Nat.div_mod_eq W ws).
    repeat f_equal; lia.
  - now apply (window_partition_indivisible x B H W C ws).
Qed.

Lemma window_partition_succeeds_iff_divisible_witness :
  has_shape (window_partition (full_of [1; 4; 6; 1] 0%Q) (Z.of_nat 2))
    [1 * (4 / 2) * (6 / 2); 2; 2; 1] /\
  window_partition (full_of [1; 4; 5; 1] 0%Q) (Z.of_nat 2)
  = Raise (RuntimeError "shape is invalid for input size").
Proof.
  split.
  - exact (proj1 (window_partition_succeeds_iff_divisible
                    (full_of [1; 4; 6; 1] 0%Q) 1 4 6 1 2 eq_refl
                    ltac:(lia) ltac:(lia) ltac:(lia) ltac:(lia) ltac:(lia))
                 (conj eq_refl eq_refl)).
  - apply (proj2 (window_partition_succeeds_iff_divisible
                    (full_of [1; 4; 5; 1] 0%Q) 1 4 5 1 2 eq_refl
                    ltac:(lia) ltac:(lia) ltac:(lia) ltac:(lia) ltac:(lia))).
    intros (_ & E). discriminate E.
Defined.

(** X3.  WindowAttention.forward (lines 92-113) returns a tensor of the
    shape (B_, N, C) of its input, without a mask and with a mask of nW
    windows when nW divides B_.  The module is one built by the
    constructor for a square window, N is the number of positions of a
    window and the head count divides C. *)
Theorem WindowAttention_forward_keeps_shape
  {A : Type} {NA : Num A} {EA : Elementary A}
  (ps : params A) (name : string) (dim num_heads : Z) (ws : nat)
  (qkv_bias : bool) (qk_scale : option A) (m : WindowAttention.t A)
  (x : tensor A) (mask : option (tensor A)) (B_ : nat) :
  WindowAttention.init ps name dim (Z.of_nat ws, Z.of_nat ws) num_heads
    qkv_bias qk_scale = Ok m ->
  0 < ws -> (0 < dim)%Z -> (dim mod num_heads = 0)%Z ->
  wf x -> shape x = [B_; ws * ws; Z.to_nat dim] ->
  match mask with
  | Some mk =>
      wf mk /\
      exists nW g, shape mk = [nW; ws * ws; ws * ws] /\ B_ = g * nW /\ 0 < nW
  | None => True
  end ->
  has_shape (WindowAttention.forward m x mask) [B_; ws * ws; Z.to_nat dim].
Proof.
  intros Hinit Hws Hdim Hdiv Hwf Hs Hmask.
  apply WindowAttention_init_ok in Hinit; [|assumption].
  destruct Hinit as (Hok & Hh & _).
  apply Z.mod_divide in Hdiv; [|lia]. destruct Hdiv as [q Hq].
  assert (Hdn : Z.to_nat dim = Z.to_nat num_heads * Z.to_nat q) by nia.
  rewrite Hdn in *.
  now apply (WindowAttention_forward_shape m x mask B_ (Z.to_nat num_heads)
               (Z.to_nat q) ws).
Qed.

Lemma WindowAttention_forward_keeps_shape_witness :
  exists m : WindowAttention.t Rdefinitions.R,
    WindowAttention.init (fun _ _ => Rdefinitions.IZR 0) "attn" 4
      (Z.of_nat 2, Z.of_nat 2) 2 true None = Ok m /\
    has_shape
      (WindowAttention.forward m (full_of [2; 4; 4] (Rdefinitions.IZR 0))
         (Some (full_of [2; 4; 4] (Rdefinitions.IZR 0))))
      [2; 4; 4].
Proof.
  match goal with
  | |- exists m, ?e = Ok m /\ _ =>
      let v := eval vm_compute in e in
      match v with
      | Ok ?m0 =>
          assert (Hinit : e = Ok m0) by (vm_cast_no_check (eq_refl (Ok m0)));
          exists m0; split; [exact Hinit|];
          exact (WindowAttention_forward_keeps_shape
                   (fun _ _ => Rdefinitions.IZR 0) "attn" 4 2 2 true None m0
                   (full_of [2; 4; 4] (Rdefinitions.IZR 0))
                   (Some (full_of [2; 4; 4] (Rdefinitions.IZR 0))) 2
                   Hinit ltac:(lia) ltac:(lia) eq_refl eq_refl eq_refl
                   (conj eq_refl
                      (ex_intro _ 2 (ex_intro _ 1
                         (conj eq_refl (conj eq_refl (Nat.lt_0_succ 1)))))))
      end
  end.
Defined.

(** X4.  The relative position index of a window (lines 74-84) is a square
    table over the positions of the window whose entries all lie in
    [0, (2*Wh-1)*(2*Ww-1)), the row range of the bias table, so that the
    lookup of the bias never leaves the table; the entries of (i, j) and
    of (j, i) mirror each other about the centre of that range. *)
Theorem relative_position_index_within_bias_table (wh ww : nat) :
  0 < wh -> 0 < ww ->
  exists t : tensor Z,
    relative_position_index_of (Z.of_nat wh, Z.of_nat ww) = Ok t /\
    shape t = [wh * ww; wh * ww] /\
    Forall (fun v => (0 <= v < (2 * Z.of_nat wh - 1) * (2 * Z.of_nat ww - 1))%Z)
      (data t) /\
    forall i j, i < wh * ww -> j < wh * ww ->
      (get t [i; j] + get t [j; i]
       = (2 * Z.of_nat wh - 1) * (2 * Z.of_nat ww - 1) - 1)%Z.
Proof.
  intros Hh Hw.
  destruct (relative_position_index_closed wh ww Hh Hw) as (t & E & Hs & _ & Hg).
  exists t. split; [exact E|]. split; [exact Hs|]. split.
  - now apply (relative_position_index_bounds wh ww).
  - intros i j Hi Hj. rewrite (Hg i j Hi Hj), (Hg j i Hj Hi). ring.
Qed.

Lemma relative_position_index_within_bias_table_witness :
  exists t : tensor Z,
    relative_position_index_of (Z.of_nat 2, Z.of_nat 3) = Ok t /\
    shape t = [2 * 3; 2 * 3] /\
    Forall (fun v => (0 <= v < (2 * Z.of_nat 2 - 1) * (2 * Z.of_nat 3 - 1))%Z)
      (data t) /\
    forall i j, i < 2 * 3 -> j < 2 * 3 ->
      (get t [i; j] + get t [j; i]
       = (2 * Z.of_nat 2 - 1) * (2 * Z.of_nat 3 - 1) - 1)%Z.
Proof.
  exact (relative_position_index_within_bias_table 2 3 ltac:(lia) ltac:(lia)).
Defined.

(** X5.  SwinTransformerBlock.forward (lines 133-136) and
    PatchMerging.forward (lines 174-176) start by checking the number of
    tokens against the resolution they are given: any input (B, L, C) with
    L different from H * W is rejected with the assertion error
    [input feature has wrong size]. *)
Theorem wrong_token_count_is_rejected
  {A : Type} {NA : Num A} {EA : Elementary A}
  (blk : SwinTransformerBlock.t A) (pm : PatchMerging.t A)
  (x mask_matrix : tensor A) (B L C : nat) (H W : Z) :
  shape x = [B; L; C] -> Z.of_nat L <> (H * W)%Z ->
  SwinTransformerBlock.forward (SwinTransformerBlock.set_resolution blk H W)
    x mask_matrix
  = Raise (AssertionError "input feature has wrong size") /\
  PatchMerging.forward pm x H W
  = Raise (AssertionError "input feature has wrong size").
Proof.
  intros Hs Hne.
  unfold SwinTransformerBlock.forward, PatchMerging.forward, zshape.
  rewrite Hs.
  cbn [map SwinTransformerBlock.set_resolution SwinTransformerBlock.H
       SwinTransformerBlock.W].
  destruct (Z.eqb_spec (Z.of_nat L) (H * W)); [contradiction|].
  split; reflexivity.
Qed.

Lemma wrong_token_count_is_rejected_witness :
  exists (blk : SwinTransformerBlock.t Rdefinitions.R)
         (pm : PatchMerging.t Rdefinitions.R),
    SwinTransformerBlock.forward (SwinTransformerBlock.set_resolution blk 2 2)
      (full_of [1; 3; 2] (Rdefinitions.IZR 0)) (full_of [1] (Rdefinitions.IZR 0))
    = Raise (AssertionError "input feature has wrong size") /\
    PatchMerging.forward pm (full_of [1; 3; 2] (Rdefinitions.IZR 0)) 2 2
    = Raise (AssertionError "input feature has wrong size").
Proof.
  let b := eval vm_compute in
    (SwinTransformerBlock.init (fun _ _ => Rdefinitions.IZR 0) "blocks.0" 2 1 2 0
       4%Q true None) in
  let d := eval vm_compute in
    (PatchMerging.init (fun _ _ => Rdefinitions.IZR 0) "downsample" 2) in
  match b with
  | Ok ?blk0 =>
      match d with
      | Ok ?pm0 =>
          exists blk0, pm0;
          exact (wrong_token_count_is_rejected blk0 pm0
                   (full_of [1; 3; 2] (Rdefinitions.IZR 0))
                   (full_of [1] (Rdefinitions.IZR 0)) 1 3 2 2 2 eq_refl
                   ltac:(discriminate))
      end
  end.
Defined.

Lemma padded_quotient (n k : nat) :
  0 < k -> (n + (k - n mod k) mod k) / k = (n + k - 1) / k.
Proof.
  intros Hk.
  pose proof (Nat.div_mod_eq n k) as Hn.
  pose proof (Nat.mod_upper_bound n k ltac:(lia)) as Hr.
  set (q := n / k) in *. set (r := n mod k) in *.
  assert (Hqk : k * q = q * k) by apply Nat.mul_comm.
  destruct (Nat.eq_dec r 0) as [E|E].
  - rewrite E, Nat.sub_0_r, Nat.Div0.mod_same, Nat.add_0_r.
    transitivity q.
    + symmetry. apply Nat.div_unique with 0; lia.
    + apply Nat.div_unique with (k - 1); lia.
  - rewrite (Nat.mod_small (k - r)) by lia.
    transitivity (q + 1).
    + symmetry. apply Nat.div_unique with 0; lia.
    + apply Nat.div_unique with (r - 1); lia.
Qed.

(** X6.  The attention mask that BasicLayer.forward builds for a stage
    (lines 204-217) exists for every resolution H x W: it has one
    ws*ws x ws*ws table per window of the grid padded up to multiples of
    the window size, ceil(H / ws) * ceil(W / ws) of them, and every entry
    is 0 or -100. *)
Theorem BasicLayer_attn_mask_any_grid
  {A : Type} {NA : Num A} {EA : Elementary A}
  (ps : params A) (name : string) (dim depth num_heads : Z) (ws : nat)
  (mlp_ratio : Q) (qkv_bias : bool) (qk_scale : option A) (downsample : bool)
  (m : BasicLayer.t A) (H W : nat) :
  BasicLayer.init ps name dim depth num_heads (Z.of_nat ws) mlp_ratio qkv_bias
    qk_scale downsample = Ok m ->
  0 < ws -> 0 < H -> 0 < W ->
  exists mask,
    BasicLayer.attn_mask m (Z.of_nat H) (Z.of_nat W) = Ok mask /\
    shape mask
    = [((H + ws - 1) / ws) * ((W + ws - 1) / ws); ws * ws; ws * ws] /\
    wf mask /\
    Forall (fun v => v = of_Q 0%Q \/ v = of_Q (-100)%Q) (data mask).
Proof.
  intros Hinit Hws HH HW.
  apply BasicLayer_init_inv in Hinit; [|assumption].
  destruct Hinit as (Hw & _).
  destruct (BasicLayer_attn_mask_spec m H W ws Hw Hws HH HW)
    as (mask & E & Hs & Hwf & Hv).
  exists mask. rewrite !padded_quotient in Hs by assumption. now repeat split.
Qed.

Lemma BasicLayer_attn_mask_any_grid_witness :
  exists (m : BasicLayer.t Rdefinitions.R) (mask : tensor Rdefinitions.R),
    BasicLayer.init (fun _ _ => Rdefinitions.IZR 0) "layers.0" 2 1 1 (Z.of_nat 2)
      4%Q true None false = Ok m /\
    BasicLayer.attn_mask m (Z.of_nat 3) (Z.of_nat 5) = Ok mask /\
    shape mask = [((3 + 2 - 1) / 2) * ((5 + 2 - 1) / 2); 2 * 2; 2 * 2] /\
    wf mask /\
    Forall (fun v => v = of_Q 0%Q \/ v = of_Q (-100)%Q) (data mask).
Proof.
  match goal with
  | |- exists m mask, ?e = Ok m /\ _ =>
      let v := eval vm_compute in e in
      match v with
      | Ok ?m0 =>
          assert (Hinit : e = Ok m0) by (vm_cast_no_check (eq_refl (Ok m0)));
          destruct (BasicLayer_attn_mask_any_grid
                      (fun _ _ => Rdefinitions.IZR 0) "layers.0" 2 1 1 2 4%Q true
                      None false m0 3 5 Hinit ltac:(lia) ltac:(lia) ltac:(lia))
            as (mask & Hmask);
          exists m0, mask; split; [exact Hinit | exact Hmask]
      end
  end.
Defined.

(** X7.  BasicLayer.forward (lines 203-225) of a stage whose head count
    divides its channel count C keeps the shape (B, H*W, C) of the tokens
    through all of its blocks, for every resolution, and returns them
    with the resolution; a stage with a downsample layer also returns the
    merged tokens, (B, ceil(H/2)*ceil(W/2), 2*C), with the halved
    resolution ((H+1)//2, (W+1)//2), and a stage without one returns
    tokens of the same shape (B, H*W, C) and the same resolution twice. *)
Theorem BasicLayer_forward_output_sizes
  {A : Type} {NA : Num A} {EA : Elementary A}
  (ps : params A) (name : string) (dim depth num_heads : Z) (ws : nat)
  (mlp_ratio : Q) (qkv_bias : bool) (qk_scale : option A) (downsample : bool)
  (m : BasicLayer.t A) (x : tensor A) (B H W : nat) :
  BasicLayer.init ps name dim depth num_heads (Z.of_nat ws) mlp_ratio qkv_bias
    qk_scale downsample = Ok m ->
  0 < ws -> (0 < dim)%Z -> (0 < num_heads)%Z -> (dim mod num_heads = 0)%Z ->
  0 < B -> 0 < H -> 0 < W ->
  wf x -> shape x = [B; H * W; Z.to_nat dim] ->
  exists x_out x_down,
    BasicLayer.forward m x (Z.of_nat H) (Z.of_nat W)
    = Ok (x_out, Z.of_nat H, Z.of_nat W, x_down,
          Z.of_nat (if downsample then (H + 1) / 2 else H),
          Z.of_nat (if downsample then (W + 1) / 2 else W)) /\
    shape x_out = [B; H * W; Z.to_nat dim] /\
    shape x_down
    = (if downsample
       then [B; ((H + 1) / 2) * ((W + 1) / 2); 2 * Z.to_nat dim]
       else [B; H * W; Z.to_nat dim]).
Proof.
  intros Hinit Hws Hdim Hheads Hdiv HB HH HW Hwf Hs.
  apply BasicLayer_init_inv in Hinit; [|assumption].
  apply Z.mod_divide in Hdiv; [|lia]. destruct Hdiv as [q Hq].
  assert (Hdn : Z.to_nat dim = Z.to_nat num_heads * Z.to_nat q) by nia.
  rewrite Hdn in *.
  destruct (BasicLayer_forward_shape m x B H W (Z.to_nat num_heads) (Z.to_nat q)
              ws downsample Hinit HB HH HW ltac:(nia) ltac:(lia) Hwf Hs)
    as (x_out & x_down & E & Hso & _ & _ & Hsd).
  exists x_out, x_down. now repeat split.
Qed.

Lemma BasicLayer_forward_output_sizes_witness :
  exists (m : BasicLayer.t Rdefinitions.R) (x_out x_down : tensor Rdefinitions.R),
    BasicLayer.init (fun _ _ => Rdefinitions.IZR 0) "layers.0" 2 2 1 (Z.of_nat 2)
      4%Q true None true = Ok m /\
    BasicLayer.forward m (full_of [1; 3 * 3; Z.to_nat 2] (Rdefinitions.IZR 0))
      (Z.of_nat 3) (Z.of_nat 3)
    = Ok (x_out, Z.of_nat 3, Z.of_nat 3, x_down,
          Z.of_nat ((3 + 1) / 2), Z.of_nat ((3 + 1) / 2)) /\
    shape x_out = [1; 3 * 3; Z.to_nat 2] /\
    shape x_down = [1; ((3 + 1) / 2) * ((3 + 1) / 2); 2 * Z.to_nat 2].
Proof.
  match goal with
  | |- exists m x_out x_down, ?e = Ok m /\ _ =>
      let v := eval vm_compute in e in
      match v with
      | Ok ?m0 =>
          assert (Hinit : e = Ok m0) by (vm_cast_no_check (eq_refl (Ok m0)));
          destruct (BasicLayer_forward_output_sizes
                      (fun _ _ => Rdefinitions.IZR 0) "layers.0" 2 2 1 2 4%Q true
                      None true m0
                      (full_of [1; 3 * 3; Z.to_nat 2] (Rdefinitions.IZR 0)) 1 3 3
                      Hinit ltac:(lia) ltac:(lia) ltac:(lia) eq_refl
                      ltac:(lia) ltac:(lia) ltac:(lia) eq_refl eq_refl)
            as (x_out & x_down & Hfw);
          exists m0, x_out, x_down; split; [exact Hinit | exact Hfw]
      end
  end.
Defined.

(** X8.  PatchEmbed.forward (lines 237-249) accepts an image of any height
    and width: it pads the right and bottom edges up to multiples of the
    patch size 4 and returns (N, embed_dim, ceil(H/4), ceil(W/4)). *)
Theorem PatchEmbed_forward_output_size
  {A : Type} {NA : Num A} {EA : Elementary A}
  (ps : params A) (name : string) (embed_dim : Z) (m : PatchEmbed.t A)
  (x : tensor A) (N H W : nat) :
  PatchEmbed.init ps name 4 3 embed_dim true = Ok m -> (0 < embed_dim)%Z ->
  wf x -> shape x = [N; 3; H; W] -> 0 < H -> 0 < W ->
  has_shape (PatchEmbed.forward m x)
    [N; Z.to_nat embed_dim; (H + 3) / 4; (W + 3) / 4].
Proof.
  intros Hinit Hdim Hwf Hs HH HW. apply PatchEmbed_init_inv in Hinit.
  apply PatchEmbed_forward_shape_padded; try assumption. lia.
Qed.

Lemma PatchEmbed_forward_output_size_witness :
  exists m : PatchEmbed.t Rdefinitions.R,
    PatchEmbed.init (fun _ _ => Rdefinitions.IZR 0) "patch_embed" 4 3 2 true = Ok m /\
    has_shape (PatchEmbed.forward m (full_of [1; 3; 5; 8] (Rdefinitions.IZR 0)))
      [1; Z.to_nat 2; (5 + 3) / 4; (8 + 3) / 4].
Proof.
  match goal with
  | |- exists m, ?e = Ok m /\ _ =>
      let v := eval vm_compute in e in
      match v with
      | Ok ?m0 =>
          assert (Hinit : e = Ok m0) by (vm_cast_no_check (eq_refl (Ok m0)));
          exists m0; split; [exact Hinit|];
          exact (PatchEmbed_forward_output_size
                   (fun _ _ => Rdefinitions.IZR 0) "patch_embed" 2 m0
                   (full_of [1; 3; 5; 8] (Rdefinitions.IZR 0)) 1 5 8
                   Hinit ltac:(lia) eq_refl eq_refl ltac:(lia) ltac:(lia))
      end
  end.
Defined.

(** X9.  The backbone as BEN_Base configures it (embed_dim 128, depths
    2, 2, 18, 2, heads 4, 8, 16, 32, window 12) is constructed without
    error, and SwinTransformer.forward (lines 297-314) returns five
    feature maps for an image batch (N, 3, H, W) of any size: the patch
    embedding and the output of the first stage at (N, 128, h, w) with
    h = ceil(H/4), w = ceil(W/4), then 256, 512 and 1024 channels, each at
    half the resolution of the one before, rounded up. *)
Theorem SwinTransformer_forward_feature_pyramid
  {A : Type} {NA : Num A} {EA : Elementary A}
  (ps : params A) (name : string) (x : tensor A) (N H W : nat) :
  wf x -> shape x = [N; 3; H; W] -> 0 < N -> 0 < H -> 0 < W ->
  let h := (H + 3) / 4 in let w := (W + 3) / 4 in
  let h1 := (h + 1) / 2 in let w1 := (w + 1) / 2 in
  let h2 := (h1 + 1) / 2 in let w2 := (w1 + 1) / 2 in
  let h3 := (h2 + 1) / 2 in let w3 := (w2 + 1) / 2 in
  exists m f0 f1 f2 f3 f4,
    SwinTransformer.init ps name 128 [2; 2; 18; 2]%Z [4; 8; 16; 32]%Z 12 = Ok m /\
    SwinTransformer.forward m x = Ok [f0; f1; f2; f3; f4] /\
    shape f0 = [N; 128; h; w] /\
    shape f1 = [N; 128; h; w] /\
    shape f2 = [N; 256; h1; w1] /\
    shape f3 = [N; 512; h2; w2] /\
    shape f4 = [N; 1024; h3; w3].
Proof.
  intros Hwf Hs HN HH HW h w h1 w1 h2 w2 h3 w3.
  destruct (SwinTransformer_init_succeeds ps name) as (m & Hinit).
  pose proof (SwinTransformer_init_inv ps name m Hinit) as Hok.
  destruct (SwinTransformer_forward_shape_padded m x N 4 32 12 H W Hok Hwf Hs
              HN ltac:(lia) ltac:(lia) HH HW)
    as (f0 & f1 & f2 & f3 & f4 & E & (H0 & _) & (H1 & _) & (H2 & _)
        & (H3 & _) & (H4 & _)).
  exists m, f0, f1, f2, f3, f4. split; [exact Hinit|]. split; [exact E|].
  change 128 with (4 * 32). change 256 with (2 * (4 * 32)).
  change 512 with (4 * (4 * 32)). change 1024 with (8 * (4 * 32)).
  now repeat split.
Qed.

Lemma SwinTransformer_forward_feature_pyramid_witness :
  exists (m : SwinTransformer.t Rdefinitions.R)
         (f0 f1 f2 f3 f4 : tensor Rdefinitions.R),
    SwinTransformer.init (fun _ _ => Rdefinitions.IZR 0) "backbone" 128
      [2; 2; 18; 2]%Z [4; 8; 16; 32]%Z 12 = Ok m /\
    SwinTransformer.forward m (full_of [1; 3; 9; 5] (Rdefinitions.IZR 0))
    = Ok [f0; f1; f2; f3; f4] /\
    shape f0 = [1; 128; (9 + 3) / 4; (5 + 3) / 4] /\
    shape f1 = [1; 128; (9 + 3) / 4; (5 + 3) / 4] /\
    shape f2 = [1; 256; ((9 + 3) / 4 + 1) / 2; ((5 + 3) / 4 + 1) / 2] /\
    shape f3
    = [1; 512; (((9 + 3) / 4 + 1) / 2 + 1) / 2; (((5 + 3) / 4 + 1) / 2 + 1) / 2] /\
    shape f4
    = [1; 1024; ((((9 + 3) / 4 + 1) / 2 + 1) / 2 + 1) / 2;
       ((((5 + 3) / 4 + 1) / 2 + 1) / 2 + 1) / 2].
Proof.
  exact (SwinTransformer_forward_feature_pyramid
           (fun _ _ => Rdefinitions.IZR 0) "backbone"
           (full_of [1; 3; 9; 5] (Rdefinitions.IZR 0)) 1 9 5
           eq_refl eq_refl ltac:(lia) ltac:(lia) ltac:(lia)).
Defined.

Lemma Qfloor_half_down (n : nat) :
  Qfloor (inject_Z (Z.of_nat n) * (1 # 2)) = Z.of_nat (n / 2).
Proof.
  unfold Qfloor, Qmult, inject_Z. cbn [Qnum Qden Pos.mul].
  rewrite Z.mul_1_r, Nat2Z.inj_div. reflexivity.
Qed.

(** X10.  A block built by make_cbr or make_cbg (lines 321-325: a 3 x 3
    convolution with padding 1, an instance normalisation and a GELU)
    changes the channel count from in_dim to out_dim and keeps the
    height and width, on every feature map with more than one pixel; a
    1 x 1 feature map is rejected by the instance normalisation. *)
Theorem make_cbr_keeps_resolution
  {A : Type} {NA : Num A} {EA : Elementary A}
  (ps : params A) (name : string) (in_dim out_dim : Z) (m : Conv2d A)
  (x : tensor A) (N H W : nat) :
  make_cbr ps name in_dim out_dim = Ok m \/ make_cbg ps name in_dim out_dim = Ok m ->
  shape x = [N; Z.to_nat in_dim; H; W] -> 0 < H -> 0 < W ->
  (H * W <> 1 ->
   has_shape (cbr_forward m x) [N; Z.to_nat out_dim; H; W]) /\
  (H * W = 1 ->
   cbr_forward m x
   = Raise (ValueError "expected more than 1 spatial element")).
Proof.
  intros Hm Hs HH HW.
  assert (Hok : Conv2d_ok m (Z.to_nat in_dim) (Z.to_nat out_dim) (3, 3) (1, 1) (1, 1)).
  { destruct Hm as [Hm|Hm]; [now apply (make_cbr_inv ps name)
                            |now apply (make_cbg_inv ps name)]. }
  unfold cbr_forward.
  destruct (conv3x3_forward_shape m x _ _ N H W Hok Hs HH HW)
    as (y & -> & Hs_y & Hw_y).
  ok_step. split.
  - intros Hne.
    step_as (InstanceNorm2d_forward_shape y N _ H W Hs_y Hne) z.
    apply has_shape_Ok; [exact Hs_z|]. unfold GELU_forward. now apply wf_map_t.
  - intros E1. unfold InstanceNorm2d_forward. rewrite Hs_y, E1. reflexivity.
Qed.

Lemma make_cbr_keeps_resolution_witness :
  exists m : Conv2d Rdefinitions.R,
    make_cbr (fun _ _ => Rdefinitions.IZR 0) "output1" 2 3 = Ok m /\
    has_shape (cbr_forward m (full_of [1; Z.to_nat 2; 1; 2] (Rdefinitions.IZR 0)))
      [1; Z.to_nat 3; 1; 2] /\
    cbr_forward m (full_of [1; Z.to_nat 2; 1; 1] (Rdefinitions.IZR 0))
    = Raise (ValueError "expected more than 1 spatial element").
Proof.
  match goal with
  | |- exists m, ?e = Ok m /\ _ =>
      let v := eval vm_compute in e in
      match v with
      | Ok ?m0 =>
          assert (Hinit : e = Ok m0) by (vm_cast_no_check (eq_refl (Ok m0)));
          exists m0; split; [exact Hinit|]; split;
          [ exact (proj1 (make_cbr_keeps_resolution
                            (fun _ _ => Rdefinitions.IZR 0) "output1" 2 3 m0
                            (full_of [1; Z.to_nat 2; 1; 2] (Rdefinitions.IZR 0))
                            1 1 2 (or_introl Hinit) eq_refl
                            ltac:(lia) ltac:(lia)) ltac:(discriminate))
          | exact (proj2 (make_cbr_keeps_resolution
                            (fun _ _ => Rdefinitions.IZR 0) "output1" 2 3 m0
                            (full_of [1; Z.to_nat 2; 1; 1] (Rdefinitions.IZR 0))
                            1 1 1 (or_introl Hinit) eq_refl
                            ltac:(lia) ltac:(lia)) eq_refl) ]
      end
  end.
Defined.

(** X11.  rescale_to and resize_as (lines 327-331) keep the batch and
    channel sizes of a non-empty 4D input: resize_as gives it the height
    and width of its second argument, rescale_to with factor 2 doubles
    both sizes and, when both are at least 2, rescale_to with factor 1/2
    halves them, rounding down. *)
Theorem resize_as_rescale_to_sizes
  {A : Type} {NA : Num A}
  (x y : tensor A) (N C H W : nat) (pre : list nat) (h w : nat)
  (mode : interp_mode) :
  shape x = [N; C; H; W] -> shape y = pre ++ [h; w] ->
  0 < C -> 0 < H -> 0 < W -> 0 < h -> 0 < w ->
  has_shape (resize_as x y mode) [N; C; h; w] /\
  has_shape (rescale_to x 2 mode) [N; C; 2 * H; 2 * W] /\
  (1 < H -> 1 < W -> has_shape (rescale_to x (1 # 2) mode) [N; C; H / 2; W / 2]).
Proof.
  intros Hx Hy HC HH HW Hh Hw. split; [|split].
  - now apply (resize_as_shape x y N C H W pre).
  - now apply rescale_to_double_shape.
  - intros H1 W1. unfold rescale_to.
    apply (interpolate_scale_shape x N C H W (H / 2) (W / 2)); try assumption;
      try apply Qfloor_half_down; apply Nat.div_str_pos; lia.
Qed.

Lemma resize_as_rescale_to_sizes_witness :
  has_shape (resize_as (full_of [1; 2; 3; 5] 0%Q) (full_of [7; 4; 6] 0%Q) Bilinear)
    [1; 2; 4; 6] /\
  has_shape (rescale_to (full_of [1; 2; 3; 5] 0%Q) 2 Bilinear) [1; 2; 2 * 3; 2 * 5] /\
  has_shape (rescale_to (full_of [1; 2; 3; 5] 0%Q) (1 # 2) Bilinear)
    [1; 2; 3 / 2; 5 / 2].
Proof.
  destruct (resize_as_rescale_to_sizes
              (full_of [1; 2; 3; 5] 0%Q) (full_of [7; 4; 6] 0%Q) 1 2 3 5 [7] 4 6
              Bilinear eq_refl eq_refl ltac:(lia) ltac:(lia) ltac:(lia)
              ltac:(lia) ltac:(lia)) as (H1 & H2 & H3).
  split; [exact H1|]. split; [exact H2|]. apply H3; lia.
Defined.

Section QuadrantFacts.
Context {A : Type} {DA : Default A}.

Lemma image2patches_get (x : tensor A) (b c h w : nat) :
  shape x = [b; c; 2 * h; 2 * w] ->
  exists p,
    image2patches x = Ok p /\ shape p = [4 * b; c; h; w] /\
    forall hg wg bi ci y z,
      hg < 2 -> wg < 2 -> bi < b -> ci < c -> y < h -> z < w ->
      get p [(hg * 2 + wg) * b + bi; ci; y; z]
      = get x [bi; ci; hg * h + y; wg * w + z].
Proof.
  intros Hs. rewrite (image2patches_spec x b c h w Hs).
  eexists. split; [reflexivity|]. split; [reflexivity|].
  intros hg wg bi ci y z Hhg Hwg Hbi Hci Hy Hz.
  unfold get at 1. cbn [shape data].
  replace (ravel [4 * b; c; h; w] [(hg * 2 + wg) * b + bi; ci; y; z])
    with (ravel [2; 2; b; c; h; w] [hg; wg; bi; ci; y; z])
    by (unfold numel; cbn [ravel numel fold_right]; ring).
  change (nth (ravel [2; 2; b; c; h; w] [hg; wg; bi; ci; y; z])
              (data (tabulate [2; 2; b; c; h; w] ?f)) dflt)
    with (get (tabulate [2; 2; b; c; h; w] f) [hg; wg; bi; ci; y; z]).
  rewrite get_tabulate by solve_range.
  unfold get. cbn [shape data]. rewrite Hs. f_equal.
  unfold permute_index. cbn [length seq map index_of Nat.eqb nth].
  cbn [ravel]. unfold numel. cbn [fold_right]. ring.
Qed.

End QuadrantFacts.

Section QuadrantFailures.
Context {A : Type} {DA : Default A}.

Lemma image2patches_odd (x : tensor A) (b c H W : nat) :
  shape x = [b; c; H; W] -> ~ (H mod 2 = 0 /\ W mod 2 = 0) ->
  image2patches x = Raise (EinopsError "can't divide axis").
Proof.
  intros Hs Hodd. unfold image2patches, rearrange. rewrite Hs.
  cbn [infer_axes infer_group filter lookup_axis String.eqb Ascii.eqb Bool.eqb
       group_size fold_right axis_size map].
  change (2 * (1 * 1)) with 2. change (1 * 1) with 1.
  rewrite !Nat.mod_1_r. cbn [Nat.eqb bind].
  destruct (Nat.eqb_spec (H mod 2) 0) as [EH|EH]; [|reflexivity].
  destruct (Nat.eqb_spec (W mod 2) 0) as [EW|EW]; [|reflexivity].
  tauto.
Qed.

Lemma patches2image_batch_not_multiple_of_4 (x : tensor A) (n c h w : nat) :
  shape x = [n; c; h; w] -> n mod 4 <> 0 ->
  patches2image x = Raise (EinopsError "can't divide axis").
Proof.
  intros Hs Hn. unfold patches2image, rearrange. rewrite Hs.
  cbn [infer_axes infer_group filter lookup_axis String.eqb Ascii.eqb Bool.eqb
       group_size fold_right axis_size map].
  change (2 * (2 * (1 * 1))) with 4. cbn [Nat.eqb bind].
  destruct (Nat.eqb_spec (n mod 4) 0) as [E|E]; [contradiction|reflexivity].
Qed.

End QuadrantFailures.

(** X12.  image2patches (lines 333-334) cuts every image of a batch
    (b, c, 2h, 2w) into its four h x w quadrants and stacks them along the
    batch axis, quadrant-major: entry (hg*2 + wg)*b + i of the result is
    the quadrant in row hg and column wg of image i, so that for one
    image the order is top-left, top-right, bottom-left, bottom-right. *)
Theorem image2patches_quadrants
  {A : Type} {DA : Default A} (x : tensor A) (b c h w : nat) :
  shape x = [b; c; 2 * h; 2 * w] ->
  exists p,
    image2patches x = Ok p /\ shape p = [4 * b; c; h; w] /\
    forall hg wg i ci y z,
      hg < 2 -> wg < 2 -> i < b -> ci < c -> y < h -> z < w ->
      get p [(hg * 2 + wg) * b + i; ci; y; z]
      = get x [i; ci; hg * h + y; wg * w + z].
Proof. apply image2patches_get. Qed.

Lemma image2patches_quadrants_witness :
  exists p,
    image2patches (mkT [1; 1; 2 * 1; 2 * 2] [1; 2; 3; 4; 5; 6; 7; 8]%Z) = Ok p /\
    shape p = [4 * 1; 1; 1; 2] /\
    forall hg wg i ci y z,
      hg < 2 -> wg < 2 -> i < 1 -> ci < 1 -> y < 1 -> z < 2 ->
      get p [(hg * 2 + wg) * 1 + i; ci; y; z]
      = get (mkT [1; 1; 2 * 1; 2 * 2] [1; 2; 3; 4; 5; 6; 7; 8]%Z)
          [i; ci; hg * 1 + y; wg * 2 + z].
Proof.
  exact (image2patches_quadrants
           (mkT [1; 1; 2 * 1; 2 * 2] [1; 2; 3; 4; 5; 6; 7; 8]%Z) 1 1 1 2 eq_refl).
Defined.

(** X13.  image2patches rejects an image whose height or width is odd, and
    patches2image (lines 336-337) rejects a batch whose length is not a
    multiple of four: einops cannot divide the axis. *)
Theorem quadrant_split_needs_divisible_axes
  {A : Type} {DA : Default A} (x : tensor A) (n c H W : nat) :
  shape x = [n; c; H; W] ->
  (~ (H mod 2 = 0 /\ W mod 2 = 0) ->
   image2patches x = Raise (EinopsError "can't divide axis")) /\
  (n mod 4 <> 0 ->
   patches2image x = Raise (EinopsError "can't divide axis")).
Proof.
  intros Hs. split.
  - now apply (image2patches_odd x n c H W).
  - now apply (patches2image_batch_not_multiple_of_4 x n c H W).
Qed.

Lemma quadrant_split_needs_divisible_axes_witness :
  image2patches (full_of [3; 1; 4; 5] 0%Z) = Raise (EinopsError "can't divide axis") /\
  patches2image (full_of [3; 1; 4; 5] 0%Z) = Raise (EinopsError "can't divide axis").
Proof.
  destruct (quadrant_split_needs_divisible_axes (full_of [3; 1; 4; 5] 0%Z)
              3 1 4 5 eq_refl) as (H1 & H2).
  split; [apply H1; intros (_ & E); discriminate E | apply H2; discriminate].
Defined.

(** ** The tiles of the input batch *)

Section TileFacts.
Context {A : Type} {NA : Num A}.

Lemma getitem_row_get (x : tensor A) (i n a b c : nat) :
  shape x = [n; a; b; c] -> i < n ->
  exists r,
    getitem x [At (Z.of_nat i); full; full; full] = Ok r /\
    shape r = [a; b; c] /\ wf r /\
    forall j y z, j < a -> y < b -> z < c ->
      get r [j; y; z] = get x [i; j; y; z].
Proof.
  intros Hs Hi. unfold getitem. rewrite Hs. cbn [index_plan full].
  rewrite at_sel_nat by assumption. rewrite !slice_sel_full.
  cbn [bind map plan_shape flat_map app].
  eexists. split; [reflexivity|]. split; [reflexivity|].
  split; [apply wf_tabulate|].
  intros j y z Hj Hy Hz. rewrite get_tabulate by solve_range.
  cbn [plan_source]. now rewrite !Nat.mul_1_l.
Qed.

Lemma unsqueeze0_get (t : tensor A) (s : list nat) :
  wf t -> shape t = s ->
  exists u,
    unsqueeze t 0 = Ok u /\ shape u = 1 :: s /\ wf u /\
    forall idx, get u (0 :: idx) = get t idx.
Proof.
  intros Hwf Hs. unfold unsqueeze. rewrite normal_dim_0. ok_step.
  cbn [firstn skipn app]. eexists. split; [reflexivity|].
  split; [now rewrite Hs|].
  split; [unfold wf in *; cbn [shape data numel fold_right]; fold (numel (shape t)); lia|].
  intros idx. unfold get. cbn [shape data ravel]. now rewrite Nat.mul_0_l.
Qed.

Lemma cat_rows2_get (a b : tensor A) (na nb : nat) (post : list nat) :
  shape a = na :: post -> shape b = nb :: post ->
  exists c,
    cat [a; b] 0 = Ok c /\ shape c = (na + nb) :: post /\ wf c /\
    forall r idx, in_range idx post ->
      (r < na -> get c (r :: idx) = get a (r :: idx)) /\
      (r < nb -> get c ((na + r) :: idx) = get b (r :: idx)).
Proof.
  intros Ha Hb.
  pose proof (cat_shape [a; b] [] post [na; nb] ltac:(discriminate)) as Hc.
  cbn [map app length] in Hc. rewrite Ha, Hb in Hc. specialize (Hc eq_refl).
  change (Z.of_nat 0) with 0%Z in Hc. unfold list_sum in Hc.
  cbn [fold_right] in Hc. rewrite Nat.add_0_r in Hc.
  destruct Hc as (c & E & Hs & Hw). exists c. split; [exact E|].
  split; [exact Hs|]. split; [exact Hw|].
  unfold cat in E. rewrite Ha in E. cbn [length] in E.
  rewrite normal_dim_0 in E. cbn [bind] in E.
  destruct (forallb _ _); [|discriminate]. injection E as <-.
  intros r idx Hr. split; intros Hlt.
  - rewrite get_tabulate.
    + cbn [cat_source nth]. rewrite Ha. cbn [nth].
      destruct (Nat.ltb_spec r na); [reflexivity|lia].
    + rewrite shape_tabulate in Hs. rewrite Hs. constructor; [lia|assumption].
  - rewrite get_tabulate.
    + cbn [cat_source nth firstn skipn app]. rewrite Ha, Hb. cbn [nth].
      destruct (Nat.ltb_spec (na + r) na); [lia|].
      replace (na + r - na) with r by lia.
      destruct (Nat.ltb_spec r nb); [reflexivity|lia].
    + rewrite shape_tabulate in Hs. rewrite Hs. constructor; [lia|assumption].
Qed.

Lemma tiles_get (x glb : tensor A) (i B Sz : nat) :
  shape x = [B; 3; 2 * Sz; 2 * Sz] -> shape glb = [B; 3; Sz; Sz] -> i < B ->
  exists t,
    BEN_Base.tiles x glb (Z.of_nat i) = Ok t /\
    shape t = [5; 3; Sz; Sz] /\ wf t /\
    forall c y z, c < 3 -> y < Sz -> z < Sz ->
      (forall hg wg, hg < 2 -> wg < 2 ->
         get t [hg * 2 + wg; c; y; z] = get x [i; c; hg * Sz + y; wg * Sz + z]) /\
      get t [4; c; y; z] = get glb [i; c; y; z].
Proof.
  intros Hx Hg Hi. unfold BEN_Base.tiles.
  destruct (getitem_row_get x i B 3 (2 * Sz) (2 * Sz) Hx Hi)
    as (xi & -> & Hs_xi & Hw_xi & Gxi). ok_step.
  destruct (unsqueeze0_get xi _ Hw_xi Hs_xi) as (xu & -> & Hs_xu & Hw_xu & Gxu).
  ok_step.
  destruct (image2patches_get xu 1 3 Sz Sz Hs_xu) as (loc & -> & Hs_loc & Gloc).
  ok_step.
  destruct (getitem_row_get glb i B 3 Sz Sz Hg Hi)
    as (gi & -> & Hs_gi & Hw_gi & Ggi). ok_step.
  destruct (unsqueeze0_get gi _ Hw_gi Hs_gi) as (gu & -> & Hs_gu & Hw_gu & Ggu).
  ok_step.
  rewrite Nat.mul_1_r in Hs_loc.
  destruct (cat_rows2_get loc gu 4 1 [3; Sz; Sz] Hs_loc Hs_gu)
    as (t & -> & Hs_t & Hw_t & Gt).
  exists t. split; [reflexivity|]. split; [exact Hs_t|]. split; [exact Hw_t|].
  intros c y z Hc Hy Hz.
  assert (Hr : in_range [c; y; z] [3; Sz; Sz]) by solve_range.
  split.
  - intros hg wg Hhg Hwg.
    rewrite (proj1 (Gt (hg * 2 + wg) [c; y; z] Hr)) by lia.
    replace (hg * 2 + wg) with ((hg * 2 + wg) * 1 + 0) by lia.
    rewrite Gloc by lia. rewrite Gxu. apply Gxi; [assumption|nia|nia].
  - change 4 with (4 + 0) at 1.
    rewrite (proj2 (Gt 0 [c; y; z] Hr)) by lia.
    rewrite Ggu. now apply Ggi.
Qed.

Lemma build_input_steps_get (x glb : tensor A) (B Sz : nat) :
  shape x = [B; 3; 2 * Sz; 2 * Sz] -> shape glb = [B; 3; Sz; Sz] ->
  let laid_out (f : tensor A) (a : nat) :=
    shape f = [5 * a; 3; Sz; Sz] /\ wf f /\
    forall i c y z, i < a -> c < 3 -> y < Sz -> z < Sz ->
      (forall hg wg, hg < 2 -> wg < 2 ->
         get f [5 * i + (hg * 2 + wg); c; y; z]
         = get x [i; c; hg * Sz + y; wg * Sz + z]) /\
      get f [5 * i + 4; c; y; z] = get glb [i; c; y; z] in
  forall n a acc,
    a + n <= B ->
    match acc with
    | None => a = 0
    | Some f => 0 < a /\ laid_out f a
    end ->
    exists acc',
      foldM (BEN_Base.input_step x glb) (map Z.of_nat (seq a n)) acc = Ok acc' /\
      match acc' with
      | None => a + n = 0
      | Some f => 0 < a + n /\ laid_out f (a + n)
      end.
Proof.
  intros Hx Hg laid_out. induction n as [|n IH]; intros a acc Hle Hacc.
  - exists acc. cbn [seq map foldM]. split; [reflexivity|].
    rewrite Nat.add_0_r. exact Hacc.
  - cbn [seq map foldM]. unfold BEN_Base.input_step at 1.
    destruct (tiles_get x glb a B Sz Hx Hg ltac:(lia))
      as (t & -> & Hs_t & Hw_t & Gt). ok_step.
    assert (Hstep : forall f, laid_out f (S a) ->
              exists acc',
                foldM (BEN_Base.input_step x glb) (map Z.of_nat (seq (S a) n))
                  (Some f) = Ok acc' /\
                match acc' with
                | None => a + S n = 0
                | Some f' => 0 < a + S n /\ laid_out f' (a + S n)
                end).
    { intros f Hf.
      destruct (IH (S a) (Some f)) as (acc' & E & Hacc'); [lia| |].
      { split; [lia|exact Hf]. }
      exists acc'. split; [exact E|].
      now replace (a + S n) with (S a + n) by lia. }
    destruct acc as [f|].
    + destruct Hacc as (Ha & Hsf & Hwf & Gf).
      destruct (cat_rows2_get f t (5 * a) 5 [3; Sz; Sz] Hsf Hs_t)
        as (c & -> & Hs_c & Hw_c & Gc).
      ok_step. cbn [bind]. apply Hstep. unfold laid_out.
      split; [rewrite Hs_c; f_equal; lia|]. split; [exact Hw_c|].
      intros i ch y z Hi Hch Hy Hz.
      assert (Hr : in_range [ch; y; z] [3; Sz; Sz]) by solve_range.
      destruct (Nat.eq_dec i a) as [->|Hne].
      * destruct (Gt ch y z Hch Hy Hz) as (Gq & Gg). split.
        -- intros hg wg Hhg Hwg.
           rewrite (proj2 (Gc (hg * 2 + wg) [ch; y; z] Hr)) by lia.
           now apply Gq.
        -- rewrite (proj2 (Gc 4 [ch; y; z] Hr)) by lia. exact Gg.
      * destruct (Gf i ch y z ltac:(lia) Hch Hy Hz) as (Gq & Gg). split.
        -- intros hg wg Hhg Hwg.
           rewrite (proj1 (Gc (5 * i + (hg * 2 + wg)) [ch; y; z] Hr)) by lia.
           now apply Gq.
        -- rewrite (proj1 (Gc (5 * i + 4) [ch; y; z] Hr)) by lia. exact Gg.
    + subst a. cbn [bind]. apply Hstep. unfold laid_out.
      split; [exact Hs_t|]. split; [exact Hw_t|].
      intros i ch y z Hi Hch Hy Hz. replace i with 0 by lia.
      destruct (Gt ch y z Hch Hy Hz) as (Gq & Gg). split.
      * intros hg wg Hhg Hwg. rewrite Nat.mul_0_r, Nat.add_0_l. now apply Gq.
      * rewrite Nat.mul_0_r, Nat.add_0_l. exact Gg.
Qed.

End TileFacts.

Section DecoderFailures.
Context {A : Type} {NA : Num A} {EA : Elementary A}.

Lemma MCRM_forward_needs_five_rows (m : MCRM.t A) (x : tensor A)
  (n c h w : nat) :
  shape x = [n; c; h; w] -> n <> 5 ->
  MCRM.forward m x
  = Raise (RuntimeError
             "split_with_sizes expects split_sizes to sum exactly to the size of the dimension").
Proof.
  intros Hs Hn. unfold MCRM.forward. rewrite (zshape4 x _ _ _ _ Hs).
  unfold split. rewrite Hs. cbn [length]. rewrite normal_dim_0. ok_step.
  cbn [existsb Z.ltb Z.compare orb fold_right nth].
  destruct (Z.eqb_spec (4 + (1 + 0)) (Z.of_nat n)); [lia|reflexivity].
Qed.

Lemma rescale_to_half_too_small (x : tensor A) (N C H W : nat)
  (mode : interp_mode) :
  shape x = [N; C; H; W] -> 0 < C -> 0 < H -> 0 < W -> H = 1 \/ W = 1 ->
  rescale_to x (1 # 2) mode
  = Raise (RuntimeError "input and output sizes should be greater than 0").
Proof.
  intros Hs HC HH HW Hone. unfold rescale_to, interpolate.
  rewrite Hs, !Qfloor_half_down. cbn [bind].
  destruct (Nat.eqb_spec C 0); [lia|]. destruct (Nat.eqb_spec H 0); [lia|].
  destruct (Nat.eqb_spec W 0); [lia|]. cbn [orb].
  destruct Hone as [->| ->]; change (1 / 2) with 0; cbn [Z.of_nat].
  - reflexivity.
  - destruct (Z.of_nat (H / 2) <=? 0)%Z; reflexivity.
Qed.

Lemma BEN_Base_forward_no_image (m : BEN_Base.t A) (x : tensor A) (H W : nat) :
  BEN_Base_ok m -> shape x = [0; 3; H; W] -> 0 < H -> 0 < W ->
  BEN_Base.forward m x
  = if (1 <? H) && (1 <? W)
    then Raise (AttributeError "NoneType object has no attribute size")
    else Raise (RuntimeError "input and output sizes should be greater than 0").
Proof.
  intros Hok Hs HH HW.
  pose proof Hok as (_ & _ & _ & _ & _ & _ & _ & _ & _ & _ & _ & _ & _ & _
                     & _ & _ & Hsh & _).
  unfold BEN_Base.forward, size_at. rewrite Hs. cbn [length].
  rewrite normal_dim_0. ok_step. ok_step. cbn [nth].
  step_as (conv3x3_forward_shape _ x _ _ 0 H W Hsh Hs ltac:(lia) ltac:(lia)) sh.
  destruct (Nat.ltb_spec 1 H) as [H1|H1]; [destruct (Nat.ltb_spec 1 W) as [W1|W1]|];
    cbn [andb].
  - unfold rescale_to.
    step_as (interpolate_scale_shape x 0 3 H W (H / 2) (W / 2) (1 # 2) Bilinear Hs
               ltac:(lia) ltac:(lia) ltac:(lia) (Qfloor_half_down H)
               (Qfloor_half_down W) ltac:(apply Nat.div_str_pos; lia)
               ltac:(apply Nat.div_str_pos; lia)) glb.
    reflexivity.
  - rewrite (rescale_to_half_too_small x 0 3 H W Bilinear Hs) by lia.
    reflexivity.
  - rewrite (rescale_to_half_too_small x 0 3 H W Bilinear Hs) by lia.
    reflexivity.
Qed.

End DecoderFailures.

Section UnitInterval.
Import Reals.
Local Open Scope R_scope.

Lemma unit_interval_default : 0 <= (dflt : R) <= 1.
Proof. change (dflt : R) with (Q2R 0). rewrite Q2R_zero. Lra.lra. Qed.

Lemma unit_interval_sigmoid (u : R) : 0 <= sigmoid u <= 1.
Proof. pose proof (sigmoid_R_range u). Lra.lra. Qed.

End UnitInterval.

(** X14.  PositionEmbeddingSine (lines 339-367): the constructor rejects a
    scale given without normalisation; a normalised embedding with an even
    number 2n of features per axis gives, for a b x h x w grid, a tensor
    (b, 4n, h, w): 2n features for the rows followed by 2n for the
    columns. *)
Theorem PositionEmbeddingSine_output_shape
  {A : Type} {NA : Num A} {EA : Elementary A}
  (n : nat) (temperature : Z) (b h w : nat) :
  0 < h -> 0 < w ->
  (exists m,
     PositionEmbeddingSine.init (Z.of_nat (2 * n)) temperature true None = Ok m /\
     has_shape (PositionEmbeddingSine.call (A := A) m
                  (Z.of_nat b) (Z.of_nat h) (Z.of_nat w))
       [b; 2 * n + 2 * n; h; w]) /\
  (forall num_pos_feats scale,
     PositionEmbeddingSine.init num_pos_feats temperature false (Some scale)
     = Raise (ValueError "normalize should be True if scale is passed")).
Proof.
  intros Hh Hw. split; [|reflexivity].
  destruct (PositionEmbeddingSine_init_succeeds (Z.of_nat (2 * n)) temperature)
    as (m & Hinit); [lia|].
  exists m. split; [exact Hinit|].
  apply PositionEmbeddingSine_init_inv in Hinit. destruct Hinit as (Hn & Hd).
  rewrite Nat2Z.id in Hd. now apply PositionEmbeddingSine_call_shape.
Qed.

Lemma PositionEmbeddingSine_output_shape_witness :
  exists m,
    PositionEmbeddingSine.init (Z.of_nat (2 * 1)) 10000 true None = Ok m /\
    has_shape (PositionEmbeddingSine.call (A := Rdefinitions.R) m
                 (Z.of_nat 1) (Z.of_nat 2) (Z.of_nat 3))
      [1; 2 * 1 + 2 * 1; 2; 3].
Proof.
  exact (proj1 (PositionEmbeddingSine_output_shape (A := Rdefinitions.R)
                  1 10000 1 2 3 ltac:(lia) ltac:(lia))).
Defined.

(** X15.  MCLM (lines 369-427), with one head as BEN_Base builds it and a
    model width that is a multiple of four, is constructed without error
    and maps the four local feature maps l, (4, d, H, W), and the global
    one g, (1, d, H, W), to a tensor (5, d, H, W), for even H and W and
    pool ratios that leave at least one pooled row and column. *)
Theorem MCLM_forward_output_shape
  {A : Type} {NA : Num A} {EA : Elementary A}
  (ps : params A) (name : string) (n h w : nat) (pool_ratios : list Z)
  (l g : tensor A) :
  0 < n -> 0 < h -> 0 < w -> pool_ratios <> [] ->
  Forall (pool_ratio_ok (Z.of_nat (2 * h)) (Z.of_nat (2 * w))) pool_ratios ->
  shape l = [4; 4 * n; 2 * h; 2 * w] -> shape g = [1; 4 * n; 2 * h; 2 * w] ->
  exists m,
    MCLM.init ps name (Z.of_nat (4 * n)) 1 pool_ratios = Ok m /\
    has_shape (MCLM.forward m l g) [5; 4 * n; 2 * h; 2 * w].
Proof.
  intros Hn Hh Hw Hne Hr Hl Hg.
  destruct (MCLM_init_succeeds ps name (Z.of_nat (4 * n)) pool_ratios)
    as (m & Hinit); [lia|].
  exists m. split; [exact Hinit|].
  destruct (MCLM_init_inv ps name _ n pool_ratios m eq_refl Hinit) as (Hok & Hp).
  apply (MCLM_forward_shape m (4 * n) n h w); try assumption; try lia;
    now rewrite Hp.
Qed.

Lemma MCLM_forward_output_shape_witness :
  exists m : MCLM.t Rdefinitions.R,
    MCLM.init (fun _ _ => Rdefinitions.IZR 0) "multifieldcrossatt"
      (Z.of_nat (4 * 1)) 1 [1; 2]%Z = Ok m /\
    has_shape
      (MCLM.forward m (full_of [4; 4 * 1; 2 * 1; 2 * 1] (Rdefinitions.IZR 0))
         (full_of [1; 4 * 1; 2 * 1; 2 * 1] (Rdefinitions.IZR 0)))
      [5; 4 * 1; 2 * 1; 2 * 1].
Proof.
  apply (MCLM_forward_output_shape (fun _ _ => Rdefinitions.IZR 0)
           "multifieldcrossatt" 1 1 1 [1; 2]%Z
           (full_of [4; 4 * 1; 2 * 1; 2 * 1] (Rdefinitions.IZR 0))
           (full_of [1; 4 * 1; 2 * 1; 2 * 1] (Rdefinitions.IZR 0)));
    try lia; try discriminate; try reflexivity.
  repeat constructor.
Defined.

(** X16.  MCRM (lines 429-472), with one head as BEN_Base builds it, is
    constructed without error and returns a tensor of the shape
    (5, d, H, W) of its input, for even H and W and pool ratios that leave
    at least one pooled row and column; an input whose first axis is not
    the four local maps and the global one is rejected by the split. *)
Theorem MCRM_forward_output_shape
  {A : Type} {NA : Num A} {EA : Elementary A}
  (ps : params A) (name : string) (d rows h w : nat) (pool_ratios : list Z)
  (x : tensor A) :
  0 < d -> 0 < h -> 0 < w -> pool_ratios <> [] ->
  Forall (pool_ratio_ok (Z.of_nat (2 * h)) (Z.of_nat (2 * w))) pool_ratios ->
  shape x = [rows; d; 2 * h; 2 * w] ->
  exists m,
    MCRM.init ps name (Z.of_nat d) 1 pool_ratios = Ok m /\
    (rows = 5 ->
     exists out tam,
       MCRM.forward m x = Ok (out, tam) /\ shape out = [5; d; 2 * h; 2 * w]) /\
    (rows <> 5 ->
     MCRM.forward m x
     = Raise (RuntimeError
                "split_with_sizes expects split_sizes to sum exactly to the size of the dimension")).
Proof.
  intros Hd Hh Hw Hne Hr Hs.
  destruct (MCRM_init_succeeds ps name (Z.of_nat d) pool_ratios)
    as (m & Hinit); [lia|].
  exists m. split; [exact Hinit|].
  destruct (MCRM_init_inv ps name (Z.of_nat d) pool_ratios m ltac:(lia) Hinit)
    as (Hok & Hp).
  rewrite Nat2Z.id in Hok. split.
  - intros ->.
    destruct (MCRM_forward_shape m d h w x Hok Hd Hh Hw) as (out & tam & E & Ho & _);
      try assumption; try (now rewrite Hp).
    now exists out, tam.
  - intros Hrows. now apply (MCRM_forward_needs_five_rows m x rows d (2 * h) (2 * w)).
Qed.

Lemma MCRM_forward_output_shape_witness :
  exists m : MCRM.t Rdefinitions.R,
    MCRM.init (fun _ _ => Rdefinitions.IZR 0) "dec_blk1" (Z.of_nat 2) 1 [2]%Z = Ok m /\
    exists out tam,
      MCRM.forward m (full_of [5; 2; 2 * 1; 2 * 2] (Rdefinitions.IZR 0))
      = Ok (out, tam) /\
      shape out = [5; 2; 2 * 1; 2 * 2].
Proof.
  destruct (MCRM_forward_output_shape (fun _ _ => Rdefinitions.IZR 0) "dec_blk1"
              2 5 1 2 [2]%Z (full_of [5; 2; 2 * 1; 2 * 2] (Rdefinitions.IZR 0))
              ltac:(lia) ltac:(lia) ltac:(lia) ltac:(discriminate)
              ltac:(repeat constructor) eq_refl) as (m & Hinit & Hfw & _).
  exists m. split; [exact Hinit | exact (Hfw eq_refl)].
Defined.

(** X17.  BEN_Base.__init__ (lines 475-513) raises for no parameter
    values: with the sizes it hard-codes, every shift size lies inside its
    window and every attention head count divides its width.  The
    constructed network has the layer sizes the forward pass relies on. *)
Theorem BEN_Base_init_never_raises
  {A : Type} {NA : Num A} {EA : Elementary A} (ps : params A) :
  exists m, BEN_Base.init ps = Ok m /\ BEN_Base_ok m.
Proof.
  destruct (BEN_Base_init_succeeds ps) as (m & Hinit).
  exists m. split; [exact Hinit|]. now apply (BEN_Base_init_inv ps).
Qed.

(** X18.  For a batch of square images of even side, the batch that
    BEN_Base.forward feeds to the backbone (lines 520-530) holds exactly
    five tiles per image, image after image: rows 5i .. 5i+3 are the
    top-left, top-right, bottom-left and bottom-right quadrants of image i
    at full resolution and row 5i+4 is image i of the batch rescaled
    bilinearly to half the resolution. *)
Theorem BEN_Base_tiles_layout
  {A : Type} {NA : Num A} (x : tensor A) (B Sz : nat) :
  shape x = [B; 3; 2 * Sz; 2 * Sz] -> 0 < B -> 0 < Sz ->
  exists glb_batch final_input,
    rescale_to x (1 # 2) Bilinear = Ok glb_batch /\
    shape glb_batch = [B; 3; Sz; Sz] /\
    BEN_Base.build_input x glb_batch (Z.of_nat B) = Ok (Some final_input) /\
    shape final_input = [5 * B; 3; Sz; Sz] /\
    forall i c y z, i < B -> c < 3 -> y < Sz -> z < Sz ->
      (forall hg wg, hg < 2 -> wg < 2 ->
         get final_input [5 * i + (hg * 2 + wg); c; y; z]
         = get x [i; c; hg * Sz + y; wg * Sz + z]) /\
      get final_input [5 * i + 4; c; y; z] = get glb_batch [i; c; y; z].
Proof.
  intros Hx HB HSz.
  destruct (rescale_to_half_shape x B 3 Sz Sz Bilinear Hx ltac:(lia) HSz HSz)
    as (glb & Eg & Hg & _).
  exists glb. unfold BEN_Base.build_input, range. rewrite Nat2Z.id.
  destruct (build_input_steps_get x glb B Sz Hx Hg B 0 None ltac:(lia)
              eq_refl) as (acc & E & Hacc).
  destruct acc as [f|]; [|cbn in Hacc; lia].
  exists f. split; [exact Eg|]. split; [exact Hg|]. split; [exact E|].
  cbn [Nat.add] in Hacc. destruct Hacc as (_ & Hs & _ & Hget). now split.
Qed.

Lemma BEN_Base_tiles_layout_witness :
  exists glb_batch final_input,
    rescale_to (full_of [2; 3; 2 * 1; 2 * 1] 0%Q) (1 # 2) Bilinear = Ok glb_batch /\
    shape glb_batch = [2; 3; 1; 1] /\
    BEN_Base.build_input (full_of [2; 3; 2 * 1; 2 * 1] 0%Q) glb_batch (Z.of_nat 2)
    = Ok (Some final_input) /\
    shape final_input = [5 * 2; 3; 1; 1] /\
    forall i c y z, i < 2 -> c < 3 -> y < 1 -> z < 1 ->
      (forall hg wg, hg < 2 -> wg < 2 ->
         get final_input [5 * i + (hg * 2 + wg); c; y; z]
         = get (full_of [2; 3; 2 * 1; 2 * 1] 0%Q) [i; c; hg * 1 + y; wg * 1 + z]) /\
      get final_input [5 * i + 4; c; y; z] = get glb_batch [i; c; y; z].
Proof.
  exact (BEN_Base_tiles_layout (full_of [2; 3; 2 * 1; 2 * 1] 0%Q) 2 1
           eq_refl ltac:(lia) ltac:(lia)).
Defined.

(** X19.  BEN_Base.forward on an empty batch (0, 3, H, W) with H, W >= 1
    (lines 517-532) never returns a mask.  When H >= 2 and W >= 2 the loop
    over the batch never sets final_input, and the call of the backbone on
    None raises an attribute error.  When H = 1 or W = 1 the half-size
    rescale of line 520 has an empty output and raises a runtime error
    before the backbone is called. *)
Theorem BEN_Base_forward_empty_batch
  {A : Type} {NA : Num A} {EA : Elementary A}
  (ps : params A) (x : tensor A) (H W : nat) :
  shape x = [0; 3; H; W] -> 0 < H -> 0 < W ->
  exists m,
    BEN_Base.init ps = Ok m /\
    BEN_Base.forward m x
    = if (1 <? H) && (1 <? W)
      then Raise (AttributeError "NoneType object has no attribute size")
      else Raise (RuntimeError "input and output sizes should be greater than 0").
Proof.
  intros Hs HH HW.
  destruct (BEN_Base_init_succeeds ps) as (m & Hinit).
  exists m. split; [exact Hinit|].
  apply (BEN_Base_forward_no_image m x H W); try assumption.
  now apply (BEN_Base_init_inv ps).
Qed.

Lemma BEN_Base_forward_empty_batch_witness :
  (exists m : BEN_Base.t Rdefinitions.R,
     BEN_Base.init (fun _ _ => Rdefinitions.IZR 0) = Ok m /\
     BEN_Base.forward m (full_of [0; 3; 4; 4] (Rdefinitions.IZR 0))
     = Raise (AttributeError "NoneType object has no attribute size")) /\
  (exists m : BEN_Base.t Rdefinitions.R,
     BEN_Base.init (fun _ _ => Rdefinitions.IZR 0) = Ok m /\
     BEN_Base.forward m (full_of [0; 3; 1; 4] (Rdefinitions.IZR 0))
     = Raise (RuntimeError "input and output sizes should be greater than 0")).
Proof.
  split.
  - exact (BEN_Base_forward_empty_batch (fun _ _ => Rdefinitions.IZR 0)
             (full_of [0; 3; 4; 4] (Rdefinitions.IZR 0)) 4 4 eq_refl
             ltac:(lia) ltac:(lia)).
  - exact (BEN_Base_forward_empty_batch (fun _ _ => Rdefinitions.IZR 0)
             (full_of [0; 3; 1; 4] (Rdefinitions.IZR 0)) 1 4 eq_refl
             ltac:(lia) ltac:(lia)).
Defined.

(** X20.  BEN_Base.forward (lines 517-568) over the real numbers: for every
    parameter values, every batch of B >= 1 square images whose side is a
    multiple 128*k of 128 with k >= 3 (1024 is k = 8) gives one mask per
    image at the resolution of the input, (B, 1, 128*k, 128*k), and every
    value of the mask lies in [0, 1]. *)
Theorem BEN_Base_forward_mask
  (ps : params Rdefinitions.R) (x : tensor Rdefinitions.R) (B k : nat) :
  0 < B -> 3 <= k -> shape x = [B; 3; 128 * k; 128 * k] ->
  exists m out,
    BEN_Base.init ps = Ok m /\
    BEN_Base.forward m x = Ok out /\
    shape out = [B; 1; 128 * k; 128 * k] /\ wf out /\
    Forall (fun v => Rdefinitions.Rle (Rdefinitions.IZR 0) v /\
                     Rdefinitions.Rle v (Rdefinitions.IZR 1)) (data out).
Proof.
  intros HB Hk Hs.
  destruct (BEN_Base_init_succeeds ps) as (m & Hinit).
  pose proof (BEN_Base_init_inv ps m Hinit) as Hok.
  destruct (BEN_Base_forward_shape m x B k Hok HB Hk Hs)
    as (out & E & Hso & Hwo & Hcl).
  exists m, out. repeat split; try assumption.
  apply (Hcl (fun v => Rdefinitions.Rle (Rdefinitions.IZR 0) v /\
                       Rdefinitions.Rle v (Rdefinitions.IZR 1))).
  - exact unit_interval_default.
  - exact unit_interval_sigmoid.
Qed.

Lemma BEN_Base_forward_mask_witness :
  exists (m : BEN_Base.t Rdefinitions.R) (out : tensor Rdefinitions.R),
    BEN_Base.init (fun _ _ => Rdefinitions.IZR 0) = Ok m /\
    BEN_Base.forward m (full_of [1; 3; 128 * 3; 128 * 3] (Rdefinitions.IZR 0))
    = Ok out /\
    shape out = [1; 1; 128 * 3; 128 * 3] /\ wf out /\
    Forall (fun v => Rdefinitions.Rle (Rdefinitions.IZR 0) v /\
                     Rdefinitions.Rle v (Rdefinitions.IZR 1)) (data out).
Proof.
  exact (BEN_Base_forward_mask (fun _ _ => Rdefinitions.IZR 0)
           (full_of [1; 3; 128 * 3; 128 * 3] (Rdefinitions.IZR 0)) 1 3
           ltac:(lia) ltac:(lia) eq_refl).
Defined.

(** ** More on the windows and the quadrants *)

(** X21.  window_partition (lines 52-56) cuts the feature map of every
    batch entry into its windows, batch entry after batch entry, row of
    windows after row of windows: window (b*h + i)*w + j of the result is
    the ws x ws block at window row i and window column j of entry b,
    where h and w count the windows along the height and the width. *)
Theorem window_partition_blocks
  {A : Type} {DA : Default A} (x : tensor A) (B h w C ws : nat) :
  shape x = [B; h * ws; w * ws; C] -> 0 < ws -> 0 < C ->
  exists windows,
    window_partition x (Z.of_nat ws) = Ok windows /\
    shape windows = [B * h * w; ws; ws; C] /\
    forall b i j u v c,
      b < B -> i < h -> j < w -> u < ws -> v < ws -> c < C ->
      get windows [(b * h + i) * w + j; u; v; c]
      = get x [b; i * ws + u; j * ws + v; c].
Proof.
  intros Hs Hk HC. rewrite (window_partition_spec x B h w C ws Hs Hk HC).
  eexists. split; [reflexivity|]. split; [reflexivity|].
  intros b i j u v c Hb Hi Hj Hu Hv Hc.
  unfold get at 1. cbn [shape data].
  replace (ravel [B * h * w; ws; ws; C] [(b * h + i) * w + j; u; v; c])
    with (ravel [B; h; w; ws; ws; C] [b; i; j; u; v; c])
    by (unfold numel; cbn [ravel numel fold_right]; ring).
  change (nth (ravel [B; h; w; ws; ws; C] [b; i; j; u; v; c])
              (data (tabulate [B; h; w; ws; ws; C] ?f)) dflt)
    with (get (tabulate [B; h; w; ws; ws; C] f) [b; i; j; u; v; c]).
  rewrite get_tabulate by solve_range.
  unfold get. cbn [shape data]. rewrite Hs. f_equal.
  unfold permute_index, perm6. cbn [length seq map index_of Nat.eqb nth].
  cbn [ravel]. unfold numel. cbn [fold_right]. ring.
Qed.

Lemma window_partition_blocks_witness :
  exists windows,
    window_partition (mkT [1; 1 * 2; 2 * 2; 1] [1; 2; 3; 4; 5; 6; 7; 8]%Z)
      (Z.of_nat 2) = Ok windows /\
    shape windows = [1 * 1 * 2; 2; 2; 1] /\
    forall b i j u v c,
      b < 1 -> i < 1 -> j < 2 -> u < 2 -> v < 2 -> c < 1 ->
      get windows [(b * 1 + i) * 2 + j; u; v; c]
      = get (mkT [1; 1 * 2; 2 * 2; 1] [1; 2; 3; 4; 5; 6; 7; 8]%Z)
          [b; i * 2 + u; j * 2 + v; c].
Proof.
  exact (window_partition_blocks
           (mkT [1; 1 * 2; 2 * 2; 1] [1; 2; 3; 4; 5; 6; 7; 8]%Z) 1 1 2 1 2
           eq_refl ltac:(lia) ltac:(lia)).
Defined.

(** X22.  window_reverse followed by window_partition gives back the
    windows: for a non-empty batch of B*h*w windows of size ws x ws, the
    feature map (B, h*ws, w*ws, C) that window_reverse assembles is cut by
    window_partition into the same windows, in the same order. *)
Theorem window_partition_reverse_roundtrip
  {A : Type} {DA : Default A} (windows : tensor A) (B h w C ws : nat) :
  wf windows -> shape windows = [B * h * w; ws; ws; C] ->
  0 < B -> 0 < h -> 0 < w -> 0 < C -> 0 < ws ->
  (x <- window_reverse windows (Z.of_nat ws) (Z.of_nat (h * ws))
          (Z.of_nat (w * ws)) ;;
   window_partition x (Z.of_nat ws)) = Ok windows.
Proof.
  intros Hwf Hs HB Hh Hw HC Hk.
  destruct windows as [s l]. cbn [shape] in Hs. subst s.
  rewrite window_reverse_spec by assumption. ok_step.
  rewrite (window_partition_spec (mkT [B; h * ws; w * ws; C] _) B h w C ws eq_refl
             Hk HC).
  f_equal. f_equal. cbn [data].
  transitivity (data (tabulate [B; h; w; ws; ws; C]
                        (get (mkT [B; h; w; ws; ws; C] l)))).
  - f_equal. apply tabulate_ext. intros idx Hr.
    change (mkT [B; h; ws; w; ws; C] (data ?t)) with t.
    assert (Hr' : in_range (permute_index perm6 idx) [B; h; ws; w; ws; C]).
    { pose proof (in_range_length _ _ Hr) as Hl. simpl in Hl.
      do 7 (destruct idx as [|? idx]; try discriminate).
      solve_range. }
    etransitivity; [apply (get_tabulate _ _ _ Hr')|].
    now rewrite (perm6_involutive idx [B; h; w; ws; ws; C]).
  - assert (Hwf' : wf (mkT [B; h; w; ws; ws; C] l)).
    { unfold wf in *. simpl in *. lia. }
    now rewrite (tabulate_get _ Hwf').
Qed.

Lemma window_partition_reverse_roundtrip_witness :
  (x <- window_reverse (mkT [1 * 1 * 2; 2; 2; 1] [1; 2; 5; 6; 3; 4; 7; 8]%Z)
          (Z.of_nat 2) (Z.of_nat (1 * 2)) (Z.of_nat (2 * 2)) ;;
   window_partition x (Z.of_nat 2))
  = Ok (mkT [1 * 1 * 2; 2; 2; 1] [1; 2; 5; 6; 3; 4; 7; 8]%Z).
Proof.
  exact (window_partition_reverse_roundtrip
           (mkT [1 * 1 * 2; 2; 2; 1] [1; 2; 5; 6; 3; 4; 7; 8]%Z) 1 1 2 1 2
           eq_refl eq_refl ltac:(lia) ltac:(lia) ltac:(lia) ltac:(lia)
           ltac:(lia)).
Defined.

(** X23.  patches2image followed by image2patches gives back the patches:
    reassembling 4*b quadrants into b images and splitting these again
    returns the same batch, in the same order. *)
Theorem image2patches_patches2image
  {A : Type} {DA : Default A} (p : tensor A) (b c h w : nat) :
  wf p -> shape p = [4 * b; c; h; w] ->
  (x <- patches2image p ;; image2patches x) = Ok p.
Proof.
  intros Hwf Hs.
  rewrite (patches2image_spec p b c h w Hs). ok_step.
  rewrite (image2patches_spec (mkT [b; c; 2 * h; 2 * w] _) b c h w eq_refl).
  destruct p as [s l]. cbn [shape data] in *. subst s. f_equal. f_equal.
  transitivity (data (tabulate [2; 2; b; c; h; w]
                        (get (mkT [2; 2; b; c; h; w] l)))).
  - f_equal. apply tabulate_ext. intros idx Hr.
    change (mkT [b; c; 2; h; 2; w] (data ?t)) with t.
    pose proof (in_range_length _ _ Hr) as Hl. cbn in Hl.
    do 7 (destruct idx as [|? idx]; try discriminate).
    rewrite get_tabulate.
    + reflexivity.
    + solve_range.
  - assert (Hwf' : wf (mkT [2; 2; b; c; h; w] l)).
    { unfold wf in *. cbn in *. lia. }
    now rewrite (tabulate_get _ Hwf').
Qed.

Lemma image2patches_patches2image_witness :
  (x <- patches2image (mkT [4 * 1; 1; 1; 2] [1; 2; 3; 4; 5; 6; 7; 8]%Z) ;;
   image2patches x)
  = Ok (mkT [4 * 1; 1; 1; 2] [1; 2; 3; 4; 5; 6; 7; 8]%Z).
Proof.
  exact (image2patches_patches2image
           (mkT [4 * 1; 1; 1; 2] [1; 2; 3; 4; 5; 6; 7; 8]%Z) 1 1 1 2
           eq_refl eq_refl).
Defined.

Section RealZeroTest.
Import Reals.
Local Open Scope R_scope.

Lemma Ris_zero_eq : RealScalar.Ris_zero = RealScalar.is_zero_formula.
Proof. exact (proj2_sig (RealScalar.sealed RealScalar.is_zero_formula)). Qed.

Lemma Ris_zero_diff_self (a : R) : is_zero (sub a a) = true.
Proof.
  change (RealScalar.Ris_zero (a - a) = true). rewrite Ris_zero_eq.
  unfold RealScalar.is_zero_formula.
  destruct (Req_dec_T (a - a) 0) as [_|Hn]; [reflexivity|].
  exfalso. apply Hn. ring.
Qed.

Lemma Ris_zero_diff_sym (a b : R) : is_zero (sub a b) = is_zero (sub b a).
Proof.
  change (RealScalar.Ris_zero (a - b) = RealScalar.Ris_zero (b - a)).
  rewrite Ris_zero_eq. unfold RealScalar.is_zero_formula.
  destruct (Req_dec_T (a - b) 0) as [E1|N1];
    destruct (Req_dec_T (b - a) 0) as [E2|N2]; try reflexivity; exfalso.
  - apply N2. Lra.lra.
  - apply N1. Lra.lra.
Qed.

End RealZeroTest.

(** X24.  The attention mask of a stage (lines 204-217) is symmetric and
    lets every position attend to itself: for every resolution, entry
    (i, i) of every window's table is 0 and entry (i, j) equals entry
    (j, i).  The scalars are any whose zero test accepts x - x and treats
    x - y as it treats y - x, as the real numbers do. *)
Theorem BasicLayer_attn_mask_symmetric
  {A : Type} {NA : Num A} {EA : Elementary A}
  (ps : params A) (name : string) (dim depth num_heads : Z) (ws : nat)
  (mlp_ratio : Q) (qkv_bias : bool) (qk_scale : option A) (downsample : bool)
  (m : BasicLayer.t A) (H W : nat) :
  (forall a : A, is_zero (sub a a) = true) ->
  (forall a b : A, is_zero (sub a b) = is_zero (sub b a)) ->
  BasicLayer.init ps name dim depth num_heads (Z.of_nat ws) mlp_ratio qkv_bias
    qk_scale downsample = Ok m ->
  0 < ws -> 0 < H -> 0 < W ->
  exists mask,
    BasicLayer.attn_mask m (Z.of_nat H) (Z.of_nat W) = Ok mask /\
    forall k i j,
      k < ((H + ws - 1) / ws) * ((W + ws - 1) / ws) ->
      i < ws * ws -> j < ws * ws ->
      get mask [k; i; i] = of_Q 0%Q /\
      get mask [k; i; j] = get mask [k; j; i].
Proof.
  intros Hself Hsym Hinit Hws HH HW.
  apply BasicLayer_init_inv in Hinit; [|assumption].
  destruct Hinit as (Hw & _).
  destruct (BasicLayer_attn_mask_labels m H W ws Hw Hws HH HW)
    as (mask & labels & E & _ & _ & _ & _ & Hget).
  exists mask. split; [exact E|]. intros k i j Hk Hi Hj.
  rewrite <- !padded_quotient in Hk by assumption.
  rewrite !Hget by assumption. split.
  - now rewrite Hself.
  - now rewrite Hsym.
Qed.

Lemma BasicLayer_attn_mask_symmetric_witness :
  exists (m : BasicLayer.t Rdefinitions.R) (mask : tensor Rdefinitions.R),
    BasicLayer.init (fun _ _ => Rdefinitions.IZR 0) "layers.0" 2 1 1 (Z.of_nat 2)
      4%Q true None false = Ok m /\
    BasicLayer.attn_mask m (Z.of_nat 3) (Z.of_nat 5) = Ok mask /\
    forall k i j,
      k < ((3 + 2 - 1) / 2) * ((5 + 2 - 1) / 2) -> i < 2 * 2 -> j < 2 * 2 ->
      get mask [k; i; i] = of_Q 0%Q /\
      get mask [k; i; j] = get mask [k; j; i].
Proof.
  match goal with
  | |- exists m mask, ?e = Ok m /\ _ =>
      let v := eval vm_compute in e in
      match v with
      | Ok ?m0 =>
          assert (Hinit : e = Ok m0) by (vm_cast_no_check (eq_refl (Ok m0)));
          destruct (BasicLayer_attn_mask_symmetric
                      (fun _ _ => Rdefinitions.IZR 0) "layers.0" 2 1 1 2 4%Q true
                      None false m0 3 5 Ris_zero_diff_self Ris_zero_diff_sym
                      Hinit ltac:(lia) ltac:(lia) ltac:(lia))
            as (mask & Hmask);
          exists m0, mask; split; [exact Hinit | exact Hmask]
      end
  end.
Defined.
(** ** The attention mask of a 14 x 14 stage *)

Lemma attn_mask_14_7_3 (m : BasicLayer.t Q) :
  BasicLayer.window_size m = 7%Z -> BasicLayer.shift_size m = 3%Z ->
  exists mask,
    BasicLayer.attn_mask m 14 14 = Ok mask /\
    shape mask = [4; 49; 49] /\
    forallb (fun v => Q_same v 0%Q || Q_same v (-100)%Q) (data mask) = true /\
    existsb (fun v => Q_same v 0%Q) (data mask) = true /\
    existsb (fun v => Q_same v (-100)%Q) (data mask) = true /\
    mask_agrees 14 7 3 mask = true.
Proof.
  intros Hw Hs. destruct m as [ws ss dp bl ds]. cbn in Hw, Hs. subst ws ss.
  unfold BasicLayer.attn_mask. cbn [BasicLayer.window_size BasicLayer.shift_size].
  match goal with
  | |- exists mask, ?e = Ok mask /\ _ =>
      let v := eval vm_compute in e in
      match v with
      | Ok ?t => exists t; split; [vm_cast_no_check (eq_refl (Ok t))|]
      end
  end.
  vm_compute. repeat split; reflexivity.
Qed.

(** C3. On a 14 x 14 grid with window size 7 and shift size 3 the attention
    mask of a stage has one 49 x 49 table per window, holds no other value
    than 0 and -100 (and both occur), and its entry for positions [i] and
    [j] of window [w] is 0 when the two positions carry the same label of
    the 3 x 3 shift-boundary regions and -100 when their labels differ. *)
Theorem attn_mask_14_window_7_shift_3 (m : BasicLayer.t Q) :
  BasicLayer.window_size m = 7%Z -> BasicLayer.shift_size m = 3%Z ->
  exists mask,
    BasicLayer.attn_mask m 14 14 = Ok mask /\
    shape mask = [4; 49; 49] /\
    (forall v, In v (data mask) -> v = 0%Q \/ v = (-100)%Q) /\
    In 0%Q (data mask) /\ In (-100)%Q (data mask) /\
    forall w i j, w < 4 -> i < 49 -> j < 49 ->
      (spec_label 14 7 3 w i = spec_label 14 7 3 w j ->
       get mask [w; i; j] = 0%Q) /\
      (spec_label 14 7 3 w i <> spec_label 14 7 3 w j ->
       get mask [w; i; j] = (-100)%Q).
Proof.
  intros Hw Hs.
  destruct (attn_mask_14_7_3 m Hw Hs) as (mask & E & Hsh & Hall & H0 & H100 & Hag).
  exists mask. split; [exact E|]. split; [exact Hsh|].
  split; [|split; [|split]].
  - intros v Hv. rewrite forallb_forall in Hall. specialize (Hall v Hv).
    apply orb_prop in Hall. destruct Hall as [Hq|Hq]; apply Q_same_eq in Hq; auto.
  - apply existsb_exists in H0. destruct H0 as (v & Hv & Hq).
    apply Q_same_eq in Hq. now subst v.
  - apply existsb_exists in H100. destruct H100 as (v & Hv & Hq).
    apply Q_same_eq in Hq. now subst v.
  - intros w i j Hlw Hi Hj.
    rewrite (mask_agrees_spec 14 7 3 mask 4 49 Hsh Hag w i j Hlw Hi Hj).
    unfold spec_mask_entry. split; intros Hl.
    + apply Z.eqb_eq in Hl. now rewrite Hl.
    + apply Z.eqb_neq in Hl. now rewrite Hl.
Qed.

Lemma attn_mask_14_window_7_shift_3_witness :
  exists mask,
    BasicLayer.attn_mask
      {| BasicLayer.window_size := 7%Z; BasicLayer.shift_size := 3%Z;
         BasicLayer.depth := 0%Z; BasicLayer.blocks := [];
         BasicLayer.downsample := None |} 14 14 = Ok mask /\
    shape mask = [4; 49; 49] /\
    get mask [1; 0; 3] = 0%Q /\ get mask [1; 0; 4] = (-100)%Q.
Proof.
  destruct (attn_mask_14_window_7_shift_3
              {| BasicLayer.window_size := 7%Z; BasicLayer.shift_size := 3%Z;
                 BasicLayer.depth := 0%Z; BasicLayer.blocks := [];
                 BasicLayer.downsample := None |} eq_refl eq_refl)
    as (mask & E & Hsh & _ & _ & _ & Hent).
  exists mask. split; [exact E|]. split; [exact Hsh|].
  split.
  - apply (Hent 1 0 3); [lia|lia|lia|reflexivity].
  - apply (Hent 1 0 4); [lia|lia|lia|discriminate].
Defined.
